(* ===== verification/_CoqProject ===== *)
-Q . S2P
Prelude.v
Defs.v
WireBase.v
WireHello.v
WireAuth.v
WireMux.v
Crypto.v
EventQueue.v
OutBuf.v
Channels.v
Session.v
Auth.v
Handshake.v
Mux.v
Engine.v
Api.v
Clients.v
Invariant.v
Calm.v
EngineLemmas.v
Safety.v
EventTypes.v
Constants.v
Fresh.v
Order.v
Tables.v
Transport.v
Link.v
Agreement.v
Meeting.v
Harness.v
Toy.v
Demo.v
PropWire.v
PropSession.v
PropMeeting.v
PropHarness.v
PropChannel.v
PropFindings.v
