(* ===== verification/Prelude.v ===== *)
(** * libsodchan: a model of the library and its correctness

    libsodchan is a passive protocol library: the host creates a context, feeds
    it the bytes of its peer ([sodchan_feed_input]), drains the bytes it wants
    sent ([sodchan_get_output]), reads events ([sodchan_next_event]) and calls
    the channel functions.  A session is a clear HELLO exchange in which the
    server signs the transcript, an exchange of secretstream headers, the
    authentication of the device by a second signature and the host's
    decision, and then multiplexed channels with windows in encrypted records.

    ** The files, and the code they model

    - [Prelude]: C's integers, strings and bounds-checked memory; errors as
      [res]; the record-update notation; tactics and lemmas of all files.
    - [Defs]: constants and types of [include/sodchan.h],
      [src/sodchan_internal.h] and [src/sodchan_wire.h].
    - [WireBase], [WireHello], [WireAuth], [WireMux]: [src/sodchan_wire.c]:
      frames, the HELLO body and the two signed transcripts, the AUTH PDUs and
      the channel PDUs.  Beside each encoder and decoder stands the layout it
      writes or accepts as a concatenation of fields ([frame_bytes],
      [hello_bytes], [data_bytes] and the like).
    - [Crypto]: [src/sodchan_crypto.c].  libsodium is the class [Sodium] (its
      functions) with the class [SodiumSpec] (documented laws: lengths, a
      signature made verifies, the two ends of a key exchange agree, a record
      pushed is pulled by a state in step), and the class [SodiumWorks] (its
      functions succeed on keys it made), which only the theorems that two
      honest ends meet assume.  The theorems on authentication and on the order
      of the states assume that libsodium always makes a key pair ([kx_total],
      in [Safety]): without it a reset can leave the old state, as
      [PropFindings] shows.  No law states unforgeability:
      "the peer signed" is always "a signature that verifies".
    - [EventQueue], [OutBuf], [Channels]: the parts of [struct sodchan_ctx]
      with operations of their own in [src/sodchan.c]: the event ring, the
      output buffer, the channel table with the allowlist.
    - [Session]: the rest of [struct sodchan_ctx], errors, events and the
      encrypted output [ss_send_pdu].
    - [Auth], [Handshake], [Mux], [Engine], [Api]: the rest of
      [src/sodchan.c]: the authentication PDUs, the clear handshake, the
      channel PDUs one definition per case of the switch, the input loop, and
      the host's calls, creation and destruction included, gathered in the type
      [call] with the step [api].
    - [Clients]: the programs of the repository that call the library, in a
      process with one generator and one heap: the fuzz harness
      ([fuzz/fuzz_sodchan.c], its standalone [main] included, with what stdio
      answers about a path as a value of [file]) and the two examples
      ([examples/]).

    A C function on the context is a function on [session] (or [ctx], which
    adds the input buffer) that returns its code and the new state; its body
    follows the source statement by statement, early returns included.  A
    pointer that may be NULL is an option; a read or write outside a buffer is
    the value [Oob], which no decoder gives for any input ([PropWire]); the results
    of [malloc] are arguments.  The generator of libsodium belongs to the process:
    a context carries its state ([rng]), and [call_at] is a call made when
    something else has drawn from it in between.

    ** Invariants and theorems

    - [Invariant]: the ranges and lengths of every field ([session_wf],
      [ctx_wf]) and their preservation; [reachable], the contexts a host gets
      by creating one and calling it with any arguments and any input.
    - [Calm], [EngineLemmas], [Safety]: what each operation leaves alone; the
      input loop (termination, segmentation); the security invariant [safe] of
      the handshake and the authentication.
    - [EventTypes]: what a context stores fits the structures the host reads.
      [Constants]: what a context was created with and never changes.
    - [Fresh]: the relation [alike] of sessions that differ at most in memory a
      cleared flag guards; every operation is [Proper] for it, so that a reset
      context behaves as a new one.
    - [Order]: the states only move forward.  [Tables]: the channel ids.
    - [Transport]: each channel call joined to the handler of the peer.
      [Link]: a channel between two ends as a step relation over any
      interleaving of calls and deliveries, and its invariant.  Its hosts grant
      no credit past a window of 2^32 - 1, where the code wraps.
    - [Agreement]: the two halves of the handshake joined.  [Meeting]: rounds of
      relayed output, from creation to READY on both sides.
    - [Harness]: what holds of every run of the programs of [Clients].
    - [Toy], [Demo]: an instance of [Sodium] that satisfies the laws, and a
      session between a client and a server over it, which the witnesses use.
    - [PropSession]: authentication and its order, bounds, types, the loop,
      reset.  [PropMeeting]: the handshake and a channel between two ends.
      [PropChannel]: channels call by call, windows, refusals, ids.
      [PropWire]: exact wire formats, transcripts, ring, buffer, table,
      allowlist, creation.  [PropHarness]: the fuzz harness and the examples.
      [PropFindings]: the edges where the code does less than a host may expect.

    An event is delivered when the ring has room for it; a full ring drops it
    without a trace.  The theorems that speak of a delivered event say both
    ([channel_data_delivered], [channel_open_delivered],
    [channel_data_window_enforced]); [channel_faithful] proves that nothing is
    lost while the receiver's ring has room, and that what is not lost is in
    order whatever the rings.

    ** Bounds and fuel

    [process_loop] runs on fuel [S (length in_buf)]; a turn that goes on
    consumes at least five bytes, so the fuel suffices, and any larger amount
    gives the same context ([process_input_terminates]).  [name_scan] has the
    length of the list plus one; every turn consumes a character.  Integers are [Z]
    with [u8], [u16], [u32] and [size_t] where C wraps; [size_t] has any width
    of at least 32 bits ([SizeT]).  The loops of the harness run on [output_fuel] (the bytes waiting, plus one), [events_fuel]
    (three times the events waiting, plus one: an answer queues two at most,
    which are not answered) and the length of the input plus one;
    [fuzz_loops_end] shows that they are enough.

    ** What is not modelled

    The contents of freed memory (that [sodchan_destroy] wipes the context and
    not the ring is in its definition); the padding and unused tail of event
    structures and of C strings behind the NUL; what the examples and the
    fuzz target write to stderr; the tests and the build.  The cryptographic strength of
    libsodium is not stated: theorems speak of the checks the code makes. *)

From Stdlib Require Import ZArith Lia ZifyBool String.
From stdpp Require Export base list numbers.
From coqutil Require Export Byte.

#[export] Set Default Goal Selector "!".
Local Open Scope Z_scope.

(** ** Bytes, sizes and machine integers *)

(** A C object of type [uint8_t[n]] or [char[n]] is a list of [n] bytes. *)
Abbreviation bytes := (list byte).

(** Sizes are mathematical integers, so that they are compared the way C
    compares [size_t] values; [len] is the size of an object in bytes. *)
Abbreviation len l := (Z.of_nat (List.length l)).

#[export] Instance byte_eq_decision : EqDecision byte := Byte.byte_eq_dec.

Definition u8 (z : Z) : Z := z mod 256.
Definition u16 (z : Z) : Z := z mod 65536.
Definition u32 (z : Z) : Z := z mod 4294967296.

(** The conversion of an unsigned 32-bit value to [int] on the compilers the
    project supports (two's complement). *)
Definition to_int32 (z : Z) : Z :=
  if u32 z <? 2147483648 then u32 z else u32 z - 4294967296.

(** [size_t] is 32 bits wide on the armv7 field target and 64 bits wide on
    the hosts.  Every theorem is proved for any width of at least 32 bits. *)
Class SizeT := {
  SIZE_BITS : Z;
  SIZE_BITS_ge : (32 <= SIZE_BITS)%Z
}.

Definition size_t `{SizeT} (z : Z) : Z := z mod 2 ^ SIZE_BITS.

Definition size_t_32 : SizeT := {| SIZE_BITS := 32; SIZE_BITS_ge := Z.le_refl 32 |}.

Definition size_t_64 : SizeT.
Proof. refine {| SIZE_BITS := 64 |}. abstract lia. Defined.

(** A string literal of the source as bytes, without the terminating NUL. *)
Definition lit (s : string) : bytes := String.list_byte_of_string s.
Arguments lit s%_string_scope.

Definition zeros (n : nat) : bytes := replicate n Byte.x00.

(** ** Fallible code

    A C function with a negative-code result and output parameters returns
    [Ok] of its outputs or [Fail] of the code.  [Oob] is a read or a write
    outside the object it addresses: the theorems show it is never reached. *)
Inductive res (A : Type) : Type :=
  | Ok (a : A)
  | Fail (rc : Z)
  | Oob.
Arguments Ok {A} a.
Arguments Fail {A} rc.
Arguments Oob {A}.

Lemma Ok_inj {A} (a b : A) : Ok a = Ok b -> a = b.
Proof. congruence. Qed.

Definition res_bind {A B} (m : res A) (f : A -> res B) : res B :=
  match m with
  | Ok a => f a
  | Fail rc => Fail rc
  | Oob => Oob
  end.

Declare Scope sodchan_scope.
Delimit Scope sodchan_scope with sodchan.
Notation "'let*' x := m 'in' k" := (res_bind m (fun x => k))
  (at level 10, x name, m at level 100, k at level 200,
   format "'[v' 'let*'  x  :=  m  'in' '/' k ']'") : sodchan_scope.
Notation "'let*' ' p := m 'in' k" := (res_bind m (fun p => k))
  (at level 10, p strict pattern, m at level 100, k at level 200,
   format "'[v' 'let*'  ' p  :=  m  'in' '/' k ']'") : sodchan_scope.
Local Open Scope sodchan_scope.

(** ** Field updates

    [c <| f := v |>] is [c] with its field [f] set to [v]. *)

Class Field {R T : Type} (f : R -> T) : Type := with_field : T -> R -> R.
Arguments with_field {R T} f {Field} v c /.
Notation "c <| f := v |>" := (with_field f v c)
  (at level 1, left associativity, f at level 10, v at level 200,
   format "c  <| f  :=  v |>") : sodchan_scope.

(** The setter of [f], from the record's constructor applied to its fields. *)
Ltac field_of eta f :=
  let e := eval cbv beta delta [eta] in eta in
  lazymatch eval pattern f in e with
  | ?F _ => let s := eval cbv beta in (fun v c => F (fun _ => v) c) in exact s
  end.

(** ** Memory accesses *)

(** [rd buf off n] reads the [n] bytes of [buf] from [off] on. *)
Definition rd (buf : bytes) (off n : Z) : res bytes :=
  if (0 <=? off) && (0 <=? n) && (off + n <=? len buf)
  then Ok (take (Z.to_nat n) (drop (Z.to_nat off) buf))
  else Oob.

(** [rd8 buf off] is [buf[off]] as an unsigned value. *)
Definition rd8 (buf : bytes) (off : Z) : res Z :=
  if 0 <=? off then
    match buf !! Z.to_nat off with
    | Some b => Ok (byte.unsigned b)
    | None => Oob
    end
  else Oob.

(** [wr buf off bs] stores [bs] at [off] of [buf]. *)
Definition wr (buf : bytes) (off : Z) (bs : bytes) : res bytes :=
  if (0 <=? off) && (off + len bs <=? len buf)
  then Ok (take (Z.to_nat off) buf ++ bs ++ drop (Z.to_nat off + length bs) buf)
  else Oob.

(** A pointer that is not NULL. *)
Definition isSome {A} (p : option A) : bool :=
  match p with Some _ => true | None => false end.

(** [memcpy(buf + off, src, n)] *)
Definition memcpy (buf : bytes) (off : Z) (src : bytes) (n : Z) : res bytes :=
  let* s := rd src 0 n in wr buf off s.

(** The characters of a C string: what precedes the first NUL. *)
Fixpoint cstr (s : bytes) : bytes :=
  match s with
  | [] => []
  | b :: s' => if decide (b = Byte.x00) then [] else b :: cstr s'
  end.

Definition strlen (s : bytes) : Z := len (cstr s).

(** [snprintf(dst, cap, "%s", s)]: the characters that fit before the NUL. *)
Definition snprintf_s (cap : Z) (s : bytes) : bytes :=
  take (Z.to_nat (cap - 1)) (cstr s).

(** ** Machine integers: facts *)

Lemma size_t_small `{SizeT} (z : Z) : 0 <= z < 4294967296 -> size_t z = z.
Proof.
  intros Hz. unfold size_t. apply Z.mod_small.
  assert (2 ^ 32 <= 2 ^ SIZE_BITS) by (apply Z.pow_le_mono_r; [lia | apply SIZE_BITS_ge]).
  lia.
Qed.

Lemma size_t_range `{SizeT} (z : Z) : 0 <= size_t z < 2 ^ SIZE_BITS.
Proof.
  unfold size_t. apply Z.mod_pos_bound. apply Z.pow_pos_nonneg; [lia |].
  pose proof SIZE_BITS_ge. lia.
Qed.

Lemma size_t_max_ge `{SizeT} : 4294967296 <= 2 ^ SIZE_BITS.
Proof.
  change 4294967296 with (2 ^ 32).
  apply Z.pow_le_mono_r; [lia | apply SIZE_BITS_ge].
Qed.

Lemma size_t_le `{SizeT} (z : Z) : 0 <= z -> size_t z <= z.
Proof.
  intros. unfold size_t. apply Z.mod_le; [done |]. pose proof size_t_max_ge. lia.
Qed.

(** A sum that wrapped would be below its first term: a length already known
    to reach [k] cannot equal a wrapped [k + n]. *)
Lemma size_t_no_wrap `{SizeT} (k n l : Z) :
  0 <= k <= l -> 0 <= n < 4294967296 -> l = size_t (k + n) -> l = k + n.
Proof.
  intros Hk Hn Hl. pose proof size_t_max_ge. unfold size_t in Hl.
  destruct (Z.lt_ge_cases (k + n) (2 ^ SIZE_BITS)) as [Hlt | Hge].
  - rewrite Z.mod_small in Hl; lia.
  - exfalso. pose proof (Z.mod_le (k + n - 2 ^ SIZE_BITS) (2 ^ SIZE_BITS)) as Hm.
    replace (k + n) with (k + n - 2 ^ SIZE_BITS + 1 * 2 ^ SIZE_BITS) in Hl by lia.
    rewrite Z_mod_plus_full in Hl. lia.
Qed.

Lemma u32_range (z : Z) : 0 <= u32 z < 4294967296.
Proof. unfold u32. apply Z.mod_pos_bound. lia. Qed.

Lemma u32_small (z : Z) : 0 <= z < 4294967296 -> u32 z = z.
Proof. intros. unfold u32. by apply Z.mod_small. Qed.

Lemma u32_idemp (z : Z) : u32 (u32 z) = u32 z.
Proof. apply u32_small, u32_range. Qed.

(** ** Bytes: facts *)

Lemma of_Z_unsigned (b : byte) : byte.of_Z (byte.unsigned b) = b.
Proof. apply byte.of_Z_unsigned. Qed.

Lemma unsigned_of_Z (z : Z) : byte.unsigned (byte.of_Z z) = z mod 256.
Proof. rewrite byte.unsigned_of_Z. done. Qed.

Lemma unsigned_range (b : byte) : 0 <= byte.unsigned b < 256.
Proof. apply byte.unsigned_range. Qed.

Lemma of_Z_mod (z : Z) : byte.of_Z (z mod 256) = byte.of_Z z.
Proof.
  apply byte.unsigned_inj. rewrite !unsigned_of_Z. by rewrite Z.mod_mod.
Qed.

Lemma unsigned_of_Z_small (z : Z) : 0 <= z < 256 -> byte.unsigned (byte.of_Z z) = z.
Proof. intros. rewrite unsigned_of_Z. by apply Z.mod_small. Qed.

(** ** Memory: facts *)

Lemma rd_ok (buf x : bytes) (off n : Z) :
  rd buf off n = Ok x <->
  exists a c, buf = a ++ x ++ c /\ off = len a /\ n = len x.
Proof.
  unfold rd. split.
  - destruct (_ && _) eqn:E; [|done]. intros [= <-].
    apply andb_true_iff in E as [[E1 E2]%andb_true_iff E3].
    exists (take (Z.to_nat off) buf), (drop (Z.to_nat n) (drop (Z.to_nat off) buf)).
    rewrite take_drop, take_drop. split; [done |].
    rewrite !length_take, length_drop. lia.
  - intros (a & c & -> & -> & ->).
    rewrite !length_app, !Nat2Z.id.
    replace (_ && _) with true by (symmetry; rewrite !andb_true_iff; lia).
    by rewrite drop_app_length, take_app_length.
Qed.

Lemma rd_len (buf x : bytes) (off n : Z) : rd buf off n = Ok x -> len x = n.
Proof. intros (a & c & -> & -> & ->)%rd_ok. done. Qed.

Lemma rd_in (buf : bytes) (off n : Z) :
  0 <= off -> 0 <= n -> off + n <= len buf -> exists x, rd buf off n = Ok x.
Proof.
  intros. unfold rd. replace (_ && _) with true by (symmetry; rewrite !andb_true_iff; lia).
  eauto.
Qed.

Lemma rd_fail (buf : bytes) (off n rc : Z) : rd buf off n <> Fail rc.
Proof. unfold rd. by destruct (_ && _). Qed.

Lemma rd_app (a x c : bytes) (off n : Z) :
  off = len a -> n = len x -> rd (a ++ x ++ c) off n = Ok x.
Proof. intros. apply rd_ok. eauto. Qed.

Lemma rd_app_end (a x : bytes) (off n : Z) :
  off = len a -> n = len x -> rd (a ++ x) off n = Ok x.
Proof. intros. apply rd_ok. exists a, []. by rewrite app_nil_r. Qed.

Lemma rd_all (buf : bytes) : rd buf 0 (len buf) = Ok buf.
Proof. apply rd_ok. exists [], []. by rewrite app_nil_r. Qed.

Lemma rd_all_eq (x : bytes) (n : Z) : n = len x -> rd x 0 n = Ok x.
Proof. intros ->. apply rd_all. Qed.

Lemma rd_whole (buf x : bytes) (n : Z) : rd buf 0 n = Ok x -> n = len buf -> buf = x.
Proof. intros H ->. rewrite rd_all in H. congruence. Qed.

(** Adjacent reads join into one. *)
Lemma rd_cat (buf x y : bytes) (off n m : Z) :
  rd buf off n = Ok x -> rd buf (off + n) m = Ok y -> rd buf off (n + m) = Ok (x ++ y).
Proof.
  intros (a & c & -> & -> & ->)%rd_ok (a' & c' & E & Ha & ->)%rd_ok.
  apply rd_ok. exists a, c'.
  rewrite app_assoc in E. apply app_inj_1 in E as [<- ->]; [|rewrite length_app; lia].
  rewrite <- !app_assoc. rewrite length_app. split_and!; [done | done | lia].
Qed.

Lemma rd8_ok (buf : bytes) (off z : Z) :
  rd8 buf off = Ok z <-> exists b, rd buf off 1 = Ok [b] /\ z = byte.unsigned b.
Proof.
  unfold rd8. split.
  - destruct (0 <=? off) eqn:E; [|done]. destruct (buf !! _) as [b|] eqn:Hb; [|done].
    intros [= <-]. exists b. split; [|done]. apply rd_ok.
    exists (take (Z.to_nat off) buf), (drop (S (Z.to_nat off)) buf).
    pose proof (lookup_lt_Some _ _ _ Hb).
    split_and!; [| rewrite length_take; lia | done].
    rewrite <- (take_drop_middle _ _ _ Hb) at 1. done.
  - intros (b & (a & c & -> & -> & _)%rd_ok & ->).
    replace (0 <=? len a) with true by lia.
    rewrite Nat2Z.id, lookup_app_r, Nat.sub_diag; done.
Qed.

Lemma rd8_in (buf : bytes) (off : Z) :
  0 <= off < len buf -> exists b, rd8 buf off = Ok (byte.unsigned b) /\ rd buf off 1 = Ok [b].
Proof.
  intros. destruct (rd_in buf off 1) as [x Hx]; [lia.. |].
  pose proof (rd_len _ _ _ _ Hx). destruct x as [|b [|]]; simpl in *; [lia | | lia].
  exists b. split; [|done]. apply rd8_ok. eauto.
Qed.

Lemma rd8_app (a c : bytes) (b : byte) (off : Z) :
  off = len a -> rd8 (a ++ b :: c) off = Ok (byte.unsigned b).
Proof.
  intros. apply rd8_ok. exists b. split; [|done].
  by apply (rd_app a [b] c).
Qed.

Lemma wr_app (a b bs c : bytes) (off : Z) :
  off = len a -> length bs = length b -> wr (a ++ b ++ c) off bs = Ok (a ++ bs ++ c).
Proof.
  intros -> Hl. unfold wr. rewrite !length_app.
  replace (_ && _) with true by (symmetry; rewrite !andb_true_iff; lia).
  rewrite Nat2Z.id, take_app_length, drop_app.
  rewrite drop_ge by lia. replace (length a + length bs - length a)%nat with (length bs) by lia.
  by rewrite Hl, drop_app_length.
Qed.

(** Storing after what has already been written extends it. *)
Lemma wr_seq (a r bs : bytes) (off : Z) :
  off = len a -> len bs <= len r ->
  wr (a ++ r) off bs = Ok ((a ++ bs) ++ drop (length bs) r).
Proof.
  intros Hoff Hl. rewrite <- (take_drop (length bs) r) at 1.
  rewrite wr_app; [by rewrite app_assoc | done |]. rewrite length_take. lia.
Qed.

Lemma memcpy_seq (a r src bs : bytes) (off n : Z) :
  off = len a -> rd src 0 n = Ok bs -> len bs <= len r ->
  memcpy (a ++ r) off src n = Ok ((a ++ bs) ++ drop (length bs) r).
Proof. intros. unfold memcpy. rewrite H0. simpl. by apply wr_seq. Qed.

(** ** C strings: facts *)

Lemma cstr_prefix (s : bytes) : exists t, s = cstr s ++ t.
Proof.
  induction s as [|b s [t IH]]; [by exists [] |]. simpl. case_decide.
  - by exists (b :: s).
  - exists t. simpl. by rewrite <- IH.
Qed.

Lemma strlen_le (s : bytes) : 0 <= strlen s <= len s.
Proof.
  unfold strlen. destruct (cstr_prefix s) as [t Ht].
  apply (f_equal length) in Ht. rewrite length_app in Ht. lia.
Qed.

Lemma cstr_no_nul (s : bytes) : Byte.x00 ∉ cstr s.
Proof.
  induction s as [|b s IH]; simpl; [by apply not_elem_of_nil |].
  case_decide; [by apply not_elem_of_nil |]. by apply not_elem_of_cons.
Qed.

Lemma cstr_id (s : bytes) : Byte.x00 ∉ s -> cstr s = s.
Proof.
  induction s as [|b s IH]; [done |]. intros [Hb Hs]%not_elem_of_cons. simpl.
  rewrite decide_False by done. by rewrite IH.
Qed.

Lemma cstr_idemp (s : bytes) : cstr (cstr s) = cstr s.
Proof. apply cstr_id, cstr_no_nul. Qed.

(** A buffer that holds [s], a NUL, and anything after it. *)
Lemma cstr_app_nul (s t : bytes) : cstr (s ++ Byte.x00 :: t) = cstr s.
Proof.
  induction s as [|b s IH]; simpl; [done |].
  case_decide; [done |]. by rewrite IH.
Qed.

(** ** Automation *)

Create HintDb sodchan.
Create HintDb consts.

(** Case analysis on the conditions of the model. *)
Ltac bool_cases :=
  repeat match goal with
  | H : context [if ?c then _ else _] |- _ =>
      match type of c with bool => destruct c eqn:? end
  | |- context [if ?c then _ else _] =>
      match type of c with bool => destruct c eqn:? end
  end.

(** Turn boolean comparisons into propositions that [lia] and the hypotheses
    use. *)
Ltac bprop :=
  repeat match goal with
  | H : (_ && _) = true |- _ => apply andb_true_iff in H; destruct H
  | H : (_ || _) = false |- _ => apply orb_false_iff in H; destruct H
  | H : negb _ = true |- _ => apply negb_true_iff in H
  | H : negb _ = false |- _ => apply negb_false_iff in H
  end.

(** Split a conjunction and discharge the arithmetic and the trivial parts. *)
Ltac splits := split_and!; try solve [lia | done].

(** [res_inv H]: the run in [H] is successful, so each of its steps is. *)
Ltac res_inv H :=
  lazymatch type of H with
  | res_bind ?m _ = Ok _ =>
      let E := fresh "E" in
      let a := fresh "a" in
      destruct m as [a | |] eqn:E; cbn [res_bind] in H; [| discriminate H | discriminate H];
      res_inv H
  | (let '(_, _) := ?p in _) = Ok _ => destruct p; res_inv H
  | (if ?c then _ else _) = Ok _ =>
      let C := fresh "C" in
      destruct c eqn:C; [try discriminate H | try discriminate H]; try res_inv H
  | _ => idtac
  end.
