(* ===== verification/Defs.v ===== *)
(** The constants and enumerations of [include/sodchan.h],
    [src/sodchan_wire.h] and [src/sodchan_internal.h].  The constants keep the
    source's names; sizes and codes are integers.  The tactic [consts] opens
    them in front of [lia]. *)

From Stdlib Require Import ZArith Lia String.
From S2P Require Import Prelude.
Local Open Scope Z_scope.

(** ** include/sodchan.h *)

Definition SODCHAN_AUTH_REASON_UNSPEC : Z := 0.
Definition SODCHAN_AUTH_REASON_BAD_SIG : Z := 1.
Definition SODCHAN_AUTH_REASON_POLICY : Z := 4.

Definition SODCHAN_MAX_CHANNELS : nat := 16.
Definition SODCHAN_PUBKEY_BYTES : Z := 32.
Definition SODCHAN_SECKEY_BYTES : Z := 64.
Definition SODCHAN_SEED_BYTES : Z := 32.
Definition SODCHAN_SEED_BLOB_LEN : Z := 37.
Definition SODCHAN_CHANNEL_NAME_MAX : Z := 63.
Definition SODCHAN_DATA_MAX : Z := 64 * 1024.
Definition SODCHAN_ERROR_MAX : Z := 256.
Definition SODCHAN_USER_MAX : Z := 128.
Definition SODCHAN_DEVICE_ID_MAX : Z := 128.
Definition SODCHAN_FP_SHA256_MAX : Z := 96.
Definition SODCHAN_CLAIMS_MAX : Z := 1024.

Definition SODCHAN_DOM_SS_C2S : bytes := lit "sodchan-ss-c2s-v1".
Definition SODCHAN_DOM_SS_S2C : bytes := lit "sodchan-ss-s2c-v1".

Definition SODCHAN_OK : Z := 0.
Definition SODCHAN_ERR_PARAM : Z := -1.
Definition SODCHAN_ERR_STATE : Z := -2.
Definition SODCHAN_ERR_NOMEM : Z := -3.
Definition SODCHAN_ERR_CRYPTO : Z := -4.
Definition SODCHAN_ERR_PROTOCOL : Z := -5.
Definition SODCHAN_ERR_WINDOW : Z := -6.
Definition SODCHAN_ERR_FULL : Z := -7.
Definition SODCHAN_ERR_NOTFOUND : Z := -8.
Definition SODCHAN_ERR_REJECTED : Z := -9.

(** [sodchan_role_t], with its numbers. *)
Inductive sodchan_role_t : Type :=
  | SODCHAN_ROLE_SERVER
  | SODCHAN_ROLE_CLIENT.

Definition role_code (r : sodchan_role_t) : Z :=
  match r with SODCHAN_ROLE_SERVER => 0 | SODCHAN_ROLE_CLIENT => 1 end.

(** [sodchan_state_t] *)
Inductive sodchan_state_t : Type :=
  | SODCHAN_STATE_IDLE
  | SODCHAN_STATE_HELLO
  | SODCHAN_STATE_SS_HEADER
  | SODCHAN_STATE_AUTH
  | SODCHAN_STATE_READY
  | SODCHAN_STATE_DRAINING
  | SODCHAN_STATE_CLOSED
  | SODCHAN_STATE_ERROR.

(** The values of the enumerators. *)
Definition state_code (s : sodchan_state_t) : Z :=
  match s with
  | SODCHAN_STATE_IDLE => 0
  | SODCHAN_STATE_HELLO => 1
  | SODCHAN_STATE_SS_HEADER => 2
  | SODCHAN_STATE_AUTH => 3
  | SODCHAN_STATE_READY => 4
  | SODCHAN_STATE_DRAINING => 5
  | SODCHAN_STATE_CLOSED => 6
  | SODCHAN_STATE_ERROR => 7
  end.

(** [sodchan_event_t]: the tag with the fields of its union member.  A
    [char] array is the string it holds. *)
Inductive sodchan_event_t : Type :=
  | EVENT_NONE
  | EVENT_HELLO_RECEIVED (peer_id_pk : bytes)
  | EVENT_KX_COMPLETE
  | EVENT_AUTH_DEVICE (peer_id_pk username device_id fingerprint : bytes) (sig_ok : bool)
  | EVENT_AUTHENTICATED
  | EVENT_AUTH_FAILED (code : Z) (message : bytes)
  | EVENT_CHANNEL_OPEN (channel_id peer_channel_id : Z) (name : bytes) (init_window max_packet : Z)
  | EVENT_CHANNEL_OPENED (channel_id peer_channel_id : Z) (name : bytes) (init_window max_packet : Z)
  | EVENT_CHANNEL_OPEN_FAIL (channel_id : Z) (name : bytes)
  | EVENT_CHANNEL_DATA (channel_id : Z) (data : bytes)
  | EVENT_CHANNEL_WINDOW (channel_id bytes_added window_avail : Z)
  | EVENT_CHANNEL_EOF (channel_id : Z)
  | EVENT_CHANNEL_CLOSE (channel_id : Z)
  | EVENT_PING
  | EVENT_DISCONNECTED (code : Z) (message : bytes)
  | EVENT_ERROR (code : Z) (message : bytes).

(** [sodchan_config_t]; [None] is a NULL pointer.  [max_auth_attempts_reserved]
    is read nowhere. *)
Record sodchan_config_t : Type := {
  cfg_event_queue_size : Z;
  cfg_max_record_size : Z;
  cfg_max_channel_data : Z;
  cfg_max_channels : Z;
  cfg_initial_window : Z;
  cfg_max_packet : Z;
  cfg_client_id_pk : option bytes;
  cfg_client_id_sk : option bytes;
  cfg_server_id_pk : option bytes;
  cfg_server_id_sk : option bytes;
  cfg_accept_any_server_pk : bool;
  cfg_allowed_channels : option bytes;
  cfg_client_username : option bytes;
  cfg_client_device_id : option bytes;
  cfg_max_auth_attempts_reserved : Z;
  cfg_lab_mode : bool
}.

(** ** src/sodchan_wire.h *)

Definition SODCHAN_PROTO_VERSION : Z := 1.
Definition SODCHAN_SUITE_V1 : Z := 1.
Definition SODCHAN_MAGIC : Z := 21315. (* 0x5343 *)
Definition SODCHAN_MAX_CLEAR_FRAME : Z := 512.
Definition SODCHAN_HELLO_BODY_LEN : Z := 140.
Definition SODCHAN_DOM_SERVER_HELLO : bytes := lit "sodchan-v1-server-hello".
Definition SODCHAN_DOM_CLIENT_AUTH : bytes := lit "sodchan-v1-client-auth".
Definition SODCHAN_DOM_SERVER_HELLO_LEN : Z := 23.
Definition SODCHAN_DOM_CLIENT_AUTH_LEN : Z := 22.
Definition SODCHAN_T_HELLO_LEN : Z := 123.

Definition SODCHAN_PDU_CHANNEL_OPEN : Z := 1.
Definition SODCHAN_PDU_CHANNEL_OPEN_CONFIRM : Z := 2.
Definition SODCHAN_PDU_CHANNEL_OPEN_FAIL : Z := 3.
Definition SODCHAN_PDU_CHANNEL_WINDOW : Z := 4.
Definition SODCHAN_PDU_CHANNEL_DATA : Z := 5.
Definition SODCHAN_PDU_CHANNEL_EOF : Z := 6.
Definition SODCHAN_PDU_CHANNEL_CLOSE : Z := 7.
Definition SODCHAN_PDU_PING : Z := 8.
Definition SODCHAN_PDU_PONG : Z := 9.
Definition SODCHAN_PDU_DISCONNECT : Z := 10.
Definition SODCHAN_PDU_AUTH_DEVICE : Z := 20.
Definition SODCHAN_PDU_AUTH_OK : Z := 21.
Definition SODCHAN_PDU_AUTH_FAIL : Z := 22.

Definition SODCHAN_AUTH_FAIL_UNSPEC : Z := 0.
Definition SODCHAN_REASON_ADMIN_PROHIBITED : Z := 1.
Definition SODCHAN_REASON_RESOURCE_SHORTAGE : Z := 4.

(** ** src/sodchan_internal.h *)

Definition SODCHAN_DEFAULT_EVENT_QUEUE : Z := 16.
Definition SODCHAN_DEFAULT_MAX_RECORD : Z := 256 * 1024.
Definition SODCHAN_DEFAULT_MAX_CHANNEL : Z := 256 * 1024.
Definition SODCHAN_DEFAULT_MAX_CHANNELS : Z := 16.
Definition SODCHAN_DEFAULT_INIT_WINDOW : Z := 256 * 1024.
Definition SODCHAN_DEFAULT_MAX_PACKET : Z := 64 * 1024.
Definition SODCHAN_CFG_STORE_SIZE : Z := 2048.
Definition SODCHAN_OUT_BUF_SIZE : Z := 128 * 1024.
Definition SODCHAN_IN_BUF_SIZE : Z := 128 * 1024.

Definition SODCHAN_DEFAULT_ALLOWED_CHANNELS : bytes :=
  lit "edge-telemetry,edge-pg,edge-ai,edge-control,edge-usp,shell,sftp,exec," ++
  lit "tun,tap,mobile-control,mobile-sync,mobile-audit,mobile-notify".

(** [sodchan_ch_state_t] *)
Inductive sodchan_ch_state_t : Type :=
  | SODCHAN_CH_UNUSED
  | SODCHAN_CH_OPENING
  | SODCHAN_CH_PENDING
  | SODCHAN_CH_OPEN
  | SODCHAN_CH_CLOSED.

(** [sodchan_hs_t] *)
Inductive sodchan_hs_t : Type :=
  | SODCHAN_HS_START
  | SODCHAN_HS_WAIT_PEER_HELLO
  | SODCHAN_HS_WAIT_PEER_SS
  | SODCHAN_HS_DONE.

(** The sizes of libsodium's objects, from its documented headers (the two
    used on the wire are repeated in sodchan_wire.h, lines 26 and 27). *)
Definition SODCHAN_SS_HEADER_BYTES : Z := 24.
Definition SODCHAN_SS_ABYTES : Z := 17.

(** ** Decidable equality *)

#[export] Instance role_eq_decision : EqDecision sodchan_role_t.
Proof. solve_decision. Defined.
#[export] Instance state_eq_decision : EqDecision sodchan_state_t.
Proof. solve_decision. Defined.
#[export] Instance ch_state_eq_decision : EqDecision sodchan_ch_state_t.
Proof. solve_decision. Defined.
#[export] Instance hs_eq_decision : EqDecision sodchan_hs_t.
Proof. solve_decision. Defined.
#[export] Instance event_eq_decision : EqDecision sodchan_event_t.
Proof. solve_decision. Defined.

#[export] Hint Unfold
  SODCHAN_PUBKEY_BYTES SODCHAN_SECKEY_BYTES SODCHAN_SEED_BYTES
  SODCHAN_SEED_BLOB_LEN SODCHAN_CHANNEL_NAME_MAX SODCHAN_DATA_MAX
  SODCHAN_ERROR_MAX SODCHAN_USER_MAX SODCHAN_DEVICE_ID_MAX
  SODCHAN_FP_SHA256_MAX SODCHAN_CLAIMS_MAX SODCHAN_OK SODCHAN_ERR_PARAM
  SODCHAN_ERR_STATE SODCHAN_ERR_NOMEM SODCHAN_ERR_CRYPTO SODCHAN_ERR_PROTOCOL
  SODCHAN_ERR_WINDOW SODCHAN_ERR_FULL SODCHAN_ERR_NOTFOUND
  SODCHAN_ERR_REJECTED SODCHAN_PROTO_VERSION SODCHAN_SUITE_V1 SODCHAN_MAGIC
  SODCHAN_MAX_CLEAR_FRAME SODCHAN_HELLO_BODY_LEN SODCHAN_DOM_SERVER_HELLO_LEN
  SODCHAN_DOM_CLIENT_AUTH_LEN SODCHAN_T_HELLO_LEN SODCHAN_PDU_CHANNEL_OPEN
  SODCHAN_PDU_CHANNEL_OPEN_CONFIRM SODCHAN_PDU_CHANNEL_OPEN_FAIL
  SODCHAN_PDU_CHANNEL_WINDOW SODCHAN_PDU_CHANNEL_DATA SODCHAN_PDU_CHANNEL_EOF
  SODCHAN_PDU_CHANNEL_CLOSE SODCHAN_PDU_PING SODCHAN_PDU_PONG
  SODCHAN_PDU_DISCONNECT SODCHAN_PDU_AUTH_DEVICE SODCHAN_PDU_AUTH_OK
  SODCHAN_PDU_AUTH_FAIL SODCHAN_AUTH_FAIL_UNSPEC
  SODCHAN_REASON_ADMIN_PROHIBITED SODCHAN_REASON_RESOURCE_SHORTAGE
  SODCHAN_DEFAULT_EVENT_QUEUE SODCHAN_DEFAULT_MAX_RECORD
  SODCHAN_DEFAULT_MAX_CHANNEL SODCHAN_DEFAULT_MAX_CHANNELS
  SODCHAN_DEFAULT_INIT_WINDOW SODCHAN_DEFAULT_MAX_PACKET
  SODCHAN_CFG_STORE_SIZE SODCHAN_OUT_BUF_SIZE SODCHAN_IN_BUF_SIZE
  SODCHAN_SS_HEADER_BYTES SODCHAN_SS_ABYTES SODCHAN_AUTH_REASON_UNSPEC
  SODCHAN_AUTH_REASON_BAD_SIG SODCHAN_AUTH_REASON_POLICY
  : consts.

(** Open the constants everywhere. *)
Ltac consts := repeat autounfold with consts in *.
