(* ===== verification/WireBase.v ===== *)
(** Big-endian integers and the length-prefixed frame of
    [src/sodchan_wire.c], lines 10 to 93.

    [be16] and [be32] are the bytes of an integer on the wire; [put_*] stores
    them at an offset of an object and [get_*] reads them back with the
    source's shifts. *)

From Stdlib Require Import ZArith Lia ZifyBool.
From S2P Require Import Prelude Defs.
Local Open Scope Z_scope.
Local Open Scope sodchan_scope.

(** ** Integers *)

Definition be16 (v : Z) : bytes := [byte.of_Z (Z.shiftr v 8); byte.of_Z v].

Definition be32 (v : Z) : bytes :=
  [byte.of_Z (Z.shiftr v 24); byte.of_Z (Z.shiftr v 16);
   byte.of_Z (Z.shiftr v 8); byte.of_Z v].

Definition sodchan_wire_put_u16 (p : bytes) (off v : Z) : res bytes :=
  wr p off [byte.of_Z (Z.shiftr v 8); byte.of_Z v].

Definition sodchan_wire_put_u32 (p : bytes) (off v : Z) : res bytes :=
  wr p off [byte.of_Z (Z.shiftr v 24); byte.of_Z (Z.shiftr v 16);
            byte.of_Z (Z.shiftr v 8); byte.of_Z v].

(** [out\[off\] = (uint8_t)v] *)
Definition put_u8 (p : bytes) (off v : Z) : res bytes := wr p off [byte.of_Z v].

Definition sodchan_wire_get_u16 (p : bytes) (off : Z) : res Z :=
  let* b0 := rd8 p off in
  let* b1 := rd8 p (off + 1) in
  Ok (u16 (Z.lor (u16 (Z.shiftl b0 8)) b1)).

Definition sodchan_wire_get_u32 (p : bytes) (off : Z) : res Z :=
  let* b0 := rd8 p off in
  let* b1 := rd8 p (off + 1) in
  let* b2 := rd8 p (off + 2) in
  let* b3 := rd8 p (off + 3) in
  Ok (Z.lor (Z.lor (Z.lor (u32 (Z.shiftl b0 24)) (u32 (Z.shiftl b1 16)))
                   (u32 (Z.shiftl b2 8))) b3).

(** *** Facts *)

Lemma length_be16 (v : Z) : length (be16 v) = 2%nat.
Proof. done. Qed.
Lemma length_be32 (v : Z) : length (be32 v) = 4%nat.
Proof. done. Qed.

(** Or-ing a small value into shifted-in zeros is addition. *)
Lemma lor_shiftl_add (a b k : Z) :
  0 <= k -> 0 <= b < 2 ^ k -> Z.lor (Z.shiftl a k) b = a * 2 ^ k + b.
Proof.
  intros Hk Hb. rewrite <- Z.add_nocarry_lor.
  - by rewrite Z.shiftl_mul_pow2.
  - apply Z.bits_inj'. intros n Hn. rewrite Z.land_spec, Z.bits_0.
    destruct (Z.lt_ge_cases n k).
    + rewrite Z.shiftl_spec_low by done. done.
    + rewrite <- (Z.mod_small b (2 ^ k)) by done. rewrite Z.mod_pow2_bits_high by lia.
      apply andb_false_r.
Qed.

Lemma get_u16_value (b0 b1 : byte) :
  u16 (Z.lor (u16 (Z.shiftl (byte.unsigned b0) 8)) (byte.unsigned b1)) =
  byte.unsigned b0 * 256 + byte.unsigned b1.
Proof.
  pose proof (unsigned_range b0). pose proof (unsigned_range b1). unfold u16.
  rewrite (Z.mod_small (Z.shiftl _ _)) by (rewrite Z.shiftl_mul_pow2; lia).
  rewrite lor_shiftl_add by lia. rewrite Z.mod_small; lia.
Qed.

Lemma get_u32_value (b0 b1 b2 b3 : byte) :
  Z.lor (Z.lor (Z.lor (u32 (Z.shiftl (byte.unsigned b0) 24))
                      (u32 (Z.shiftl (byte.unsigned b1) 16)))
               (u32 (Z.shiftl (byte.unsigned b2) 8))) (byte.unsigned b3) =
  ((byte.unsigned b0 * 256 + byte.unsigned b1) * 256 + byte.unsigned b2) * 256
    + byte.unsigned b3.
Proof.
  pose proof (unsigned_range b0). pose proof (unsigned_range b1).
  pose proof (unsigned_range b2). pose proof (unsigned_range b3).
  rewrite !u32_small by (rewrite Z.shiftl_mul_pow2; lia).
  rewrite (lor_shiftl_add _ (Z.shiftl (byte.unsigned b1) 16) 24)
    by (rewrite ?Z.shiftl_mul_pow2; lia).
  replace (byte.unsigned b0 * 2 ^ 24 + Z.shiftl (byte.unsigned b1) 16)
    with (Z.shiftl (byte.unsigned b0 * 256 + byte.unsigned b1) 16)
    by (rewrite !Z.shiftl_mul_pow2; lia).
  rewrite (lor_shiftl_add _ (Z.shiftl (byte.unsigned b2) 8) 16)
    by (rewrite ?Z.shiftl_mul_pow2; lia).
  replace ((byte.unsigned b0 * 256 + byte.unsigned b1) * 2 ^ 16
           + Z.shiftl (byte.unsigned b2) 8)
    with (Z.shiftl ((byte.unsigned b0 * 256 + byte.unsigned b1) * 256
                    + byte.unsigned b2) 8)
    by (rewrite !Z.shiftl_mul_pow2; lia).
  rewrite lor_shiftl_add by lia. lia.
Qed.

Lemma be16_combine (b0 b1 : byte) :
  be16 (byte.unsigned b0 * 256 + byte.unsigned b1) = [b0; b1].
Proof.
  pose proof (unsigned_range b0). pose proof (unsigned_range b1).
  unfold be16. rewrite Z.shiftr_div_pow2 by lia.
  repeat f_equal; apply byte.unsigned_inj; rewrite unsigned_of_Z;
    change (2 ^ 8) with 256; Z.to_euclidean_division_equations; lia.
Qed.

Lemma be32_combine (b0 b1 b2 b3 : byte) :
  be32 (((byte.unsigned b0 * 256 + byte.unsigned b1) * 256 + byte.unsigned b2) * 256
        + byte.unsigned b3) = [b0; b1; b2; b3].
Proof.
  pose proof (unsigned_range b0). pose proof (unsigned_range b1).
  pose proof (unsigned_range b2). pose proof (unsigned_range b3).
  unfold be32. rewrite !Z.shiftr_div_pow2 by lia.
  repeat f_equal; apply byte.unsigned_inj; rewrite unsigned_of_Z;
    change (2 ^ 24) with 16777216; change (2 ^ 16) with 65536; change (2 ^ 8) with 256;
    Z.to_euclidean_division_equations; lia.
Qed.

Lemma u16_bytes (v : Z) :
  0 <= v < 65536 ->
  exists b0 b1 : byte, v = byte.unsigned b0 * 256 + byte.unsigned b1.
Proof.
  intros. exists (byte.of_Z (v / 256)), (byte.of_Z v). rewrite !unsigned_of_Z.
  Z.to_euclidean_division_equations; lia.
Qed.

Lemma u32_bytes (v : Z) :
  0 <= v < 4294967296 ->
  exists b0 b1 b2 b3 : byte,
    v = ((byte.unsigned b0 * 256 + byte.unsigned b1) * 256 + byte.unsigned b2) * 256
        + byte.unsigned b3.
Proof.
  intros. exists (byte.of_Z (v / 16777216)), (byte.of_Z (v / 65536)),
    (byte.of_Z (v / 256)), (byte.of_Z v). rewrite !unsigned_of_Z.
  Z.to_euclidean_division_equations; lia.
Qed.

(** Reading a big-endian integer succeeds exactly on its bytes. *)
Lemma get_u16_ok (p : bytes) (off v : Z) :
  sodchan_wire_get_u16 p off = Ok v <-> 0 <= v < 65536 /\ rd p off 2 = Ok (be16 v).
Proof.
  split.
  - unfold sodchan_wire_get_u16. intros H. res_inv H.
    apply rd8_ok in E as (b0 & R0 & ->). apply rd8_ok in E0 as (b1 & R1 & ->).
    rewrite get_u16_value in H. injection H as <-. rewrite be16_combine.
    pose proof (unsigned_range b0). pose proof (unsigned_range b1).
    split; [lia |]. by apply (rd_cat _ [b0] [b1] off 1 1).
  - intros [Hv (a & c & -> & -> & _)%rd_ok].
    destruct (u16_bytes v Hv) as (b0 & b1 & ->). rewrite be16_combine.
    unfold sodchan_wire_get_u16. simpl ([b0; b1] ++ c).
    rewrite rd8_app by done. cbn [res_bind].
    rewrite (cons_middle b0 a), app_assoc, rd8_app by (rewrite length_app; simpl; lia).
    cbn [res_bind]. by rewrite get_u16_value.
Qed.

Lemma get_u32_ok (p : bytes) (off v : Z) :
  sodchan_wire_get_u32 p off = Ok v <->
  0 <= v < 4294967296 /\ rd p off 4 = Ok (be32 v).
Proof.
  split.
  - unfold sodchan_wire_get_u32. intros H. res_inv H.
    apply rd8_ok in E as (b0 & R0 & ->). apply rd8_ok in E0 as (b1 & R1 & ->).
    apply rd8_ok in E1 as (b2 & R2 & ->). apply rd8_ok in E2 as (b3 & R3 & ->).
    rewrite get_u32_value in H. injection H as <-. rewrite be32_combine.
    pose proof (unsigned_range b0). pose proof (unsigned_range b1).
    pose proof (unsigned_range b2). pose proof (unsigned_range b3).
    split; [lia |]. apply (rd_cat _ [b0; b1; b2] [b3] off 3 1); [|done].
    apply (rd_cat _ [b0; b1] [b2] off 2 1); [|done].
    by apply (rd_cat _ [b0] [b1] off 1 1).
  - intros [Hv (a & c & -> & -> & _)%rd_ok].
    destruct (u32_bytes v Hv) as (b0 & b1 & b2 & b3 & ->). rewrite be32_combine.
    unfold sodchan_wire_get_u32.
    rewrite (rd8_app a (b1 :: b2 :: b3 :: c) b0) by done. cbn [res_bind].
    change ([b0; b1; b2; b3] ++ c) with ([b0] ++ b1 :: [b2; b3] ++ c).
    rewrite app_assoc, rd8_app by (rewrite length_app; simpl; lia). cbn [res_bind].
    rewrite <- app_assoc. change ([b0] ++ b1 :: [b2; b3] ++ c) with ([b0; b1] ++ b2 :: [b3] ++ c).
    rewrite app_assoc, rd8_app by (rewrite length_app; simpl; lia). cbn [res_bind].
    rewrite <- app_assoc. change ([b0; b1] ++ b2 :: [b3] ++ c) with ([b0; b1; b2] ++ b3 :: c).
    rewrite app_assoc, rd8_app by (rewrite length_app; simpl; lia). cbn [res_bind].
    by rewrite get_u32_value.
Qed.

Lemma get_u16_in (p : bytes) (off : Z) :
  0 <= off -> off + 2 <= len p -> exists v, sodchan_wire_get_u16 p off = Ok v.
Proof.
  intros. unfold sodchan_wire_get_u16.
  destruct (rd8_in p off) as (b0 & -> & _); [lia |].
  destruct (rd8_in p (off + 1)) as (b1 & -> & _); [lia |]. cbn [res_bind]. eauto.
Qed.

Lemma get_u32_in (p : bytes) (off : Z) :
  0 <= off -> off + 4 <= len p -> exists v, sodchan_wire_get_u32 p off = Ok v.
Proof.
  intros. unfold sodchan_wire_get_u32.
  destruct (rd8_in p off) as (b0 & -> & _); [lia |].
  destruct (rd8_in p (off + 1)) as (b1 & -> & _); [lia |].
  destruct (rd8_in p (off + 2)) as (b2 & -> & _); [lia |].
  destruct (rd8_in p (off + 3)) as (b3 & -> & _); [lia |]. cbn [res_bind]. eauto.
Qed.

Lemma get_u32_app (a c : bytes) (off v : Z) :
  off = len a -> 0 <= v < 4294967296 -> sodchan_wire_get_u32 (a ++ be32 v ++ c) off = Ok v.
Proof. intros. apply get_u32_ok. split; [done |]. by apply rd_app. Qed.

Lemma get_u16_app (a c : bytes) (off v : Z) :
  off = len a -> 0 <= v < 65536 -> sodchan_wire_get_u16 (a ++ be16 v ++ c) off = Ok v.
Proof. intros. apply get_u16_ok. split; [done |]. by apply rd_app. Qed.

Lemma put_u16_seq (a r : bytes) (off v : Z) :
  off = len a -> 2 <= len r ->
  sodchan_wire_put_u16 (a ++ r) off v = Ok ((a ++ be16 v) ++ drop 2 r).
Proof. intros. by apply wr_seq. Qed.

Lemma put_u32_seq (a r : bytes) (off v : Z) :
  off = len a -> 4 <= len r ->
  sodchan_wire_put_u32 (a ++ r) off v = Ok ((a ++ be32 v) ++ drop 4 r).
Proof. intros. by apply wr_seq. Qed.

Lemma put_u8_seq (a r : bytes) (off v : Z) :
  off = len a -> 1 <= len r ->
  put_u8 (a ++ r) off v = Ok ((a ++ [byte.of_Z v]) ++ drop 1 r).
Proof. intros. by apply wr_seq. Qed.

(** Lengths of the pieces of a message, then arithmetic. *)
Ltac solve_len :=
  consts; rewrite ?length_app, ?length_drop, ?length_be16, ?length_be32, ?app_nil_l;
  cbn [length]; lia.

(** [encode_step] performs the next store of an encoder whose output so far is
    [a ++ r], where [a] is what has been written. *)
Ltac encode_step :=
  first
    [ rewrite put_u32_seq by solve_len
    | rewrite put_u16_seq by solve_len
    | rewrite put_u8_seq by solve_len
    | erewrite memcpy_seq; [| solve_len | eassumption | solve_len]
    | erewrite memcpy_seq; [| solve_len | apply rd_all | solve_len] ];
  cbn [res_bind].

(** Reads behind a known prefix, and at the head of what is left. *)
Lemma rd_skip (a b : bytes) (off n : Z) :
  len a <= off -> rd (a ++ b) off n = rd b (off - len a) n.
Proof.
  intros Ho. unfold rd. rewrite length_app.
  replace (0 <=? off - len a) with true by lia. replace (0 <=? off) with true by lia.
  replace (off + n <=? Z.of_nat (length a + length b)) with (off - len a + n <=? len b) by lia.
  case_match; [|done]. do 2 f_equal.
  rewrite drop_app_ge by lia. f_equal. lia.
Qed.

Lemma rd8_skip (a b : bytes) (off : Z) :
  len a <= off -> rd8 (a ++ b) off = rd8 b (off - len a).
Proof.
  intros Ho. unfold rd8.
  replace (0 <=? off - len a) with true by lia. replace (0 <=? off) with true by lia.
  rewrite lookup_app_r by lia. replace (Z.to_nat off - length a)%nat with (Z.to_nat (off - len a)) by lia.
  done.
Qed.

Lemma get_u32_skip (a b : bytes) (off : Z) :
  len a <= off -> sodchan_wire_get_u32 (a ++ b) off = sodchan_wire_get_u32 b (off - len a).
Proof.
  intros Ho. unfold sodchan_wire_get_u32. rewrite !rd8_skip by lia.
  by rewrite !(Z.add_sub_swap off _ (len a)).
Qed.

Lemma get_u16_skip (a b : bytes) (off : Z) :
  len a <= off -> sodchan_wire_get_u16 (a ++ b) off = sodchan_wire_get_u16 b (off - len a).
Proof.
  intros Ho. unfold sodchan_wire_get_u16. rewrite !rd8_skip by lia.
  by rewrite !(Z.add_sub_swap off _ (len a)).
Qed.

Lemma rd_head (x c : bytes) (off n : Z) :
  off = 0 -> n = len x -> rd (x ++ c) off n = Ok x.
Proof. intros. by apply (rd_app []). Qed.

Lemma rd_head_end (x : bytes) (off n : Z) : off = 0 -> n = len x -> rd x off n = Ok x.
Proof. intros -> ->. apply rd_all. Qed.

Lemma rd8_head (b : byte) (c : bytes) (off : Z) :
  off = 0 -> rd8 ([b] ++ c) off = Ok (byte.unsigned b).
Proof. intros. by apply (rd8_app []). Qed.

Lemma get_u32_head (c : bytes) (off v : Z) :
  off = 0 -> 0 <= v < 4294967296 -> sodchan_wire_get_u32 (be32 v ++ c) off = Ok v.
Proof. intros. by apply (get_u32_app []). Qed.

Lemma get_u32_head_end (off v : Z) :
  off = 0 -> 0 <= v < 4294967296 -> sodchan_wire_get_u32 (be32 v) off = Ok v.
Proof. intros. rewrite <- (app_nil_r (be32 v)). by apply get_u32_head. Qed.

Lemma get_u16_head (c : bytes) (off v : Z) :
  off = 0 -> 0 <= v < 65536 -> sodchan_wire_get_u16 (be16 v ++ c) off = Ok v.
Proof. intros. by apply (get_u16_app []). Qed.

(** [decode_step] performs the next read of a decoder whose input is an
    explicit concatenation. *)
Ltac read_input :=
  lazymatch goal with
  | |- sodchan_wire_get_u32 _ _ = _ =>
      repeat rewrite get_u32_skip by solve_len;
      first [rewrite get_u32_head by solve_len | rewrite get_u32_head_end by solve_len]
  | |- sodchan_wire_get_u16 _ _ = _ =>
      repeat rewrite get_u16_skip by solve_len; rewrite get_u16_head by solve_len
  | |- rd8 _ _ = _ =>
      repeat rewrite rd8_skip by solve_len; rewrite rd8_head by solve_len
  | |- rd _ _ _ = _ =>
      repeat rewrite rd_skip by solve_len;
      first [rewrite rd_head by solve_len | rewrite rd_head_end by solve_len]
  end; reflexivity.

Ltac decode_step :=
  lazymatch goal with
  | |- res_bind ?m _ = _ => eassert (m = Ok _) as ->; [read_input | cbn [res_bind]]
  end.

(** [safe_step] discharges the next read of a decoder from the bounds in the
    context. *)
Ltac safe_step :=
  cbn [res_bind];
  lazymatch goal with
  | |- res_bind (rd8 ?p ?o) _ <> _ =>
      let b := fresh "b" in let R := fresh "R" in
      destruct (rd8_in p o) as (b & -> & R); [solve_len |];
      pose proof (unsigned_range b)
  | |- res_bind (sodchan_wire_get_u32 ?p ?o) _ <> _ =>
      let v := fresh "v" in let R := fresh "R" in
      destruct (get_u32_in p o) as [v R]; [solve_len | solve_len |]; rewrite R;
      apply get_u32_ok in R as [? R]
  | |- res_bind (sodchan_wire_get_u16 ?p ?o) _ <> _ =>
      let v := fresh "v" in let R := fresh "R" in
      destruct (get_u16_in p o) as [v R]; [solve_len | solve_len |]; rewrite R;
      apply get_u16_ok in R as [? R]
  | |- res_bind (rd ?p ?o ?n) _ <> _ =>
      let x := fresh "x" in let R := fresh "R" in
      destruct (rd_in p o n) as [x R]; [solve_len | solve_len | solve_len |]; rewrite R
  | |- (if ?c then _ else _) <> _ => destruct c eqn:?; bprop
  end; cbn [res_bind]; try discriminate.

(** ** Pointers

    [None] is NULL.  Every encoder and decoder answers SODCHAN_ERR_PARAM for
    a NULL object; an output parameter for a scalar is a result of the model,
    so its NULL check has no counterpart. *)

Definition nonnull {A} (p : option A) : res A :=
  match p with
  | Some a => Ok a
  | None => Fail SODCHAN_ERR_PARAM
  end.

(** ** Frames *)

Section Frames.
Context `{SizeT}.

Definition sodchan_wire_frame_encode_max (body : option bytes) (max_body : Z)
    (out : option bytes) : res (bytes * Z) :=
  let* body := nonnull body in
  let* out := nonnull out in
  let body_len := len body in
  let out_cap := len out in
  if body_len =? 0 then Fail SODCHAN_ERR_PARAM else
  if max_body <? body_len then Fail SODCHAN_ERR_PROTOCOL else
  if out_cap <? size_t (4 + body_len) then Fail SODCHAN_ERR_FULL else
  let* out := sodchan_wire_put_u32 out 0 (u32 body_len) in
  let* out := memcpy out 4 body body_len in
  Ok (out, size_t (4 + body_len)).

Definition sodchan_wire_frame_encode (body out : option bytes) : res (bytes * Z) :=
  sodchan_wire_frame_encode_max body SODCHAN_MAX_CLEAR_FRAME out.

(** The result is [*consumed] and the bytes [*body] points at. *)
Definition sodchan_wire_frame_parse_max (data : option bytes) (max_body : Z)
    : res (Z * bytes) :=
  let* data := nonnull data in
  if len data <? 4 then Fail SODCHAN_ERR_FULL else
  let* L := sodchan_wire_get_u32 data 0 in
  if (L =? 0) || (max_body <? L) then Fail SODCHAN_ERR_PROTOCOL else
  if len data <? size_t (4 + L) then Fail SODCHAN_ERR_FULL else
  let* body := rd data 4 L in
  Ok (size_t (4 + L), body).

Definition sodchan_wire_frame_parse (data : option bytes) : res (Z * bytes) :=
  sodchan_wire_frame_parse_max data SODCHAN_MAX_CLEAR_FRAME.

(** *** Specification *)

(** The wire form of a frame. *)
Definition frame_bytes (body : bytes) : bytes := be32 (len body) ++ body.

(** The largest body whose frame length still fits a 32-bit [size_t]. *)
Definition frame_limit : Z := 4294967291.

Lemma length_frame_bytes (body : bytes) : len (frame_bytes body) = 4 + len body.
Proof. unfold frame_bytes. rewrite length_app, length_be32. lia. Qed.

Lemma frame_encode_max_ok (body out : bytes) (max_body : Z) :
  0 < len body <= max_body -> max_body <= frame_limit ->
  4 + len body <= len out ->
  sodchan_wire_frame_encode_max (Some body) max_body (Some out) =
  Ok (frame_bytes body ++ drop (length (frame_bytes body)) out, 4 + len body).
Proof.
  unfold frame_limit. intros Hb Hm Ho. unfold sodchan_wire_frame_encode_max. cbn [nonnull res_bind].
  rewrite size_t_small by lia.
  replace (len body =? 0) with false by lia.
  replace (max_body <? len body) with false by lia.
  replace (len out <? 4 + len body) with false by lia.
  rewrite u32_small by lia. rewrite <- (app_nil_l out) at 1. repeat encode_step.
  unfold frame_bytes. by rewrite drop_drop, app_nil_l, length_app.
Qed.

Lemma frame_encode_max_error (body out : bytes) (max_body : Z) :
  max_body <= frame_limit ->
  sodchan_wire_frame_encode_max (Some body) max_body (Some out) =
    (if len body =? 0 then Fail SODCHAN_ERR_PARAM else
     if max_body <? len body then Fail SODCHAN_ERR_PROTOCOL else
     if len out <? 4 + len body then Fail SODCHAN_ERR_FULL else
     Ok (frame_bytes body ++ drop (length (frame_bytes body)) out, 4 + len body)).
Proof.
  intros Hm.
  destruct (len body =? 0) eqn:E0; [unfold sodchan_wire_frame_encode_max; cbn [nonnull res_bind]; by rewrite E0 |].
  destruct (max_body <? len body) eqn:E1;
    [unfold sodchan_wire_frame_encode_max; cbn [nonnull res_bind]; by rewrite E0, E1 |].
  destruct (len out <? 4 + len body) eqn:E2.
  - unfold sodchan_wire_frame_encode_max; cbn [nonnull res_bind].
    unfold frame_limit in *. rewrite size_t_small by lia. by rewrite E0, E1, E2.
  - by apply frame_encode_max_ok; [lia | | lia].
Qed.

(** What the parser reads from the length field. *)
Lemma frame_parse_max_cases (data : bytes) (max_body : Z) :
  max_body <= frame_limit ->
  (len data < 4 /\
   sodchan_wire_frame_parse_max (Some data) max_body = Fail SODCHAN_ERR_FULL) \/
  exists L t, 0 <= L < 4294967296 /\ data = be32 L ++ t /\
    sodchan_wire_frame_parse_max (Some data) max_body =
      (if (L =? 0) || (max_body <? L) then Fail SODCHAN_ERR_PROTOCOL else
       if len t <? L then Fail SODCHAN_ERR_FULL else
       Ok (4 + L, take (Z.to_nat L) t)).
Proof.
  unfold frame_limit. intros Hm. unfold sodchan_wire_frame_parse_max. cbn [nonnull res_bind].
  destruct (len data <? 4) eqn:Hl; [left; split; [lia | done] | right].
  destruct (get_u32_in data 0) as [L HL]; [lia | lia |]. rewrite HL.
  apply get_u32_ok in HL as [HLr (a & c & -> & Ha & _)%rd_ok].
  destruct a; [| simpl in Ha; lia]. cbn [res_bind app].
  exists L, c. split; [done |]. split; [done |].
  destruct (_ || _) eqn:HP; [done |].
  apply orb_false_iff in HP as [HP1 HP2].
  rewrite size_t_small by lia. rewrite length_app, length_be32.
  replace (Z.of_nat (4 + length c) <? 4 + L) with (len c <? L) by lia.
  destruct (len c <? L) eqn:Hc; [done |].
  rewrite <- (take_drop (Z.to_nat L) c) at 1.
  rewrite rd_app; [done | done | rewrite length_take; lia].
Qed.

(** The parser accepts exactly a frame at the head of its input. *)
Lemma frame_parse_max_ok (data body : bytes) (max_body n : Z) :
  max_body <= frame_limit ->
  sodchan_wire_frame_parse_max (Some data) max_body = Ok (n, body) <->
  0 < len body <= max_body /\ n = 4 + len body /\ exists t, data = frame_bytes body ++ t.
Proof.
  intros Hm.
  destruct (frame_parse_max_cases data max_body Hm) as [[Hl ->] | (L & t & HL & -> & ->)].
  - split; [done |]. intros (Hb & -> & t & ->).
    rewrite length_app, Nat2Z.inj_add, length_frame_bytes in Hl. lia.
  - split.
    + destruct (_ || _) eqn:HP; [done |]. apply orb_false_iff in HP as [HP1 HP2].
      destruct (len t <? L) eqn:Ht; [done |]. intros [= <- <-].
      assert (len (take (Z.to_nat L) t) = L) as HLt by (rewrite length_take; lia).
      split_and!; [lia | lia | lia |]. exists (drop (Z.to_nat L) t).
      unfold frame_bytes. rewrite HLt, <- app_assoc, take_drop. done.
    + unfold frame_limit in Hm. intros (Hb & -> & t' & E).
      unfold frame_bytes in E. rewrite <- app_assoc in E.
      apply app_inj_1 in E as [EL ->]; [|done].
      assert (L = len body) as ->.
      { assert (sodchan_wire_get_u32 (be32 L) 0 = Ok L) as HLL
          by (apply get_u32_ok; split; [done | apply (rd_all (be32 L))]).
        rewrite EL in HLL. apply get_u32_ok in HLL as [_ HLL].
        assert (sodchan_wire_get_u32 (be32 (len body)) 0 = Ok (len body)) as HB
          by (apply get_u32_ok; split; [lia | apply (rd_all (be32 (len body)))]).
        rewrite <- EL in HB.
        assert (sodchan_wire_get_u32 (be32 L) 0 = Ok L) as HLL'
          by (apply get_u32_ok; split; [done | apply (rd_all (be32 L))]).
        congruence. }
      replace (_ || _) with false by lia.
      rewrite length_app. replace (Z.of_nat _ <? _) with false by lia.
      by rewrite Nat2Z.id, take_app_length.
Qed.

(** Every access is inside the input. *)
Lemma frame_parse_max_safe (data : option bytes) (max_body : Z) :
  max_body <= frame_limit -> sodchan_wire_frame_parse_max data max_body <> Oob.
Proof.
  intros Hm. destruct data as [data|]; [|done].
  destruct (frame_parse_max_cases data max_body Hm) as [[Hl ->] | (L & t & HL & -> & ->)];
    [done |]. by repeat case_match.
Qed.

Lemma frame_parse_full_lt (data : bytes) (max_body : Z) :
  max_body <= frame_limit -> 0 <= max_body ->
  sodchan_wire_frame_parse_max (Some data) max_body = Fail SODCHAN_ERR_FULL ->
  len data < 4 + max_body.
Proof.
  intros Hm Hp.
  destruct (frame_parse_max_cases data max_body Hm) as [[Hl ->] | (L & t & HL & -> & ->)].
  - lia.
  - destruct (_ || _) eqn:HP; [done |]. apply orb_false_iff in HP as [HP1 HP2].
    destruct (len t <? L) eqn:Ht; [|done]. intros _.
    rewrite length_app, length_be32. lia.
Qed.

(** More input never changes an answer other than "need more". *)
Lemma frame_parse_max_mono (data more : bytes) (max_body : Z) :
  max_body <= frame_limit ->
  sodchan_wire_frame_parse_max (Some data) max_body <> Fail SODCHAN_ERR_FULL ->
  sodchan_wire_frame_parse_max (Some (data ++ more)) max_body =
  sodchan_wire_frame_parse_max (Some data) max_body.
Proof.
  intros Hm.
  destruct (frame_parse_max_cases data max_body Hm) as [[Hl ->] | (L & t & HL & -> & ->)];
    [done |].
  destruct (_ || _) eqn:HP.
  - intros _. unfold sodchan_wire_frame_parse_max. cbn [nonnull res_bind].
    rewrite <- app_assoc, !length_app, length_be32.
    replace (_ <? 4) with false by lia.
    change (be32 L ++ t ++ more) with ([] ++ be32 L ++ (t ++ more)).
    rewrite get_u32_app by done. cbn [res_bind]. by rewrite HP.
  - destruct (len t <? L) eqn:Ht; [done |]. intros _.
    assert (len (take (Z.to_nat L) t) = L) as HLt by (rewrite length_take; lia).
    apply frame_parse_max_ok; [done |]. split_and!; [lia | lia | lia |].
    exists (drop (Z.to_nat L) t ++ more). unfold frame_bytes.
    rewrite HLt, <- !app_assoc. by rewrite (app_assoc (take _ t)), take_drop.
Qed.
End Frames.
