(* ===== verification/WireHello.v ===== *)
(** The HELLO body and the two signed transcripts of [src/sodchan_wire.c],
    lines 95 to 233. *)

From Stdlib Require Import ZArith Lia ZifyBool.
From S2P Require Import Prelude Defs WireBase.
Local Open Scope Z_scope.
Local Open Scope sodchan_scope.

(** [sodchan_hello_t] *)
Record sodchan_hello_t : Type := {
  h_proto_version : Z;
  h_suite_id : Z;
  h_role : Z;
  h_flags : Z;
  h_eph_pk : bytes;
  h_id_pk : bytes;
  h_id_sig : bytes
}.

Definition sodchan_wire_hello_encode (h : option sodchan_hello_t) (out : option bytes)
    : res (bytes * Z) :=
  let* h := nonnull h in
  let* out := nonnull out in
  if len out <? SODCHAN_HELLO_BODY_LEN then Fail SODCHAN_ERR_FULL else
  let* out := sodchan_wire_put_u16 out 0 SODCHAN_MAGIC in
  let* out := sodchan_wire_put_u16 out 2 (h_proto_version h) in
  let* out := sodchan_wire_put_u16 out 4 (h_suite_id h) in
  let* out := sodchan_wire_put_u16 out 6 (h_role h) in
  let* out := sodchan_wire_put_u32 out 8 (h_flags h) in
  let* out := memcpy out 12 (h_eph_pk h) 32 in
  let* out := memcpy out 44 (h_id_pk h) 32 in
  let* out := memcpy out 76 (h_id_sig h) 64 in
  Ok (out, SODCHAN_HELLO_BODY_LEN).

Definition sodchan_wire_hello_decode (body : option bytes) : res sodchan_hello_t :=
  let* body := nonnull body in
  if negb (len body =? SODCHAN_HELLO_BODY_LEN) then Fail SODCHAN_ERR_PROTOCOL else
  let* magic := sodchan_wire_get_u16 body 0 in
  if negb (magic =? SODCHAN_MAGIC) then Fail SODCHAN_ERR_PROTOCOL else
  let* proto_version := sodchan_wire_get_u16 body 2 in
  let* suite_id := sodchan_wire_get_u16 body 4 in
  let* role := sodchan_wire_get_u16 body 6 in
  let* flags := sodchan_wire_get_u32 body 8 in
  let* eph_pk := rd body 12 32 in
  let* id_pk := rd body 44 32 in
  let* id_sig := rd body 76 64 in
  if negb (proto_version =? SODCHAN_PROTO_VERSION) || negb (suite_id =? SODCHAN_SUITE_V1)
  then Fail SODCHAN_ERR_PROTOCOL else
  if negb (role =? role_code SODCHAN_ROLE_SERVER) && negb (role =? role_code SODCHAN_ROLE_CLIENT)
  then Fail SODCHAN_ERR_PROTOCOL else
  Ok {| h_proto_version := proto_version; h_suite_id := suite_id; h_role := role;
        h_flags := flags; h_eph_pk := eph_pk; h_id_pk := id_pk; h_id_sig := id_sig |}.

(** [out] is the whole array [out\[SODCHAN_T_HELLO_LEN\]]. *)
Definition sodchan_wire_build_t_hello (proto_version suite_id : Z)
    (client_eph_pk server_eph_pk server_id_pk out : option bytes) : res bytes :=
  let dom := SODCHAN_DOM_SERVER_HELLO in
  let* client_eph_pk := nonnull client_eph_pk in
  let* server_eph_pk := nonnull server_eph_pk in
  let* server_id_pk := nonnull server_id_pk in
  let* out := nonnull out in
  if negb (len dom =? SODCHAN_DOM_SERVER_HELLO_LEN) then Fail SODCHAN_ERR_PROTOCOL else
  let off := 0 in
  let* out := memcpy out off dom SODCHAN_DOM_SERVER_HELLO_LEN in
  let off := off + SODCHAN_DOM_SERVER_HELLO_LEN in
  let* out := sodchan_wire_put_u16 out off proto_version in
  let off := off + 2 in
  let* out := sodchan_wire_put_u16 out off suite_id in
  let off := off + 2 in
  let* out := memcpy out off client_eph_pk 32 in
  let off := off + 32 in
  let* out := memcpy out off server_eph_pk 32 in
  let off := off + 32 in
  let* out := memcpy out off server_id_pk 32 in
  let off := off + 32 in
  if negb (off =? SODCHAN_T_HELLO_LEN) then Fail SODCHAN_ERR_PROTOCOL else
  Ok out.

(** [if (n) memcpy(out + off, src, n)]: the store of a field that may be
    empty, and may then be NULL. *)
Definition memcpy_if (out : bytes) (off : Z) (src : option bytes) (n : Z) : res bytes :=
  if n =? 0 then Ok out else
  match src with
  | Some s => memcpy out off s n
  | None => Oob
  end.

Definition sodchan_wire_build_t_auth (t_hello client_id_pk : option bytes)
    (username : option bytes) (username_len : Z)
    (device_id : option bytes) (device_id_len : Z) (out : option bytes)
    : res (bytes * Z) :=
  let dom := SODCHAN_DOM_CLIENT_AUTH in
  let* t_hello := nonnull t_hello in
  let* client_id_pk := nonnull client_id_pk in
  let* out := nonnull out in
  if (SODCHAN_USER_MAX <? username_len) || (SODCHAN_DEVICE_ID_MAX <? device_id_len)
  then Fail SODCHAN_ERR_PARAM else
  if (0 <? username_len) && negb (isSome username) then Fail SODCHAN_ERR_PARAM else
  if (0 <? device_id_len) && negb (isSome device_id) then Fail SODCHAN_ERR_PARAM else
  if negb (len dom =? SODCHAN_DOM_CLIENT_AUTH_LEN) then Fail SODCHAN_ERR_PROTOCOL else
  let need := SODCHAN_DOM_CLIENT_AUTH_LEN + SODCHAN_T_HELLO_LEN + 32 + 1 +
              username_len + 1 + device_id_len in
  if len out <? need then Fail SODCHAN_ERR_FULL else
  let off := 0 in
  let* out := memcpy out off dom SODCHAN_DOM_CLIENT_AUTH_LEN in
  let off := off + SODCHAN_DOM_CLIENT_AUTH_LEN in
  let* out := memcpy out off t_hello SODCHAN_T_HELLO_LEN in
  let off := off + SODCHAN_T_HELLO_LEN in
  let* out := memcpy out off client_id_pk 32 in
  let off := off + 32 in
  let* out := put_u8 out off username_len in
  let off := off + 1 in
  let* out := memcpy_if out off username username_len in
  let off := off + username_len in
  let* out := put_u8 out off device_id_len in
  let off := off + 1 in
  let* out := memcpy_if out off device_id device_id_len in
  let off := off + device_id_len in
  Ok (out, off).

(** ** Specification: the layouts of ADR 017 *)

Definition hello_bytes (h : sodchan_hello_t) : bytes :=
  be16 SODCHAN_MAGIC ++ be16 (h_proto_version h) ++ be16 (h_suite_id h) ++
  be16 (h_role h) ++ be32 (h_flags h) ++ h_eph_pk h ++ h_id_pk h ++ h_id_sig h.

(** A HELLO this version of the protocol may send. *)
Record hello_wf (h : sodchan_hello_t) : Prop := {
  hello_wf_proto : h_proto_version h = SODCHAN_PROTO_VERSION;
  hello_wf_suite : h_suite_id h = SODCHAN_SUITE_V1;
  hello_wf_role : h_role h = 0 \/ h_role h = 1;
  hello_wf_flags : 0 <= h_flags h < 4294967296;
  hello_wf_eph : length (h_eph_pk h) = 32%nat;
  hello_wf_id : length (h_id_pk h) = 32%nat;
  hello_wf_sig : length (h_id_sig h) = 64%nat
}.

Definition t_hello_bytes (proto suite : Z) (client_eph server_eph server_id : bytes) : bytes :=
  SODCHAN_DOM_SERVER_HELLO ++ be16 proto ++ be16 suite ++
  client_eph ++ server_eph ++ server_id.

Definition t_auth_bytes (t_hello client_id user device : bytes) : bytes :=
  SODCHAN_DOM_CLIENT_AUTH ++ t_hello ++ client_id ++
  [byte.of_Z (len user)] ++ user ++ [byte.of_Z (len device)] ++ device.

(** ** Lemmas *)

Lemma rd_take (s : bytes) (n : nat) :
  (n <= length s)%nat -> rd s 0 (Z.of_nat n) = Ok (take n s).
Proof.
  intros. rewrite <- (take_drop n s) at 1. apply rd_head; [done |].
  rewrite length_take. lia.
Qed.

Lemma memcpy_if_seq (a r : bytes) (off n : Z) (src : option bytes) (bs : bytes) :
  off = len a -> n = len bs -> len bs <= len r ->
  (0 < n -> exists t, src = Some (bs ++ t)) ->
  memcpy_if (a ++ r) off src n = Ok ((a ++ bs) ++ drop (length bs) r).
Proof.
  intros Hoff -> Hr Hs. unfold memcpy_if. destruct (len bs =? 0) eqn:E.
  - destruct bs; [|simpl in E; lia]. simpl. by rewrite app_nil_r.
  - destruct Hs as [t ->]; [lia |]. apply memcpy_seq; [done | | done].
    by apply rd_head.
Qed.

Lemma length_dom_server : length SODCHAN_DOM_SERVER_HELLO = 23%nat.
Proof. done. Qed.
Lemma length_dom_client : length SODCHAN_DOM_CLIENT_AUTH = 22%nat.
Proof. done. Qed.

Lemma length_t_hello_bytes (p s : Z) (ce se si : bytes) :
  length ce = 32%nat -> length se = 32%nat -> length si = 32%nat ->
  length (t_hello_bytes p s ce se si) = 123%nat.
Proof.
  intros. unfold t_hello_bytes.
  rewrite !length_app, length_dom_server, !length_be16. lia.
Qed.

Lemma length_hello_bytes (h : sodchan_hello_t) :
  length (h_eph_pk h) = 32%nat -> length (h_id_pk h) = 32%nat ->
  length (h_id_sig h) = 64%nat -> length (hello_bytes h) = 140%nat.
Proof.
  intros He Hi Hs. unfold hello_bytes, be16, be32. rewrite !length_app, He, Hi, Hs. done.
Qed.

Lemma hello_encode_ok (h : sodchan_hello_t) (out : bytes) :
  length (h_eph_pk h) = 32%nat -> length (h_id_pk h) = 32%nat ->
  length (h_id_sig h) = 64%nat -> 140 <= len out ->
  sodchan_wire_hello_encode (Some h) (Some out) =
  Ok (hello_bytes h ++ drop 140 out, SODCHAN_HELLO_BODY_LEN).
Proof.
  intros He Hi Hs Ho.
  pose proof (rd_all_eq (h_eph_pk h) 32 ltac:(lia)).
  pose proof (rd_all_eq (h_id_pk h) 32 ltac:(lia)).
  pose proof (rd_all_eq (h_id_sig h) 64 ltac:(lia)).
  unfold sodchan_wire_hello_encode. cbn [nonnull res_bind].
  replace (len out <? _) with false by solve_len.
  rewrite <- (app_nil_l out) at 1.
  repeat encode_step. unfold hello_bytes.
  rewrite !drop_drop, He, Hi, Hs, <- !app_assoc, app_nil_l. done.
Qed.

Lemma build_t_hello_ok (p s : Z) (ce se si out : bytes) :
  length ce = 32%nat -> length se = 32%nat -> length si = 32%nat ->
  length out = 123%nat ->
  sodchan_wire_build_t_hello p s (Some ce) (Some se) (Some si) (Some out) =
  Ok (t_hello_bytes p s ce se si).
Proof.
  intros Hc Hs Hi Ho.
  pose proof (rd_all_eq ce 32 ltac:(lia)). pose proof (rd_all_eq se 32 ltac:(lia)).
  pose proof (rd_all_eq si 32 ltac:(lia)).
  pose proof (rd_all_eq SODCHAN_DOM_SERVER_HELLO 23 eq_refl).
  pose proof length_dom_server as Hd.
  unfold sodchan_wire_build_t_hello. cbn [nonnull res_bind].
  change (negb (len SODCHAN_DOM_SERVER_HELLO =? _)) with false. cbv iota.
  rewrite <- (app_nil_l out) at 1. repeat encode_step.
  cbn -[t_hello_bytes drop SODCHAN_DOM_SERVER_HELLO be16].
  rewrite !drop_drop, Hd, Hc, Hs, Hi, drop_ge by (simpl; lia).
  unfold t_hello_bytes. by rewrite app_nil_r, <- !app_assoc.
Qed.

Lemma build_t_auth_ok (th pk user ut dev dt out : bytes) :
  length th = 123%nat -> length pk = 32%nat -> len user <= 128 -> len dev <= 128 ->
  179 + len user + len dev <= len out ->
  sodchan_wire_build_t_auth (Some th) (Some pk) (Some (user ++ ut)) (len user)
    (Some (dev ++ dt)) (len dev) (Some out) =
  Ok (t_auth_bytes th pk user dev ++ drop (length (t_auth_bytes th pk user dev)) out,
      len (t_auth_bytes th pk user dev)).
Proof.
  intros Ht Hp Hu Hd Ho.
  pose proof (rd_all_eq th 123 ltac:(lia)). pose proof (rd_all_eq pk 32 ltac:(lia)).
  pose proof (rd_all_eq SODCHAN_DOM_CLIENT_AUTH 22 eq_refl).
  pose proof length_dom_client as Hdl.
  unfold sodchan_wire_build_t_auth. cbn [nonnull res_bind isSome negb].
  rewrite !andb_false_r.
  change (negb (len SODCHAN_DOM_CLIENT_AUTH =? _)) with false. cbv iota.
  replace ((_ <? _) || (_ <? _)) with false by solve_len.
  replace (len out <? _) with false by solve_len. cbv iota.
  rewrite <- (app_nil_l out) at 1.
  do 4 encode_step.
  rewrite (memcpy_if_seq _ _ _ _ _ user) by (first [solve_len | eauto]). cbn [res_bind].
  encode_step.
  rewrite (memcpy_if_seq _ _ _ _ _ dev) by (first [solve_len | eauto]). cbn [res_bind].
  unfold t_auth_bytes. rewrite !drop_drop, !length_app, Hdl, Ht, Hp, app_nil_l, <- !app_assoc.
  consts. cbn [length]. do 2 f_equal. lia.
Qed.

Lemma hello_decode_bytes (h : sodchan_hello_t) :
  hello_wf h -> sodchan_wire_hello_decode (Some (hello_bytes h)) = Ok h.
Proof.
  intros []. unfold sodchan_wire_hello_decode. cbn [nonnull res_bind].
  unfold hello_bytes. replace (negb _) with false by solve_len.
  decode_step. rewrite Z.eqb_refl. cbn [negb]. do 7 decode_step.
  rewrite hello_wf_proto0, hello_wf_suite0, !Z.eqb_refl. cbn [negb orb].
  destruct h; simpl in *. destruct hello_wf_role0 as [-> | ->]; simpl; congruence.
Qed.

(** The decoder accepts exactly the well-formed HELLOs. *)
Lemma hello_decode_ok (b : bytes) (h : sodchan_hello_t) :
  sodchan_wire_hello_decode (Some b) = Ok h <-> hello_wf h /\ b = hello_bytes h.
Proof.
  split; [| by intros [Hwf ->]; apply hello_decode_bytes].
  unfold sodchan_wire_hello_decode. cbn [nonnull res_bind]. intros H.
  res_inv H. injection H as <-. bprop.
  apply get_u16_ok in E as [Hm E], E0 as [Hp E0], E1 as [Hs E1], E2 as [Hr E2].
  apply get_u32_ok in E3 as [Hf E3].
  pose proof (rd_len _ _ _ _ E4). pose proof (rd_len _ _ _ _ E5).
  pose proof (rd_len _ _ _ _ E6). consts. unfold role_code in *.
  split.
  - constructor; simpl; consts; lia.
  - assert (a = 21315) as -> by lia.
    epose proof (rd_cat _ _ _ _ _ _ E (rd_cat _ _ _ _ _ _ E0 (rd_cat _ _ _ _ _ _ E1
      (rd_cat _ _ _ _ _ _ E2 (rd_cat _ _ _ _ _ _ E3 (rd_cat _ _ _ _ _ _ E4
      (rd_cat _ _ _ _ _ _ E5 E6))))))) as R.
    apply rd_whole in R; [by subst b | lia].
Qed.

Lemma hello_decode_safe (b : option bytes) : sodchan_wire_hello_decode b <> Oob.
Proof.
  destruct b as [b|]; [|done]. unfold sodchan_wire_hello_decode. cbn [nonnull res_bind].
  consts. destruct (negb _) eqn:Hl; [done |]. bprop.
  cbn [nonnull]. repeat safe_step.
Qed.

(** A byte that is a length determines the length. *)
Lemma byte_len_inj (x y : bytes) :
  len x < 256 -> len y < 256 -> byte.of_Z (len x) = byte.of_Z (len y) ->
  length x = length y.
Proof.
  intros Hx Hy H. apply (f_equal byte.unsigned) in H.
  rewrite !unsigned_of_Z_small in H by lia. lia.
Qed.

(** What a signature over [t_auth_bytes] commits to. *)
Lemma t_auth_bytes_inj (th th' pk pk' u u' d d' : bytes) :
  length th = 123%nat -> length th' = 123%nat ->
  length pk = 32%nat -> length pk' = 32%nat ->
  len u <= 128 -> len u' <= 128 -> len d <= 128 -> len d' <= 128 ->
  t_auth_bytes th pk u d = t_auth_bytes th' pk' u' d' ->
  th = th' /\ pk = pk' /\ u = u' /\ d = d'.
Proof.
  intros Ht Ht' Hp Hp' Hu Hu' Hd Hd' E. unfold t_auth_bytes in E.
  apply app_inv_head in E.
  apply app_inj_1 in E as [-> E]; [|congruence].
  apply app_inj_1 in E as [-> E]; [|congruence].
  apply app_inj_1 in E as [[= Eu] E]; [|done].
  apply byte_len_inj in Eu; [|lia | lia].
  apply app_inj_1 in E as [-> E]; [|done].
  apply app_inj_1 in E as [_ ->]; done.
Qed.

Lemma t_hello_bytes_inj (p p' s s' : Z) (ce ce' se se' si si' : bytes) :
  0 <= p < 65536 -> 0 <= p' < 65536 -> 0 <= s < 65536 -> 0 <= s' < 65536 ->
  length ce = 32%nat -> length ce' = 32%nat -> length se = 32%nat -> length se' = 32%nat ->
  t_hello_bytes p s ce se si = t_hello_bytes p' s' ce' se' si' ->
  p = p' /\ s = s' /\ ce = ce' /\ se = se' /\ si = si'.
Proof.
  assert (forall v w, 0 <= v < 65536 -> 0 <= w < 65536 -> be16 v = be16 w -> v = w) as Hinj.
  { intros v w Hv Hw E.
    assert (forall x, 0 <= x < 65536 -> sodchan_wire_get_u16 (be16 x) 0 = Ok x) as G
      by (intros; rewrite <- (app_nil_r (be16 x)); by apply get_u16_head).
    pose proof (G v Hv) as Gv. rewrite E, (G w Hw) in Gv. congruence. }
  intros Hp Hp' Hs Hs' Hc Hc' Hse Hse' E. unfold t_hello_bytes in E.
  apply app_inv_head in E.
  apply app_inj_1 in E as [Ep E]; [|done]. apply app_inj_1 in E as [Es E]; [|done].
  apply app_inj_1 in E as [-> E]; [|congruence]. apply app_inj_1 in E as [-> ->]; [|congruence].
  auto 10.
Qed.

(** The two domains never collide, whatever follows them. *)
Lemma t_hello_t_auth_disjoint (p s : Z) (ce se si th pk u d : bytes) :
  t_hello_bytes p s ce se si <> t_auth_bytes th pk u d.
Proof.
  unfold t_hello_bytes, t_auth_bytes. intros E.
  apply (f_equal (take 12)) in E. discriminate E.
Qed.
