(* ===== verification/WireAuth.v ===== *)
(** The AUTH PDUs of [src/sodchan_wire.c], lines 235 to 417: AUTH_DEVICE,
    AUTH_OK and AUTH_FAIL. *)

From Stdlib Require Import ZArith Lia ZifyBool.
From S2P Require Import Prelude Defs WireBase WireHello.
Local Open Scope Z_scope.
Local Open Scope sodchan_scope.

(** ** Strings copied out of a PDU

    [copy_field pdu off n cap] is the block
    [copy = n; if (copy >= cap) copy = cap - 1; if (n) memcpy(s, pdu + off, copy);
     s\[copy\] = 0] for a buffer of [cap] bytes: what the buffer holds from its
    start to the NUL.  A zero [cap] is a buffer that is not there. *)
Definition copy_field (pdu : bytes) (off n cap : Z) : res bytes :=
  if 0 <? cap then
    let copy := if cap <=? n then cap - 1 else n in
    let* s := (if n =? 0 then Ok [] else rd pdu off copy) in
    Ok (s ++ [Byte.x00])
  else Ok [].

Definition sodchan_wire_auth_device_encode (client_id_pk client_sig : option bytes)
    (username : option bytes) (username_len : Z)
    (device_id : option bytes) (device_id_len : Z) (out : option bytes)
    : res (bytes * Z) :=
  let* client_id_pk := nonnull client_id_pk in
  let* client_sig := nonnull client_sig in
  let* out := nonnull out in
  if (SODCHAN_USER_MAX <? username_len) || (SODCHAN_DEVICE_ID_MAX <? device_id_len)
  then Fail SODCHAN_ERR_PARAM else
  if (0 <? username_len) && negb (isSome username) ||
     (0 <? device_id_len) && negb (isSome device_id)
  then Fail SODCHAN_ERR_PARAM else
  let need := 1 + 32 + 64 + 1 + username_len + 1 + device_id_len in
  if len out <? need then Fail SODCHAN_ERR_FULL else
  let off := 0 in
  let* out := put_u8 out off SODCHAN_PDU_AUTH_DEVICE in
  let off := off + 1 in
  let* out := memcpy out off client_id_pk 32 in
  let off := off + 32 in
  let* out := memcpy out off client_sig 64 in
  let off := off + 64 in
  let* out := put_u8 out off username_len in
  let off := off + 1 in
  let* out := memcpy_if out off username username_len in
  let off := off + username_len in
  let* out := put_u8 out off device_id_len in
  let off := off + 1 in
  let* out := memcpy_if out off device_id device_id_len in
  let off := off + device_id_len in
  Ok (out, off).

(** What the decoder leaves in its output parameters. *)
Record auth_device_t : Type := {
  ad_client_id_pk : bytes;
  ad_client_sig : bytes;
  ad_username : bytes;
  ad_username_len : Z;
  ad_device_id : bytes;
  ad_device_id_len : Z
}.

Definition sodchan_wire_auth_device_decode (pdu : option bytes)
    (username_cap device_id_cap : Z) : res auth_device_t :=
  let* pdu := nonnull pdu in
  if len pdu <? 1 + 32 + 64 + 1 + 1 then Fail SODCHAN_ERR_PROTOCOL else
  let off := 0 in
  let* type := rd8 pdu off in
  let off := off + 1 in
  if negb (type =? SODCHAN_PDU_AUTH_DEVICE) then Fail SODCHAN_ERR_PROTOCOL else
  let* client_id_pk := rd pdu off 32 in
  let off := off + 32 in
  let* client_sig := rd pdu off 64 in
  let off := off + 64 in
  let* ulen := rd8 pdu off in
  let off := off + 1 in
  if (SODCHAN_USER_MAX <? ulen) || (len pdu <? off + ulen + 1)
  then Fail SODCHAN_ERR_PROTOCOL else
  let* username := copy_field pdu off ulen username_cap in
  let off := off + ulen in
  let* dlen := rd8 pdu off in
  let off := off + 1 in
  if (SODCHAN_DEVICE_ID_MAX <? dlen) || (len pdu <? off + dlen)
  then Fail SODCHAN_ERR_PROTOCOL else
  if negb (off + dlen =? len pdu) then Fail SODCHAN_ERR_PROTOCOL else
  let* device_id := copy_field pdu off dlen device_id_cap in
  Ok {| ad_client_id_pk := client_id_pk; ad_client_sig := client_sig;
        ad_username := username; ad_username_len := ulen;
        ad_device_id := device_id; ad_device_id_len := dlen |}.

Definition sodchan_wire_auth_ok_encode (claims : option bytes) (claims_len : Z)
    (out : option bytes) : res (bytes * Z) :=
  let* out := nonnull out in
  if SODCHAN_CLAIMS_MAX <? claims_len then Fail SODCHAN_ERR_PARAM else
  if (0 <? claims_len) && negb (isSome claims) then Fail SODCHAN_ERR_PARAM else
  let need := 1 + 2 + claims_len in
  if len out <? need then Fail SODCHAN_ERR_FULL else
  let* out := put_u8 out 0 SODCHAN_PDU_AUTH_OK in
  let* out := sodchan_wire_put_u16 out 1 (u16 claims_len) in
  let* out := memcpy_if out 3 claims claims_len in
  Ok (out, need).

(** The result is what [*claims] points at, NULL for no claims. *)
Definition sodchan_wire_auth_ok_decode (pdu : option bytes) : res (option bytes * Z) :=
  let* pdu := nonnull pdu in
  if len pdu <? 3 then Fail SODCHAN_ERR_PROTOCOL else
  let* type := rd8 pdu 0 in
  if negb (type =? SODCHAN_PDU_AUTH_OK) then Fail SODCHAN_ERR_PROTOCOL else
  let* C := sodchan_wire_get_u16 pdu 1 in
  if (SODCHAN_CLAIMS_MAX <? C) || negb (len pdu =? 3 + C) then Fail SODCHAN_ERR_PROTOCOL else
  if 0 <? C then let* claims := rd pdu 3 C in Ok (Some claims, C)
  else Ok (None, C).

Definition sodchan_wire_auth_fail_encode (out : option bytes) : res (bytes * Z) :=
  let* out := nonnull out in
  if len out <? 3 then Fail SODCHAN_ERR_FULL else
  let* out := put_u8 out 0 SODCHAN_PDU_AUTH_FAIL in
  let* out := put_u8 out 1 SODCHAN_AUTH_FAIL_UNSPEC in
  let* out := put_u8 out 2 0 in
  Ok (out, 3).

Definition sodchan_wire_auth_fail_decode (pdu : option bytes) : res (Z * Z) :=
  let* pdu := nonnull pdu in
  if len pdu <? 3 then Fail SODCHAN_ERR_PROTOCOL else
  let* type := rd8 pdu 0 in
  if negb (type =? SODCHAN_PDU_AUTH_FAIL) then Fail SODCHAN_ERR_PROTOCOL else
  let* reason := rd8 pdu 1 in
  let* msg_len := rd8 pdu 2 in
  if negb (len pdu =? 3 + msg_len) then Fail SODCHAN_ERR_PROTOCOL else
  Ok (reason, msg_len).

(** ** Specification *)

Definition auth_device_bytes (pk sig user device : bytes) : bytes :=
  [byte.of_Z SODCHAN_PDU_AUTH_DEVICE] ++ pk ++ sig ++
  [byte.of_Z (len user)] ++ user ++ [byte.of_Z (len device)] ++ device.

Definition auth_ok_bytes (claims : bytes) : bytes :=
  [byte.of_Z SODCHAN_PDU_AUTH_OK] ++ be16 (len claims) ++ claims.

(** The one AUTH_FAIL the library sends: reason UNSPEC, no message. *)
Definition auth_fail_bytes : bytes :=
  [byte.of_Z SODCHAN_PDU_AUTH_FAIL; byte.of_Z SODCHAN_AUTH_FAIL_UNSPEC; byte.of_Z 0].

(** A string of a PDU in a buffer of [cap] bytes. *)
Definition field_buf (s : bytes) (cap : Z) : bytes :=
  if 0 <? cap then take (Z.to_nat (cap - 1)) s ++ [Byte.x00] else [].

(** ** Lemmas *)

(** The type byte of a PDU is the one the decoder expects. *)
Ltac type_ok := rewrite unsigned_of_Z_small by (consts; lia); rewrite Z.eqb_refl; cbn [negb].

Lemma copy_field_app (a s c : bytes) (off n cap : Z) :
  off = len a -> n = len s -> copy_field (a ++ s ++ c) off n cap = Ok (field_buf s cap).
Proof.
  intros -> ->. unfold copy_field, field_buf. destruct (0 <? cap) eqn:Hc; [|done].
  destruct (len s =? 0) eqn:Hs.
  - destruct s; [|simpl in Hs; lia]. by rewrite take_nil.
  - destruct (cap <=? len s) eqn:Hn.
    + rewrite <- (take_drop (Z.to_nat (cap - 1)) s) at 1.
      rewrite <- app_assoc, rd_app; [done | done |]. rewrite length_take. lia.
    + rewrite rd_app by done. cbn [res_bind]. by rewrite take_ge by lia.
Qed.

Lemma copy_field_head (s c : bytes) (off n cap : Z) :
  off = 0 -> n = len s -> copy_field (s ++ c) off n cap = Ok (field_buf s cap).
Proof. intros. by apply (copy_field_app []). Qed.

Lemma copy_field_rd (pdu s : bytes) (off n cap : Z) :
  rd pdu off n = Ok s -> copy_field pdu off n cap = Ok (field_buf s cap).
Proof. intros (a & c & -> & -> & ->)%rd_ok. by apply copy_field_app. Qed.

Lemma copy_field_ok (pdu x : bytes) (off n cap : Z) :
  0 <= off -> 0 <= n -> off + n <= len pdu ->
  copy_field pdu off n cap = Ok x <-> exists s, rd pdu off n = Ok s /\ x = field_buf s cap.
Proof.
  intros. destruct (rd_in pdu off n) as [s Hs]; [done.. |].
  rewrite (copy_field_rd _ _ _ _ _ Hs). split; [intros [= <-]; eauto |].
  intros (s' & Hs' & ->). congruence.
Qed.

Lemma auth_device_encode_ok (pk sig user ut dev dt out : bytes) :
  length pk = 32%nat -> length sig = 64%nat -> len user <= 128 -> len dev <= 128 ->
  99 + len user + len dev <= len out ->
  sodchan_wire_auth_device_encode (Some pk) (Some sig) (Some (user ++ ut)) (len user)
    (Some (dev ++ dt)) (len dev) (Some out) =
  Ok (auth_device_bytes pk sig user dev ++
        drop (length (auth_device_bytes pk sig user dev)) out,
      len (auth_device_bytes pk sig user dev)).
Proof.
  intros Hp Hs Hu Hd Ho.
  pose proof (rd_all_eq pk 32 ltac:(lia)). pose proof (rd_all_eq sig 64 ltac:(lia)).
  unfold sodchan_wire_auth_device_encode. cbn [nonnull res_bind isSome negb].
  rewrite !andb_false_r. cbn [orb].
  replace ((_ <? _) || (_ <? _)) with false by solve_len.
  replace (len out <? _) with false by solve_len. cbv iota.
  rewrite <- (app_nil_l out) at 1.
  do 4 encode_step.
  rewrite (memcpy_if_seq _ _ _ _ _ user) by (first [solve_len | eauto]). cbn [res_bind].
  encode_step.
  rewrite (memcpy_if_seq _ _ _ _ _ dev) by (first [solve_len | eauto]). cbn [res_bind].
  unfold auth_device_bytes. rewrite !drop_drop, !length_app, Hp, Hs, app_nil_l, <- !app_assoc.
  cbn [length]. do 2 f_equal. lia.
Qed.

(** The decoder accepts exactly the AUTH_DEVICE PDUs, with no trailing bytes. *)
Lemma auth_device_decode_ok (b : bytes) (ucap dcap : Z) (r : auth_device_t) :
  sodchan_wire_auth_device_decode (Some b) ucap dcap = Ok r <->
  exists user dev,
    length (ad_client_id_pk r) = 32%nat /\ length (ad_client_sig r) = 64%nat /\
    len user <= 128 /\ len dev <= 128 /\
    ad_username r = field_buf user ucap /\ ad_username_len r = len user /\
    ad_device_id r = field_buf dev dcap /\ ad_device_id_len r = len dev /\
    b = auth_device_bytes (ad_client_id_pk r) (ad_client_sig r) user dev.
Proof.
  unfold sodchan_wire_auth_device_decode. cbn [nonnull res_bind]. split.
  - intros H. res_inv H. injection H as <-. bprop.
    apply rd8_ok in E as (bt & E & ->), E2 as (bu & E2 & ->), E4 as (bd & E4 & ->).
    pose proof (unsigned_range bu). pose proof (unsigned_range bd). consts.
    apply copy_field_ok in E3 as (user & E3 & ->); [|lia.. ].
    apply copy_field_ok in E5 as (dev & E5 & ->); [|lia.. ].
    pose proof (rd_len _ _ _ _ E3) as Hu. pose proof (rd_len _ _ _ _ E5) as Hd.
    pose proof (rd_len _ _ _ _ E0). pose proof (rd_len _ _ _ _ E1).
    exists user, dev. simpl. split_and!; [lia | lia | lia | lia | done | lia | done | lia |].
    epose proof (rd_cat _ _ _ _ _ _ E (rd_cat _ _ _ _ _ _ E0 (rd_cat _ _ _ _ _ _ E1
      (rd_cat _ _ _ _ _ _ E2 (rd_cat _ _ _ _ _ _ E3 (rd_cat _ _ _ _ _ _ E4 E5)))))) as R.
    apply rd_whole in R; [|lia]. rewrite R. unfold auth_device_bytes. consts.
    rewrite Hu, Hd, !of_Z_unsigned.
    replace (byte.of_Z 20) with bt; [done |]. rewrite <- (of_Z_unsigned bt). f_equal. lia.
  - intros (user & dev & Hp & Hs & Hu & Hd & Eu & Eul & Ed & Edl & ->).
    destruct r as [pk sig ub ul db dl].
    cbn [ad_client_id_pk ad_client_sig ad_username ad_username_len ad_device_id
         ad_device_id_len] in *. subst. unfold auth_device_bytes.
    replace (_ <? _) with false by solve_len.
    decode_step. type_ok. decode_step. decode_step. decode_step.
    rewrite unsigned_of_Z_small by lia.
    replace (_ || _) with false by solve_len.
    rewrite (copy_field_rd _ user) by (repeat rewrite rd_skip by solve_len; apply rd_head; solve_len).
    cbn [res_bind]. decode_step. rewrite unsigned_of_Z_small by lia.
    replace (_ || _) with false by solve_len.
    replace (negb _) with false by solve_len.
    rewrite (copy_field_rd _ dev) by (repeat rewrite rd_skip by solve_len; apply rd_head_end; solve_len).
    done.
Qed.

Lemma copy_field_safe (pdu : bytes) (off n cap : Z) :
  0 <= off -> 0 <= n -> off + n <= len pdu -> exists x, copy_field pdu off n cap = Ok x.
Proof.
  intros. destruct (rd_in pdu off n) as [s Hs]; [done.. |].
  rewrite (copy_field_rd _ _ _ _ _ Hs). eauto.
Qed.

Ltac safe_field :=
  lazymatch goal with
  | |- res_bind (copy_field ?p ?o ?n ?c) _ <> _ =>
      let x := fresh "x" in
      destruct (copy_field_safe p o n c) as [x ->]; [solve_len | solve_len | solve_len |];
      cbn [res_bind]; try discriminate
  end.

Lemma auth_device_decode_safe (b : option bytes) (ucap dcap : Z) :
  sodchan_wire_auth_device_decode b ucap dcap <> Oob.
Proof.
  destruct b as [b|]; [|done]. unfold sodchan_wire_auth_device_decode. cbn [nonnull].
  repeat (safe_step || safe_field).
Qed.

Lemma auth_ok_encode_ok (claims t out : bytes) :
  len claims <= 1024 -> 3 + len claims <= len out ->
  sodchan_wire_auth_ok_encode (Some (claims ++ t)) (len claims) (Some out) =
  Ok (auth_ok_bytes claims ++ drop (length (auth_ok_bytes claims)) out, 3 + len claims).
Proof.
  intros Hc Ho. unfold sodchan_wire_auth_ok_encode. cbn [nonnull res_bind isSome negb].
  rewrite andb_false_r. unfold u16. rewrite Z.mod_small by lia.
  replace (_ <? len claims) with false by solve_len.
  replace (len out <? _) with false by solve_len. cbv iota.
  rewrite <- (app_nil_l out) at 1. do 2 encode_step.
  rewrite (memcpy_if_seq _ _ _ _ _ claims) by (first [solve_len | eauto]). cbn [res_bind].
  unfold auth_ok_bytes. rewrite !drop_drop, !length_app, app_nil_l, <- !app_assoc.
  cbn [length be16]. do 2 f_equal.
Qed.

Lemma auth_ok_encode_null (out : bytes) :
  3 <= len out ->
  sodchan_wire_auth_ok_encode None 0 (Some out) = Ok (auth_ok_bytes [] ++ drop 3 out, 3).
Proof.
  intros Ho. unfold sodchan_wire_auth_ok_encode. cbn [nonnull res_bind].
  change (SODCHAN_CLAIMS_MAX <? 0) with false. cbn [Z.ltb Z.compare andb].
  replace (len out <? _) with false by solve_len. cbv iota.
  rewrite <- (app_nil_l out) at 1. do 2 encode_step.
  unfold memcpy_if. cbn [Z.eqb res_bind].
  unfold auth_ok_bytes. rewrite !drop_drop, app_nil_l, <- !app_assoc. done.
Qed.

Lemma auth_ok_decode_ok (b : bytes) (c : option bytes) (n : Z) :
  sodchan_wire_auth_ok_decode (Some b) = Ok (c, n) <->
  exists claims, len claims <= 1024 /\ n = len claims /\
    c = (if 0 <? n then Some claims else None) /\ b = auth_ok_bytes claims.
Proof.
  unfold sodchan_wire_auth_ok_decode. cbn [nonnull res_bind]. split.
  - intros H.
    destruct (_ <? 3) eqn:H3; [done |].
    destruct (rd8 b 0) as [t | |] eqn:E; [| done | done]. cbn [res_bind] in H.
    destruct (negb _) eqn:Ht; [done |].
    destruct (sodchan_wire_get_u16 b 1) as [C | |] eqn:E1; [| done | done]. cbn [res_bind] in H.
    destruct (_ || _) eqn:HC; [done |]. bprop.
    apply get_u16_ok in E1 as [HCr E1]. apply rd8_ok in E as (bt & E & ->). consts.
    destruct (rd_in b 3 C) as [claims Hcl]; [lia.. |]. pose proof (rd_len _ _ _ _ Hcl) as Hl.
    rewrite Hcl in H. cbn [res_bind] in H. exists claims.
    assert (n = C /\ c = if 0 <? C then Some claims else None) as [-> ->]
      by (destruct (0 <? C); by injection H as <- <-).
    split_and!; [lia | lia | done |].
    epose proof (rd_cat _ _ _ _ _ _ E (rd_cat _ _ _ _ _ _ E1 Hcl)) as R.
    apply rd_whole in R; [|lia]. rewrite R. unfold auth_ok_bytes. consts. rewrite Hl.
    replace (byte.of_Z 21) with bt; [done |]. rewrite <- (of_Z_unsigned bt). f_equal. lia.
  - intros (claims & Hc & -> & -> & ->). unfold auth_ok_bytes.
    replace (_ <? 3) with false by solve_len.
    decode_step. type_ok. decode_step.
    replace (_ || _) with false by solve_len.
    destruct (0 <? len claims); [|done].
    repeat rewrite rd_skip by solve_len. by rewrite rd_head_end by solve_len.
Qed.

Lemma auth_ok_decode_safe (b : option bytes) : sodchan_wire_auth_ok_decode b <> Oob.
Proof.
  destruct b as [b|]; [|done]. unfold sodchan_wire_auth_ok_decode. cbn [nonnull]. repeat safe_step.
Qed.

Lemma auth_fail_encode_ok (out : bytes) :
  3 <= len out ->
  sodchan_wire_auth_fail_encode (Some out) = Ok (auth_fail_bytes ++ drop 3 out, 3).
Proof.
  intros Ho. unfold sodchan_wire_auth_fail_encode. cbn [nonnull res_bind].
  replace (len out <? _) with false by lia.
  rewrite <- (app_nil_l out) at 1. repeat encode_step.
  by rewrite !drop_drop, app_nil_l, <- !app_assoc.
Qed.

Lemma auth_fail_decode_ok (b : bytes) (reason n : Z) :
  sodchan_wire_auth_fail_decode (Some b) = Ok (reason, n) <->
  exists msg, 0 <= reason < 256 /\ n = len msg /\ len msg < 256 /\
    b = [byte.of_Z SODCHAN_PDU_AUTH_FAIL] ++ [byte.of_Z reason] ++ [byte.of_Z n] ++ msg.
Proof.
  unfold sodchan_wire_auth_fail_decode. cbn [nonnull res_bind]. split.
  - intros H. res_inv H. injection H as <- <-. bprop.
    apply rd8_ok in E as (bt & E & ->), E0 as (br & E0 & ->), E1 as (bl & E1 & ->).
    pose proof (unsigned_range br). pose proof (unsigned_range bl). consts.
    destruct (rd_in b 3 (byte.unsigned bl)) as [msg Hm]; [lia.. |].
    pose proof (rd_len _ _ _ _ Hm). exists msg. split_and!; [lia | lia | lia | lia |].
    epose proof (rd_cat _ _ _ _ _ _ E (rd_cat _ _ _ _ _ _ E0 (rd_cat _ _ _ _ _ _ E1 Hm))) as R.
    apply rd_whole in R; [|lia]. rewrite R, !of_Z_unsigned.
    replace (byte.of_Z 22) with bt; [done |]. rewrite <- (of_Z_unsigned bt). f_equal. lia.
  - intros (msg & Hr & -> & Hn & ->).
    replace (_ <? 3) with false by solve_len.
    decode_step. type_ok. do 2 decode_step.
    rewrite !unsigned_of_Z_small by lia.
    by replace (negb _) with false by solve_len.
Qed.

Lemma auth_fail_decode_safe (b : option bytes) : sodchan_wire_auth_fail_decode b <> Oob.
Proof.
  destruct b as [b|]; [|done]. unfold sodchan_wire_auth_fail_decode. cbn [nonnull]. repeat safe_step.
Qed.
