(* ===== verification/WireMux.v ===== *)
(** The mux PDUs of [src/sodchan_wire.c], lines 419 to 853. *)

From Stdlib Require Import ZArith Lia ZifyBool.
From S2P Require Import Prelude Defs WireBase WireHello WireAuth.
Local Open Scope Z_scope.
Local Open Scope sodchan_scope.

(** ** CHANNEL_OPEN *)

Definition sodchan_wire_channel_open_encode (sender_channel init_window max_packet : Z)
    (name : option bytes) (name_len : Z) (out : option bytes) : res (bytes * Z) :=
  let* out := nonnull out in
  if (SODCHAN_CHANNEL_NAME_MAX <? name_len) || (0 <? name_len) && negb (isSome name)
  then Fail SODCHAN_ERR_PARAM else
  let need := 1 + 4 + 4 + 4 + 1 + name_len in
  if len out <? need then Fail SODCHAN_ERR_FULL else
  let* out := put_u8 out 0 SODCHAN_PDU_CHANNEL_OPEN in
  let* out := sodchan_wire_put_u32 out 1 sender_channel in
  let* out := sodchan_wire_put_u32 out 5 init_window in
  let* out := sodchan_wire_put_u32 out 9 max_packet in
  let* out := put_u8 out 13 name_len in
  let* out := memcpy_if out 14 name name_len in
  Ok (out, need).

Record channel_open_t : Type := {
  co_sender_channel : Z;
  co_init_window : Z;
  co_max_packet : Z;
  co_name : bytes;
  co_name_len : Z
}.

Definition sodchan_wire_channel_open_decode (pdu : option bytes) (name_cap : Z)
    : res channel_open_t :=
  let* pdu := nonnull pdu in
  if len pdu <? 14 then Fail SODCHAN_ERR_PROTOCOL else
  let* type := rd8 pdu 0 in
  if negb (type =? SODCHAN_PDU_CHANNEL_OPEN) then Fail SODCHAN_ERR_PROTOCOL else
  let* sender_channel := sodchan_wire_get_u32 pdu 1 in
  let* init_window := sodchan_wire_get_u32 pdu 5 in
  let* max_packet := sodchan_wire_get_u32 pdu 9 in
  let* nlen := rd8 pdu 13 in
  if (SODCHAN_CHANNEL_NAME_MAX <? nlen) || negb (len pdu =? 14 + nlen)
  then Fail SODCHAN_ERR_PROTOCOL else
  let* name := copy_field pdu 14 nlen name_cap in
  Ok {| co_sender_channel := sender_channel; co_init_window := init_window;
        co_max_packet := max_packet; co_name := name; co_name_len := nlen |}.

(** ** CHANNEL_OPEN_CONFIRM *)

Definition sodchan_wire_channel_open_confirm_encode
    (sender_channel recipient_channel init_window max_packet : Z) (out : option bytes)
    : res (bytes * Z) :=
  let* out := nonnull out in
  if len out <? 17 then Fail SODCHAN_ERR_FULL else
  let* out := put_u8 out 0 SODCHAN_PDU_CHANNEL_OPEN_CONFIRM in
  let* out := sodchan_wire_put_u32 out 1 sender_channel in
  let* out := sodchan_wire_put_u32 out 5 recipient_channel in
  let* out := sodchan_wire_put_u32 out 9 init_window in
  let* out := sodchan_wire_put_u32 out 13 max_packet in
  Ok (out, 17).

(** The results are sender, recipient, window and packet. *)
Definition sodchan_wire_channel_open_confirm_decode (pdu : option bytes)
    : res (Z * Z * Z * Z) :=
  let* pdu := nonnull pdu in
  if negb (len pdu =? 17) then Fail SODCHAN_ERR_PROTOCOL else
  let* type := rd8 pdu 0 in
  if negb (type =? SODCHAN_PDU_CHANNEL_OPEN_CONFIRM) then Fail SODCHAN_ERR_PROTOCOL else
  let* sender_channel := sodchan_wire_get_u32 pdu 1 in
  let* recipient_channel := sodchan_wire_get_u32 pdu 5 in
  let* init_window := sodchan_wire_get_u32 pdu 9 in
  let* max_packet := sodchan_wire_get_u32 pdu 13 in
  Ok (sender_channel, recipient_channel, init_window, max_packet).

(** ** CHANNEL_OPEN_FAIL *)

Definition sodchan_wire_channel_open_fail_encode (recipient_channel reason : Z)
    (msg : option bytes) (msg_len : Z) (out : option bytes) : res (bytes * Z) :=
  let* out := nonnull out in
  if (255 <? msg_len) || (0 <? msg_len) && negb (isSome msg)
  then Fail SODCHAN_ERR_PARAM else
  let need := 1 + 4 + 4 + 1 + msg_len in
  if len out <? need then Fail SODCHAN_ERR_FULL else
  let* out := put_u8 out 0 SODCHAN_PDU_CHANNEL_OPEN_FAIL in
  let* out := sodchan_wire_put_u32 out 1 recipient_channel in
  let* out := sodchan_wire_put_u32 out 5 reason in
  let* out := put_u8 out 9 msg_len in
  let* out := memcpy_if out 10 msg msg_len in
  Ok (out, need).

(** The results are recipient, reason, message buffer and message length. *)
Definition sodchan_wire_channel_open_fail_decode (pdu : option bytes) (msg_cap : Z)
    : res (Z * Z * bytes * Z) :=
  let* pdu := nonnull pdu in
  if len pdu <? 10 then Fail SODCHAN_ERR_PROTOCOL else
  let* type := rd8 pdu 0 in
  if negb (type =? SODCHAN_PDU_CHANNEL_OPEN_FAIL) then Fail SODCHAN_ERR_PROTOCOL else
  let* recipient_channel := sodchan_wire_get_u32 pdu 1 in
  let* reason := sodchan_wire_get_u32 pdu 5 in
  let* mlen := rd8 pdu 9 in
  if negb (len pdu =? 10 + mlen) then Fail SODCHAN_ERR_PROTOCOL else
  let* msg := copy_field pdu 10 mlen msg_cap in
  Ok (recipient_channel, reason, msg, mlen).

(** ** CHANNEL_DATA *)

Section Data.
Context `{SizeT}.

Definition sodchan_wire_channel_data_encode (recipient_channel : Z)
    (data : option bytes) (data_len : Z) (out : option bytes) : res (bytes * Z) :=
  let* out := nonnull out in
  if (0 <? data_len) && negb (isSome data) then Fail SODCHAN_ERR_PARAM else
  if 4294967295 - 9 <? data_len then Fail SODCHAN_ERR_PARAM else
  let need := size_t (1 + 4 + 4 + data_len) in
  if len out <? need then Fail SODCHAN_ERR_FULL else
  let* out := put_u8 out 0 SODCHAN_PDU_CHANNEL_DATA in
  let* out := sodchan_wire_put_u32 out 1 recipient_channel in
  let* out := sodchan_wire_put_u32 out 5 (u32 data_len) in
  let* out := memcpy_if out 9 data data_len in
  Ok (out, need).

(** The results are recipient, [*data] and [*data_len]. *)
Definition sodchan_wire_channel_data_decode (pdu : option bytes)
    : res (Z * option bytes * Z) :=
  let* pdu := nonnull pdu in
  if len pdu <? 9 then Fail SODCHAN_ERR_PROTOCOL else
  let* type := rd8 pdu 0 in
  if negb (type =? SODCHAN_PDU_CHANNEL_DATA) then Fail SODCHAN_ERR_PROTOCOL else
  let* recipient_channel := sodchan_wire_get_u32 pdu 1 in
  let* dlen := sodchan_wire_get_u32 pdu 5 in
  if negb (len pdu =? size_t (9 + dlen)) then Fail SODCHAN_ERR_PROTOCOL else
  if 0 <? dlen then
    let* data := rd pdu 9 dlen in
    Ok (recipient_channel, Some data, dlen)
  else Ok (recipient_channel, None, dlen).
End Data.

(** ** CHANNEL_WINDOW *)

Definition sodchan_wire_channel_window_encode (recipient_channel bytes_to_add : Z)
    (out : option bytes) : res (bytes * Z) :=
  let* out := nonnull out in
  if len out <? 9 then Fail SODCHAN_ERR_FULL else
  let* out := put_u8 out 0 SODCHAN_PDU_CHANNEL_WINDOW in
  let* out := sodchan_wire_put_u32 out 1 recipient_channel in
  let* out := sodchan_wire_put_u32 out 5 bytes_to_add in
  Ok (out, 9).

Definition sodchan_wire_channel_window_decode (pdu : option bytes) : res (Z * Z) :=
  let* pdu := nonnull pdu in
  if negb (len pdu =? 9) then Fail SODCHAN_ERR_PROTOCOL else
  let* type := rd8 pdu 0 in
  if negb (type =? SODCHAN_PDU_CHANNEL_WINDOW) then Fail SODCHAN_ERR_PROTOCOL else
  let* recipient_channel := sodchan_wire_get_u32 pdu 1 in
  let* bytes_to_add := sodchan_wire_get_u32 pdu 5 in
  Ok (recipient_channel, bytes_to_add).

(** ** CHANNEL_EOF, CHANNEL_CLOSE, PING and PONG

    The four encoders and the four decoders differ only in the type byte. *)

Definition u32_pdu_encode (type v : Z) (out : option bytes) : res (bytes * Z) :=
  let* out := nonnull out in
  if len out <? 5 then Fail SODCHAN_ERR_FULL else
  let* out := put_u8 out 0 type in
  let* out := sodchan_wire_put_u32 out 1 v in
  Ok (out, 5).

Definition u32_pdu_decode (expected : Z) (pdu : option bytes) : res Z :=
  let* pdu := nonnull pdu in
  if negb (len pdu =? 5) then Fail SODCHAN_ERR_PROTOCOL else
  let* type := rd8 pdu 0 in
  if negb (type =? expected) then Fail SODCHAN_ERR_PROTOCOL else
  sodchan_wire_get_u32 pdu 1.

Definition sodchan_wire_channel_eof_encode := u32_pdu_encode SODCHAN_PDU_CHANNEL_EOF.
Definition sodchan_wire_channel_eof_decode := u32_pdu_decode SODCHAN_PDU_CHANNEL_EOF.
Definition sodchan_wire_channel_close_encode := u32_pdu_encode SODCHAN_PDU_CHANNEL_CLOSE.
Definition sodchan_wire_channel_close_decode := u32_pdu_decode SODCHAN_PDU_CHANNEL_CLOSE.
Definition sodchan_wire_ping_encode := u32_pdu_encode SODCHAN_PDU_PING.
Definition sodchan_wire_ping_decode := u32_pdu_decode SODCHAN_PDU_PING.
Definition sodchan_wire_pong_encode := u32_pdu_encode SODCHAN_PDU_PONG.
Definition sodchan_wire_pong_decode := u32_pdu_decode SODCHAN_PDU_PONG.

(** ** DISCONNECT *)

(** The results are reason, message buffer and message length. *)
Definition sodchan_wire_disconnect_decode (pdu : option bytes) (msg_cap : Z)
    : res (Z * bytes * Z) :=
  let* pdu := nonnull pdu in
  if len pdu <? 6 then Fail SODCHAN_ERR_PROTOCOL else
  let* type := rd8 pdu 0 in
  if negb (type =? SODCHAN_PDU_DISCONNECT) then Fail SODCHAN_ERR_PROTOCOL else
  let* reason := sodchan_wire_get_u32 pdu 1 in
  let* mlen := rd8 pdu 5 in
  if negb (len pdu =? 6 + mlen) then Fail SODCHAN_ERR_PROTOCOL else
  let* msg := copy_field pdu 6 mlen msg_cap in
  Ok (reason, msg, mlen).

Definition sodchan_wire_disconnect_encode (reason : Z) (msg : option bytes) (msg_len : Z)
    (out : option bytes) : res (bytes * Z) :=
  let* out := nonnull out in
  if (255 <? msg_len) || (0 <? msg_len) && negb (isSome msg)
  then Fail SODCHAN_ERR_PARAM else
  let need := 1 + 4 + 1 + msg_len in
  if len out <? need then Fail SODCHAN_ERR_FULL else
  let* out := put_u8 out 0 SODCHAN_PDU_DISCONNECT in
  let* out := sodchan_wire_put_u32 out 1 reason in
  let* out := put_u8 out 5 msg_len in
  let* out := memcpy_if out 6 msg msg_len in
  Ok (out, need).

Definition sodchan_wire_pdu_type (pdu : option bytes) : res Z :=
  let* pdu := nonnull pdu in
  if len pdu =? 0 then Fail SODCHAN_ERR_PARAM else rd8 pdu 0.

(** ** Specification: the layouts of ADR 017 *)

Definition open_bytes (sender win pkt : Z) (name : bytes) : bytes :=
  [byte.of_Z SODCHAN_PDU_CHANNEL_OPEN] ++ be32 sender ++ be32 win ++ be32 pkt ++
  [byte.of_Z (len name)] ++ name.
Definition confirm_bytes (sender recipient win pkt : Z) : bytes :=
  [byte.of_Z SODCHAN_PDU_CHANNEL_OPEN_CONFIRM] ++ be32 sender ++ be32 recipient ++
  be32 win ++ be32 pkt.
Definition open_fail_bytes (recipient reason : Z) (msg : bytes) : bytes :=
  [byte.of_Z SODCHAN_PDU_CHANNEL_OPEN_FAIL] ++ be32 recipient ++ be32 reason ++
  [byte.of_Z (len msg)] ++ msg.
Definition data_bytes (recipient : Z) (data : bytes) : bytes :=
  [byte.of_Z SODCHAN_PDU_CHANNEL_DATA] ++ be32 recipient ++ be32 (len data) ++ data.
Definition window_bytes (recipient add : Z) : bytes :=
  [byte.of_Z SODCHAN_PDU_CHANNEL_WINDOW] ++ be32 recipient ++ be32 add.
Definition u32_pdu_bytes (type v : Z) : bytes := [byte.of_Z type] ++ be32 v.
Definition disconnect_bytes (reason : Z) (msg : bytes) : bytes :=
  [byte.of_Z SODCHAN_PDU_DISCONNECT] ++ be32 reason ++ [byte.of_Z (len msg)] ++ msg.

(** ** Encoders *)

(** The guards of an encoder hold, its stores go one after the other, and what
    is written is the layout. *)
Ltac encode_guards :=
  cbn [nonnull res_bind isSome negb]; rewrite ?andb_false_r, ?orb_false_r;
  repeat match goal with
  | |- (if ?c then Fail _ else _) = _ => replace c with false by solve_len
  end;
  lazymatch goal with
  | |- context [put_u8 ?out 0 _] => rewrite <- (app_nil_l out) at 1
  end.

Ltac encode_all :=
  repeat first
    [ encode_step
    | match goal with
      | |- context [memcpy_if _ _ (Some (?bs ++ _)) _] =>
          rewrite (memcpy_if_seq _ _ _ _ _ bs) by (first [solve_len | eauto])
      end; cbn [res_bind] ].

Ltac encode_finish :=
  rewrite ?drop_drop, ?length_app, ?app_nil_l, <- ?app_assoc; cbn [length be32 be16];
  repeat f_equal; solve [reflexivity | lia].

Lemma open_encode_ok (s w p : Z) (name t out : bytes) :
  len name <= 63 -> 14 + len name <= len out ->
  sodchan_wire_channel_open_encode s w p (Some (name ++ t)) (len name) (Some out) =
  Ok (open_bytes s w p name ++ drop (length (open_bytes s w p name)) out, 14 + len name).
Proof.
  intros. unfold sodchan_wire_channel_open_encode. encode_guards. encode_all.
  unfold open_bytes. encode_finish.
Qed.

Lemma confirm_encode_ok (s r w p : Z) (out : bytes) :
  17 <= len out ->
  sodchan_wire_channel_open_confirm_encode s r w p (Some out) =
  Ok (confirm_bytes s r w p ++ drop 17 out, 17).
Proof.
  intros. unfold sodchan_wire_channel_open_confirm_encode. encode_guards. encode_all.
  unfold confirm_bytes. encode_finish.
Qed.

Lemma open_fail_encode_ok (r reason : Z) (msg t out : bytes) :
  len msg <= 255 -> 10 + len msg <= len out ->
  sodchan_wire_channel_open_fail_encode r reason (Some (msg ++ t)) (len msg) (Some out) =
  Ok (open_fail_bytes r reason msg ++ drop (length (open_fail_bytes r reason msg)) out,
      10 + len msg).
Proof.
  intros. unfold sodchan_wire_channel_open_fail_encode. encode_guards. encode_all.
  unfold open_fail_bytes. encode_finish.
Qed.

Lemma open_fail_encode_null (r reason : Z) (out : bytes) :
  10 <= len out ->
  sodchan_wire_channel_open_fail_encode r reason None 0 (Some out) =
  Ok (open_fail_bytes r reason [] ++ drop 10 out, 10).
Proof.
  intros. unfold sodchan_wire_channel_open_fail_encode. encode_guards. encode_all.
  unfold memcpy_if. cbn [Z.eqb res_bind]. unfold open_fail_bytes. encode_finish.
Qed.

Lemma data_encode_ok `{SizeT} (r : Z) (data t out : bytes) :
  len data <= 4294967295 - 9 -> 9 + len data <= len out ->
  sodchan_wire_channel_data_encode r (Some (data ++ t)) (len data) (Some out) =
  Ok (data_bytes r data ++ drop (length (data_bytes r data)) out, 9 + len data).
Proof.
  intros. unfold sodchan_wire_channel_data_encode. rewrite size_t_small by lia.
  rewrite u32_small by lia. encode_guards. encode_all.
  unfold data_bytes. encode_finish.
Qed.

Lemma data_encode_null `{SizeT} (r : Z) (out : bytes) :
  9 <= len out ->
  sodchan_wire_channel_data_encode r None 0 (Some out) =
  Ok (data_bytes r [] ++ drop 9 out, 9).
Proof.
  intros. unfold sodchan_wire_channel_data_encode. rewrite size_t_small by lia.
  encode_guards. encode_all. unfold memcpy_if. cbn [Z.eqb res_bind].
  unfold data_bytes. encode_finish.
Qed.

Lemma window_encode_ok (r add : Z) (out : bytes) :
  9 <= len out ->
  sodchan_wire_channel_window_encode r add (Some out) =
  Ok (window_bytes r add ++ drop 9 out, 9).
Proof.
  intros. unfold sodchan_wire_channel_window_encode. encode_guards. encode_all.
  unfold window_bytes. encode_finish.
Qed.

Lemma u32_pdu_encode_ok (type v : Z) (out : bytes) :
  5 <= len out ->
  u32_pdu_encode type v (Some out) = Ok (u32_pdu_bytes type v ++ drop 5 out, 5).
Proof.
  intros. unfold u32_pdu_encode. encode_guards. encode_all.
  unfold u32_pdu_bytes. encode_finish.
Qed.

Lemma disconnect_encode_ok (reason : Z) (msg t out : bytes) :
  len msg <= 255 -> 6 + len msg <= len out ->
  sodchan_wire_disconnect_encode reason (Some (msg ++ t)) (len msg) (Some out) =
  Ok (disconnect_bytes reason msg ++ drop (length (disconnect_bytes reason msg)) out,
      6 + len msg).
Proof.
  intros. unfold sodchan_wire_disconnect_encode. encode_guards. encode_all.
  unfold disconnect_bytes. encode_finish.
Qed.

Lemma disconnect_encode_null (reason : Z) (out : bytes) :
  6 <= len out ->
  sodchan_wire_disconnect_encode reason None 0 (Some out) =
  Ok (disconnect_bytes reason [] ++ drop 6 out, 6).
Proof.
  intros. unfold sodchan_wire_disconnect_encode. encode_guards. encode_all.
  unfold memcpy_if. cbn [Z.eqb res_bind]. unfold disconnect_bytes. encode_finish.
Qed.

(** ** Encoding into an array of the size of the PDU *)

Lemma encoded_whole (bs : bytes) (k : nat) (n : Z) :
  k = length bs -> n = len bs -> Ok (bs ++ drop k (zeros (length bs)), n) = Ok (bs, len bs).
Proof.
  intros -> ->. rewrite drop_ge, app_nil_r; [done |]. unfold zeros. by rewrite length_replicate.
Qed.

(** [encode_whole E]: from [E], what the encoder writes into a large array. *)
Ltac encode_whole E :=
  intros; let H := fresh "H" in pose proof E as H; rewrite ?app_nil_r in H;
  rewrite H by (unfold zeros; rewrite ?length_replicate; cbn; solve_len || lia);
  apply encoded_whole; cbn; solve_len || lia.

Lemma open_encode_whole s w p name :
  len name <= 63 ->
  sodchan_wire_channel_open_encode s w p (Some name) (len name)
    (Some (zeros (length (open_bytes s w p name)))) =
  Ok (open_bytes s w p name, len (open_bytes s w p name)).
Proof. encode_whole (open_encode_ok s w p name []). Qed.

Lemma confirm_encode_whole s r w p :
  sodchan_wire_channel_open_confirm_encode s r w p
    (Some (zeros (length (confirm_bytes s r w p)))) =
  Ok (confirm_bytes s r w p, len (confirm_bytes s r w p)).
Proof. encode_whole (confirm_encode_ok s r w p). Qed.

Lemma open_fail_encode_whole r reason msg :
  len msg <= 255 ->
  sodchan_wire_channel_open_fail_encode r reason (Some msg) (len msg)
    (Some (zeros (length (open_fail_bytes r reason msg)))) =
  Ok (open_fail_bytes r reason msg, len (open_fail_bytes r reason msg)).
Proof. encode_whole (open_fail_encode_ok r reason msg []). Qed.

Lemma data_encode_whole `{SizeT} r data :
  len data <= 4294967295 - 9 ->
  sodchan_wire_channel_data_encode r (Some data) (len data)
    (Some (zeros (length (data_bytes r data)))) =
  Ok (data_bytes r data, len (data_bytes r data)).
Proof. encode_whole (data_encode_ok r data []). Qed.

Lemma window_encode_whole r add :
  sodchan_wire_channel_window_encode r add
    (Some (zeros (length (window_bytes r add)))) =
  Ok (window_bytes r add, len (window_bytes r add)).
Proof. encode_whole (window_encode_ok r add). Qed.

Lemma u32_pdu_encode_whole type v :
  u32_pdu_encode type v (Some (zeros (length (u32_pdu_bytes type v)))) =
  Ok (u32_pdu_bytes type v, len (u32_pdu_bytes type v)).
Proof. encode_whole (u32_pdu_encode_ok type v). Qed.

Lemma disconnect_encode_whole reason msg :
  len msg <= 255 ->
  sodchan_wire_disconnect_encode reason (Some msg) (len msg)
    (Some (zeros (length (disconnect_bytes reason msg)))) =
  Ok (disconnect_bytes reason msg, len (disconnect_bytes reason msg)).
Proof. encode_whole (disconnect_encode_ok reason msg []). Qed.

(** ** Decoders *)

(** A byte read as an integer is that integer's byte. *)
Lemma rd8_bytes (p : bytes) (off z : Z) :
  rd8 p off = Ok z -> 0 <= z < 256 /\ rd p off 1 = Ok [byte.of_Z z].
Proof.
  intros (b & Hb & ->)%rd8_ok. rewrite of_Z_unsigned. split; [apply unsigned_range | done].
Qed.

(** [decode_inv]: the reads of a successful decoder, as facts on its input. *)
Ltac decode_facts :=
  bprop;
  repeat match goal with
  | E : rd8 _ _ = Ok _ |- _ => apply rd8_bytes in E as [? E]
  | E : sodchan_wire_get_u32 _ _ = Ok _ |- _ => apply get_u32_ok in E as [? E]
  | E : (?x =? _) = true |- _ => apply Z.eqb_eq in E; try subst x
  end; consts.
Ltac decode_inv H := res_inv H; decode_facts.

Lemma open_decode_ok (b : bytes) (cap : Z) (r : channel_open_t) :
  sodchan_wire_channel_open_decode (Some b) cap = Ok r <->
  exists name,
    0 <= co_sender_channel r < 4294967296 /\ 0 <= co_init_window r < 4294967296 /\
    0 <= co_max_packet r < 4294967296 /\ len name <= 63 /\
    co_name r = field_buf name cap /\ co_name_len r = len name /\
    b = open_bytes (co_sender_channel r) (co_init_window r) (co_max_packet r) name.
Proof.
  unfold sodchan_wire_channel_open_decode. cbn [nonnull res_bind]. split.
  - intros H. decode_inv H. injection H as <-.
    apply copy_field_ok in E4 as (name & E4 & ->); [|lia.. ].
    pose proof (rd_len _ _ _ _ E4) as Hn. exists name. cbn.
    splits.
    epose proof (rd_cat _ _ _ _ _ _ E (rd_cat _ _ _ _ _ _ E0 (rd_cat _ _ _ _ _ _ E1
      (rd_cat _ _ _ _ _ _ E2 (rd_cat _ _ _ _ _ _ E3 E4))))) as R.
    apply rd_whole in R; [|lia]. rewrite R. unfold open_bytes. by rewrite Hn.
  - intros (name & Hs & Hw & Hp & Hn & En & El & ->).
    destruct r as [s w p nb nl].
    cbn [co_sender_channel co_init_window co_max_packet co_name co_name_len] in *. subst.
    unfold open_bytes. replace (_ <? _) with false by solve_len.
    decode_step. type_ok. do 4 decode_step. rewrite unsigned_of_Z_small by lia.
    replace (_ || _) with false by solve_len.
    rewrite (copy_field_rd _ name)
      by (repeat rewrite rd_skip by solve_len; apply rd_head_end; solve_len).
    done.
Qed.

Lemma confirm_decode_ok (b : bytes) (s r w p : Z) :
  sodchan_wire_channel_open_confirm_decode (Some b) = Ok (s, r, w, p) <->
  0 <= s < 4294967296 /\ 0 <= r < 4294967296 /\ 0 <= w < 4294967296 /\
  0 <= p < 4294967296 /\ b = confirm_bytes s r w p.
Proof.
  unfold sodchan_wire_channel_open_confirm_decode. cbn [nonnull res_bind]. split.
  - intros H. decode_inv H. injection H as <- <- <- <-.
    splits.
    epose proof (rd_cat _ _ _ _ _ _ E (rd_cat _ _ _ _ _ _ E0 (rd_cat _ _ _ _ _ _ E1
      (rd_cat _ _ _ _ _ _ E2 E3)))) as R.
    apply rd_whole in R; [|lia]. by rewrite R.
  - intros (Hs & Hr & Hw & Hp & ->). unfold confirm_bytes.
    replace (negb _) with false by solve_len.
    decode_step. type_ok. by do 4 decode_step.
Qed.

Lemma open_fail_decode_ok (b : bytes) (cap r reason : Z) (mb : bytes) (n : Z) :
  sodchan_wire_channel_open_fail_decode (Some b) cap = Ok (r, reason, mb, n) <->
  exists msg,
    0 <= r < 4294967296 /\ 0 <= reason < 4294967296 /\ len msg <= 255 /\
    mb = field_buf msg cap /\ n = len msg /\ b = open_fail_bytes r reason msg.
Proof.
  unfold sodchan_wire_channel_open_fail_decode. cbn [nonnull res_bind]. split.
  - intros H. decode_inv H. injection H as <- <- <- <-.
    apply copy_field_ok in E3 as (msg & E3 & ->); [|lia.. ].
    pose proof (rd_len _ _ _ _ E3) as Hn. exists msg.
    splits.
    epose proof (rd_cat _ _ _ _ _ _ E (rd_cat _ _ _ _ _ _ E0 (rd_cat _ _ _ _ _ _ E1
      (rd_cat _ _ _ _ _ _ E2 E3)))) as R.
    apply rd_whole in R; [|lia]. rewrite R. unfold open_fail_bytes. by rewrite Hn.
  - intros (msg & Hr & Hre & Hn & -> & -> & ->). unfold open_fail_bytes.
    replace (_ <? _) with false by solve_len.
    decode_step. type_ok. do 3 decode_step. rewrite unsigned_of_Z_small by lia.
    replace (negb _) with false by solve_len.
    rewrite (copy_field_rd _ msg)
      by (repeat rewrite rd_skip by solve_len; apply rd_head_end; solve_len).
    done.
Qed.

Lemma data_decode_ok `{SizeT} (b : bytes) (r : Z) (d : option bytes) (n : Z) :
  sodchan_wire_channel_data_decode (Some b) = Ok (r, d, n) ->
  exists data, 0 <= r < 4294967296 /\ n = len data /\ len data < 4294967296 /\
    d = (if 0 <? n then Some data else None) /\ b = data_bytes r data.
Proof.
  unfold sodchan_wire_channel_data_decode. cbn [nonnull res_bind]. intros H0.
  destruct (_ <? 9) eqn:H9; [done |].
  destruct (rd8 b 0) as [t | |] eqn:E; [| done | done]. cbn [res_bind] in H0.
  destruct (negb (t =? _)) eqn:Ht; [done |].
  destruct (sodchan_wire_get_u32 b 1) as [r' | |] eqn:E1; [| done | done]. cbn [res_bind] in H0.
  destruct (sodchan_wire_get_u32 b 5) as [dl | |] eqn:E2; [| done | done]. cbn [res_bind] in H0.
  destruct (negb (_ =? size_t _)) eqn:Hl; [done |].
  decode_facts.
  pose proof (size_t_no_wrap 9 dl (len b) ltac:(lia) ltac:(lia) Hl) as Hw.
  destruct (rd_in b 9 dl) as [data Hd]; [lia.. |]. pose proof (rd_len _ _ _ _ Hd) as Hn.
  rewrite Hd in H0. cbn [res_bind] in H0. exists data.
  assert (r = r' /\ n = dl /\ d = if 0 <? dl then Some data else None) as (-> & -> & ->)
    by (destruct (0 <? dl); by injection H0 as <- <- <-).
  splits.
  epose proof (rd_cat _ _ _ _ _ _ E (rd_cat _ _ _ _ _ _ E1 (rd_cat _ _ _ _ _ _ E2 Hd))) as R.
  apply rd_whole in R; [|lia]. rewrite R. unfold data_bytes. by rewrite Hn.
Qed.

Lemma data_decode_bytes `{SizeT} (r : Z) (data : bytes) :
  0 <= r < 4294967296 -> len data <= 4294967295 - 9 ->
  sodchan_wire_channel_data_decode (Some (data_bytes r data)) =
  Ok (r, if 0 <? len data then Some data else None, len data).
Proof.
  intros Hr Hd. unfold sodchan_wire_channel_data_decode. cbn [nonnull res_bind].
  unfold data_bytes. replace (_ <? 9) with false by solve_len.
  decode_step. type_ok. do 2 decode_step. rewrite size_t_small by lia.
  replace (negb _) with false by solve_len.
  destruct (0 <? len data); [|done]. by decode_step.
Qed.

Lemma data_decode_exact `{SizeT} (b : bytes) (r : Z) (d : option bytes) (n : Z) :
  len b <= 4294967295 ->
  sodchan_wire_channel_data_decode (Some b) = Ok (r, d, n) <->
  exists data, 0 <= r < 4294967296 /\ n = len data /\
    d = (if 0 <? n then Some data else None) /\ b = data_bytes r data.
Proof.
  intros Hb. split.
  - intros (data & ? & ? & _ & ? & ?)%data_decode_ok. by exists data.
  - intros (data & Hr & -> & -> & ->). apply data_decode_bytes; [done |].
    revert Hb. unfold data_bytes. rewrite !length_app, !length_be32. cbn [length]. lia.
Qed.

Lemma window_decode_ok (b : bytes) (r add : Z) :
  sodchan_wire_channel_window_decode (Some b) = Ok (r, add) <->
  0 <= r < 4294967296 /\ 0 <= add < 4294967296 /\ b = window_bytes r add.
Proof.
  unfold sodchan_wire_channel_window_decode. cbn [nonnull res_bind]. split.
  - intros H. decode_inv H. injection H as <- <-. splits.
    epose proof (rd_cat _ _ _ _ _ _ E (rd_cat _ _ _ _ _ _ E0 E1)) as R.
    apply rd_whole in R; [|lia]. by rewrite R.
  - intros (Hr & Ha & ->). unfold window_bytes.
    replace (negb _) with false by solve_len.
    decode_step. type_ok. by do 2 decode_step.
Qed.

Lemma u32_pdu_decode_ok (type : Z) (b : bytes) (v : Z) :
  0 <= type < 256 ->
  u32_pdu_decode type (Some b) = Ok v <->
  0 <= v < 4294967296 /\ b = u32_pdu_bytes type v.
Proof.
  intros Ht. unfold u32_pdu_decode. cbn [nonnull res_bind]. split.
  - intros H. decode_inv H. split; [lia |].
    epose proof (rd_cat _ _ _ _ _ _ E H) as R.
    apply rd_whole in R; [|lia]. by rewrite R.
  - intros (Hv & ->). unfold u32_pdu_bytes.
    replace (negb _) with false by solve_len.
    decode_step. rewrite unsigned_of_Z_small by lia. rewrite Z.eqb_refl. cbn [negb].
    rewrite get_u32_skip by solve_len. by rewrite get_u32_head_end by solve_len.
Qed.

Lemma disconnect_decode_ok (b : bytes) (cap reason : Z) (mb : bytes) (n : Z) :
  sodchan_wire_disconnect_decode (Some b) cap = Ok (reason, mb, n) <->
  exists msg,
    0 <= reason < 4294967296 /\ len msg <= 255 /\
    mb = field_buf msg cap /\ n = len msg /\ b = disconnect_bytes reason msg.
Proof.
  unfold sodchan_wire_disconnect_decode. cbn [nonnull res_bind]. split.
  - intros H. decode_inv H. injection H as <- <- <-.
    apply copy_field_ok in E2 as (msg & E2 & ->); [|lia.. ].
    pose proof (rd_len _ _ _ _ E2) as Hn. exists msg.
    splits.
    epose proof (rd_cat _ _ _ _ _ _ E (rd_cat _ _ _ _ _ _ E0 (rd_cat _ _ _ _ _ _ E1 E2))) as R.
    apply rd_whole in R; [|lia]. rewrite R. unfold disconnect_bytes. by rewrite Hn.
  - intros (msg & Hre & Hn & -> & -> & ->). unfold disconnect_bytes.
    replace (_ <? _) with false by solve_len.
    decode_step. type_ok. do 2 decode_step. rewrite unsigned_of_Z_small by lia.
    replace (negb _) with false by solve_len.
    rewrite (copy_field_rd _ msg)
      by (repeat rewrite rd_skip by solve_len; apply rd_head_end; solve_len).
    done.
Qed.

Lemma pdu_type_ok (b : bytes) (t : Z) :
  sodchan_wire_pdu_type (Some b) = Ok t <->
  exists x r, b = x :: r /\ t = byte.unsigned x.
Proof.
  unfold sodchan_wire_pdu_type. cbn [nonnull res_bind]. destruct b as [|x r].
  - split; [done |]. by intros (? & ? & ? & _).
  - cbn [length]. replace (_ =? 0) with false by lia. unfold rd8. cbn. split.
    + intros [= <-]. eauto.
    + by intros (? & ? & [= <- <-] & ->).
Qed.

(** *** Safety *)

Ltac decoder_safe := cbn [nonnull]; repeat (safe_step || safe_field).

Lemma open_decode_safe (b : option bytes) (cap : Z) :
  sodchan_wire_channel_open_decode b cap <> Oob.
Proof.
  destruct b as [b|]; [|done]. unfold sodchan_wire_channel_open_decode. decoder_safe.
Qed.

Lemma confirm_decode_safe (b : option bytes) :
  sodchan_wire_channel_open_confirm_decode b <> Oob.
Proof.
  destruct b as [b|]; [|done]. unfold sodchan_wire_channel_open_confirm_decode. decoder_safe.
Qed.

Lemma open_fail_decode_safe (b : option bytes) (cap : Z) :
  sodchan_wire_channel_open_fail_decode b cap <> Oob.
Proof.
  destruct b as [b|]; [|done]. unfold sodchan_wire_channel_open_fail_decode. decoder_safe.
Qed.

Lemma window_decode_safe (b : option bytes) : sodchan_wire_channel_window_decode b <> Oob.
Proof.
  destruct b as [b|]; [|done]. unfold sodchan_wire_channel_window_decode. decoder_safe.
Qed.

Lemma u32_pdu_decode_safe (type : Z) (b : option bytes) : u32_pdu_decode type b <> Oob.
Proof.
  destruct b as [b|]; [|done]. unfold u32_pdu_decode. decoder_safe.
  destruct (get_u32_in b 1) as [v ->]; [lia | lia | done].
Qed.

Lemma disconnect_decode_safe (b : option bytes) (cap : Z) :
  sodchan_wire_disconnect_decode b cap <> Oob.
Proof.
  destruct b as [b|]; [|done]. unfold sodchan_wire_disconnect_decode. decoder_safe.
Qed.

Lemma data_decode_safe `{SizeT} (b : option bytes) : sodchan_wire_channel_data_decode b <> Oob.
Proof.
  destruct b as [b|]; [|done]. unfold sodchan_wire_channel_data_decode. cbn [nonnull].
  do 5 safe_step.
  destruct (negb (_ =? size_t _)) eqn:Hl; [done |]. bprop.
  apply Z.eqb_eq, size_t_no_wrap in Hl; [|lia | lia].
  do 2 safe_step.
Qed.
