(* ===== verification/Crypto.v ===== *)
(** [src/sodchan_crypto.c] and the interface to libsodium.

    libsodium is not part of the repository: [Sodium] is the interface the
    source calls, and [SodiumSpec] the documented behaviour the theorems that
    need it rely on.  A function that answers a non-zero code answers [None]
    here; a function that draws randomness takes and returns the state of the
    generator.  [Toy] (in [Toy.v]) instantiates both. *)

From Stdlib Require Import ZArith Lia ZifyBool String.
From S2P Require Import Prelude Defs WireBase.
Local Open Scope Z_scope.
Local Open Scope sodchan_scope.

(** ** The interface to libsodium *)

Class Sodium : Type := {
  entropy : Type;
  gh_state : Type;
  ss_state : Type;
  (** The all-zero state of a context that has not been initialised. *)
  ss_state_zero : ss_state;
  TAG_MESSAGE : Z;
  TAG_REKEY : Z;
  TAG_FINAL : Z;
  sodium_init : Z;
  sodium_memcmp : bytes -> bytes -> Z;
  sodium_is_zero : bytes -> Z;
  crypto_sign_keypair : entropy -> option (bytes * bytes) * entropy;
  crypto_sign_seed_keypair : bytes -> option (bytes * bytes);
  crypto_sign_detached : bytes -> bytes -> option bytes;
  crypto_sign_verify_detached : bytes -> bytes -> bytes -> Z;
  crypto_hash_sha256 : bytes -> option bytes;
  (** The base64 characters (variant ORIGINAL_NO_PADDING), without the NUL. *)
  sodium_bin2base64 : bytes -> bytes;
  crypto_generichash_init : Z -> option gh_state;
  crypto_generichash_update : gh_state -> bytes -> option gh_state;
  crypto_generichash_final : gh_state -> Z -> option bytes;
  crypto_kx_keypair : entropy -> option (bytes * bytes) * entropy;
  (** Own public key, own secret key, peer's public key: the pair (rx, tx). *)
  crypto_kx_client_session_keys : bytes -> bytes -> bytes -> option (bytes * bytes);
  crypto_kx_server_session_keys : bytes -> bytes -> bytes -> option (bytes * bytes);
  crypto_secretstream_init_push : bytes -> entropy -> option (ss_state * bytes) * entropy;
  crypto_secretstream_init_pull : bytes -> bytes -> option ss_state;
  crypto_secretstream_push : ss_state -> bytes -> Z -> option (ss_state * bytes);
  crypto_secretstream_pull : ss_state -> bytes -> option (ss_state * bytes * Z)
}.

(** A key pair libsodium made. *)
Definition kx_pair `{Sodium} (pk sk : bytes) : Prop :=
  exists e e', crypto_kx_keypair e = (Some (pk, sk), e').

Definition sign_pair `{Sodium} (pk sk : bytes) : Prop :=
  (exists e e', crypto_sign_keypair e = (Some (pk, sk), e')) \/
  (exists seed, crypto_sign_seed_keypair seed = Some (pk, sk)).

Class SodiumSpec (S : Sodium) : Type := {
  tags_differ : TAG_MESSAGE <> TAG_FINAL /\ TAG_MESSAGE <> TAG_REKEY;
  memcmp_eq a b : length a = length b -> sodium_memcmp a b = 0 <-> a = b;
  sign_length m sk sig : crypto_sign_detached m sk = Some sig -> length sig = 64%nat;
  sign_verify pk sk m sig :
    sign_pair pk sk -> crypto_sign_detached m sk = Some sig ->
    crypto_sign_verify_detached sig m pk = 0;
  sign_pair_length pk sk : sign_pair pk sk -> length pk = 32%nat /\ length sk = 64%nat;
  base64_length d : length d = 32%nat -> length (sodium_bin2base64 d) = 43%nat;
  base64_no_nul d : Byte.x00 ∉ sodium_bin2base64 d;
  sha256_length m d : crypto_hash_sha256 m = Some d -> length d = 32%nat;
  generichash_length st n k : crypto_generichash_final st n = Some k -> len k = n;
  kx_length pk sk : kx_pair pk sk -> length pk = 32%nat /\ length sk = 32%nat;
  kx_session_length pk sk peer rx tx :
    crypto_kx_client_session_keys pk sk peer = Some (rx, tx) \/
    crypto_kx_server_session_keys pk sk peer = Some (rx, tx) ->
    length rx = 32%nat /\ length tx = 32%nat;
  kx_agree cpk csk spk ssk rx tx :
    kx_pair cpk csk -> kx_pair spk ssk ->
    crypto_kx_client_session_keys cpk csk spk = Some (rx, tx) ->
    crypto_kx_server_session_keys spk ssk cpk = Some (tx, rx);
  init_push_length key e st h e' :
    crypto_secretstream_init_push key e = (Some (st, h), e') -> length h = 24%nat;
  push_length st p tag st' ct :
    crypto_secretstream_push st p tag = Some (st', ct) -> length ct = (length p + 17)%nat;
  pull_length st ct st' p tag :
    crypto_secretstream_pull st ct = Some (st', p, tag) -> length ct = (length p + 17)%nat;
  (** [ss_synced st st']: a reader in state [st'] follows a writer in [st]. *)
  ss_synced : ss_state -> ss_state -> Prop;
  init_synced key e st h e' :
    crypto_secretstream_init_push key e = (Some (st, h), e') ->
    exists st', crypto_secretstream_init_pull h key = Some st' /\ ss_synced st st';
  push_pull st st' p tag st1 ct :
    ss_synced st st' -> crypto_secretstream_push st p tag = Some (st1, ct) ->
    exists st1', crypto_secretstream_pull st' ct = Some (st1', p, tag) /\ ss_synced st1 st1'
}.

(** The calls that are documented to succeed, do: libsodium is initialised, it
    makes keys, signatures, hashes and records, and a key exchange with a key
    it made itself is accepted. *)
Class SodiumWorks (S : Sodium) : Prop := {
  init_works : 0 <= sodium_init;
  kx_works e : exists pk sk e', crypto_kx_keypair e = (Some (pk, sk), e');
  sign_works m sk : exists sig, crypto_sign_detached m sk = Some sig;
  kx_client_works cpk csk spk ssk :
    kx_pair cpk csk -> kx_pair spk ssk ->
    exists keys, crypto_kx_client_session_keys cpk csk spk = Some keys;
  hash_works m1 m2 : exists st0 st1 st2 k,
    crypto_generichash_init 32 = Some st0 /\ crypto_generichash_update st0 m1 = Some st1 /\
    crypto_generichash_update st1 m2 = Some st2 /\ crypto_generichash_final st2 32 = Some k;
  init_push_works key e :
    exists st h e', crypto_secretstream_init_push key e = (Some (st, h), e');
  push_works st p : exists st' ct, crypto_secretstream_push st p TAG_MESSAGE = Some (st', ct)
}.

(** ** src/sodchan_crypto.c *)

(** The five magic bytes, [S], [C], [S], [K], 1. *)
Definition SODCHAN_SEED_MAGIC : bytes := lit "SCSK" ++ [Byte.x01].

Definition sodchan_seed_encode (seed out : option bytes) : res bytes :=
  let* seed := nonnull seed in
  let* out := nonnull out in
  let* out := put_u8 out 0 83 in
  let* out := put_u8 out 1 67 in
  let* out := put_u8 out 2 83 in
  let* out := put_u8 out 3 75 in
  let* out := put_u8 out 4 1 in
  memcpy out 5 seed 32.

Definition sodchan_seed_decode (blob : option bytes) : res bytes :=
  let* blob := nonnull blob in
  if negb (len blob =? SODCHAN_SEED_BLOB_LEN) then Fail SODCHAN_ERR_PARAM else
  let* b0 := rd8 blob 0 in
  let* b1 := rd8 blob 1 in
  let* b2 := rd8 blob 2 in
  let* b3 := rd8 blob 3 in
  let* b4 := rd8 blob 4 in
  if negb (b0 =? 83) || negb (b1 =? 67) || negb (b2 =? 83) || negb (b3 =? 75) || negb (b4 =? 1)
  then Fail SODCHAN_ERR_PARAM else
  rd blob 5 32.

Section Crypto.
Context `{Sodium}.

Definition sodchan_crypto_init : Z :=
  if sodium_init <? 0 then SODCHAN_ERR_CRYPTO else SODCHAN_OK.

Definition sodchan_keygen_device (e : entropy) : res (bytes * bytes) * entropy :=
  if negb (sodchan_crypto_init =? SODCHAN_OK) then (Fail SODCHAN_ERR_CRYPTO, e) else
  match crypto_sign_keypair e with
  | (Some (pk, sk), e) => (Ok (pk, sk), e)
  | (None, e) => (Fail SODCHAN_ERR_CRYPTO, e)
  end.

Definition sodchan_keygen_from_seed (seed : option bytes) : res (bytes * bytes) :=
  let* seed := nonnull seed in
  if negb (sodchan_crypto_init =? SODCHAN_OK) then Fail SODCHAN_ERR_CRYPTO else
  match crypto_sign_seed_keypair seed with
  | Some (pk, sk) => Ok (pk, sk)
  | None => Fail SODCHAN_ERR_CRYPTO
  end.

Definition sodchan_keygen_from_seed_blob (blob : option bytes) : res (bytes * bytes) :=
  let* seed := sodchan_seed_decode blob in
  sodchan_keygen_from_seed (Some seed).

Definition sodchan_pubkey_fingerprint_sha256 (pk out : option bytes) : res bytes :=
  let* pk := nonnull pk in
  let* out := nonnull out in
  if len out =? 0 then Fail SODCHAN_ERR_PARAM else
  if negb (sodchan_crypto_init =? SODCHAN_OK) then Fail SODCHAN_ERR_CRYPTO else
  let* m := rd pk 0 SODCHAN_PUBKEY_BYTES in
  match crypto_hash_sha256 m with
  | None => Fail SODCHAN_ERR_CRYPTO
  | Some digest =>
      let b64 := sodium_bin2base64 digest ++ [Byte.x00] in
      let need := 7 + strlen b64 + 1 in
      if len out <? need then Fail SODCHAN_ERR_PARAM else
      let* out := memcpy out 0 (lit "SHA256:") 7 in
      memcpy out 7 b64 (strlen b64 + 1)
  end.

Definition sodchan_crypto_ss_key_derive (kx_key dom : option bytes) : res bytes :=
  let* kx_key := nonnull kx_key in
  let* dom := nonnull dom in
  if negb (sodchan_crypto_init =? SODCHAN_OK) then Fail SODCHAN_ERR_CRYPTO else
  match crypto_generichash_init 32 with
  | None => Fail SODCHAN_ERR_CRYPTO
  | Some st =>
      let* k := rd kx_key 0 32 in
      match crypto_generichash_update st k with
      | None => Fail SODCHAN_ERR_CRYPTO
      | Some st =>
          match crypto_generichash_update st (cstr dom) with
          | None => Fail SODCHAN_ERR_CRYPTO
          | Some st =>
              match crypto_generichash_final st 32 with
              | None => Fail SODCHAN_ERR_CRYPTO
              | Some out_key => Ok out_key
              end
          end
      end
  end.
End Crypto.

(** ** Lemmas *)

Definition seed_blob (seed : bytes) : bytes := SODCHAN_SEED_MAGIC ++ seed.

Lemma seed_encode_ok (seed out : bytes) :
  length seed = 32%nat -> length out = 37%nat ->
  sodchan_seed_encode (Some seed) (Some out) = Ok (seed_blob seed).
Proof.
  intros Hs Ho. pose proof (rd_all seed) as Hr. replace (len seed) with 32 in Hr by lia.
  unfold sodchan_seed_encode. cbn [nonnull res_bind].
  rewrite <- (app_nil_l out) at 1. do 5 encode_step.
  erewrite memcpy_seq; [| solve_len | exact Hr | solve_len].
  rewrite !drop_drop, drop_ge by lia. by rewrite app_nil_r.
Qed.

Lemma seed_decode_ok (blob seed : bytes) :
  sodchan_seed_decode (Some blob) = Ok seed <->
  length seed = 32%nat /\ blob = seed_blob seed.
Proof.
  unfold sodchan_seed_decode. cbn [nonnull res_bind]. split.
  - intros Hd. res_inv Hd. bprop.
    repeat match goal with
    | E : rd8 _ _ = Ok ?v, V : (?v =? _) = true |- _ =>
        apply Z.eqb_eq in V; subst v; apply rd8_ok in E as (? & E & ?)
    end.
    pose proof (rd_len _ _ _ _ Hd). consts. split; [lia |].
    epose proof (rd_cat _ _ _ _ _ _ E (rd_cat _ _ _ _ _ _ E0 (rd_cat _ _ _ _ _ _ E1
      (rd_cat _ _ _ _ _ _ E2 (rd_cat _ _ _ _ _ _ E3 Hd))))) as R.
    apply rd_whole in R; [|lia]. rewrite R. unfold seed_blob, SODCHAN_SEED_MAGIC.
    repeat match goal with
    | V : _ = byte.unsigned ?x |- _ =>
        apply (f_equal byte.of_Z) in V; rewrite of_Z_unsigned in V; rewrite <- V; clear V
    end. done.
  - intros [Hl ->]. unfold seed_blob. rewrite length_app, Hl.
    replace (negb (_ =? SODCHAN_SEED_BLOB_LEN)) with false by done.
    change (SODCHAN_SEED_MAGIC ++ seed)
      with ([Byte.x53] ++ [Byte.x43] ++ [Byte.x53] ++ [Byte.x4b] ++ [Byte.x01] ++ seed).
    do 5 decode_step. change (_ || _) with false. cbv iota.
    repeat rewrite rd_skip by solve_len. by apply rd_head_end; solve_len.
Qed.

Lemma seed_decode_safe (blob : option bytes) : sodchan_seed_decode blob <> Oob.
Proof.
  destruct blob as [b|]; [|done]. unfold sodchan_seed_decode. cbn [nonnull].
  repeat safe_step. destruct (rd_in b 5 32) as [x ->]; [solve_len.. | done].
Qed.

Section CryptoFacts.
Context {S : Sodium} {Spec : SodiumSpec S}.

Lemma ss_key_derive_length (k dom key : bytes) :
  sodchan_crypto_ss_key_derive (Some k) (Some dom) = Ok key -> length key = 32%nat.
Proof.
  unfold sodchan_crypto_ss_key_derive. cbn [nonnull res_bind].
  destruct (negb _); [done |]. destruct (crypto_generichash_init 32); [|done].
  destruct (rd k 0 32); [| done | done]. cbn [res_bind].
  repeat (case_match; try discriminate). intros [= <-].
  match goal with Hf : crypto_generichash_final _ _ = _ |- _ => apply generichash_length in Hf end.
  lia.
Qed.

(** The fingerprint is a C string of at most 51 bytes with its NUL. *)
Lemma fingerprint_ok (pk out : bytes) (d : bytes) :
  0 <= sodium_init -> length pk = 32%nat -> 51 <= len out ->
  crypto_hash_sha256 pk = Some d ->
  exists t, sodchan_pubkey_fingerprint_sha256 (Some pk) (Some out) =
    Ok (lit "SHA256:" ++ sodium_bin2base64 d ++ [Byte.x00] ++ t).
Proof.
  intros Hi Hp Ho Hd. unfold sodchan_pubkey_fingerprint_sha256, sodchan_crypto_init.
  cbn [nonnull res_bind].
  replace (len out =? 0) with false by lia. replace (sodium_init <? 0) with false by lia.
  cbn [Z.eqb negb]. change (negb (SODCHAN_OK =? SODCHAN_OK)) with false. cbv iota.
  pose proof (rd_all pk) as Hr. replace (len pk) with 32 in Hr by lia.
  change SODCHAN_PUBKEY_BYTES with 32. rewrite Hr. cbn [res_bind]. rewrite Hd.
  pose proof (base64_no_nul d) as Hn. pose proof (base64_length d (sha256_length _ _ Hd)) as Hb.
  unfold strlen. rewrite cstr_app_nul, cstr_id by done. rewrite Hb.
  replace (len out <? _) with false by lia.
  change (memcpy out) with (memcpy ([] ++ out)).
  erewrite (memcpy_seq [] out _ (lit "SHA256:")); [| done | done | simpl; lia].
  cbn [res_bind].
  erewrite memcpy_seq; [ | done | apply rd_head_end; [done | rewrite length_app, Hb; done] | ].
  - eexists. by rewrite app_nil_l, <- !app_assoc.
  - rewrite length_drop, length_app, Hb. cbn [length]. change (length (lit "SHA256:")) with 7%nat. lia.
Qed.

(** A fingerprint that was computed is the base-64 form of a hash of the key. *)
Lemma fingerprint_string pk out fp :
  length pk = 32%nat -> len out = SODCHAN_FP_SHA256_MAX ->
  sodchan_pubkey_fingerprint_sha256 (Some pk) (Some out) = Ok fp ->
  exists d, crypto_hash_sha256 pk = Some d /\ cstr fp = lit "SHA256:" ++ sodium_bin2base64 d.
Proof.
  intros Hp Ho Hf. assert (0 <= sodium_init /\ isSome (crypto_hash_sha256 pk) = true) as [Hi Hh].
  { revert Hf. unfold sodchan_pubkey_fingerprint_sha256, sodchan_crypto_init. cbn [nonnull res_bind].
    rewrite Ho. change (SODCHAN_FP_SHA256_MAX =? 0) with false. cbv iota.
    destruct (sodium_init <? 0) eqn:E; [done |]. cbn [Z.eqb negb].
    change (negb (SODCHAN_OK =? SODCHAN_OK)) with false. cbv iota.
    rewrite (rd_all_eq pk SODCHAN_PUBKEY_BYTES) by (by rewrite Hp). cbn [res_bind].
    destruct (crypto_hash_sha256 pk); [| done]. split; [lia | done]. }
  destruct (crypto_hash_sha256 pk) as [d|] eqn:Ed; [| done]. exists d. split; [done |].
  destruct (fingerprint_ok pk out d Hi Hp) as [t Ht]; [rewrite Ho; vm_compute; done | done |].
  assert (fp = (lit "SHA256:" ++ sodium_bin2base64 d) ++ Byte.x00 :: t) as ->
    by (rewrite Ht in Hf; by injection Hf as <-).
  rewrite cstr_app_nul. apply cstr_id. intros Hin. apply elem_of_app in Hin as [Hin | Hin]; [| by apply (base64_no_nul d)].
  revert Hin. by apply (bool_decide_unpack (Byte.x00 ∉ lit "SHA256:")).
Qed.
End CryptoFacts.
