(* ===== verification/EventQueue.v ===== *)
(** The ring of events: [sodchan_i_queue_event] and the ring part of
    [sodchan_next_event] ([src/sodchan.c], lines 77 to 91 and 1336 to 1348).

    The ring refines a bounded first-in first-out list: [pending] is the list,
    [queue_pending], [queue_full] and [next_pending] the simulation. *)

From Stdlib Require Import ZArith Lia ZifyBool.
From S2P Require Import Prelude Defs.
Local Open Scope Z_scope.

(** The fields [events], [event_cap], [event_head] and [event_count] of
    [struct sodchan_ctx]. *)
Record evqueue : Type := mk_evqueue {
  events : list sodchan_event_t;
  event_cap : Z;
  event_head : Z;
  event_count : Z
}.

(** [calloc(cap, sizeof(sodchan_event_t))] and zero indices. *)
Definition evqueue_new (cap : Z) : evqueue :=
  mk_evqueue (replicate (Z.to_nat cap) EVENT_NONE) cap 0 0.

Definition sodchan_i_queue_event (q : evqueue) (ev : sodchan_event_t) : Z * evqueue :=
  if event_cap q <=? event_count q then (SODCHAN_ERR_FULL, q) else
  let idx := (event_head q + event_count q) mod event_cap q in
  (SODCHAN_OK,
   mk_evqueue (<[Z.to_nat idx := ev]> (events q)) (event_cap q) (event_head q)
     (event_count q + 1)).

Definition next_event (q : evqueue) : option sodchan_event_t * evqueue :=
  if event_count q =? 0 then (None, q) else
  (events q !! Z.to_nat (event_head q),
   mk_evqueue (events q) (event_cap q) ((event_head q + 1) mod event_cap q)
     (event_count q - 1)).

(** ** Specification *)

(** The slot of the [i]-th waiting event. *)
Definition slot (q : evqueue) (i : nat) : nat :=
  Z.to_nat ((event_head q + Z.of_nat i) mod event_cap q).

Definition pending (q : evqueue) : list sodchan_event_t :=
  map (fun i => nth (slot q i) (events q) EVENT_NONE) (seq 0 (Z.to_nat (event_count q))).

Record evq_wf (q : evqueue) : Prop := {
  evq_wf_size : len (events q) = event_cap q;
  evq_wf_cap : 0 < event_cap q;
  evq_wf_head : 0 <= event_head q < event_cap q;
  evq_wf_count : 0 <= event_count q <= event_cap q
}.

(** ** Lemmas *)

Lemma evqueue_new_wf (cap : Z) : 0 < cap -> evq_wf (evqueue_new cap).
Proof. intros. constructor; simpl; [rewrite length_replicate |..]; lia. Qed.

Lemma evqueue_new_pending (cap : Z) : pending (evqueue_new cap) = [].
Proof. done. Qed.

Lemma length_pending (q : evqueue) : evq_wf q -> len (pending q) = event_count q.
Proof. intros []. unfold pending. rewrite length_map, length_seq. lia. Qed.

Lemma queue_event_wf (q : evqueue) (ev : sodchan_event_t) :
  evq_wf q -> evq_wf (sodchan_i_queue_event q ev).2.
Proof.
  intros []. unfold sodchan_i_queue_event. destruct (_ <=? _) eqn:E; simpl; [done |].
  constructor; simpl; [rewrite length_insert |..]; lia.
Qed.

Lemma next_event_wf (q : evqueue) : evq_wf q -> evq_wf (next_event q).2.
Proof.
  intros []. unfold next_event. destruct (_ =? _) eqn:E; simpl; [done |].
  constructor; simpl; [lia | lia | | lia]. apply Z.mod_pos_bound. lia.
Qed.

(** Two positions less than a capacity apart fall in different slots. *)
Lemma slot_ne (q : evqueue) (i j : nat) :
  evq_wf q -> (i < j)%nat -> Z.of_nat j < Z.of_nat i + event_cap q -> slot q i <> slot q j.
Proof.
  intros [] Hij Hj. unfold slot. intros E.
  pose proof (Z.mod_pos_bound (event_head q + Z.of_nat i) (event_cap q) ltac:(lia)).
  pose proof (Z.mod_pos_bound (event_head q + Z.of_nat j) (event_cap q) ltac:(lia)).
  pose proof (Z.div_mod (event_head q + Z.of_nat i) (event_cap q) ltac:(lia)).
  pose proof (Z.div_mod (event_head q + Z.of_nat j) (event_cap q) ltac:(lia)).
  set (a := (event_head q + Z.of_nat i) / event_cap q) in *.
  set (b := (event_head q + Z.of_nat j) / event_cap q) in *.
  assert (Z.of_nat j - Z.of_nat i = event_cap q * (b - a)) as Hd by lia.
  assert (b - a <= 0 \/ 1 <= b - a) as [|] by lia; nia.
Qed.

Lemma slot_lt (q : evqueue) (i : nat) : evq_wf q -> (slot q i < length (events q))%nat.
Proof.
  intros []. unfold slot.
  pose proof (Z.mod_pos_bound (event_head q + Z.of_nat i) (event_cap q) ltac:(lia)). lia.
Qed.

(** Queueing appends when there is room. *)
Lemma queue_pending (q : evqueue) (ev : sodchan_event_t) :
  evq_wf q -> event_count q < event_cap q ->
  (sodchan_i_queue_event q ev).1 = SODCHAN_OK /\
  pending (sodchan_i_queue_event q ev).2 = pending q ++ [ev].
Proof.
  intros Hwf Hc. pose proof Hwf as [].
  unfold sodchan_i_queue_event. replace (_ <=? _) with false by lia. simpl.
  split; [done |]. unfold pending. simpl.
  replace (Z.to_nat (event_count q + 1)) with (S (Z.to_nat (event_count q))) by lia.
  rewrite seq_S, map_app. simpl.
  assert (Z.to_nat ((event_head q + event_count q) mod event_cap q) =
          slot q (Z.to_nat (event_count q))) as -> by (unfold slot; do 3 f_equal; lia).
  f_equal.
  - apply map_ext_in. intros i Hi%in_seq. unfold slot at 1. simpl. fold (slot q i).
    rewrite !nth_lookup, list_lookup_insert_ne; [done |].
    apply not_eq_sym, slot_ne; [done | lia | lia].
  - f_equal. unfold slot at 1. simpl. fold (slot q (Z.to_nat (event_count q))).
    rewrite nth_lookup, list_lookup_insert_eq; [done |]. by apply slot_lt.
Qed.

(** A full ring refuses the event and keeps what it holds. *)
Lemma queue_full (q : evqueue) (ev : sodchan_event_t) :
  evq_wf q -> event_count q = event_cap q ->
  sodchan_i_queue_event q ev = (SODCHAN_ERR_FULL, q).
Proof. intros [] Hc. unfold sodchan_i_queue_event. by replace (_ <=? _) with true by lia. Qed.

(** [ring_gets q ev q']: with room in the ring [q], [ev] is behind its pending
    events in [q']; a full ring drops it. *)
Definition ring_gets (q : evqueue) (ev : sodchan_event_t) (q' : evqueue) : Prop :=
  (event_count q < event_cap q -> pending q' = pending q ++ [ev]) /\
  (event_count q = event_cap q -> q' = q).

Lemma queue_gets (q : evqueue) (ev : sodchan_event_t) :
  evq_wf q -> ring_gets q ev (sodchan_i_queue_event q ev).2.
Proof. intros Hq. split; intros Hc; [by apply queue_pending | by rewrite queue_full]. Qed.

(** The host reads the oldest event. *)
Lemma next_pending (q : evqueue) :
  evq_wf q ->
  match pending q with
  | [] => next_event q = (None, q)
  | ev :: rest => (next_event q).1 = Some ev /\ pending (next_event q).2 = rest
  end.
Proof.
  intros Hwf. pose proof Hwf as []. unfold next_event.
  destruct (event_count q =? 0) eqn:E.
  - unfold pending. replace (Z.to_nat (event_count q)) with 0%nat by lia. done.
  - unfold pending. destruct (Z.to_nat (event_count q)) as [|n] eqn:Hn; [lia |].
    simpl. split.
    + rewrite nth_lookup. unfold slot. rewrite Z.add_0_r, Z.mod_small by lia.
      destruct (events q !! Z.to_nat (event_head q)) eqn:Hl; [done |].
      apply lookup_ge_None in Hl. lia.
    + replace (Z.to_nat (event_count q - 1)) with n by lia.
      rewrite <- seq_shift, map_map. apply map_ext. intros i. f_equal.
      unfold slot. simpl. rewrite Zplus_mod_idemp_l. do 2 f_equal. lia.
Qed.

(** Whatever happens, queueing keeps the waiting events as a prefix. *)
Lemma queue_event_prefix (q : evqueue) (ev : sodchan_event_t) :
  evq_wf q ->
  pending (sodchan_i_queue_event q ev).2 = pending q \/
  pending (sodchan_i_queue_event q ev).2 = pending q ++ [ev].
Proof.
  intros Hwf. pose proof Hwf as []. destruct (Z.eq_dec (event_count q) (event_cap q)).
  - left. by rewrite queue_full.
  - right. apply queue_pending; [done | lia].
Qed.

#[export] Hint Resolve evqueue_new_wf queue_event_wf next_event_wf : sodchan.
