(* ===== verification/OutBuf.v ===== *)
(** The output buffer: [out_compact], [out_append], [out_append_frame] and the
    body of [sodchan_get_output] ([src/sodchan.c], lines 93 to 132 and 1313 to
    1334).

    [out_buf] is the initialised prefix of the C array, so that its length is
    the field [out_len]; the bytes behind it are never read.  The buffer
    refines a byte stream: [unread] is what the host has still to drain. *)

From Stdlib Require Import ZArith Lia ZifyBool.
From S2P Require Import Prelude Defs WireBase.
Local Open Scope Z_scope.
Local Open Scope sodchan_scope.

Record outbuf : Type := mk_outbuf {
  out_buf : bytes;
  out_off : Z
}.

Abbreviation out_len b := (len (out_buf b)).

Definition outbuf_empty : outbuf := mk_outbuf [] 0.

Definition out_compact (b : outbuf) : outbuf :=
  if out_off b =? 0 then b else
  if out_len b <=? out_off b then mk_outbuf [] 0 else
  mk_outbuf (drop (Z.to_nat (out_off b)) (out_buf b)) 0.

Definition out_append (b : outbuf) (p : bytes) : Z * outbuf :=
  let b := out_compact b in
  if SODCHAN_OUT_BUF_SIZE - out_len b <? len p then (SODCHAN_ERR_FULL, b) else
  (SODCHAN_OK, mk_outbuf (out_buf b ++ p) (out_off b)).

Definition out_append_frame `{SizeT} (b : outbuf) (body : bytes) : Z * outbuf :=
  let frame := zeros (4 + 512) in
  match sodchan_wire_frame_encode (Some body) (Some frame) with
  | Ok (frame, flen) =>
      match rd frame 0 flen with
      | Ok p => out_append b p
      | _ => (SODCHAN_ERR_PARAM, b)
      end
  | Fail rc => (rc, b)
  | Oob => (SODCHAN_ERR_PARAM, b)
  end.

(** [sodchan_get_output(ctx, buf, max_len)]: the bytes stored in [buf]; their
    number is the return value.  A NULL [buf] gives 0. *)
Definition get_output (b : outbuf) (max_len : Z) : bytes * outbuf :=
  if max_len =? 0 then ([], b) else
  if out_len b <=? out_off b then ([], b) else
  let n := out_len b - out_off b in
  let n := if max_len <? n then max_len else n in
  let buf := take (Z.to_nat n) (drop (Z.to_nat (out_off b)) (out_buf b)) in
  let out_off := out_off b + n in
  if out_len b <=? out_off then (buf, mk_outbuf [] 0) else
  (buf, mk_outbuf (out_buf b) out_off).

(** ** Specification *)

Definition unread (b : outbuf) : bytes := drop (Z.to_nat (out_off b)) (out_buf b).

Record out_wf (b : outbuf) : Prop := {
  out_wf_off : 0 <= out_off b <= out_len b;
  out_wf_len : out_len b <= SODCHAN_OUT_BUF_SIZE
}.

(** ** Lemmas *)

Lemma outbuf_empty_wf : out_wf outbuf_empty.
Proof. constructor; simpl; consts; lia. Qed.

Lemma out_compact_spec (b : outbuf) :
  out_wf b -> out_compact b = mk_outbuf (unread b) 0.
Proof.
  intros []. unfold out_compact, unread. destruct (out_off b =? 0) eqn:E0.
  - destruct b as [buf off]. simpl in *. assert (off = 0) as -> by lia. done.
  - destruct (_ <=? _) eqn:E1; [|done]. by rewrite drop_ge by lia.
Qed.

Lemma length_unread (b : outbuf) : out_wf b -> len (unread b) = out_len b - out_off b.
Proof. intros []. unfold unread. rewrite length_drop. lia. Qed.

Lemma out_compact_wf (b : outbuf) : out_wf b -> out_wf (out_compact b).
Proof.
  intros Hwf. rewrite out_compact_spec by done. pose proof (length_unread b Hwf).
  destruct Hwf. constructor; simpl; lia.
Qed.

Lemma out_compact_unread (b : outbuf) : out_wf b -> unread (out_compact b) = unread b.
Proof. intros. by rewrite out_compact_spec. Qed.

(** Appending is all or nothing, and accepts what fits. *)
Lemma out_append_spec (b : outbuf) (p : bytes) :
  out_wf b ->
  out_append b p =
    (if SODCHAN_OUT_BUF_SIZE <? len (unread b) + len p
     then (SODCHAN_ERR_FULL, mk_outbuf (unread b) 0)
     else (SODCHAN_OK, mk_outbuf (unread b ++ p) 0)).
Proof.
  intros Hwf. unfold out_append. rewrite out_compact_spec by done. simpl.
  replace (_ - _ <? len p) with (SODCHAN_OUT_BUF_SIZE <? len (unread b) + len p) by lia.
  done.
Qed.

Lemma out_append_wf (b : outbuf) (p : bytes) : out_wf b -> out_wf (out_append b p).2.
Proof.
  intros Hwf. rewrite out_append_spec by done. pose proof (length_unread b Hwf).
  destruct Hwf. destruct (_ <? _) eqn:E; constructor; simpl; rewrite ?length_app; lia.
Qed.

Lemma out_append_unread (b : outbuf) (p : bytes) :
  out_wf b ->
  unread (out_append b p).2 =
    if (out_append b p).1 =? SODCHAN_OK then unread b ++ p else unread b.
Proof. intros Hwf. rewrite out_append_spec by done. by destruct (_ <? _). Qed.

(** A clear frame goes out whole, or nothing does. *)
Lemma out_append_frame_spec `{SizeT} (b : outbuf) (body : bytes) :
  0 < len body <= SODCHAN_MAX_CLEAR_FRAME ->
  out_append_frame b body = out_append b (frame_bytes body).
Proof.
  intros Hb. unfold out_append_frame, sodchan_wire_frame_encode. consts.
  rewrite frame_encode_max_ok;
    [| lia | unfold frame_limit; lia | unfold zeros; rewrite length_replicate; lia].
  rewrite rd_head; [done | done |]. by rewrite length_frame_bytes.
Qed.

Lemma out_append_frame_wf `{SizeT} (b : outbuf) (body : bytes) :
  out_wf b -> out_wf (out_append_frame b body).2.
Proof.
  intros Hwf. unfold out_append_frame.
  repeat case_match; try done. by apply out_append_wf.
Qed.

Lemma get_output_wf (b : outbuf) (n : Z) : 0 <= n -> out_wf b -> out_wf (get_output b n).2.
Proof.
  intros Hn Hwf. pose proof Hwf as []. unfold get_output.
  destruct (n =? 0) eqn:E0; [done |]. destruct (_ <=? out_off b) eqn:E1; [done |].
  case_match; [apply outbuf_empty_wf |]. constructor; simpl; [|lia].
  destruct (n <? _); lia.
Qed.

(** Draining takes the oldest bytes, at most [n] of them, and never nothing
    when something waits and [n > 0]. *)
Lemma get_output_stream (b : outbuf) (n : Z) :
  0 <= n -> out_wf b ->
  unread b = (get_output b n).1 ++ unread (get_output b n).2 /\
  len (get_output b n).1 = Z.min n (len (unread b)).
Proof.
  intros Hn Hwf. pose proof (length_unread b Hwf) as Hl. pose proof Hwf as [].
  unfold get_output.
  destruct (n =? 0) eqn:E0; [simpl; split; [done | lia] |].
  destruct (_ <=? out_off b) eqn:E1; [simpl; split; [done | lia] |].
  set (m := if n <? _ then n else _).
  assert (m = Z.min n (len (unread b))) as Hm by (subst m; destruct (n <? _) eqn:?; lia).
  fold (unread b).
  assert (len (take (Z.to_nat m) (unread b)) = m) as Ht by (rewrite length_take; lia).
  destruct (_ <=? out_off b + m) eqn:E2; simpl.
  - split; [|lia]. rewrite take_ge by lia. unfold unread at 2. simpl. by rewrite app_nil_r.
  - split; [|lia]. unfold unread at 3. simpl.
    replace (Z.to_nat (out_off b + m)) with (Z.to_nat (out_off b) + Z.to_nat m)%nat by lia.
    rewrite <- drop_drop. fold (unread b). by rewrite take_drop.
Qed.

#[export] Hint Resolve outbuf_empty_wf out_compact_wf out_append_wf out_append_frame_wf
  get_output_wf : sodchan.
