(* ===== verification/Channels.v ===== *)
(** The channel table and the allowlist: [ch_by_local], [ch_alloc], [ch_free]
    and [channel_name_allowed] ([src/sodchan.c], lines 375 to 443), with the
    table's fields of [struct sodchan_ctx].

    A [sodchan_channel_t *] into the table is the index of its slot.  The table
    refines a finite partial function from local ids to channels,
    [ch_lookup]; [table_ids] is the invariant that makes it one. *)

From Stdlib Require Import ZArith Lia ZifyBool String.
From S2P Require Import Prelude Defs.
Local Open Scope Z_scope.
Local Open Scope sodchan_scope.

(** ** The table *)

(** [sodchan_channel_t]; [ch_name] is the string the array holds. *)
Record sodchan_channel_t : Type := mk_channel {
  ch_state : sodchan_ch_state_t;
  local_id : Z;
  peer_id : Z;
  ch_have_peer_id : bool;
  ch_name : bytes;
  send_window : Z;
  recv_window : Z;
  ch_max_packet : Z;
  local_eof : bool;
  remote_eof : bool
}.

Definition channel_eta (ch : sodchan_channel_t) : sodchan_channel_t :=
  mk_channel (ch_state ch) (local_id ch) (peer_id ch) (ch_have_peer_id ch) (ch_name ch)
    (send_window ch) (recv_window ch) (ch_max_packet ch) (local_eof ch) (remote_eof ch).

#[export] Instance set_ch_state : Field ch_state := ltac:(field_of channel_eta ch_state).
#[export] Instance set_peer_id : Field peer_id := ltac:(field_of channel_eta peer_id).
#[export] Instance set_have_peer_id : Field ch_have_peer_id :=
  ltac:(field_of channel_eta ch_have_peer_id).
#[export] Instance set_ch_name : Field ch_name := ltac:(field_of channel_eta ch_name).
#[export] Instance set_send_window : Field send_window :=
  ltac:(field_of channel_eta send_window).
#[export] Instance set_recv_window : Field recv_window :=
  ltac:(field_of channel_eta recv_window).
#[export] Instance set_ch_max_packet : Field ch_max_packet :=
  ltac:(field_of channel_eta ch_max_packet).
#[export] Instance set_local_eof : Field local_eof := ltac:(field_of channel_eta local_eof).
#[export] Instance set_remote_eof : Field remote_eof := ltac:(field_of channel_eta remote_eof).

(** A channel set to zero. *)
Definition channel_zero : sodchan_channel_t :=
  mk_channel SODCHAN_CH_UNUSED 0 0 false [] 0 0 0 false false.

Record chtable : Type := mk_chtable {
  channels : list sodchan_channel_t;
  next_local_channel_id : Z;
  active_channels : Z
}.

Definition chtable_empty : chtable :=
  mk_chtable (replicate SODCHAN_MAX_CHANNELS channel_zero) 0 0.

Definition used (ch : sodchan_channel_t) : bool :=
  negb (bool_decide (ch_state ch = SODCHAN_CH_UNUSED)).

(** [ctx->channels\[i\]] *)
Definition ch_at (t : chtable) (i : nat) : sodchan_channel_t :=
  nth i (channels t) channel_zero.

(** [*ch = v] *)
Definition ch_set (t : chtable) (i : nat) (v : sodchan_channel_t) : chtable :=
  mk_chtable (<[i := v]> (channels t)) (next_local_channel_id t) (active_channels t).

(** The loop over the slots, from [i] on. *)
Fixpoint ch_scan (p : sodchan_channel_t -> bool) (l : list sodchan_channel_t) (i : nat)
    : option nat :=
  match l with
  | [] => None
  | ch :: l' => if p ch then Some i else ch_scan p l' (S i)
  end.

Definition ch_by_local (t : chtable) (id : Z) : option nat :=
  ch_scan (fun ch => used ch && (local_id ch =? id)) (channels t) 0.

Definition ch_alloc (t : chtable) (max_channels : Z) : option nat * chtable :=
  if max_channels <=? active_channels t then (None, t) else
  match ch_scan (fun ch => negb (used ch)) (channels t) 0 with
  | Some i =>
      let ch := mk_channel SODCHAN_CH_UNUSED (next_local_channel_id t) 0 false [] 0 0 0
                  false false in
      (Some i,
       mk_chtable (<[i := ch]> (channels t)) (u32 (next_local_channel_id t + 1))
         (u32 (active_channels t + 1)))
  | None => (None, t)
  end.

Definition ch_free (t : chtable) (i : nat) : chtable :=
  if bool_decide (ch_state (ch_at t i) = SODCHAN_CH_UNUSED) then t else
  mk_chtable (<[i := channel_zero]> (channels t)) (next_local_channel_id t)
    (if 0 <? active_channels t then active_channels t - 1 else active_channels t).

(** [sodchan_channel_window_avail]: the first open channel with the id. *)
Definition window_avail (t : chtable) (id : Z) : Z :=
  match ch_scan (fun ch => bool_decide (ch_state ch = SODCHAN_CH_OPEN) && (local_id ch =? id))
          (channels t) 0 with
  | Some i => send_window (ch_at t i)
  | None => 0
  end.

(** ** The allowlist *)

Definition comma : byte := Byte.x2c.

(** [strchr(p, ',') - p] *)
Fixpoint strchr_comma (p : bytes) : option nat :=
  match p with
  | [] => None
  | b :: p' => if decide (b = comma) then Some 0%nat else S <$> strchr_comma p'
  end.

(** The loop of [channel_name_allowed]; every turn consumes a character, so
    that the length of the list bounds the turns. *)
Fixpoint name_scan (fuel : nat) (p name : bytes) : bool :=
  match fuel with
  | O => false
  | S fuel =>
      match p with
      | [] => false
      | _ =>
          let comma := strchr_comma p in
          let seglen := match comma with Some k => k | None => length p end in
          if (Nat.eqb seglen (length name)) && bool_decide (take seglen p = name) then true else
          match comma with
          | None => false
          | Some k => name_scan fuel (drop (S k) p) name
          end
      end
  end.

Definition channel_name_allowed (allowed : option bytes) (name : bytes) : bool :=
  let name := cstr name in
  if bool_decide (name = []) then false else
  let list := cstr (match allowed with
                    | Some l => l
                    | None => SODCHAN_DEFAULT_ALLOWED_CHANNELS
                    end) in
  name_scan (S (length list)) list name.

(** ** Specification *)

(** The segments of a comma-separated list. *)
Fixpoint split_comma (s : bytes) : list bytes :=
  match s with
  | [] => [[]]
  | b :: s' =>
      if decide (b = comma) then [] :: split_comma s' else
      match split_comma s' with
      | [] => [[b]]
      | seg :: rest => (b :: seg) :: rest
      end
  end.

(** The channel the API and the peer mean by a local id. *)
Definition ch_lookup (t : chtable) (id : Z) : option sodchan_channel_t :=
  ch_at t <$> ch_by_local t id.

Definition count_used (l : list sodchan_channel_t) : nat := length (List.filter used l).

Record table_wf (t : chtable) : Prop := {
  table_wf_length : length (channels t) = SODCHAN_MAX_CHANNELS;
  table_wf_active : active_channels t = Z.of_nat (count_used (channels t));
  table_wf_windows : Forall (fun ch =>
    0 <= local_id ch < 4294967296 /\ 0 <= peer_id ch < 4294967296 /\
    0 <= send_window ch < 4294967296 /\ 0 <= recv_window ch < 4294967296 /\
    0 <= ch_max_packet ch < 4294967296) (channels t);
  table_wf_next : 0 <= next_local_channel_id t < 4294967296
}.

(** Used slots carry different ids, all below the next one to be given. *)
Record table_ids (t : chtable) : Prop := {
  table_ids_unique i j ci cj :
    channels t !! i = Some ci -> channels t !! j = Some cj ->
    used ci = true -> used cj = true -> local_id ci = local_id cj -> i = j;
  table_ids_next i ci :
    channels t !! i = Some ci -> used ci = true -> local_id ci < next_local_channel_id t
}.

(** ** Lemmas on the scan *)

Lemma ch_scan_some (p : sodchan_channel_t -> bool) (l : list sodchan_channel_t) (i k : nat) :
  ch_scan p l i = Some k <->
  exists j c, k = (i + j)%nat /\ l !! j = Some c /\ p c = true /\
    forall j' c', (j' < j)%nat -> l !! j' = Some c' -> p c' = false.
Proof.
  revert i. induction l as [|ch l IH]; intros i; simpl.
  - split; [done |]. intros (j & c & _ & Hj & _). by destruct j.
  - destruct (p ch) eqn:Hp.
    + split.
      * intros [= <-]. exists 0%nat, ch. split_and!; [lia | done | done | lia].
      * intros (j & c & -> & Hj & Hc & Hmin). destruct j as [|j]; [f_equal; lia |].
        specialize (Hmin 0%nat ch ltac:(lia) eq_refl). congruence.
    + rewrite IH. split.
      * intros (j & c & -> & Hj & Hc & Hmin). exists (S j), c.
        split_and!; [lia | done | done |]. intros [|j'] c' Hlt Hc'; [by injection Hc' as <- |].
        apply (Hmin j'); [lia | done].
      * intros ([|j] & c & -> & Hj & Hc & Hmin); [simpl in Hj; congruence |].
        exists j, c. split_and!; [lia | done | done |].
        intros j' c' Hlt Hc'. apply (Hmin (S j')); [lia | done].
Qed.

Lemma ch_scan_none (p : sodchan_channel_t -> bool) (l : list sodchan_channel_t) (i : nat) :
  ch_scan p l i = None <-> forall j c, l !! j = Some c -> p c = false.
Proof.
  revert i. induction l as [|ch l IH]; intros i; simpl.
  - split; [|done]. intros _ j c Hj. by destruct j.
  - destruct (p ch) eqn:Hp.
    + split; [done |]. intros Hall. specialize (Hall 0%nat ch eq_refl). congruence.
    + rewrite IH. split.
      * intros Hall [|j] c Hj; [by injection Hj as <- | by apply (Hall j)].
      * intros Hall j c Hj. by apply (Hall (S j)).
Qed.

Lemma ch_at_lookup (t : chtable) (i : nat) (ch : sodchan_channel_t) :
  channels t !! i = Some ch -> ch_at t i = ch.
Proof. intros H. unfold ch_at. by rewrite nth_lookup, H. Qed.

(** What a found id is: a used slot with that id. *)
Lemma ch_by_local_some (t : chtable) (id : Z) (i : nat) :
  ch_by_local t id = Some i ->
  channels t !! i = Some (ch_at t i) /\ used (ch_at t i) = true /\ local_id (ch_at t i) = id.
Proof.
  unfold ch_by_local. intros (j & c & -> & Hj & Hc & _)%ch_scan_some. simpl.
  rewrite (ch_at_lookup _ _ _ Hj). apply andb_true_iff in Hc as [? ?%Z.eqb_eq]. done.
Qed.

Lemma ch_lookup_some (t : chtable) (id : Z) (ch : sodchan_channel_t) :
  table_ids t ->
  ch_lookup t id = Some ch <->
  exists i, channels t !! i = Some ch /\ used ch = true /\ local_id ch = id.
Proof.
  intros Hids. unfold ch_lookup. split.
  - destruct (ch_by_local t id) as [i|] eqn:E; [|done]. simpl. intros [= <-].
    apply ch_by_local_some in E. eauto.
  - intros (i & Hi & Hu & Hid). destruct (ch_by_local t id) as [k|] eqn:E; simpl.
    + apply ch_by_local_some in E as (Hk & Huk & Hidk).
      assert (k = i) as -> by (eapply table_ids_unique; eauto; congruence).
      congruence.
    + unfold ch_by_local in E. rewrite ch_scan_none in E. specialize (E i ch Hi).
      rewrite Hu, Hid, Z.eqb_refl in E. done.
Qed.

Lemma ch_lookup_none (t : chtable) (id : Z) :
  ch_lookup t id = None <->
  forall i ch, channels t !! i = Some ch -> used ch = true -> local_id ch <> id.
Proof.
  unfold ch_lookup. rewrite fmap_None. unfold ch_by_local. rewrite ch_scan_none.
  split; intros Hall i ch Hi.
  - intros Hu Hid. specialize (Hall i ch Hi). rewrite Hu, Hid, Z.eqb_refl in Hall. done.
  - specialize (Hall i ch Hi). destruct (used ch); [|done]. simpl.
    apply Z.eqb_neq. by apply Hall.
Qed.

(** ** Counting *)

Lemma count_used_insert (l : list sodchan_channel_t) (i : nat) (c v : sodchan_channel_t) :
  l !! i = Some c ->
  (count_used (<[i := v]> l) + Nat.b2n (used c) = count_used l + Nat.b2n (used v))%nat.
Proof.
  intros Hi. assert (i < length l)%nat as Hlt by (by eapply lookup_lt_Some).
  rewrite insert_take_drop by done.
  rewrite <- (take_drop_middle _ _ _ Hi) at 3.
  unfold count_used. rewrite !List.filter_app, !length_app. simpl.
  destruct (used c), (used v); simpl; lia.
Qed.

Lemma count_used_le (l : list sodchan_channel_t) : (count_used l <= length l)%nat.
Proof. apply List.filter_length_le. Qed.

Lemma used_zero : used channel_zero = false.
Proof. done. Qed.

Lemma table_empty_wf : table_wf chtable_empty.
Proof.
  constructor; try done. simpl. repeat constructor; simpl; lia.
Qed.

Lemma table_empty_ids : table_ids chtable_empty.
Proof.
  constructor.
  - intros i j ci cj Hi Hj Hu. apply lookup_replicate in Hi as [-> _]. done.
  - intros i ci Hi Hu. apply lookup_replicate in Hi as [-> _]. done.
Qed.

(** A table whose first slot alone is in use. *)
Lemma table_ids_one (t : chtable) (ch : sodchan_channel_t) (n : nat) :
  channels t = ch :: replicate n channel_zero -> local_id ch < next_local_channel_id t ->
  table_ids t.
Proof.
  intros Ht Hn.
  assert (forall i ci, channels t !! i = Some ci -> used ci = true -> i = 0%nat /\ ci = ch)
    as Hi.
  { intros [|i] ci; rewrite Ht; simpl; [by intros [= <-] |].
    intros Hi Hu. apply lookup_replicate in Hi as [-> _]. done. }
  constructor.
  - intros i j ci cj Hci Hcj Hu Hu' _. destruct (Hi _ _ Hci Hu), (Hi _ _ Hcj Hu'). congruence.
  - intros i ci Hci Hu. by destruct (Hi _ _ Hci Hu) as [_ ->].
Qed.

(** ** Updates *)

Definition channel_ranges (ch : sodchan_channel_t) : Prop :=
  0 <= local_id ch < 4294967296 /\ 0 <= peer_id ch < 4294967296 /\
  0 <= send_window ch < 4294967296 /\ 0 <= recv_window ch < 4294967296 /\
  0 <= ch_max_packet ch < 4294967296.

Lemma ch_at_ranges (t : chtable) (i : nat) : table_wf t -> channel_ranges (ch_at t i).
Proof.
  intros []. unfold ch_at. rewrite nth_lookup.
  destruct (channels t !! i) as [c|] eqn:E; simpl.
  - by apply (proj1 (Forall_lookup _ _) table_wf_windows0 i).
  - unfold channel_ranges. simpl. lia.
Qed.

Lemma ch_set_wf (t : chtable) (i : nat) (c v : sodchan_channel_t) :
  table_wf t -> channels t !! i = Some c -> used v = used c -> channel_ranges v ->
  table_wf (ch_set t i v).
Proof.
  intros [] Hi Hu Hr. pose proof (count_used_insert _ i _ v Hi) as Hc. rewrite Hu in Hc.
  constructor; simpl; [by rewrite length_insert | lia | | done].
  by apply Forall_insert.
Qed.

Lemma ch_alloc_wf (t : chtable) (m : Z) :
  table_wf t ->
  forall i t', ch_alloc t m = (Some i, t') ->
  length (channels t') = SODCHAN_MAX_CHANNELS /\ (i < SODCHAN_MAX_CHANNELS)%nat /\
  ch_at t' i = mk_channel SODCHAN_CH_UNUSED (next_local_channel_id t) 0 false [] 0 0 0
                 false false /\
  forall v, used v = true -> channel_ranges v -> table_wf (ch_set t' i v).
Proof.
  intros [] i t'. unfold ch_alloc. destruct (_ <=? _) eqn:Hm; [done |].
  destruct (ch_scan _ _ _) as [k|] eqn:E; [|done]. intros [= <- <-].
  apply ch_scan_some in E as (j & c & -> & Hj & Hc & _). simpl.
  assert (j < length (channels t))%nat as Hlt by (by eapply lookup_lt_Some).
  split_and!; [by rewrite length_insert | congruence | |].
  { unfold ch_at. simpl. rewrite nth_lookup, list_lookup_insert_eq by done. done. }
  intros v Hu Hr. pose proof (count_used_insert _ j _ v Hj) as Hcount.
  apply negb_true_iff in Hc. rewrite Hc, Hu in Hcount. simpl in Hcount.
  pose proof (count_used_le (<[j:=v]> (channels t))) as Hle.
  rewrite length_insert, table_wf_length0 in Hle.
  unfold SODCHAN_MAX_CHANNELS in Hle.
  constructor; unfold ch_set; simpl; rewrite ?list_insert_insert_eq.
  - by rewrite length_insert.
  - rewrite u32_small; lia.
  - by apply Forall_insert.
  - apply u32_range.
Qed.

Lemma count_used_all (l : list sodchan_channel_t) :
  (forall j c, l !! j = Some c -> used c = true) -> count_used l = length l.
Proof.
  intros Hall. unfold count_used. induction l as [|c l IH]; [done |]. simpl.
  rewrite (Hall 0%nat c eq_refl). simpl. f_equal. apply IH. intros j c'. apply (Hall (S j)).
Qed.

(** A slot is found exactly when the limit leaves one. *)
Lemma ch_alloc_some (t : chtable) (m : Z) :
  table_wf t -> m <= Z.of_nat SODCHAN_MAX_CHANNELS ->
  (ch_alloc t m).1 = None <-> m <= active_channels t.
Proof.
  intros [] Hm. unfold ch_alloc. destruct (m <=? active_channels t) eqn:E; [split; [lia | done] |].
  destruct (ch_scan _ _ _) as [i|] eqn:Es; [split; [done | lia] |].
  exfalso. rewrite ch_scan_none in Es.
  rewrite count_used_all in table_wf_active0; [lia |].
  intros j c Hj. specialize (Es j c Hj). by destruct (used c).
Qed.

Lemma ch_alloc_none (t t' : chtable) (m : Z) : ch_alloc t m = (None, t') -> t' = t.
Proof.
  unfold ch_alloc. destruct (_ <=? _); [by intros [= <-] |].
  destruct (ch_scan _ _ _); [done | by intros [= <-]].
Qed.

Lemma ch_free_wf (t : chtable) (i : nat) : table_wf t -> table_wf (ch_free t i).
Proof.
  intros Hwf. pose proof Hwf as []. unfold ch_free. case_bool_decide as Hs; [done |].
  assert (channels t !! i = Some (ch_at t i)) as Hi.
  { unfold ch_at in *. rewrite nth_lookup in *.
    destruct (channels t !! i); [done | by destruct Hs]. }
  pose proof (count_used_insert _ i _ channel_zero Hi) as Hc.
  assert (used (ch_at t i) = true) as Hu by (unfold used; by rewrite bool_decide_eq_false_2).
  rewrite Hu, used_zero in Hc. simpl in Hc.
  constructor; simpl; [by rewrite length_insert | | | done].
  - replace (0 <? _) with true by lia. lia.
  - apply Forall_insert; [done |]. simpl. lia.
Qed.

(** ** The table as a map *)

Lemma ch_set_ids (t : chtable) (i : nat) (c v : sodchan_channel_t) :
  table_ids t -> channels t !! i = Some c -> used c = true -> local_id v = local_id c ->
  table_ids (ch_set t i v).
Proof.
  intros [Hu Hn] Hi Hc Hv. constructor; simpl.
  - intros j k cj ck Hj Hk Huj Huk E.
    apply list_lookup_insert_Some in Hj as [(<- & -> & _) | [Hne Hj]];
      apply list_lookup_insert_Some in Hk as [(<- & -> & _) | [Hne' Hk]]; [done | | |].
    + eapply (Hu i k); eauto; congruence.
    + eapply (Hu j i); eauto; congruence.
    + eapply (Hu j k); eauto.
  - intros j cj Hj Huj.
    apply list_lookup_insert_Some in Hj as [(<- & -> & _) | [Hne Hj]].
    + rewrite Hv. eauto.
    + eauto.
Qed.

(** An id in use is below the next to be given. *)
Lemma lookup_below (t : chtable) (id : Z) :
  table_ids t -> ch_lookup t id <> None -> id < next_local_channel_id t.
Proof.
  intros Hids Hu. destruct (ch_lookup t id) as [ch|] eqn:E; [| done].
  apply ch_lookup_some in E as (i & Hi & Hc & <-); [| done]. destruct Hids as [_ Hn]. eauto.
Qed.

(** An update of a slot that keeps its id and stays used is an update of the
    map at that id. *)
Lemma ch_set_lookup (t : chtable) (i : nat) (c v : sodchan_channel_t) (id : Z) :
  table_ids t -> channels t !! i = Some c -> used c = true -> used v = true ->
  local_id v = local_id c ->
  ch_lookup (ch_set t i v) id = if id =? local_id c then Some v else ch_lookup t id.
Proof.
  intros Hids Hi Hc Hv Hl. pose proof (ch_set_ids t i c v Hids Hi Hc Hl) as Hids'.
  assert (i < length (channels t))%nat as Hlt by (by eapply lookup_lt_Some).
  destruct (id =? local_id c) eqn:E.
  - apply ch_lookup_some; [done |]. exists i. simpl.
    rewrite list_lookup_insert_eq by done. split_and!; [done | done | lia].
  - destruct (ch_lookup t id) as [ch|] eqn:L.
    + apply ch_lookup_some in L as (j & Hj & Hu & Hid); [|done].
      apply ch_lookup_some; [done |]. exists j. simpl.
      rewrite list_lookup_insert_ne; [done |]. intros ->. assert (ch = c) by congruence.
      subst. lia.
    + rewrite ch_lookup_none in L. apply ch_lookup_none. simpl. intros j cj Hj Hu.
      apply list_lookup_insert_Some in Hj as [(<- & -> & _) | [Hne Hj]]; [lia | eauto].
Qed.

(** Freeing a slot removes its id and nothing else. *)
Lemma ch_free_ids (t : chtable) (i : nat) : table_ids t -> table_ids (ch_free t i).
Proof.
  intros Hids. unfold ch_free. case_bool_decide; [done |]. destruct Hids as [Hu Hn].
  constructor; simpl.
  - intros j k cj ck Hj Hk Huj Huk E.
    apply list_lookup_insert_Some in Hj as [(<- & <- & _) | [Hne Hj]]; [done |].
    apply list_lookup_insert_Some in Hk as [(<- & <- & _) | [Hne' Hk]]; [done |].
    eapply (Hu j k); eauto.
  - intros j cj Hj Huj.
    apply list_lookup_insert_Some in Hj as [(<- & <- & _) | [Hne Hj]]; [done | eauto].
Qed.

Lemma ch_free_lookup (t : chtable) (i : nat) (c : sodchan_channel_t) (id : Z) :
  table_ids t -> channels t !! i = Some c -> used c = true ->
  ch_lookup (ch_free t i) id = if id =? local_id c then None else ch_lookup t id.
Proof.
  intros Hids Hi Hc. pose proof (ch_free_ids t i Hids) as Hids'.
  unfold ch_free in *. rewrite (ch_at_lookup _ _ _ Hi) in *.
  pose proof Hc as Hne. unfold used in Hne. apply negb_true_iff, bool_decide_eq_false in Hne.
  rewrite bool_decide_eq_false_2 in * by done.
  destruct (id =? local_id c) eqn:E.
  - apply ch_lookup_none. simpl. intros j cj Hj Hu Hid.
    apply list_lookup_insert_Some in Hj as [(<- & <- & _) | [Hnej Hj]]; [done |].
    apply Hnej. eapply (table_ids_unique t Hids); eauto; first [done | lia].
  - destruct (ch_lookup t id) as [ch|] eqn:L.
    + apply ch_lookup_some in L as (j & Hj & Hu & Hid); [|done].
      apply ch_lookup_some; [done |]. exists j. simpl.
      rewrite list_lookup_insert_ne; [done |]. intros ->. assert (ch = c) by congruence.
      subst. lia.
    + rewrite ch_lookup_none in L. apply ch_lookup_none. simpl. intros j cj Hj Hu.
      apply list_lookup_insert_Some in Hj as [(<- & <- & _) | [Hnej Hj]]; [done | eauto].
Qed.

(** Allocation followed by the handler's initialisation binds a fresh id. *)
Lemma ch_alloc_lookup (t t' : chtable) (m : Z) (i : nat) (v : sodchan_channel_t) (id : Z) :
  table_ids t -> next_local_channel_id t < 4294967295 -> 0 <= next_local_channel_id t ->
  ch_alloc t m = (Some i, t') -> used v = true -> local_id v = next_local_channel_id t ->
  table_ids (ch_set t' i v) /\ ch_lookup t (next_local_channel_id t) = None /\
  ch_lookup (ch_set t' i v) id =
    if id =? next_local_channel_id t then Some v else ch_lookup t id.
Proof.
  intros Hids Hn Hn0 Ha Hv Hl. pose proof Hids as [Hu Hnx].
  unfold ch_alloc in Ha. destruct (_ <=? _) eqn:Hm; [done |].
  destruct (ch_scan _ _ _) as [k|] eqn:E; [|done]. injection Ha as <- <-.
  apply ch_scan_some in E as (j & c & -> & Hj & Hc & _). simpl in *.
  apply negb_true_iff in Hc. rewrite u32_small by lia.
  assert (j < length (channels t))%nat as Hlt by (by eapply lookup_lt_Some).
  unfold ch_set. simpl. rewrite list_insert_insert_eq.
  set (t' := mk_chtable _ _ _).
  assert (table_ids t') as Hids'.
  { constructor; simpl.
    - intros p q cp cq Hp Hq Hup Huq Eid.
      apply list_lookup_insert_Some in Hp as [(<- & <- & _) | [Hnep Hp]];
        apply list_lookup_insert_Some in Hq as [(<- & <- & _) | [Hneq Hq]]; [done | | |].
      + pose proof (Hnx _ _ Hq Huq). lia.
      + pose proof (Hnx _ _ Hp Hup). lia.
      + eapply Hu; eauto.
    - intros p cp Hp Hup.
      apply list_lookup_insert_Some in Hp as [(<- & <- & _) | [Hnep Hp]]; [lia |].
      pose proof (Hnx _ _ Hp Hup). lia. }
  split; [done |]. split.
  - apply ch_lookup_none. intros p cp Hp Hup. pose proof (Hnx _ _ Hp Hup). lia.
  - destruct (id =? _) eqn:Eid.
    + apply ch_lookup_some; [done |]. exists j. simpl.
      rewrite list_lookup_insert_eq by done. split_and!; [done | done | lia].
    + destruct (ch_lookup t id) as [ch|] eqn:L.
      * apply ch_lookup_some in L as (p & Hp & Hup & Hid); [|done].
        apply ch_lookup_some; [done |]. exists p. simpl.
        rewrite list_lookup_insert_ne; [done |]. intros ->. congruence.
      * rewrite ch_lookup_none in L. apply ch_lookup_none. simpl. intros p cp Hp Hup.
        apply list_lookup_insert_Some in Hp as [(<- & <- & _) | [Hnep Hp]]; [lia | eauto].
Qed.

(** ** The allowlist *)

Lemma strchr_comma_spec (p : bytes) :
  match strchr_comma p with
  | Some k => (k < length p)%nat /\ split_comma p = take k p :: split_comma (drop (S k) p)
  | None => split_comma p = [p]
  end.
Proof.
  induction p as [|b p IH]; simpl; [done |]. destruct (decide (b = comma)).
  - simpl. split; [lia | by rewrite drop_0].
  - destruct (strchr_comma p) as [k|]; simpl.
    + destruct IH as [Hk ->]. split; [lia | done].
    + by rewrite IH.
Qed.

Lemma split_comma_nil_tail (n : bytes) : n <> [] -> n ∉ split_comma [].
Proof. simpl. intros Hn Hin. apply list_elem_of_singleton in Hin. done. Qed.

Lemma name_scan_spec (fuel : nat) (p name : bytes) :
  (length p < fuel)%nat -> name <> [] ->
  name_scan fuel p name = bool_decide (name ∈ split_comma p).
Proof.
  revert p. induction fuel as [|fuel IH]; intros p Hf Hn; [lia |].
  destruct p as [|b p].
  - simpl. symmetry. apply bool_decide_eq_false_2. by apply split_comma_nil_tail.
  - cbn [name_scan]. set (q := b :: p) in *. pose proof (strchr_comma_spec q) as Hs.
    destruct (strchr_comma q) as [k|].
    + destruct Hs as [Hk ->]. destruct (_ && _) eqn:E.
      * apply andb_true_iff in E as [_ E%bool_decide_eq_true].
        symmetry. apply bool_decide_eq_true_2. rewrite E. apply elem_of_cons. by left.
      * rewrite IH; [| rewrite length_drop; simpl in *; lia | done].
        apply bool_decide_ext. rewrite elem_of_cons. split; [by right |].
        intros [-> | ?]; [|done]. exfalso. apply andb_false_iff in E as [E | E].
        -- rewrite length_take in E. apply Nat.eqb_neq in E. lia.
        -- by apply bool_decide_eq_false in E.
    + rewrite Hs. rewrite take_ge by lia. destruct (_ && _) eqn:E.
      * apply andb_true_iff in E as [_ E%bool_decide_eq_true].
        symmetry. apply bool_decide_eq_true_2. apply list_elem_of_singleton. congruence.
      * symmetry. apply bool_decide_eq_false_2. intros ->%list_elem_of_singleton.
        rewrite Nat.eqb_refl, bool_decide_eq_true_2 in E by done. done.
Qed.

(** A name passes exactly when it is one of the segments of the list. *)
Lemma channel_name_allowed_iff (allowed : option bytes) (name : bytes) :
  channel_name_allowed allowed name = true <->
  cstr name <> [] /\
  cstr name ∈ split_comma (cstr (default SODCHAN_DEFAULT_ALLOWED_CHANNELS allowed)).
Proof.
  unfold channel_name_allowed. case_bool_decide as Hn.
  - split; [done |]. by intros [? _].
  - rewrite name_scan_spec by (done || lia). destruct allowed; simpl;
      rewrite bool_decide_eq_true; naive_solver.
Qed.

#[export] Hint Resolve table_empty_wf table_empty_ids ch_free_wf ch_free_ids : sodchan.
