(* ===== verification/Session.v ===== *)
(** The session state and the helpers every handler uses: [struct sodchan_ctx]
    ([src/sodchan_internal.h], lines 62 to 135), [sodchan_i_set_error], the
    [emit_*] functions, [ss_frame_max_body] and [ss_send_pdu]
    ([src/sodchan.c], lines 56 to 75 and 284 to 373).

    [session] holds every field of [struct sodchan_ctx] but the input buffer,
    which only [process_input] and its callers touch (see [Engine.v]).  The
    fields set once by [apply_config_defaults] are grouped in [settings].
    [rng] is the state of libsodium's generator, which is not a field. *)

From Stdlib Require Import ZArith Lia ZifyBool String.
From S2P Require Import Prelude Defs WireBase Crypto EventQueue OutBuf Channels.
Local Open Scope Z_scope.
Local Open Scope sodchan_scope.

(** ** The state *)

Record settings : Type := mk_settings {
  event_queue_size : Z;
  max_record_size : Z;
  max_channel_data : Z;
  max_channels : Z;
  initial_window : Z;
  max_packet : Z;
  accept_any_server_pk : bool;
  lab_mode : bool;
  client_id_pk : bytes;
  client_id_sk : bytes;
  server_id_sk : bytes;
  have_client_id_pk : bool;
  have_client_id_sk : bool;
  have_server_id_sk : bool;
  cfg_store_used : Z;
  allowed_channels : option bytes;
  client_username : option bytes;
  client_device_id : option bytes
}.

Definition settings_eta (s : settings) : settings :=
  mk_settings (event_queue_size s) (max_record_size s) (max_channel_data s) (max_channels s)
    (initial_window s) (max_packet s) (accept_any_server_pk s) (lab_mode s) (client_id_pk s)
    (client_id_sk s) (server_id_sk s) (have_client_id_pk s) (have_client_id_sk s)
    (have_server_id_sk s) (cfg_store_used s) (allowed_channels s) (client_username s)
    (client_device_id s).

#[global] Instance set_client_id_sk : Field client_id_sk :=
  ltac:(field_of settings_eta client_id_sk).
#[global] Instance set_server_id_sk : Field server_id_sk :=
  ltac:(field_of settings_eta server_id_sk).

Section Session.
Context `{Sodium}.

Record session : Type := mk_session {
  role : sodchan_role_t;
  state : sodchan_state_t;
  hs : sodchan_hs_t;
  error : Z;
  error_msg : bytes;
  cfg : settings;
  server_id_pk : bytes;
  have_server_id_pk : bool;
  eph_pk : bytes;
  eph_sk : bytes;
  peer_eph_pk : bytes;
  peer_id_pk : bytes;
  have_peer_eph : bool;
  have_peer_id : bool;
  ss_key_c2s : bytes;
  ss_key_s2c : bytes;
  ss_push : ss_state;
  ss_pull : ss_state;
  ss_push_ready : bool;
  ss_pull_ready : bool;
  t_hello : bytes;
  have_t_hello : bool;
  auth_sent : bool;
  auth_awaiting_decide : bool;
  auth_decided : bool;
  auth_complete : bool;
  chans : chtable;
  out : outbuf;
  evq : evqueue;
  rng : entropy
}.

Definition session_eta (c : session) : session :=
  mk_session (role c) (state c) (hs c) (error c) (error_msg c) (cfg c) (server_id_pk c)
    (have_server_id_pk c) (eph_pk c) (eph_sk c) (peer_eph_pk c) (peer_id_pk c)
    (have_peer_eph c) (have_peer_id c) (ss_key_c2s c) (ss_key_s2c c) (ss_push c)
    (ss_pull c) (ss_push_ready c) (ss_pull_ready c) (t_hello c) (have_t_hello c)
    (auth_sent c) (auth_awaiting_decide c) (auth_decided c) (auth_complete c)
    (chans c) (out c) (evq c) (rng c).

#[global] Instance set_state : Field state := ltac:(field_of session_eta state).
#[global] Instance set_hs : Field hs := ltac:(field_of session_eta hs).
#[global] Instance set_error_code : Field error := ltac:(field_of session_eta error).
#[global] Instance set_error_msg : Field error_msg := ltac:(field_of session_eta error_msg).
#[global] Instance set_cfg : Field cfg := ltac:(field_of session_eta cfg).
#[global] Instance set_server_id_pk : Field server_id_pk :=
  ltac:(field_of session_eta server_id_pk).
#[global] Instance set_have_server_id_pk : Field have_server_id_pk :=
  ltac:(field_of session_eta have_server_id_pk).
#[global] Instance set_eph_pk : Field eph_pk := ltac:(field_of session_eta eph_pk).
#[global] Instance set_eph_sk : Field eph_sk := ltac:(field_of session_eta eph_sk).
#[global] Instance set_peer_eph_pk : Field peer_eph_pk :=
  ltac:(field_of session_eta peer_eph_pk).
#[global] Instance set_peer_id_pk : Field peer_id_pk := ltac:(field_of session_eta peer_id_pk).
#[global] Instance set_have_peer_eph : Field have_peer_eph :=
  ltac:(field_of session_eta have_peer_eph).
#[global] Instance set_have_peer_id : Field have_peer_id :=
  ltac:(field_of session_eta have_peer_id).
#[global] Instance set_ss_key_c2s : Field ss_key_c2s := ltac:(field_of session_eta ss_key_c2s).
#[global] Instance set_ss_key_s2c : Field ss_key_s2c := ltac:(field_of session_eta ss_key_s2c).
#[global] Instance set_ss_push : Field ss_push := ltac:(field_of session_eta ss_push).
#[global] Instance set_ss_pull : Field ss_pull := ltac:(field_of session_eta ss_pull).
#[global] Instance set_ss_push_ready : Field ss_push_ready :=
  ltac:(field_of session_eta ss_push_ready).
#[global] Instance set_ss_pull_ready : Field ss_pull_ready :=
  ltac:(field_of session_eta ss_pull_ready).
#[global] Instance set_t_hello : Field t_hello := ltac:(field_of session_eta t_hello).
#[global] Instance set_have_t_hello : Field have_t_hello :=
  ltac:(field_of session_eta have_t_hello).
#[global] Instance set_auth_sent : Field auth_sent := ltac:(field_of session_eta auth_sent).
#[global] Instance set_auth_awaiting_decide : Field auth_awaiting_decide :=
  ltac:(field_of session_eta auth_awaiting_decide).
#[global] Instance set_auth_decided : Field auth_decided :=
  ltac:(field_of session_eta auth_decided).
#[global] Instance set_auth_complete : Field auth_complete :=
  ltac:(field_of session_eta auth_complete).
#[global] Instance set_chans : Field chans := ltac:(field_of session_eta chans).
#[global] Instance set_out : Field out := ltac:(field_of session_eta out).
#[global] Instance set_evq : Field evq := ltac:(field_of session_eta evq).
#[global] Instance set_rng : Field rng := ltac:(field_of session_eta rng).

(** ** Events and errors *)

(** [(void)sodchan_i_queue_event(ctx, &ev)]: every caller ignores the code. *)
Definition queue (c : session) (ev : sodchan_event_t) : session :=
  c <| evq := (sodchan_i_queue_event (evq c) ev).2 |>.

Definition sodchan_i_set_error (c : session) (code : Z) (msg : bytes) : session :=
  let c := c <| error := if code =? 0 then SODCHAN_ERR_PROTOCOL else code |> in
  let c := c <| state := SODCHAN_STATE_ERROR |> in
  let c := c <| error_msg := take (Z.to_nat (SODCHAN_ERROR_MAX - 1)) msg |> in
  queue c (EVENT_ERROR (error c) (error_msg c)).

(** [sodchan_i_set_error(ctx, code, msg); return -1;] *)
Definition fail (c : session) (code : Z) (msg : bytes) : Z * session :=
  (-1, sodchan_i_set_error c code msg).

Definition emit_hello_received (c : session) : session :=
  queue c (EVENT_HELLO_RECEIVED (if have_peer_id c then peer_id_pk c else zeros 32)).

Definition emit_kx_complete (c : session) : session := queue c EVENT_KX_COMPLETE.

Definition emit_authenticated (c : session) : session := queue c EVENT_AUTHENTICATED.

Definition emit_auth_failed (c : session) (reason : Z) (msg : bytes) : session :=
  queue c (EVENT_AUTH_FAILED reason (snprintf_s SODCHAN_ERROR_MAX msg)).

(** ** Encrypted output *)

Context `{SizeT}.

Definition ss_frame_max_body (c : session) : Z :=
  let m := size_t (max_record_size (cfg c) + SODCHAN_SS_ABYTES) in
  let m := if 4294967295 <? m then 4294967295 else m in
  let m := if SODCHAN_IN_BUF_SIZE <? size_t (m + 4) then SODCHAN_IN_BUF_SIZE - 4 else m in
  u32 m.

Definition ss_send_pdu (c : session) (plain : option bytes) (plain_len : Z) : Z * session :=
  if negb (ss_push_ready c) || negb (isSome plain) || (plain_len =? 0)
  then (SODCHAN_ERR_STATE, c) else
  if max_record_size (cfg c) <? plain_len then (SODCHAN_ERR_PARAM, c) else
  let c := c <| out := out_compact (out c) |> in
  let ct_max := size_t (plain_len + SODCHAN_SS_ABYTES) in
  if SODCHAN_OUT_BUF_SIZE - out_len (out c) <? size_t (4 + ct_max) then (SODCHAN_ERR_FULL, c) else
  if ss_frame_max_body c <? ct_max then (SODCHAN_ERR_PROTOCOL, c) else
  match rd (default [] plain) 0 plain_len with
  | Ok p =>
      match crypto_secretstream_push (ss_push c) p TAG_MESSAGE with
      | Some (st, ct) =>
          let c := c <| ss_push := st |> in
          (SODCHAN_OK,
           c <| out := mk_outbuf (out_buf (out c) ++ be32 (u32 (len ct)) ++ ct)
                         (out_off (out c)) |>)
      | None => (SODCHAN_ERR_CRYPTO, c)
      end
  | _ => (SODCHAN_ERR_PARAM, c)
  end.

(** [if (encode(..., pdu, sizeof(pdu), &plen) == SODCHAN_OK)
    ss_send_pdu(ctx, pdu, plen)], with the code of the encoder otherwise. *)
Definition send_encoded (c : session) (e : res (bytes * Z)) (code : Z -> Z) : Z * session :=
  match e with
  | Ok (pdu, plen) => ss_send_pdu c (Some pdu) plen
  | Fail rc => (code rc, c)
  | Oob => (code SODCHAN_ERR_PARAM, c)
  end.
End Session.

(** ** Lemmas *)

Section SessionLemmas.
Context `{Sodium} `{SizeT}.

(** The record sizes for which [ss_frame_max_body] does not wrap: any on a
    64-bit host, those that leave room for the overhead on a 32-bit one. *)
Definition record_sane (s : settings) : Prop :=
  0 < max_record_size s /\ (32 < SIZE_BITS \/ max_record_size s + 21 < 4294967296).

Lemma size_t_wide (z : Z) : 32 < SIZE_BITS -> 0 <= z < 8589934592 -> size_t z = z.
Proof.
  intros Hb Hz. unfold size_t. apply Z.mod_small.
  assert (2 ^ 33 <= 2 ^ SIZE_BITS) by (apply Z.pow_le_mono_r; lia). lia.
Qed.

(** A frame the parser accepts fits the input buffer. *)
Lemma ss_frame_max_body_bound (c : session) :
  record_sane (cfg c) -> 0 <= ss_frame_max_body c <= SODCHAN_IN_BUF_SIZE - 4.
Proof.
  intros [Hpos Hs]. unfold ss_frame_max_body. consts.
  pose proof (size_t_range (max_record_size (cfg c) + 17)) as Hr.
  assert (32 < SIZE_BITS \/ size_t (max_record_size (cfg c) + 17) + 4 < 4294967296) as Hm.
  { destruct Hs as [|]; [by left | right]. rewrite size_t_small by lia. lia. }
  generalize dependent (size_t (max_record_size (cfg c) + 17)). intros m Hr Hm.
  assert (exists m', (if 4294967295 <? m then 4294967295 else m) = m' /\
            0 <= m' <= 4294967295 /\ size_t (m' + 4) = m' + 4) as (m' & -> & Hm' & ->).
  { eexists. split; [done |]. destruct (4294967295 <? m) eqn:E; (split; [lia |]);
      (destruct Hm; [apply size_t_wide; [done | lia] | apply size_t_small; lia]). }
  destruct (_ <? m' + 4) eqn:E; rewrite u32_small by lia; lia.
Qed.

Lemma ss_frame_max_body_eq (c : session) :
  0 < max_record_size (cfg c) -> max_record_size (cfg c) + 21 < 4294967296 ->
  ss_frame_max_body c =
    Z.min (max_record_size (cfg c) + SODCHAN_SS_ABYTES) (SODCHAN_IN_BUF_SIZE - 4).
Proof.
  intros Hpos Hs. unfold ss_frame_max_body. consts.
  rewrite (size_t_small (_ + 17)) by lia.
  replace (4294967295 <? _) with false by lia. rewrite size_t_small by lia.
  destruct (128 * 1024 <? _) eqn:E; rewrite u32_small by lia; lia.
Qed.

(** *** The footprint of the helpers *)

(** [ss_send_pdu] touches the writer's cipher state and the output only. *)
Lemma ss_send_only (c : session) (plain : option bytes) (n : Z) :
  exists st o, (ss_send_pdu c plain n).2 = c <| ss_push := st |> <| out := o |>.
Proof.
  unfold ss_send_pdu. repeat case_match; cbn [snd];
    first [ by exists (ss_push c), (out c); destruct c
          | by exists (ss_push c), (out_compact (out c)) | by eexists _, _ ].
Qed.

Lemma send_encoded_only (c : session) (e : res (bytes * Z)) (code : Z -> Z) :
  exists st o, (send_encoded c e code).2 = c <| ss_push := st |> <| out := o |>.
Proof.
  unfold send_encoded. destruct e as [[pdu n] | rc |]; cbn [snd]; [apply ss_send_only | |];
    by exists (ss_push c), (out c); destruct c.
Qed.

(** *** What a send does *)

(** [sent c p c']: the plaintext [p] left as one encrypted frame at the end
    of the output. *)
Definition sent (c : session) (p : bytes) (c' : session) : Prop :=
  exists st ct,
    ss_push_ready c = true /\
    crypto_secretstream_push (ss_push c) p TAG_MESSAGE = Some (st, ct) /\
    len (unread (out c)) + len (frame_bytes ct) <= SODCHAN_OUT_BUF_SIZE /\
    c' = c <| ss_push := st |> <| out := mk_outbuf (unread (out c) ++ frame_bytes ct) 0 |>.

(** [unsent c c']: nothing left; the output may have been compacted. *)
Definition unsent (c c' : session) : Prop :=
  c' = c \/ c' = c <| out := mk_outbuf (unread (out c)) 0 |>.

Context {SP : SodiumSpec _}.

Lemma ss_send_cases (c c' : session) (plain : option bytes) (n rc : Z) :
  out_wf (out c) -> 0 <= n -> n + 21 < 4294967296 ->
  ss_send_pdu c plain n = (rc, c') ->
  (rc <> SODCHAN_OK /\ unsent c c') \/
  (rc = SODCHAN_OK /\ 0 < n <= max_record_size (cfg c) /\
   exists pdu p, plain = Some pdu /\ rd pdu 0 n = Ok p /\ sent c p c').
Proof.
  intros Hwf Hn0 Hn. unfold ss_send_pdu.
  destruct (negb (ss_push_ready c) || negb (isSome plain) || (n =? 0)) eqn:E0.
  { intros [= <- <-]. left. split; [done | by left]. }
  apply orb_false_iff in E0 as [[Er Ep]%orb_false_iff En].
  apply negb_false_iff in Er, Ep. destruct plain as [pdu|]; [|done]. cbn [default].
  destruct (max_record_size (cfg c) <? n) eqn:Em.
  { intros [= <- <-]. left. split; [done | by left]. }
  rewrite out_compact_spec by done. consts.
  rewrite (size_t_small (n + 17)) by lia. rewrite (size_t_small (4 + _)) by lia.
  cbn -[Z.add Z.sub be32 unread ss_frame_max_body].
  destruct (128 * 1024 - len (unread (out c)) <? 4 + (n + 17)) eqn:Ef.
  { intros [= <- <-]. left. split; [done | by right]. }
  destruct (ss_frame_max_body _ <? n + 17) eqn:Eb.
  { intros [= <- <-]. left. split; [done | by right]. }
  destruct (rd pdu 0 n) as [p | |] eqn:Erd;
    [| intros [= <- <-]; left; split; [done | by right]..].
  destruct (crypto_secretstream_push (ss_push c) p TAG_MESSAGE) as [[st ct]|] eqn:Epush.
  2: { intros [= <- <-]. left. split; [done | by right]. }
  intros [= <- <-]. right. split; [done |]. split; [lia |].
  exists pdu, p. split; [done |]. split; [done |]. exists st, ct.
  apply push_length in Epush as Hct. apply rd_len in Erd as Hp.
  split; [done |]. split; [done |]. split; [rewrite length_frame_bytes; consts; lia |].
  unfold frame_bytes. rewrite u32_small by lia. done.
Qed.

Lemma ss_send_bytes (c c' : session) (p t : bytes) (rc : Z) :
  out_wf (out c) -> len p + 21 < 4294967296 ->
  ss_send_pdu c (Some (p ++ t)) (len p) = (rc, c') ->
  (rc <> SODCHAN_OK /\ unsent c c') \/
  (rc = SODCHAN_OK /\ 0 < len p <= max_record_size (cfg c) /\ sent c p c').
Proof.
  intros Hwf Hp Hs. apply ss_send_cases in Hs; [| done | lia | lia].
  destruct Hs as [? | (-> & Hn & pdu & q & [= <-] & Hq & Hs)]; [by left |].
  right. split; [done |]. split; [lia |]. rewrite rd_head in Hq by done. by injection Hq as <-.
Qed.

(** What is accepted: a non-empty PDU within the limits, when there is room. *)
Lemma ss_send_ok (c : session) (p t ct : bytes) (st : ss_state) :
  out_wf (out c) -> max_record_size (cfg c) + 21 < 4294967296 ->
  ss_push_ready c = true -> 0 < len p <= max_record_size (cfg c) ->
  len p + SODCHAN_SS_ABYTES <= SODCHAN_IN_BUF_SIZE - 4 ->
  len (unread (out c)) + 4 + (len p + SODCHAN_SS_ABYTES) <= SODCHAN_OUT_BUF_SIZE ->
  crypto_secretstream_push (ss_push c) p TAG_MESSAGE = Some (st, ct) ->
  ss_send_pdu c (Some (p ++ t)) (len p) =
    (SODCHAN_OK,
     c <| ss_push := st |> <| out := mk_outbuf (unread (out c) ++ frame_bytes ct) 0 |>).
Proof.
  intros Hwf Hs Hr Hp Hb Ho Epush. unfold ss_send_pdu. rewrite Hr. cbn [negb orb isSome default].
  replace (len p =? 0) with false by lia. cbn [orb].
  replace (max_record_size (cfg c) <? len p) with false by lia.
  rewrite out_compact_spec by done. rewrite ss_frame_max_body_eq by (simpl; lia).
  change (id (p ++ t)) with (p ++ t). rewrite rd_head by done. apply push_length in Epush as Hct.
  consts. rewrite !size_t_small by (rewrite ?size_t_small; simpl; lia).
  cbn -[Z.add Z.sub be32 unread frame_bytes Z.min Z.mul].
  replace (128 * 1024 - len (unread (out c)) <? 4 + (len p + 17)) with false by lia.
  replace (Z.min _ _ <? len p + 17) with false by lia.
  rewrite Epush. unfold frame_bytes. rewrite u32_small by lia. done.
Qed.

(** *** Encoders into small buffers *)

Definition fits (e : res (bytes * Z)) : Prop :=
  forall pdu n, e = Ok (pdu, n) -> 0 <= n < 2147483648.

Lemma send_encoded_cases (c c' : session) (e : res (bytes * Z)) (code : Z -> Z) (rc : Z) :
  out_wf (out c) -> fits e -> send_encoded c e code = (rc, c') ->
  unsent c c' \/ exists pdu n p, e = Ok (pdu, n) /\ rd pdu 0 n = Ok p /\ sent c p c'.
Proof.
  intros Hwf Hf. unfold send_encoded. destruct e as [[pdu n] | r |].
  - pose proof (Hf pdu n eq_refl). intros Hs. apply ss_send_cases in Hs; [| done | lia | lia].
    destruct Hs as [[_ Hu] | (_ & _ & pdu' & p & [= <-] & Hp & Hs)]; [by left |].
    right. by exists pdu, n, p.
  - intros [= _ <-]. left. by left.
  - intros [= _ <-]. left. by left.
Qed.
End SessionLemmas.

(** [encoder_fits]: an encoder's length is at most the capacity it checked. *)
Ltac encoder_fits :=
  intros ? ? ?;
  repeat match goal with
  | He : context [if ?c then _ else _] |- _ => destruct c eqn:?; try discriminate He
  | He : res_bind ?m _ = Ok _ |- _ =>
      destruct m eqn:?; cbn [res_bind] in He; try discriminate He
  | He : context [match ?o with Some _ => _ | None => _ end] |- _ =>
      destruct o; try discriminate He
  end; simplify_eq; lia.

