(* ===== verification/Auth.v ===== *)
(** The AUTH phase: [client_send_auth_device], [server_send_auth_fail],
    [server_send_auth_ok], the three AUTH handlers and [sodchan_auth_decide_ex]
    ([src/sodchan.c], lines 445 to 620 and 1358 to 1406). *)

From Stdlib Require Import ZArith Lia ZifyBool String.
From S2P Require Import Prelude Defs WireBase WireHello WireAuth Crypto EventQueue OutBuf.
From S2P Require Import Channels Session.
Local Open Scope Z_scope.
Local Open Scope sodchan_scope.

Section Auth.
Context `{Sodium} `{SizeT}.

Definition client_send_auth_device (c : session) : Z * session :=
  if negb (bool_decide (role c = SODCHAN_ROLE_CLIENT)) || auth_sent c then (SODCHAN_OK, c) else
  if negb (have_client_id_sk (cfg c)) || negb (have_client_id_pk (cfg c)) ||
     negb (have_t_hello c)
  then (SODCHAN_OK, c) else
  let user := default [] (client_username (cfg c)) in
  let dev := default [] (client_device_id (cfg c)) in
  let ulen := strlen user in
  let dlen := strlen dev in
  let ulen := if SODCHAN_USER_MAX <? ulen then SODCHAN_USER_MAX else ulen in
  let dlen := if SODCHAN_DEVICE_ID_MAX <? dlen then SODCHAN_DEVICE_ID_MAX else dlen in
  match
    (let* '(t_auth, t_auth_len) :=
       sodchan_wire_build_t_auth (Some (t_hello c)) (Some (client_id_pk (cfg c)))
         (Some user) ulen (Some dev) dlen (Some (zeros 512)) in
     rd t_auth 0 t_auth_len)
  with
  | Ok t_auth =>
      match crypto_sign_detached t_auth (client_id_sk (cfg c)) with
      | None => (SODCHAN_ERR_CRYPTO, c)
      | Some sig =>
          match sodchan_wire_auth_device_encode (Some (client_id_pk (cfg c))) (Some sig)
                  (Some user) ulen (Some dev) dlen (Some (zeros 512)) with
          | Ok (pdu, pdu_len) =>
              let '(rc, c) := ss_send_pdu c (Some pdu) pdu_len in
              if negb (rc =? SODCHAN_OK) then (SODCHAN_ERR_FULL, c) else
              (SODCHAN_OK, c <| auth_sent := true |>)
          | _ => (SODCHAN_ERR_PROTOCOL, c)
          end
      end
  | _ => (SODCHAN_ERR_PROTOCOL, c)
  end.

Definition server_send_auth_fail (c : session) : Z * session :=
  send_encoded c (sodchan_wire_auth_fail_encode (Some (zeros 8)))
    (fun _ => SODCHAN_ERR_PROTOCOL).

Definition server_send_auth_ok (c : session) (claims : option bytes) (claims_len : Z)
    : Z * session :=
  send_encoded c
    (sodchan_wire_auth_ok_encode claims claims_len (Some (zeros (3 + 1024))))
    (fun _ => SODCHAN_ERR_PARAM).

Definition handle_auth_device_pdu (c : session) (plain : bytes) : Z * session :=
  if negb (bool_decide (role c = SODCHAN_ROLE_SERVER))
  then fail c SODCHAN_ERR_PROTOCOL (lit "AUTH_DEVICE to client") else
  if auth_awaiting_decide c || auth_complete c || auth_decided c
  then fail c SODCHAN_ERR_PROTOCOL (lit "duplicate AUTH_DEVICE") else
  if negb (have_t_hello c)
  then fail c SODCHAN_ERR_STATE (lit "missing t_hello") else
  match sodchan_wire_auth_device_decode (Some plain) (SODCHAN_USER_MAX + 1)
          (SODCHAN_DEVICE_ID_MAX + 1) with
  | Ok ad =>
      let client_pk := ad_client_id_pk ad in
      let user := ad_username ad in
      let device := ad_device_id ad in
      match
        (let* '(t_auth, t_auth_len) :=
           sodchan_wire_build_t_auth (Some (t_hello c)) (Some client_pk)
             (Some user) (ad_username_len ad) (Some device) (ad_device_id_len ad)
             (Some (zeros 512)) in
         rd t_auth 0 t_auth_len)
      with
      | Ok t_auth =>
          if negb (crypto_sign_verify_detached (ad_client_sig ad) t_auth client_pk =? 0) then
            let c := (server_send_auth_fail c).2 in
            let c := emit_auth_failed c SODCHAN_AUTH_REASON_BAD_SIG (lit "bad device sig") in
            fail c SODCHAN_ERR_CRYPTO (lit "AUTH_DEVICE bad signature")
          else
            let c := c <| peer_id_pk := client_pk |> in
            let c := c <| have_peer_id := true |> in
            let fp :=
              match sodchan_pubkey_fingerprint_sha256 (Some client_pk) (Some (zeros 96)) with
              | Ok fp => cstr fp
              | _ => []
              end in
            let c := queue c (EVENT_AUTH_DEVICE client_pk
                                (snprintf_s (SODCHAN_USER_MAX + 1) user)
                                (snprintf_s (SODCHAN_DEVICE_ID_MAX + 1) device) fp true) in
            (0, c <| auth_awaiting_decide := true |>)
      | _ => fail c SODCHAN_ERR_PROTOCOL (lit "t_auth build")
      end
  | _ => fail c SODCHAN_ERR_PROTOCOL (lit "AUTH_DEVICE decode")
  end.

Definition handle_auth_ok_pdu (c : session) (plain : bytes) : Z * session :=
  if negb (bool_decide (role c = SODCHAN_ROLE_CLIENT))
  then fail c SODCHAN_ERR_PROTOCOL (lit "AUTH_OK to server") else
  match sodchan_wire_auth_ok_decode (Some plain) with
  | Ok _ =>
      let c := c <| auth_complete := true |> in
      let c := c <| state := SODCHAN_STATE_READY |> in
      (0, emit_authenticated c)
  | _ => fail c SODCHAN_ERR_PROTOCOL (lit "AUTH_OK decode")
  end.

Definition handle_auth_fail_pdu (c : session) (plain : bytes) : Z * session :=
  match sodchan_wire_auth_fail_decode (Some plain) with
  | Ok _ =>
      let c := emit_auth_failed c SODCHAN_AUTH_REASON_UNSPEC (lit "AUTH_FAIL received") in
      fail c SODCHAN_ERR_REJECTED (lit "authentication failed")
  | _ => fail c SODCHAN_ERR_PROTOCOL (lit "AUTH_FAIL decode")
  end.

Definition sodchan_auth_decide_ex (c : session) (accept : bool) (claims : option bytes)
    (claims_len : Z) : Z * session :=
  if negb (bool_decide (role c = SODCHAN_ROLE_SERVER)) then (SODCHAN_ERR_STATE, c) else
  if negb (auth_awaiting_decide c) || auth_decided c then (SODCHAN_ERR_STATE, c) else
  if negb (bool_decide (state c = SODCHAN_STATE_AUTH)) then (SODCHAN_ERR_STATE, c) else
  if (0 <? claims_len) && negb (isSome claims) then (SODCHAN_ERR_PARAM, c) else
  if SODCHAN_CLAIMS_MAX <? claims_len then (SODCHAN_ERR_PARAM, c) else
  let c := c <| auth_awaiting_decide := false |> in
  let c := c <| auth_decided := true |> in
  if accept then
    let '(rc, c) := server_send_auth_ok c claims claims_len in
    if negb (rc =? SODCHAN_OK) then
      (SODCHAN_ERR_FULL, sodchan_i_set_error c SODCHAN_ERR_FULL (lit "AUTH_OK send"))
    else
      let c := c <| auth_complete := true |> in
      let c := c <| state := SODCHAN_STATE_READY |> in
      (SODCHAN_OK, emit_authenticated c)
  else
    let '(rc, c) := server_send_auth_fail c in
    if negb (rc =? SODCHAN_OK) then
      (SODCHAN_ERR_FULL, sodchan_i_set_error c SODCHAN_ERR_FULL (lit "AUTH_FAIL send"))
    else
      let c := emit_auth_failed c SODCHAN_AUTH_REASON_POLICY (lit "auth_decide reject") in
      (SODCHAN_OK,
       sodchan_i_set_error c SODCHAN_ERR_REJECTED (lit "authentication rejected")).

Definition sodchan_auth_decide (c : session) (accept : bool) : Z * session :=
  sodchan_auth_decide_ex c accept None 0.
End Auth.
