(* ===== verification/Handshake.v ===== *)
(** The clear-text handshake: key derivation, the local HELLO, the secretstream
    headers, the two handshake handlers and [handshake_start]
    ([src/sodchan.c], lines 169 to 282, 958 to 1106 and 1160 to 1178). *)

From Stdlib Require Import ZArith Lia ZifyBool String.
From S2P Require Import Prelude Defs WireBase WireHello Crypto EventQueue OutBuf Channels.
From S2P Require Import Session Auth.
Local Open Scope Z_scope.
Local Open Scope sodchan_scope.

Section Handshake.
Context `{Sodium} `{SizeT}.

(** The two derivations of a role, in the order of the condition: the key for
    client to server from [k_c2s], then the other from [k_s2c]. *)
Definition derive_both (c : session) (k_c2s k_s2c : bytes) : Z * session :=
  match sodchan_crypto_ss_key_derive (Some k_c2s) (Some SODCHAN_DOM_SS_C2S) with
  | Ok key =>
      let c := c <| ss_key_c2s := key |> in
      match sodchan_crypto_ss_key_derive (Some k_s2c) (Some SODCHAN_DOM_SS_S2C) with
      | Ok key => (SODCHAN_OK, c <| ss_key_s2c := key |>)
      | _ => (SODCHAN_ERR_CRYPTO, c)
      end
  | _ => (SODCHAN_ERR_CRYPTO, c)
  end.

Definition derive_ss_keys_client (c : session) : Z * session :=
  match crypto_kx_client_session_keys (eph_pk c) (eph_sk c) (peer_eph_pk c) with
  | None => (SODCHAN_ERR_CRYPTO, c)
  | Some (rx, tx) => derive_both c tx rx
  end.

Definition derive_ss_keys_server (c : session) : Z * session :=
  match crypto_kx_server_session_keys (eph_pk c) (eph_sk c) (peer_eph_pk c) with
  | None => (SODCHAN_ERR_CRYPTO, c)
  | Some (rx, tx) => derive_both c rx tx
  end.

(** Encode [h] and append its frame. *)
Definition send_hello (c : session) (h : sodchan_hello_t) : Z * session :=
  match
    (let* '(body, blen) := sodchan_wire_hello_encode (Some h) (Some (zeros 140)) in
     rd body 0 blen)
  with
  | Ok body =>
      let '(rc, o) := out_append_frame (out c) body in
      (rc, c <| out := o |>)
  | Fail rc => (rc, c)
  | Oob => (SODCHAN_ERR_PARAM, c)
  end.

Definition queue_local_hello (c : session) : Z * session :=
  let h id_pk id_sig :=
    {| h_proto_version := SODCHAN_PROTO_VERSION; h_suite_id := SODCHAN_SUITE_V1;
       h_role := role_code (role c); h_flags := 0; h_eph_pk := eph_pk c;
       h_id_pk := id_pk; h_id_sig := id_sig |} in
  match role c with
  | SODCHAN_ROLE_SERVER =>
      if negb (have_peer_eph c) then (SODCHAN_ERR_STATE, c) else
      match sodchan_wire_build_t_hello SODCHAN_PROTO_VERSION SODCHAN_SUITE_V1
              (Some (peer_eph_pk c)) (Some (eph_pk c)) (Some (server_id_pk c))
              (Some (t_hello c)) with
      | Ok t =>
          let c := c <| t_hello := t |> in
          let c := c <| have_t_hello := true |> in
          match crypto_sign_detached t (server_id_sk (cfg c)) with
          | None => (SODCHAN_ERR_CRYPTO, c)
          | Some sig => send_hello c (h (server_id_pk c) sig)
          end
      | _ => (SODCHAN_ERR_PROTOCOL, c)
      end
  | SODCHAN_ROLE_CLIENT =>
      let id_pk := if have_client_id_pk (cfg c) then client_id_pk (cfg c) else zeros 32 in
      send_hello c (h id_pk (zeros 64))
  end.

(** The body of both [*_send_ss_header_*] functions. *)
Definition send_ss_header (c : session) (key : bytes) : Z * session :=
  match crypto_secretstream_init_push key (rng c) with
  | (None, e) => (SODCHAN_ERR_CRYPTO, c <| rng := e |>)
  | (Some (st, header), e) =>
      let c := c <| rng := e |> in
      let c := c <| ss_push := st |> in
      let c := c <| ss_push_ready := true |> in
      let '(rc, o) := out_append_frame (out c) header in
      (rc, c <| out := o |>)
  end.

Definition client_send_ss_header_c2s (c : session) : Z * session :=
  send_ss_header c (ss_key_c2s c).

Definition server_send_ss_header_s2c (c : session) : Z * session :=
  send_ss_header c (ss_key_s2c c).

(** The client's half of [handle_peer_hello] once the key passed the pin. *)
Definition client_accept_hello (c : session) (h : sodchan_hello_t) : Z * session :=
  let c := c <| peer_eph_pk := h_eph_pk h |> in
  let c := c <| peer_id_pk := h_id_pk h |> in
  let c := c <| have_peer_eph := true |> in
  let c := c <| have_peer_id := true |> in
  match sodchan_wire_build_t_hello SODCHAN_PROTO_VERSION SODCHAN_SUITE_V1
          (Some (eph_pk c)) (Some (peer_eph_pk c)) (Some (peer_id_pk c))
          (Some (zeros 123)) with
  | Ok t =>
      let c := c <| t_hello := t |> in
      let c := c <| have_t_hello := true |> in
      if negb (crypto_sign_verify_detached (h_id_sig h) t (peer_id_pk c) =? 0)
      then fail c SODCHAN_ERR_CRYPTO (lit "server HELLO signature invalid") else
      let c := emit_hello_received c in
      let '(rc, c) := derive_ss_keys_client c in
      if negb (rc =? SODCHAN_OK)
      then fail c SODCHAN_ERR_CRYPTO (lit "kx client failed") else
      let '(rc, c) := client_send_ss_header_c2s c in
      if negb (rc =? SODCHAN_OK)
      then fail c SODCHAN_ERR_FULL (lit "ss header c2s enqueue") else
      (0, c <| state := SODCHAN_STATE_SS_HEADER |> <| hs := SODCHAN_HS_WAIT_PEER_SS |>)
  | _ => fail c SODCHAN_ERR_PROTOCOL (lit "t_hello build")
  end.

(** The client's half. *)
Definition client_peer_hello (c : session) (h : sodchan_hello_t) : Z * session :=
  if negb (h_role h =? role_code SODCHAN_ROLE_SERVER)
  then fail c SODCHAN_ERR_PROTOCOL (lit "expected server HELLO") else
  if negb (accept_any_server_pk (cfg c)) &&
     (negb (have_server_id_pk c) || negb (sodium_memcmp (h_id_pk h) (server_id_pk c) =? 0))
  then fail c SODCHAN_ERR_PROTOCOL (lit "server pin mismatch") else
  let c := if accept_any_server_pk (cfg c)
           then c <| server_id_pk := h_id_pk h |> <| have_server_id_pk := true |> else c in
  client_accept_hello c h.

(** The server's half. *)
Definition server_peer_hello (c : session) (h : sodchan_hello_t) : Z * session :=
  if negb (h_role h =? role_code SODCHAN_ROLE_CLIENT)
  then fail c SODCHAN_ERR_PROTOCOL (lit "expected client HELLO") else
  let c := c <| peer_eph_pk := h_eph_pk h |> in
  let c := c <| have_peer_eph := true |> in
  let c := if sodium_is_zero (h_id_pk h) =? 0
           then c <| peer_id_pk := h_id_pk h |> <| have_peer_id := true |> else c in
  let c := emit_hello_received c in
  let '(rc, c) := queue_local_hello c in
  if negb (rc =? SODCHAN_OK)
  then fail c SODCHAN_ERR_CRYPTO (lit "server HELLO send") else
  let '(rc, c) := derive_ss_keys_server c in
  if negb (rc =? SODCHAN_OK)
  then fail c SODCHAN_ERR_CRYPTO (lit "kx server failed") else
  (0, c <| state := SODCHAN_STATE_SS_HEADER |> <| hs := SODCHAN_HS_WAIT_PEER_SS |>).

Definition handle_peer_hello (c : session) (body : bytes) : Z * session :=
  match sodchan_wire_hello_decode (Some body) with
  | Ok h =>
      match role c with
      | SODCHAN_ROLE_CLIENT => client_peer_hello c h
      | SODCHAN_ROLE_SERVER => server_peer_hello c h
      end
  | _ => fail c SODCHAN_ERR_PROTOCOL (lit "hello decode failed")
  end.

Definition handle_peer_ss_header (c : session) (body : bytes) : Z * session :=
  if negb (len body =? SODCHAN_SS_HEADER_BYTES)
  then fail c SODCHAN_ERR_PROTOCOL (lit "bad ss header length") else
  match role c with
  | SODCHAN_ROLE_CLIENT =>
      match crypto_secretstream_init_pull body (ss_key_s2c c) with
      | None => fail c SODCHAN_ERR_CRYPTO (lit "ss pull s2c failed")
      | Some st =>
          let c := c <| ss_pull := st |> in
          let c := c <| ss_pull_ready := true |> in
          let c := c <| hs := SODCHAN_HS_DONE |> in
          let c := c <| state := SODCHAN_STATE_AUTH |> in
          let c := emit_kx_complete c in
          let '(rc, c) := client_send_auth_device c in
          if negb (rc =? SODCHAN_OK)
          then fail c SODCHAN_ERR_CRYPTO (lit "AUTH_DEVICE send") else (0, c)
      end
  | SODCHAN_ROLE_SERVER =>
      match crypto_secretstream_init_pull body (ss_key_c2s c) with
      | None => fail c SODCHAN_ERR_CRYPTO (lit "ss pull c2s failed")
      | Some st =>
          let c := c <| ss_pull := st |> in
          let c := c <| ss_pull_ready := true |> in
          let '(rc, c) := server_send_ss_header_s2c c in
          if negb (rc =? SODCHAN_OK)
          then fail c SODCHAN_ERR_FULL (lit "ss header s2c enqueue") else
          let c := c <| hs := SODCHAN_HS_DONE |> in
          let c := c <| state := SODCHAN_STATE_AUTH |> in
          (0, emit_kx_complete c)
      end
  end.

Definition handshake_start (c : session) : Z * session :=
  match crypto_kx_keypair (rng c) with
  | (None, e) => (SODCHAN_ERR_CRYPTO, c <| rng := e |>)
  | (Some (pk, sk), e) =>
      let c := c <| rng := e |> <| eph_pk := pk |> <| eph_sk := sk |> in
      match role c with
      | SODCHAN_ROLE_CLIENT =>
          let '(rc, c) := queue_local_hello c in
          if negb (rc =? SODCHAN_OK) then (SODCHAN_ERR_FULL, c) else
          (SODCHAN_OK,
           c <| state := SODCHAN_STATE_HELLO |> <| hs := SODCHAN_HS_WAIT_PEER_HELLO |>)
      | SODCHAN_ROLE_SERVER =>
          (SODCHAN_OK,
           c <| state := SODCHAN_STATE_HELLO |> <| hs := SODCHAN_HS_WAIT_PEER_HELLO |>)
      end
  end.
End Handshake.
