(* ===== verification/Mux.v ===== *)
(** The multiplexed channels: [handle_mux_pdu], one definition per case of its
    switch, and [handle_encrypted_pdu] ([src/sodchan.c], lines 622 to 956). *)

From Stdlib Require Import ZArith Lia ZifyBool String.
From S2P Require Import Prelude Defs WireBase WireHello WireAuth WireMux Crypto EventQueue.
From S2P Require Import OutBuf Channels Session Auth.
Local Open Scope Z_scope.
Local Open Scope sodchan_scope.

Section Mux.
Context `{Sodium} `{SizeT}.

(** [*ch = v] for a slot of the context. *)
Definition put_ch (c : session) (i : nat) (v : sodchan_channel_t) : session :=
  c <| chans := ch_set (chans c) i v |>.

(** The refusal of an OPEN; the code of [ss_send_pdu] is ignored. *)
Definition refuse_open (c : session) (peer_sender reason : Z) (msg : option bytes)
    (msg_len : Z) : Z * session :=
  (0, (send_encoded c
         (sodchan_wire_channel_open_fail_encode peer_sender reason msg msg_len
            (Some (zeros 64)))
         (fun rc => rc)).2).

Definition mux_channel_open (c : session) (plain : bytes) : Z * session :=
  match sodchan_wire_channel_open_decode (Some plain) (SODCHAN_CHANNEL_NAME_MAX + 1) with
  | Ok m =>
      let peer_sender := co_sender_channel m in
      let init_win := co_init_window m in
      let max_pkt := co_max_packet m in
      let name := co_name m in
      if negb (channel_name_allowed (allowed_channels (cfg c)) name)
      then refuse_open c peer_sender SODCHAN_REASON_ADMIN_PROHIBITED
             (Some (lit "not allowed")) 11 else
      let '(slot, t) := ch_alloc (chans c) (max_channels (cfg c)) in
      let c := c <| chans := t |> in
      match slot with
      | None => refuse_open c peer_sender SODCHAN_REASON_RESOURCE_SHORTAGE None 0
      | Some i =>
          let ch := ch_at (chans c) i in
          let ch := ch <| ch_state := SODCHAN_CH_PENDING |> in
          let ch := ch <| peer_id := peer_sender |> in
          let ch := ch <| ch_have_peer_id := true |> in
          let ch := ch <| send_window := init_win |> in
          let ch := ch <| ch_max_packet :=
                            if max_pkt =? 0 then max_packet (cfg c) else max_pkt |> in
          let ch := ch <| recv_window := initial_window (cfg c) |> in
          let ch := ch <| ch_name := snprintf_s (SODCHAN_CHANNEL_NAME_MAX + 1) name |> in
          let c := put_ch c i ch in
          (0, queue c (EVENT_CHANNEL_OPEN (local_id ch) peer_sender
                         (snprintf_s (SODCHAN_CHANNEL_NAME_MAX + 1) name)
                         init_win (ch_max_packet ch)))
      end
  | _ => fail c SODCHAN_ERR_PROTOCOL (lit "OPEN decode")
  end.

Definition mux_channel_open_confirm (c : session) (plain : bytes) : Z * session :=
  match sodchan_wire_channel_open_confirm_decode (Some plain) with
  | Ok (peer_sender, recipient, init_win, max_pkt) =>
      match ch_by_local (chans c) recipient with
      | None => fail c SODCHAN_ERR_PROTOCOL (lit "CONFIRM unknown")
      | Some i =>
          let ch := ch_at (chans c) i in
          if negb (bool_decide (ch_state ch = SODCHAN_CH_OPENING))
          then fail c SODCHAN_ERR_PROTOCOL (lit "CONFIRM unknown") else
          let ch := ch <| peer_id := peer_sender |> in
          let ch := ch <| ch_have_peer_id := true |> in
          let ch := ch <| send_window := init_win |> in
          let ch := ch <| ch_max_packet :=
                            if max_pkt =? 0 then max_packet (cfg c) else max_pkt |> in
          let ch := ch <| ch_state := SODCHAN_CH_OPEN |> in
          let c := put_ch c i ch in
          (0, queue c (EVENT_CHANNEL_OPENED (local_id ch) peer_sender (ch_name ch)
                         init_win (ch_max_packet ch)))
      end
  | _ => fail c SODCHAN_ERR_PROTOCOL (lit "CONFIRM decode")
  end.

Definition mux_channel_open_fail (c : session) (plain : bytes) : Z * session :=
  match sodchan_wire_channel_open_fail_decode (Some plain) 128 with
  | Ok (recipient, reason, msg, mlen) =>
      match ch_by_local (chans c) recipient with
      | Some i =>
          let ch := ch_at (chans c) i in
          if bool_decide (ch_state ch = SODCHAN_CH_OPENING) then
            let c := queue c (EVENT_CHANNEL_OPEN_FAIL (local_id ch) (ch_name ch)) in
            (0, c <| chans := ch_free (chans c) i |>)
          else (0, c)
      | None => (0, c)
      end
  | _ => fail c SODCHAN_ERR_PROTOCOL (lit "OPEN_FAIL decode")
  end.

Definition mux_channel_data (c : session) (plain : bytes) : Z * session :=
  match sodchan_wire_channel_data_decode (Some plain) with
  | Ok (recipient, data, dlen) =>
      match ch_by_local (chans c) recipient with
      | None => fail c SODCHAN_ERR_PROTOCOL (lit "DATA bad ch")
      | Some i =>
          let ch := ch_at (chans c) i in
          if negb (bool_decide (ch_state ch = SODCHAN_CH_OPEN)) &&
             negb (bool_decide (ch_state ch = SODCHAN_CH_PENDING))
          then fail c SODCHAN_ERR_PROTOCOL (lit "DATA bad ch") else
          if negb (bool_decide (ch_state ch = SODCHAN_CH_OPEN))
          then fail c SODCHAN_ERR_PROTOCOL (lit "DATA not open") else
          if recv_window ch <? dlen
          then fail c SODCHAN_ERR_PROTOCOL (lit "DATA over window") else
          if SODCHAN_DATA_MAX <? dlen
          then fail c SODCHAN_ERR_PROTOCOL (lit "DATA over max") else
          let ch := ch <| recv_window := u32 (recv_window ch - u32 dlen) |> in
          let c := put_ch c i ch in
          (0, queue c (EVENT_CHANNEL_DATA (local_id ch) (default [] data)))
      end
  | _ => fail c SODCHAN_ERR_PROTOCOL (lit "DATA decode")
  end.

Definition mux_channel_window (c : session) (plain : bytes) : Z * session :=
  match sodchan_wire_channel_window_decode (Some plain) with
  | Ok (recipient, add) =>
      match ch_by_local (chans c) recipient with
      | None => (0, c)
      | Some i =>
          let ch := ch_at (chans c) i in
          if negb (bool_decide (ch_state ch = SODCHAN_CH_OPEN)) then (0, c) else
          let ch := ch <| send_window := u32 (send_window ch + add) |> in
          let c := put_ch c i ch in
          (0, queue c (EVENT_CHANNEL_WINDOW (local_id ch) add (send_window ch)))
      end
  | _ => fail c SODCHAN_ERR_PROTOCOL (lit "WINDOW decode")
  end.

Definition mux_channel_eof (c : session) (plain : bytes) : Z * session :=
  match sodchan_wire_channel_eof_decode (Some plain) with
  | Ok recipient =>
      match ch_by_local (chans c) recipient with
      | None => (0, c)
      | Some i =>
          let ch := ch_at (chans c) i in
          let ch := ch <| remote_eof := true |> in
          let c := put_ch c i ch in
          (0, queue c (EVENT_CHANNEL_EOF (local_id ch)))
      end
  | _ => fail c SODCHAN_ERR_PROTOCOL (lit "EOF decode")
  end.

Definition mux_channel_close (c : session) (plain : bytes) : Z * session :=
  match sodchan_wire_channel_close_decode (Some plain) with
  | Ok recipient =>
      match ch_by_local (chans c) recipient with
      | None => (0, c)
      | Some i =>
          let c := queue c (EVENT_CHANNEL_CLOSE (local_id (ch_at (chans c) i))) in
          (0, c <| chans := ch_free (chans c) i |>)
      end
  | _ => fail c SODCHAN_ERR_PROTOCOL (lit "CLOSE decode")
  end.

Definition mux_ping (c : session) (plain : bytes) : Z * session :=
  match sodchan_wire_ping_decode (Some plain) with
  | Ok opaque =>
      let c := queue c EVENT_PING in
      (0, (send_encoded c (sodchan_wire_pong_encode opaque (Some (zeros 8)))
             (fun rc => rc)).2)
  | _ => fail c SODCHAN_ERR_PROTOCOL (lit "PING decode")
  end.

Definition mux_disconnect (c : session) (plain : bytes) : Z * session :=
  match sodchan_wire_disconnect_decode (Some plain) 128 with
  | Ok (reason, msg, mlen) =>
      let message := if mlen =? 0 then [] else snprintf_s SODCHAN_ERROR_MAX msg in
      let c := queue c (EVENT_DISCONNECTED (to_int32 reason) message) in
      (0, c <| state := SODCHAN_STATE_CLOSED |>)
  | _ => fail c SODCHAN_ERR_PROTOCOL (lit "DISCONNECT decode")
  end.

Definition handle_mux_pdu (c : session) (plain : bytes) : Z * session :=
  match rd8 plain 0 with
  | Ok ptype =>
      if ptype =? SODCHAN_PDU_CHANNEL_OPEN then mux_channel_open c plain else
      if ptype =? SODCHAN_PDU_CHANNEL_OPEN_CONFIRM then mux_channel_open_confirm c plain else
      if ptype =? SODCHAN_PDU_CHANNEL_OPEN_FAIL then mux_channel_open_fail c plain else
      if ptype =? SODCHAN_PDU_CHANNEL_DATA then mux_channel_data c plain else
      if ptype =? SODCHAN_PDU_CHANNEL_WINDOW then mux_channel_window c plain else
      if ptype =? SODCHAN_PDU_CHANNEL_EOF then mux_channel_eof c plain else
      if ptype =? SODCHAN_PDU_CHANNEL_CLOSE then mux_channel_close c plain else
      if ptype =? SODCHAN_PDU_PING then mux_ping c plain else
      if ptype =? SODCHAN_PDU_PONG then (0, c) else
      if ptype =? SODCHAN_PDU_DISCONNECT then mux_disconnect c plain else
      fail c SODCHAN_ERR_PROTOCOL (lit "unknown mux pdu")
  | _ => fail c SODCHAN_ERR_PROTOCOL (lit "unknown mux pdu")
  end.

(** The dispatch of a decrypted PDU on the state. *)
Definition dispatch_pdu (c : session) (ptype : Z) (plain : bytes) : Z * session :=
  match state c with
  | SODCHAN_STATE_AUTH =>
      if ptype =? SODCHAN_PDU_AUTH_DEVICE then handle_auth_device_pdu c plain else
      if ptype =? SODCHAN_PDU_AUTH_OK then handle_auth_ok_pdu c plain else
      if ptype =? SODCHAN_PDU_AUTH_FAIL then handle_auth_fail_pdu c plain else
      fail c SODCHAN_ERR_PROTOCOL (lit "unexpected pdu in AUTH")
  | SODCHAN_STATE_READY | SODCHAN_STATE_DRAINING => handle_mux_pdu c plain
  | _ => fail c SODCHAN_ERR_STATE (lit "pdu in wrong state")
  end.

Definition handle_encrypted_pdu (c : session) (ct : bytes) : Z * session :=
  if negb (ss_pull_ready c)
  then fail c SODCHAN_ERR_STATE (lit "ss pull not ready") else
  if len ct <? SODCHAN_SS_ABYTES
  then fail c SODCHAN_ERR_PROTOCOL (lit "ss ciphertext size") else
  let plain_max := len ct - SODCHAN_SS_ABYTES in
  if (SODCHAN_DATA_MAX + 64 <? plain_max) || (max_record_size (cfg c) <? plain_max)
  then fail c SODCHAN_ERR_PROTOCOL (lit "ss plaintext too large") else
  match crypto_secretstream_pull (ss_pull c) ct with
  | None => fail c SODCHAN_ERR_CRYPTO (lit "ss decrypt failed")
  | Some (st, plain, tag) =>
      let c := c <| ss_pull := st |> in
      if tag =? TAG_FINAL then
        let c := queue c (EVENT_DISCONNECTED 0 []) in
        (0, c <| state := SODCHAN_STATE_CLOSED |>)
      else
      if tag =? TAG_REKEY then (0, c) else
      if len plain =? 0 then (0, c) else
      match sodchan_wire_pdu_type (Some plain) with
      | Ok ptype => dispatch_pdu c ptype plain
      | _ => fail c SODCHAN_ERR_PROTOCOL (lit "empty pdu")
      end
  end.
End Mux.
