(* ===== verification/Engine.v ===== *)
(** The input engine: [process_input], [sodchan_feed_input]
    ([src/sodchan.c], lines 1108 to 1158 and 1289 to 1311).

    A context is a session and its input buffer.  [in_buf] is the filled prefix
    of the C array, so that its length is the field [in_len].  Every turn of
    the loop that goes on consumes a frame of at least five bytes, so that
    [S (length in_buf)] turns are enough; [process_input_done] shows that the
    loop then stopped by one of its own exits. *)

From Stdlib Require Import ZArith Lia ZifyBool String.
From S2P Require Import Prelude Defs WireBase Crypto EventQueue OutBuf Channels Session Auth.
From S2P Require Import Handshake Mux.
Local Open Scope Z_scope.
Local Open Scope sodchan_scope.

Section Engine.
Context `{Sodium} `{SizeT}.

Record ctx : Type := mk_ctx {
  core : session;
  in_buf : bytes
}.

(** The state in which neither the loop nor [sodchan_feed_input] does
    anything. *)
Definition stopped (c : session) : bool :=
  bool_decide (state c = SODCHAN_STATE_ERROR) || bool_decide (state c = SODCHAN_STATE_CLOSED).

(** The parse of the next frame, by the limit of the handshake state. *)
Definition next_frame (c : session) (data : bytes) : res (Z * bytes) :=
  if bool_decide (hs c = SODCHAN_HS_DONE)
  then sodchan_wire_frame_parse_max (Some data) (ss_frame_max_body c)
  else sodchan_wire_frame_parse (Some data).

(** The dispatch of a frame on the handshake state. *)
Definition handle_frame (c : session) (body : bytes) : Z * session :=
  match hs c with
  | SODCHAN_HS_WAIT_PEER_HELLO => handle_peer_hello c body
  | SODCHAN_HS_WAIT_PEER_SS => handle_peer_ss_header c body
  | SODCHAN_HS_DONE => handle_encrypted_pdu c body
  | SODCHAN_HS_START => fail c SODCHAN_ERR_STATE (lit "bad hs state")
  end.

(** One turn of the loop: the context, and whether the loop goes on. *)
Definition process_turn (x : ctx) : ctx * bool :=
  let c := core x in
  if stopped c then (x, false) else
  if len (in_buf x) <? 4 then (x, false) else
  match next_frame c (in_buf x) with
  | Ok (consumed, body) =>
      let '(rc, c) := handle_frame c body in
      if negb (rc =? 0) then (mk_ctx c (in_buf x), false) else
      (mk_ctx c (drop (Z.to_nat consumed) (in_buf x)), true)
  | Fail rc =>
      if rc =? SODCHAN_ERR_FULL then (x, false) else
      (mk_ctx (fail c SODCHAN_ERR_PROTOCOL (lit "frame parse error")).2 (in_buf x), false)
  | Oob =>
      (mk_ctx (fail c SODCHAN_ERR_PROTOCOL (lit "frame parse error")).2 (in_buf x), false)
  end.

Fixpoint process_loop (fuel : nat) (x : ctx) : ctx :=
  match fuel with
  | O => x
  | S fuel =>
      let '(x, more) := process_turn x in
      if more then process_loop fuel x else x
  end.

Definition process_input (x : ctx) : ctx := process_loop (S (length (in_buf x))) x.

(** [data] is the block the caller passes, [None] when it is NULL. *)
Definition sodchan_feed_input (x : ctx) (data : option bytes) : Z * ctx :=
  match data with
  | None => (0, x)
  | Some data =>
      if len data =? 0 then (0, x) else
      if stopped (core x) then (0, x) else
      let take_ := if SODCHAN_IN_BUF_SIZE - len (in_buf x) <? len data
                   then SODCHAN_IN_BUF_SIZE - len (in_buf x) else len data in
      if take_ =? 0 then (0, x) else
      let x := mk_ctx (core x) (in_buf x ++ take (Z.to_nat take_) data) in
      (take_, process_input x)
  end.
End Engine.
