(* ===== verification/Api.v ===== *)
(** The host interface: creation, reset, destruction, and the calls of
    [include/sodchan.h] ([src/sodchan.c], lines 17 to 54, 134 to 167, 1180 to
    1287 and 1313 to 1693).

    A call takes a context that exists; [api] adds the answer to a NULL
    context, and is the step of the host's interleavings of calls. *)

From Stdlib Require Import ZArith Lia ZifyBool String.
From S2P Require Import Prelude Defs WireBase WireHello WireAuth WireMux Crypto EventQueue.
From S2P Require Import OutBuf Channels Session Auth Handshake Mux Engine.
Local Open Scope Z_scope.
Local Open Scope sodchan_scope.

(** ** Configuration *)

Definition cfg_default_size (v d : Z) : Z := if v =? 0 then d else v.

Definition cfg_default_u32 (v d : Z) : Z := if v =? 0 then d else v.

(** [cfg_dup(ctx, s)]: the copy and the new [cfg_store_used]. *)
Definition cfg_dup `{SizeT} (cfg_store_used : Z) (s : option bytes) : option bytes * Z :=
  match s with
  | None => (None, cfg_store_used)
  | Some s =>
      let n := strlen s + 1 in
      if SODCHAN_CFG_STORE_SIZE <? size_t (cfg_store_used + n) then (None, cfg_store_used) else
      (Some (cstr s), size_t (cfg_store_used + n))
  end.

(** [copy_key(dst, src, n, &have)]: the key and the flag. *)
Definition copy_key (src : option bytes) (n : nat) : bytes * bool :=
  match src with
  | Some src => (take n src, true)
  | None => (zeros n, false)
  end.

(** The configuration [sodchan_create] puts in place of a NULL one. *)
Definition config_zero : sodchan_config_t :=
  {| cfg_event_queue_size := 0; cfg_max_record_size := 0; cfg_max_channel_data := 0;
     cfg_max_channels := 0; cfg_initial_window := 0; cfg_max_packet := 0;
     cfg_client_id_pk := None; cfg_client_id_sk := None; cfg_server_id_pk := None;
     cfg_server_id_sk := None; cfg_accept_any_server_pk := false;
     cfg_allowed_channels := None; cfg_client_username := None;
     cfg_client_device_id := None; cfg_max_auth_attempts_reserved := 0;
     cfg_lab_mode := false |}.

Section Api.
Context `{Sodium} `{SizeT}.

(** The settings, and the server's public key with its flag. *)
Definition apply_config_defaults (cfg : sodchan_config_t) : settings * (bytes * bool) :=
  let max_channels := cfg_default_size (cfg_max_channels cfg) SODCHAN_DEFAULT_MAX_CHANNELS in
  let max_channels := if Z.of_nat SODCHAN_MAX_CHANNELS <? max_channels
                      then Z.of_nat SODCHAN_MAX_CHANNELS else max_channels in
  let '(client_pk, have_client_pk) := copy_key (cfg_client_id_pk cfg) 32 in
  let '(client_sk, have_client_sk) := copy_key (cfg_client_id_sk cfg) 64 in
  let '(server_pk, have_server_pk) := copy_key (cfg_server_id_pk cfg) 32 in
  let '(server_sk, have_server_sk) := copy_key (cfg_server_id_sk cfg) 64 in
  let '(allowed, store_used) := cfg_dup 0 (cfg_allowed_channels cfg) in
  let '(username, store_used) := cfg_dup store_used (cfg_client_username cfg) in
  let '(device_id, store_used) := cfg_dup store_used (cfg_client_device_id cfg) in
  ({| event_queue_size :=
        cfg_default_size (cfg_event_queue_size cfg) SODCHAN_DEFAULT_EVENT_QUEUE;
      max_record_size :=
        cfg_default_size (cfg_max_record_size cfg) SODCHAN_DEFAULT_MAX_RECORD;
      max_channel_data :=
        cfg_default_size (cfg_max_channel_data cfg) SODCHAN_DEFAULT_MAX_CHANNEL;
      max_channels := max_channels;
      initial_window :=
        cfg_default_u32 (cfg_initial_window cfg) SODCHAN_DEFAULT_INIT_WINDOW;
      max_packet := cfg_default_u32 (cfg_max_packet cfg) SODCHAN_DEFAULT_MAX_PACKET;
      accept_any_server_pk := cfg_accept_any_server_pk cfg;
      lab_mode := cfg_lab_mode cfg;
      client_id_pk := client_pk; client_id_sk := client_sk; server_id_sk := server_sk;
      have_client_id_pk := have_client_pk; have_client_id_sk := have_client_sk;
      have_server_id_sk := have_server_sk;
      cfg_store_used := store_used; allowed_channels := allowed;
      client_username := username; client_device_id := device_id |},
   (server_pk, have_server_pk)).

(** ** Creation and reset *)

(** A context from [calloc], its configuration applied, with its ring. *)
Definition session_zero (r : sodchan_role_t) (cfg : settings) (server_pk : bytes)
    (have_server_pk : bool) (event_cap : Z) (e : entropy) : session :=
  {| role := r; state := SODCHAN_STATE_IDLE; hs := SODCHAN_HS_START; error := 0;
     error_msg := []; cfg := cfg; server_id_pk := server_pk;
     have_server_id_pk := have_server_pk; eph_pk := zeros 32; eph_sk := zeros 32;
     peer_eph_pk := zeros 32; peer_id_pk := zeros 32; have_peer_eph := false;
     have_peer_id := false; ss_key_c2s := zeros 32; ss_key_s2c := zeros 32;
     ss_push := ss_state_zero; ss_pull := ss_state_zero; ss_push_ready := false;
     ss_pull_ready := false; t_hello := zeros 123; have_t_hello := false;
     auth_sent := false; auth_awaiting_decide := false; auth_decided := false;
     auth_complete := false; chans := chtable_empty; out := outbuf_empty;
     evq := evqueue_new event_cap; rng := e |}.

(** The enumerator a role argument is equal to, if any. *)
Definition role_of (role : Z) : option sodchan_role_t :=
  if role =? role_code SODCHAN_ROLE_SERVER then Some SODCHAN_ROLE_SERVER else
  if role =? role_code SODCHAN_ROLE_CLIENT then Some SODCHAN_ROLE_CLIENT else None.

(** [lab_build] is whether SODCHAN_ALLOW_LAB_CLEARTEXT is defined; [mem_ctx]
    and [mem_events] are whether the two [calloc] calls succeed; [e] is the
    generator. *)
Definition sodchan_create (lab_build mem_ctx mem_events : bool) (role : Z)
    (cfg : option sodchan_config_t) (e : entropy) : option ctx :=
  match role_of role with
  | None => None
  | Some r =>
      let cfg := default config_zero cfg in
      if negb lab_build && cfg_lab_mode cfg then None else
      if match r with
         | SODCHAN_ROLE_SERVER =>
             negb (isSome (cfg_server_id_pk cfg)) || negb (isSome (cfg_server_id_sk cfg))
         | SODCHAN_ROLE_CLIENT =>
             negb (cfg_accept_any_server_pk cfg) && negb (isSome (cfg_server_id_pk cfg))
         end then None else
      if negb (sodchan_crypto_init =? SODCHAN_OK) then None else
      if negb mem_ctx then None else
      let '(s, (server_pk, have_server_pk)) := apply_config_defaults cfg in
      let event_cap := event_queue_size s in
      let event_cap := if event_cap =? 0 then SODCHAN_DEFAULT_EVENT_QUEUE else event_cap in
      if negb mem_events then None else
      let '(rc, c) :=
        handshake_start (session_zero r s server_pk have_server_pk event_cap e) in
      if negb (rc =? SODCHAN_OK) then None else Some (mk_ctx c [])
  end.

Definition sodchan_reset (x : ctx) : ctx :=
  let c := core x in
  let c := c <| eph_sk := zeros 32 |> in
  let c := c <| ss_key_c2s := zeros 32 |> in
  let c := c <| ss_key_s2c := zeros 32 |> in
  let c := c <| have_peer_eph := false |> <| have_peer_id := false |> in
  let c := c <| have_t_hello := false |> in
  let c := c <| ss_push_ready := false |> <| ss_pull_ready := false |> in
  let c := c <| auth_sent := false |> <| auth_awaiting_decide := false |> in
  let c := c <| auth_decided := false |> <| auth_complete := false |> in
  let c := c <| chans := chtable_empty |> in
  let c := c <| error := 0 |> <| error_msg := [] |> in
  let c := c <| evq := evqueue_new (event_cap (evq c)) |> in
  let c := c <| out := outbuf_empty |> in
  mk_ctx (handshake_start c).2 [].

(** *** Destruction *)

Definition settings_zero : settings :=
  {| event_queue_size := 0; max_record_size := 0; max_channel_data := 0; max_channels := 0;
     initial_window := 0; max_packet := 0; accept_any_server_pk := false; lab_mode := false;
     client_id_pk := zeros 32; client_id_sk := zeros 64; server_id_sk := zeros 64;
     have_client_id_pk := false; have_client_id_sk := false; have_server_id_sk := false;
     cfg_store_used := 0; allowed_channels := None; client_username := None;
     client_device_id := None |}.

(** A context of zeros: [memset(ctx, 0, sizeof *ctx)].  The enumerators of
    value 0 are the first of their types; a ring of no slots is [events] NULL. *)
Definition ctx_zero (e : entropy) : ctx :=
  mk_ctx (session_zero SODCHAN_ROLE_SERVER settings_zero (zeros 32) false 0 e) [].

(** What [sodchan_destroy(ctx)] hands to [free]: the ring [events] as the last
    call left it (its slots are not wiped), and the context's own memory; [None]
    for a NULL context, where nothing happens. *)
Definition sodchan_destroy (x : option ctx) : option (evqueue * ctx) :=
  match x with
  | None => None
  | Some x =>
      let c := core x in
      let c := c <| eph_sk := zeros 32 |> in
      let c := c <| cfg := ((cfg c) <| client_id_sk := zeros 64 |>) |> in
      let c := c <| cfg := ((cfg c) <| server_id_sk := zeros 64 |>) |> in
      let c := c <| ss_key_c2s := zeros 32 |> in
      let c := c <| ss_key_s2c := zeros 32 |> in
      Some (evq c, ctx_zero (rng c))
  end.

(** ** Output, events, state *)

(** [None] for [buf] is NULL; the answer is the bytes stored. *)
Definition sodchan_get_output (c : session) (buf : bool) (max_len : Z) : bytes * session :=
  if negb buf then ([], c) else
  let '(bs, o) := get_output (out c) max_len in (bs, c <| out := o |>).

Definition sodchan_next_event (c : session) (ev : bool)
    : option sodchan_event_t * session :=
  if negb ev then (None, c) else
  let '(e, q) := next_event (evq c) in (e, c <| evq := q |>).

Definition sodchan_current_state (x : option ctx) : sodchan_state_t :=
  match x with None => SODCHAN_STATE_ERROR | Some x => state (core x) end.

(** ** Channels *)

(** The slot a call means, when it is open with a known peer. *)
Definition open_slot (c : session) (local_id : Z) : option nat :=
  match ch_by_local (chans c) local_id with
  | None => None
  | Some i =>
      let ch := ch_at (chans c) i in
      if negb (bool_decide (ch_state ch = SODCHAN_CH_OPEN)) || negb (ch_have_peer_id ch)
      then None else Some i
  end.

(** The code, the id stored in [*local_id_out], the context. *)
Definition sodchan_channel_open (c : session) (name : option bytes)
    : Z * option Z * session :=
  let name_ := default [] name in
  if negb (isSome name) || bool_decide (cstr name_ = [])
  then (SODCHAN_ERR_PARAM, None, c) else
  if negb (bool_decide (state c = SODCHAN_STATE_READY)) then (SODCHAN_ERR_STATE, None, c) else
  let nlen := strlen name_ in
  if SODCHAN_CHANNEL_NAME_MAX <? nlen then (SODCHAN_ERR_PARAM, None, c) else
  if negb (channel_name_allowed (allowed_channels (cfg c)) name_)
  then (SODCHAN_ERR_REJECTED, None, c) else
  let '(slot, t) := ch_alloc (chans c) (max_channels (cfg c)) in
  let c := c <| chans := t |> in
  match slot with
  | None => (SODCHAN_ERR_FULL, None, c)
  | Some i =>
      let ch := ch_at (chans c) i in
      let ch := ch <| ch_state := SODCHAN_CH_OPENING |> in
      let ch := ch <| recv_window := initial_window (cfg c) |> in
      let ch := ch <| ch_max_packet := max_packet (cfg c) |> in
      let ch := ch <| ch_name := snprintf_s (SODCHAN_CHANNEL_NAME_MAX + 1) name_ |> in
      let c := put_ch c i ch in
      match sodchan_wire_channel_open_encode (local_id ch) (initial_window (cfg c))
              (max_packet (cfg c)) name nlen (Some (zeros 128)) with
      | Ok (pdu, plen) =>
          let '(rc, c) := ss_send_pdu c (Some pdu) plen in
          if negb (rc =? SODCHAN_OK)
          then (SODCHAN_ERR_FULL, None, c <| chans := ch_free (chans c) i |>) else
          (SODCHAN_OK, Some (local_id ch), c)
      | _ => (SODCHAN_ERR_PROTOCOL, None, c <| chans := ch_free (chans c) i |>)
      end
  end.

Definition sodchan_channel_accept (c : session) (id : Z) (accept : bool) : Z * session :=
  if negb (bool_decide (state c = SODCHAN_STATE_READY)) then (SODCHAN_ERR_STATE, c) else
  match ch_by_local (chans c) id with
  | None => (SODCHAN_ERR_STATE, c)
  | Some i =>
      let ch := ch_at (chans c) i in
      if negb (bool_decide (ch_state ch = SODCHAN_CH_PENDING)) then (SODCHAN_ERR_STATE, c) else
      if negb (ch_have_peer_id ch) then (SODCHAN_ERR_STATE, c) else
      if accept then
        match sodchan_wire_channel_open_confirm_encode (local_id ch) (peer_id ch)
                (initial_window (cfg c)) (max_packet (cfg c)) (Some (zeros 64)) with
        | Ok (pdu, plen) =>
            let '(rc, c) := ss_send_pdu c (Some pdu) plen in
            if negb (rc =? SODCHAN_OK) then (SODCHAN_ERR_FULL, c) else
            let ch := ch <| ch_state := SODCHAN_CH_OPEN |> in
            let ch := ch <| recv_window := initial_window (cfg c) |> in
            let c := put_ch c i ch in
            (SODCHAN_OK,
             queue c (EVENT_CHANNEL_OPENED (local_id ch) (peer_id ch) (ch_name ch)
                        (initial_window (cfg c)) (max_packet (cfg c))))
        | _ => (SODCHAN_ERR_PROTOCOL, c)
        end
      else
        match sodchan_wire_channel_open_fail_encode (peer_id ch)
                SODCHAN_REASON_ADMIN_PROHIBITED None 0 (Some (zeros 64)) with
        | Ok (pdu, plen) =>
            let '(rc, c) := ss_send_pdu c (Some pdu) plen in
            if negb (rc =? SODCHAN_OK) then (SODCHAN_ERR_FULL, c) else
            (SODCHAN_OK, c <| chans := ch_free (chans c) i |>)
        | _ => (SODCHAN_ERR_PROTOCOL, c)
        end
  end.

(** [mem] is whether [malloc] succeeds; [length] is the argument [len]. *)
Definition sodchan_channel_send (mem : bool) (c : session) (id : Z) (data : option bytes)
    (length : Z) : Z * session :=
  if (0 <? length) && negb (isSome data) then (SODCHAN_ERR_PARAM, c) else
  if negb (bool_decide (state c = SODCHAN_STATE_READY)) then (SODCHAN_ERR_STATE, c) else
  match open_slot c id with
  | None => (SODCHAN_ERR_NOTFOUND, c)
  | Some i =>
      let ch := ch_at (chans c) i in
      if local_eof ch then (SODCHAN_ERR_STATE, c) else
      if (ch_max_packet ch <? length) || (SODCHAN_DATA_MAX <? length)
      then (SODCHAN_ERR_PARAM, c) else
      if send_window ch <? length then (SODCHAN_ERR_WINDOW, c) else
      let pdu_cap := size_t (9 + length) in
      if negb mem then (SODCHAN_ERR_NOMEM, c) else
      match sodchan_wire_channel_data_encode (peer_id ch) data length
              (Some (zeros (Z.to_nat pdu_cap))) with
      | Ok (pdu, plen) =>
          let '(rc, c) := ss_send_pdu c (Some pdu) plen in
          if negb (rc =? SODCHAN_OK) then (rc, c) else
          (SODCHAN_OK, put_ch c i (ch <| send_window := u32 (send_window ch - u32 length) |>))
      | Fail rc => (rc, c)
      | Oob => (SODCHAN_ERR_PARAM, c)
      end
  end.

Definition sodchan_channel_window_avail (c : session) (id : Z) : Z := window_avail (chans c) id.

Definition sodchan_channel_eof (c : session) (id : Z) : Z * session :=
  if negb (bool_decide (state c = SODCHAN_STATE_READY)) then (SODCHAN_ERR_STATE, c) else
  match open_slot c id with
  | None => (SODCHAN_ERR_NOTFOUND, c)
  | Some i =>
      let ch := ch_at (chans c) i in
      if local_eof ch then (SODCHAN_OK, c) else
      match sodchan_wire_channel_eof_encode (peer_id ch) (Some (zeros 8)) with
      | Ok (pdu, plen) =>
          let '(rc, c) := ss_send_pdu c (Some pdu) plen in
          if negb (rc =? SODCHAN_OK) then (SODCHAN_ERR_FULL, c) else
          (SODCHAN_OK, put_ch c i (ch <| local_eof := true |>))
      | _ => (SODCHAN_ERR_PROTOCOL, c)
      end
  end.

Definition sodchan_channel_close (c : session) (id : Z) : Z * session :=
  if negb (bool_decide (state c = SODCHAN_STATE_READY)) &&
     negb (bool_decide (state c = SODCHAN_STATE_DRAINING))
  then (SODCHAN_ERR_STATE, c) else
  match ch_by_local (chans c) id with
  | None => (SODCHAN_ERR_NOTFOUND, c)
  | Some i =>
      let ch := ch_at (chans c) i in
      if bool_decide (ch_state ch = SODCHAN_CH_UNUSED) then (SODCHAN_ERR_NOTFOUND, c) else
      let c :=
        if ch_have_peer_id ch && bool_decide (ch_state ch = SODCHAN_CH_OPEN)
        then (send_encoded c (sodchan_wire_channel_close_encode (peer_id ch) (Some (zeros 8)))
                (fun rc => rc)).2
        else c in
      (SODCHAN_OK, c <| chans := ch_free (chans c) i |>)
  end.

Definition sodchan_channel_window_adjust (c : session) (id credit : Z) : Z * session :=
  if credit =? 0 then (SODCHAN_ERR_PARAM, c) else
  if negb (bool_decide (state c = SODCHAN_STATE_READY)) then (SODCHAN_ERR_STATE, c) else
  match open_slot c id with
  | None => (SODCHAN_ERR_NOTFOUND, c)
  | Some i =>
      let ch := ch_at (chans c) i in
      match sodchan_wire_channel_window_encode (peer_id ch) credit (Some (zeros 16)) with
      | Ok (pdu, plen) =>
          let '(rc, c) := ss_send_pdu c (Some pdu) plen in
          if negb (rc =? SODCHAN_OK) then (SODCHAN_ERR_FULL, c) else
          (SODCHAN_OK, put_ch c i (ch <| recv_window := u32 (recv_window ch + credit) |>))
      | _ => (SODCHAN_ERR_PROTOCOL, c)
      end
  end.

Definition sodchan_disconnect (c : session) (reason : Z) (msg : option bytes) : Z * session :=
  if bool_decide (state c = SODCHAN_STATE_CLOSED) then (SODCHAN_OK, c) else
  let mlen :=
    match msg with
    | Some m => if 64 <? strlen m then 64 else strlen m
    | None => 0
    end in
  if ss_push_ready c &&
     (bool_decide (state c = SODCHAN_STATE_READY) ||
      bool_decide (state c = SODCHAN_STATE_AUTH) ||
      bool_decide (state c = SODCHAN_STATE_DRAINING))
  then
    let c := (send_encoded c
                (sodchan_wire_disconnect_encode (u32 reason) msg mlen (Some (zeros 128)))
                (fun rc => rc)).2 in
    (SODCHAN_OK, c <| state := SODCHAN_STATE_DRAINING |>)
  else (SODCHAN_OK, c <| state := SODCHAN_STATE_CLOSED |>).

(** ** The host's calls *)

Inductive call : Type :=
  | Call_reset
  | Call_feed_input (data : option bytes)
  | Call_get_output (buf : bool) (max_len : Z)
  | Call_next_event (ev : bool)
  | Call_auth_decide_ex (accept : bool) (claims : option bytes) (claims_len : Z)
  | Call_channel_open (name : option bytes)
  | Call_channel_accept (id : Z) (accept : bool)
  | Call_channel_send (mem : bool) (id : Z) (data : option bytes) (length : Z)
  | Call_channel_eof (id : Z)
  | Call_channel_close (id : Z)
  | Call_channel_window_adjust (id credit : Z)
  | Call_disconnect (reason : Z) (msg : option bytes).

Inductive answer : Type :=
  | Done
  | Code (rc : Z)
  | Opened (rc : Z) (id : option Z)
  | Count (n : Z)
  | Output (bs : bytes)
  | Event (ev : option sodchan_event_t).

(** A call that changes only the session. *)
Definition on_core {A} (x : ctx) (k : A -> answer) (r : A * session) : answer * ctx :=
  (k r.1, mk_ctx r.2 (in_buf x)).

Definition api_ctx (x : ctx) (op : call) : answer * ctx :=
  let c := core x in
  match op with
  | Call_reset => (Done, sodchan_reset x)
  | Call_feed_input data => let '(n, x) := sodchan_feed_input x data in (Count n, x)
  | Call_get_output buf n => on_core x Output (sodchan_get_output c buf n)
  | Call_next_event ev => on_core x Event (sodchan_next_event c ev)
  | Call_auth_decide_ex a claims n => on_core x Code (sodchan_auth_decide_ex c a claims n)
  | Call_channel_open name =>
      on_core x (fun '(rc, id) => Opened rc id) (sodchan_channel_open c name)
  | Call_channel_accept id a => on_core x Code (sodchan_channel_accept c id a)
  | Call_channel_send mem id data n => on_core x Code (sodchan_channel_send mem c id data n)
  | Call_channel_eof id => on_core x Code (sodchan_channel_eof c id)
  | Call_channel_close id => on_core x Code (sodchan_channel_close c id)
  | Call_channel_window_adjust id n =>
      on_core x Code (sodchan_channel_window_adjust c id n)
  | Call_disconnect r msg => on_core x Code (sodchan_disconnect c r msg)
  end.

(** *** The generator

    libsodium's generator is the process's, not a context's: between two calls
    on a context, anything else may have drawn from it.  [call_at e x op] is the
    call on [x] when the generator is in state [e]; it answers the generator's
    state after the call as well. *)
Definition with_rng (e : entropy) (x : ctx) : ctx := mk_ctx ((core x) <| rng := e |>) (in_buf x).

Definition call_at (e : entropy) (x : ctx) (op : call) : answer * ctx * entropy :=
  let '(a, x) := api_ctx (with_rng e x) op in (a, x, rng (core x)).

(** The answer to a NULL context. *)
Definition null_answer (op : call) : answer :=
  match op with
  | Call_reset => Done
  | Call_feed_input _ => Count 0
  | Call_get_output _ _ => Output []
  | Call_next_event _ => Event None
  | Call_channel_open _ => Opened SODCHAN_ERR_PARAM None
  | _ => Code SODCHAN_ERR_PARAM
  end.

Definition api (x : option ctx) (op : call) : answer * option ctx :=
  match x with
  | None => (null_answer op, None)
  | Some x => let '(a, x) := api_ctx x op in (a, Some x)
  end.
End Api.
