(* ===== verification/Clients.v ===== *)
(** The programs of the repository that call the library: the fuzz harness
    ([src/fuzz/fuzz_sodchan.c]) and the two examples ([src/examples/]).

    They run in one process, which has one generator and one heap: the monad
    [proc] threads both.  The heap is an oracle: [heap p] says whether the next
    [malloc] or [calloc] succeeds; a call that allocates is given its answers
    before it runs, whether it gets to ask or not.  A harness function that returns nothing
    answers here the contexts in the state in which it destroys them. *)

From Stdlib Require Import ZArith Lia ZifyBool String.
From S2P Require Import Prelude Defs WireBase Crypto EventQueue OutBuf Channels Session Auth.
From S2P Require Import Handshake Mux Engine Api.
Local Open Scope Z_scope.
Local Open Scope sodchan_scope.

Section Process.
Context `{Sodium} `{SizeT}.

(** ** The process *)

Record process : Type := mk_process {
  gen : entropy;
  heap : nat -> bool
}.

Definition proc (A : Type) : Type := process -> A * process.

Definition ret {A} (a : A) : proc A := fun p => (a, p).

Definition bind {A B} (m : proc A) (f : A -> proc B) : proc B :=
  fun p => let '(a, p) := m p in f a p.

Notation "'let!' x := m 'in' k" := (bind m (fun x => k))
  (at level 10, x pattern, m at level 100, k at level 200).

(** [malloc] or [calloc]: whether it succeeds. *)
Definition alloc : proc bool :=
  fun p => (heap p 0%nat, mk_process (gen p) (fun i => heap p (S i))).

(** A call on a context, with the process's generator. *)
Definition call_ctx (x : ctx) (op : call) : proc (answer * ctx) :=
  fun p => let '(a, x, e) := call_at (gen p) x op in ((a, x), mk_process e (heap p)).

(** The configurations of these programs pass the checks of [sodchan_create] that
    come before [sodchan_crypto_init], so that one that fails with its memory at
    hand has drawn from the generator. *)
Definition create (r : sodchan_role_t) (cfg : sodchan_config_t) : proc (option ctx) :=
  if negb (sodchan_crypto_init =? SODCHAN_OK) then ret None else
  let! m1 := alloc in
  let! m2 := (if m1 then alloc else ret false) in
  fun p =>
    match sodchan_create false m1 m2 (role_code r) (Some cfg) (gen p) with
    | Some x => (Some x, mk_process (rng (core x)) (heap p))
    | None => (None, if m2 then mk_process (crypto_kx_keypair (gen p)).2 (heap p) else p)
    end.

Definition keygen : proc (res (bytes * bytes)) :=
  fun p => let '(k, e) := sodchan_keygen_device (gen p) in (k, mk_process e (heap p)).

(** *** The calls by their results *)

Definition get_output_of (x : ctx) (n : Z) : proc (bytes * ctx) :=
  let! (a, x) := call_ctx x (Call_get_output true n) in
  ret (match a with Output bs => bs | _ => [] end, x).

Definition feed_of (x : ctx) (data : bytes) : proc (Z * ctx) :=
  let! (a, x) := call_ctx x (Call_feed_input (Some data)) in
  ret (match a with Count n => n | _ => 0 end, x).

Definition next_event_of (x : ctx) : proc (option sodchan_event_t * ctx) :=
  let! (a, x) := call_ctx x (Call_next_event true) in
  ret (match a with Event ev => ev | _ => None end, x).

Definition do_call (x : ctx) (op : call) : proc ctx :=
  let! (_, x) := call_ctx x op in ret x.

(** ** fuzz/fuzz_sodchan.c *)

(** [while (sodchan_get_output(ctx, out, sizeof(out)) > 0) { }] *)
Fixpoint drain_output (fuel : nat) (x : ctx) : proc ctx :=
  match fuel with
  | O => ret x
  | S fuel =>
      let! (out, x) := get_output_of x 8192 in
      if 0 <? len out then drain_output fuel x else ret x
  end.

(** The body of the event loop. *)
Definition answer_event (x : ctx) (ev : sodchan_event_t) : proc ctx :=
  match ev with
  | EVENT_AUTH_DEVICE _ _ _ _ sig_ok => do_call x (Call_auth_decide_ex sig_ok None 0)
  | EVENT_CHANNEL_OPEN channel_id _ _ _ _ => do_call x (Call_channel_accept channel_id true)
  | _ => ret x
  end.

(** [while (sodchan_next_event(ctx, ev) == 1) { ... }] *)
Fixpoint drain_events (fuel : nat) (x : ctx) : proc ctx :=
  match fuel with
  | O => ret x
  | S fuel =>
      let! (ev, x) := next_event_of x in
      match ev with
      | None => ret x
      | Some ev => let! x := answer_event x ev in drain_events fuel x
      end
  end.

(** Each turn of the first loop takes a byte at least; an event of the ring
    makes two more at most, which make none ([Harness.drain_events_ends]). *)
Definition output_fuel (x : ctx) : nat := S (length (out_buf (out (core x)))).
Definition events_fuel (x : ctx) : nat := S (3 * Z.to_nat (event_count (evq (core x)))).

Definition drain_ctx (x : ctx) : proc ctx :=
  let! x := drain_output (output_fuel x) x in
  let! ev := alloc in
  if negb ev then ret x else drain_events (events_fuel x) x.

(** The loop of [fuzz_one_role] over the input, from [off] on. *)
Fixpoint feed_chunks (fuel : nat) (data : bytes) (x : ctx) (off : Z) : proc ctx :=
  match fuel with
  | O => ret x
  | S fuel =>
      if negb (off <? len data) then ret x else
      let byte := match rd8 data (off mod len data) with Ok b => b | _ => 0 end in
      let chunk := 1 + byte mod 64 in
      let left := len data - off in
      let chunk := if left <? chunk then left else chunk in
      let block := take (Z.to_nat chunk) (drop (Z.to_nat off) data) in
      let! (took, x) := feed_of x block in
      let! (took, x) :=
        (if (took =? 0) && (0 <? chunk) then
           let! x := drain_ctx x in
           feed_of x block
         else ret (took, x)) in
      if took =? 0 then ret x else
      let off := off + took in
      let! x := drain_ctx x in
      if bool_decide (state (core x) = SODCHAN_STATE_ERROR) ||
         bool_decide (state (core x) = SODCHAN_STATE_CLOSED)
      then ret x else feed_chunks fuel data x off
  end.

(** [if (sodchan_current_state(ctx) == SODCHAN_STATE_READY) { ... }] *)
Definition open_if_ready (x : ctx) : proc ctx :=
  if bool_decide (state (core x) = SODCHAN_STATE_READY) then
    let! (a, x) := call_ctx x (Call_channel_open (Some (lit "edge-telemetry"))) in
    let! x :=
      match a with
      | Opened rc id =>
          if rc =? SODCHAN_OK then
            let msg := lit "fuzz" in
            let! mem := alloc in
            do_call x (Call_channel_send mem (default 0 id) (Some msg) 4)
          else ret x
      | _ => ret x
      end in
    drain_ctx x
  else ret x.

(** The first bit of the input. *)
Definition low_bit (data : bytes) : bool :=
  match data with b :: _ => Z.testbit (byte.unsigned b) 0 | [] => false end.

Definition fuzz_config (role : sodchan_role_t) (data : bytes) (server_pk server_sk client_pk
    client_sk : bytes) : sodchan_config_t :=
  match role with
  | SODCHAN_ROLE_SERVER =>
      {| cfg_event_queue_size := 0; cfg_max_record_size := 0; cfg_max_channel_data := 0;
         cfg_max_channels := 0; cfg_initial_window := 0; cfg_max_packet := 0;
         cfg_client_id_pk := None; cfg_client_id_sk := None;
         cfg_server_id_pk := Some server_pk; cfg_server_id_sk := Some server_sk;
         cfg_accept_any_server_pk := false;
         cfg_allowed_channels := Some (lit "edge-telemetry,edge-control");
         cfg_client_username := None; cfg_client_device_id := None;
         cfg_max_auth_attempts_reserved := 0; cfg_lab_mode := false |}
  | SODCHAN_ROLE_CLIENT =>
      {| cfg_event_queue_size := 0; cfg_max_record_size := 0; cfg_max_channel_data := 0;
         cfg_max_channels := 0; cfg_initial_window := 0; cfg_max_packet := 0;
         cfg_client_id_pk := Some client_pk; cfg_client_id_sk := Some client_sk;
         cfg_server_id_pk := Some server_pk; cfg_server_id_sk := None;
         cfg_accept_any_server_pk := low_bit data;
         cfg_allowed_channels := None;
         cfg_client_username := Some (lit "fuzz"); cfg_client_device_id := Some (lit "f1");
         cfg_max_auth_attempts_reserved := 0; cfg_lab_mode := false |}
  end.

Definition fuzz_one_role (role : sodchan_role_t) (data : bytes)
    (server_pk server_sk client_pk client_sk : bytes) : proc (list ctx) :=
  let! x := create role (fuzz_config role data server_pk server_sk client_pk client_sk) in
  match x with
  | None => ret []
  | Some x =>
      let! x := feed_chunks (S (length data)) data x 0 in
      let! x := open_if_ready x in
      ret [x]
  end.

(** [n = sodchan_get_output(from, buf, sizeof(buf));
    if (n > 0) (void)sodchan_feed_input(to, buf, n);] *)
Definition relay (from to : ctx) (size : Z) : proc (ctx * ctx) :=
  let! (buf, from) := get_output_of from size in
  if 0 <? len buf then
    let! (_, to) := feed_of to buf in ret (from, to)
  else ret (from, to).

(** One round of [fuzz_dialectic_inject]. *)
Definition dialectic_round (s c : ctx) : proc (ctx * ctx) :=
  let! (c, s) := relay c s 4096 in
  let! (s, c) := relay s c 4096 in
  let! s := drain_ctx s in
  let! c := drain_ctx c in
  ret (s, c).

(** [for (rounds = 0; rounds < n; rounds++) { ... }] *)
Fixpoint dialectic_rounds (n : nat) (s c : ctx) : proc (ctx * ctx) :=
  match n with
  | O => ret (s, c)
  | S n => let! (s, c) := dialectic_round s c in dialectic_rounds n s c
  end.

(** [memset(&scfg, 0, ...)] and what is set of it. *)
Definition dialectic_server_config (server_pk server_sk : bytes) : sodchan_config_t :=
  {| cfg_event_queue_size := 0; cfg_max_record_size := 0; cfg_max_channel_data := 0;
     cfg_max_channels := 0; cfg_initial_window := 0; cfg_max_packet := 0;
     cfg_client_id_pk := None; cfg_client_id_sk := None;
     cfg_server_id_pk := Some server_pk; cfg_server_id_sk := Some server_sk;
     cfg_accept_any_server_pk := false; cfg_allowed_channels := None;
     cfg_client_username := None; cfg_client_device_id := None;
     cfg_max_auth_attempts_reserved := 0; cfg_lab_mode := false |}.

Definition dialectic_client_config (server_pk client_pk client_sk : bytes) : sodchan_config_t :=
  {| cfg_event_queue_size := 0; cfg_max_record_size := 0; cfg_max_channel_data := 0;
     cfg_max_channels := 0; cfg_initial_window := 0; cfg_max_packet := 0;
     cfg_client_id_pk := Some client_pk; cfg_client_id_sk := Some client_sk;
     cfg_server_id_pk := Some server_pk; cfg_server_id_sk := None;
     cfg_accept_any_server_pk := false; cfg_allowed_channels := None;
     cfg_client_username := Some (lit "d"); cfg_client_device_id := Some (lit "e");
     cfg_max_auth_attempts_reserved := 0; cfg_lab_mode := false |}.

(** The contexts that exist. *)
Definition created_of (s c : option ctx) : list ctx :=
  match s, c with
  | Some s, Some c => [s; c]
  | Some x, None | None, Some x => [x]
  | None, None => []
  end.

Definition fuzz_dialectic_inject (data : bytes) (server_pk server_sk client_pk client_sk : bytes)
    : proc (list ctx) :=
  let! s := create SODCHAN_ROLE_SERVER (dialectic_server_config server_pk server_sk) in
  let! c := create SODCHAN_ROLE_CLIENT (dialectic_client_config server_pk client_pk client_sk) in
  match s, c with
  | Some s, Some c =>
      let! (s, c) := dialectic_rounds 8 s c in
      if 0 <? len data then
        let! (_, s) := feed_of s data in
        let! (_, c) := feed_of c data in
        let! s := drain_ctx s in
        let! c := drain_ctx c in
        ret [s; c]
      else ret [s; c]
  | _, _ => ret (created_of s c)
  end.

Definition LLVMFuzzerTestOneInput (data : bytes) : proc (list ctx) :=
  let! server := keygen in
  match server with
  | Ok (server_pk, server_sk) =>
      let! client := keygen in
      match client with
      | Ok (client_pk, client_sk) =>
          let mode := match data with b :: _ => byte.unsigned b mod 3 | [] => 0 end in
          if mode =? 0 then
            fuzz_one_role SODCHAN_ROLE_SERVER data server_pk server_sk client_pk client_sk
          else if mode =? 1 then
            fuzz_one_role SODCHAN_ROLE_CLIENT data server_pk server_sk client_pk client_sk
          else fuzz_dialectic_inject data server_pk server_sk client_pk client_sk
      | _ => ret []
      end
  | _ => ret []
  end.

(** *** The standalone build *)

(** What stdio answers about a path: whether [fopen] and [fseek] succeed, the
    size [ftell] answers, and the bytes [fread] finds, at most as many as it is
    asked for. *)
Record file : Type := mk_file {
  f_opens : bool;
  f_seeks : bool;
  f_size : Z;
  f_bytes : bytes
}.

(** The result, and the contexts the input made. *)
Definition run_file (f : file) : proc (Z * list ctx) :=
  if negb (f_opens f) then ret (1, []) else
  if negb (f_seeks f) then ret (1, []) else
  let sz := f_size f in
  if sz <? 0 then ret (1, []) else
  let! buf := alloc in
  if negb buf then ret (1, []) else
  let! xs := LLVMFuzzerTestOneInput (take (Z.to_nat sz) (f_bytes f)) in
  ret (0, xs).

(** [for (i = 1; i < argc; i++) if (run_file(argv\[i\]) != 0) rc = 1;] *)
Fixpoint run_files (files : list file) (rc : Z) : proc (Z * list ctx) :=
  match files with
  | [] => ret (rc, [])
  | f :: files =>
      let! (r, xs) := run_file f in
      let! (rc, ys) := run_files files (if negb (r =? 0) then 1 else rc) in
      ret (rc, xs ++ ys)
  end.

(** [main]; [files] is what the arguments after [argv\[0\]] name. *)
Definition fuzz_main (files : list file) : proc (Z * list ctx) :=
  match files with
  | [] =>
      let! xs := LLVMFuzzerTestOneInput [] in
      let! ys := LLVMFuzzerTestOneInput [] in
      let! zs := LLVMFuzzerTestOneInput (zeros 1) in
      ret (0, xs ++ ys ++ zs)
  | _ :: _ => run_files files 0
  end.

(** ** examples/ *)

(** What an example prints on its standard output, and its exit code. *)
Inductive printed : Type :=
  | Client_state (state idle : Z)
  | Server_state (state : Z) (fingerprint : bytes).

Definition client_example_config (server_pk client_pk client_sk : bytes) : sodchan_config_t :=
  {| cfg_event_queue_size := 0; cfg_max_record_size := 0; cfg_max_channel_data := 0;
     cfg_max_channels := 0; cfg_initial_window := 0; cfg_max_packet := 0;
     cfg_client_id_pk := Some client_pk; cfg_client_id_sk := Some client_sk;
     cfg_server_id_pk := Some server_pk; cfg_server_id_sk := None;
     cfg_accept_any_server_pk := false; cfg_allowed_channels := None;
     cfg_client_username := None; cfg_client_device_id := None;
     cfg_max_auth_attempts_reserved := 0; cfg_lab_mode := false |}.

(** [main] of examples/sodchan_client_example.c *)
Definition client_example_main : proc (Z * list printed) :=
  let! server := keygen in
  match server with
  | Ok (server_pk, _) =>
      let! client := keygen in
      match client with
      | Ok (client_pk, client_sk) =>
          let! c := create SODCHAN_ROLE_CLIENT
                      (client_example_config server_pk client_pk client_sk) in
          match c with
          | None => ret (1, [])
          | Some c =>
              ret (0, [Client_state (state_code (state (core c)))
                         (state_code SODCHAN_STATE_IDLE)])
          end
      | _ => ret (1, [])
      end
  | _ => ret (1, [])
  end.

(** [main] of examples/sodchan_server_example.c; [fp] is the array before the
    call that fills it. *)
Definition server_example_main (fp : bytes) : proc (Z * list printed) :=
  let! server := keygen in
  match server with
  | Ok (pk, sk) =>
      let fp := match sodchan_pubkey_fingerprint_sha256 (Some pk) (Some fp) with
                | Ok fp => fp | _ => fp end in
      let! s := create SODCHAN_ROLE_SERVER (dialectic_server_config pk sk) in
      match s with
      | None => ret (1, [])
      | Some s => ret (0, [Server_state (state_code (state (core s))) (cstr fp)])
      end
  | _ => ret (1, [])
  end.
End Process.
