(* ===== verification/Invariant.v ===== *)
(** The well-formedness of a session and its preservation by every handler and
    every call: the ring, the output buffer and the channel table keep their
    invariants, every array keeps its size, and the settings their ranges. *)

From Stdlib Require Import ZArith Lia ZifyBool String.
From S2P Require Import Prelude Defs WireBase WireHello WireAuth WireMux Crypto EventQueue.
From S2P Require Import OutBuf Channels Session Auth Handshake Mux Engine Api.
Local Open Scope Z_scope.
Local Open Scope sodchan_scope.

(** ** Every PDU fits the small buffer it is encoded in *)

Section Fits.
Context `{Sodium} `{SizeT}.

Lemma auth_fail_fits n : fits (sodchan_wire_auth_fail_encode (Some (zeros n))).
Proof. unfold sodchan_wire_auth_fail_encode. encoder_fits. Qed.
Lemma auth_ok_fits claims k :
  0 <= k -> fits (sodchan_wire_auth_ok_encode claims k (Some (zeros (3 + 1024)))).
Proof. intros ?. unfold sodchan_wire_auth_ok_encode. consts. encoder_fits. Qed.
Lemma auth_device_fits pk sig user k dev l :
  0 <= k -> 0 <= l ->
  fits (sodchan_wire_auth_device_encode pk sig user k dev l (Some (zeros 512))).
Proof. intros ? ?. unfold sodchan_wire_auth_device_encode. consts. encoder_fits. Qed.
Lemma open_fits s w p name k n :
  0 <= k -> fits (sodchan_wire_channel_open_encode s w p name k (Some (zeros n))).
Proof. intros ?. unfold sodchan_wire_channel_open_encode. consts. encoder_fits. Qed.
Lemma confirm_fits s r w p n :
  fits (sodchan_wire_channel_open_confirm_encode s r w p (Some (zeros n))).
Proof. unfold sodchan_wire_channel_open_confirm_encode. encoder_fits. Qed.
Lemma open_fail_fits r reason msg k n :
  0 <= k -> fits (sodchan_wire_channel_open_fail_encode r reason msg k (Some (zeros n))).
Proof. intros ?. unfold sodchan_wire_channel_open_fail_encode. encoder_fits. Qed.
Lemma data_fits r data k out :
  0 <= k <= SODCHAN_DATA_MAX -> fits (sodchan_wire_channel_data_encode r data k out).
Proof.
  intros ?. unfold sodchan_wire_channel_data_encode. consts.
  rewrite size_t_small by lia. encoder_fits.
Qed.
Lemma window_fits r add n : fits (sodchan_wire_channel_window_encode r add (Some (zeros n))).
Proof. unfold sodchan_wire_channel_window_encode. encoder_fits. Qed.
Lemma u32_pdu_fits t v n : fits (u32_pdu_encode t v (Some (zeros n))).
Proof. unfold u32_pdu_encode. encoder_fits. Qed.
Lemma disconnect_fits reason msg k n :
  0 <= k -> fits (sodchan_wire_disconnect_encode reason msg k (Some (zeros n))).
Proof. intros ?. unfold sodchan_wire_disconnect_encode. encoder_fits. Qed.
End Fits.

#[export] Hint Resolve auth_fail_fits auth_ok_fits auth_device_fits open_fits confirm_fits
  open_fail_fits data_fits window_fits u32_pdu_fits disconnect_fits : sodchan.

(** ** The invariant *)

Section Invariant.
Context `{Sodium} `{SizeT}.

(** A string of the configuration, held in the store. *)
Definition cfg_string (s : option bytes) : Prop :=
  match s with
  | None => True
  | Some s => (Byte.x00 ∉ s) /\ len s < SODCHAN_CFG_STORE_SIZE
  end.

Record settings_wf (s : settings) : Prop := {
  swf_record : record_sane s;
  swf_channels : 0 < max_channels s <= Z.of_nat SODCHAN_MAX_CHANNELS;
  swf_window : 0 < initial_window s < 4294967296;
  swf_packet : 0 < max_packet s < 4294967296;
  swf_queue : 0 < event_queue_size s;
  swf_client_pk : length (client_id_pk s) = 32%nat;
  swf_client_sk : length (client_id_sk s) = 64%nat;
  swf_server_sk : length (server_id_sk s) = 64%nat;
  swf_store : 0 <= cfg_store_used s <= SODCHAN_CFG_STORE_SIZE;
  swf_allowed : cfg_string (allowed_channels s);
  swf_username : cfg_string (client_username s);
  swf_device : cfg_string (client_device_id s)
}.

Record session_wf (c : session) : Prop := {
  wf_cfg : settings_wf (cfg c);
  wf_evq : evq_wf (evq c);
  wf_out : out_wf (out c);
  wf_chans : table_wf (chans c);
  wf_active : active_channels (chans c) <= max_channels (cfg c);
  wf_server_pk : length (server_id_pk c) = 32%nat;
  wf_eph_pk : length (eph_pk c) = 32%nat;
  wf_eph_sk : length (eph_sk c) = 32%nat;
  wf_peer_eph : length (peer_eph_pk c) = 32%nat;
  wf_peer_id : length (peer_id_pk c) = 32%nat;
  wf_key_c2s : length (ss_key_c2s c) = 32%nat;
  wf_key_s2c : length (ss_key_s2c c) = 32%nat;
  wf_t_hello : length (t_hello c) = 123%nat;
  wf_error_msg : len (error_msg c) < SODCHAN_ERROR_MAX
}.

Definition ctx_wf (x : ctx) : Prop :=
  session_wf (core x) /\ len (in_buf x) <= SODCHAN_IN_BUF_SIZE.
End Invariant.

(** [wf_field]: an update of one field, given what the field must satisfy. *)
Ltac wf_field := intros []; constructor; assumption.

Section Helpers.
Context `{Sodium} `{SizeT}.

Lemma wf_set_evq c q : session_wf c -> evq_wf q -> session_wf (c <| evq := q |>).
Proof. intros [] ?. by constructor. Qed.
Lemma wf_set_out c o : session_wf c -> out_wf o -> session_wf (c <| out := o |>).
Proof. intros [] ?. by constructor. Qed.
Lemma wf_set_chans c t :
  session_wf c -> table_wf t -> active_channels t <= max_channels (cfg c) ->
  session_wf (c <| chans := t |>).
Proof. intros [] ? ?. by constructor. Qed.
Lemma wf_set_state c s : session_wf c -> session_wf (c <| state := s |>).
Proof. wf_field. Qed.
Lemma wf_set_hs c s : session_wf c -> session_wf (c <| hs := s |>).
Proof. wf_field. Qed.
Lemma wf_set_error c v : session_wf c -> session_wf (c <| error := v |>).
Proof. wf_field. Qed.
Lemma wf_set_rng c e : session_wf c -> session_wf (c <| rng := e |>).
Proof. wf_field. Qed.
Lemma wf_set_ss_push c s : session_wf c -> session_wf (c <| ss_push := s |>).
Proof. wf_field. Qed.
Lemma wf_set_ss_pull c s : session_wf c -> session_wf (c <| ss_pull := s |>).
Proof. wf_field. Qed.
Lemma wf_set_ss_push_ready c b : session_wf c -> session_wf (c <| ss_push_ready := b |>).
Proof. wf_field. Qed.
Lemma wf_set_ss_pull_ready c b : session_wf c -> session_wf (c <| ss_pull_ready := b |>).
Proof. wf_field. Qed.
Lemma wf_set_have_server_pk c b :
  session_wf c -> session_wf (c <| have_server_id_pk := b |>).
Proof. wf_field. Qed.
Lemma wf_set_have_peer_eph c b : session_wf c -> session_wf (c <| have_peer_eph := b |>).
Proof. wf_field. Qed.
Lemma wf_set_have_peer_id c b : session_wf c -> session_wf (c <| have_peer_id := b |>).
Proof. wf_field. Qed.
Lemma wf_set_have_t_hello c b : session_wf c -> session_wf (c <| have_t_hello := b |>).
Proof. wf_field. Qed.
Lemma wf_set_auth_sent c b : session_wf c -> session_wf (c <| auth_sent := b |>).
Proof. wf_field. Qed.
Lemma wf_set_awaiting c b : session_wf c -> session_wf (c <| auth_awaiting_decide := b |>).
Proof. wf_field. Qed.
Lemma wf_set_decided c b : session_wf c -> session_wf (c <| auth_decided := b |>).
Proof. wf_field. Qed.
Lemma wf_set_complete c b : session_wf c -> session_wf (c <| auth_complete := b |>).
Proof. wf_field. Qed.
Lemma wf_set_server_pk c k :
  session_wf c -> length k = 32%nat -> session_wf (c <| server_id_pk := k |>).
Proof. intros [] ?. by constructor. Qed.
Lemma wf_set_eph_pk c k :
  session_wf c -> length k = 32%nat -> session_wf (c <| eph_pk := k |>).
Proof. intros [] ?. by constructor. Qed.
Lemma wf_set_eph_sk c k :
  session_wf c -> length k = 32%nat -> session_wf (c <| eph_sk := k |>).
Proof. intros [] ?. by constructor. Qed.
Lemma wf_set_peer_eph c k :
  session_wf c -> length k = 32%nat -> session_wf (c <| peer_eph_pk := k |>).
Proof. intros [] ?. by constructor. Qed.
Lemma wf_set_peer_id c k :
  session_wf c -> length k = 32%nat -> session_wf (c <| peer_id_pk := k |>).
Proof. intros [] ?. by constructor. Qed.
Lemma wf_set_c2s c k :
  session_wf c -> length k = 32%nat -> session_wf (c <| ss_key_c2s := k |>).
Proof. intros [] ?. by constructor. Qed.
Lemma wf_set_s2c c k :
  session_wf c -> length k = 32%nat -> session_wf (c <| ss_key_s2c := k |>).
Proof. intros [] ?. by constructor. Qed.
Lemma wf_set_t_hello c k :
  session_wf c -> length k = 123%nat -> session_wf (c <| t_hello := k |>).
Proof. intros [] ?. by constructor. Qed.
Lemma wf_set_error_msg c m :
  session_wf c -> len m < SODCHAN_ERROR_MAX -> session_wf (c <| error_msg := m |>).
Proof. intros [] ?. by constructor. Qed.
End Helpers.

#[export] Hint Resolve wf_set_evq wf_set_out wf_set_chans wf_set_state wf_set_hs wf_set_error
  wf_set_rng wf_set_ss_push wf_set_ss_pull wf_set_ss_push_ready wf_set_ss_pull_ready
  wf_set_have_server_pk wf_set_have_peer_eph wf_set_have_peer_id wf_set_have_t_hello
  wf_set_auth_sent wf_set_awaiting wf_set_decided wf_set_complete wf_set_server_pk
  wf_set_eph_pk wf_set_eph_sk wf_set_peer_eph wf_set_peer_id wf_set_c2s wf_set_s2c
  wf_set_t_hello wf_set_error_msg wf_evq wf_out wf_chans : sodchan.

(** ** The helpers *)

Section Preserve.
Context `{Sodium} `{SizeT} {SP : SodiumSpec _}.

Lemma wf_queue c ev : session_wf c -> session_wf (queue c ev).
Proof. unfold queue. eauto 8 with sodchan. Qed.

Lemma wf_set_error_call c code msg :
  session_wf c -> session_wf (sodchan_i_set_error c code msg).
Proof.
  intros. unfold sodchan_i_set_error. apply wf_queue, wf_set_error_msg; [eauto 8 with sodchan |].
  rewrite length_take. consts. lia.
Qed.

Lemma wf_fail c code msg : session_wf c -> session_wf (fail c code msg).2.
Proof. apply wf_set_error_call. Qed.

Lemma wf_unsent c c' : session_wf c -> unsent c c' -> session_wf c'.
Proof.
  intros Hc [-> | ->]; [done |]. pose proof (wf_out c Hc). apply wf_set_out; [done |].
  rewrite <- out_compact_spec by done. eauto 8 with sodchan.
Qed.

Lemma wf_sent c p c' : session_wf c -> sent c p c' -> session_wf c'.
Proof.
  intros Hc (st & ct & _ & _ & Hl & ->). apply wf_set_out; [eauto 8 with sodchan |].
  constructor; simpl; rewrite ?length_app; lia.
Qed.

Lemma wf_ss_send c plain n :
  session_wf c -> 0 <= n < 2147483648 -> session_wf (ss_send_pdu c plain n).2.
Proof.
  intros Hc Hn. destruct (ss_send_pdu c plain n) as [rc c'] eqn:E.
  apply ss_send_cases in E; [| eauto 8 with sodchan | lia | lia].
  destruct E as [[_ Hu] | (_ & _ & pdu & p & _ & _ & Hs)].
  - by eapply wf_unsent.
  - by eapply wf_sent.
Qed.

Lemma wf_send_encoded c e code :
  session_wf c -> fits e -> session_wf (send_encoded c e code).2.
Proof.
  intros Hc He. unfold send_encoded. destruct e as [[pdu n] | |]; [| done | done].
  apply wf_ss_send; [done |]. by apply (He pdu).
Qed.

Lemma wf_put_ch c i ch v :
  session_wf c -> channels (chans c) !! i = Some ch -> used v = used ch ->
  channel_ranges v -> session_wf (put_ch c i v).
Proof.
  intros Hc Hi Hu Hr. pose proof Hc as []. apply wf_set_chans; [done | | done].
  by eapply ch_set_wf.
Qed.

Lemma wf_ch_free c i : session_wf c -> session_wf (c <| chans := ch_free (chans c) i |>).
Proof.
  intros Hc. pose proof Hc as []. apply wf_set_chans; [done | eauto 8 with sodchan |].
  unfold ch_free. case_bool_decide; [done |]. simpl. destruct (0 <? _) eqn:E; lia.
Qed.

Lemma wf_send_hello c h : session_wf c -> session_wf (send_hello c h).2.
Proof.
  intros Hc. unfold send_hello. repeat case_match; try done. cbn [snd].
  apply wf_set_out; [done |]. replace o with (out_append_frame (out c) a).2 by (by rewrite H2).
  eauto 8 with sodchan.
Qed.

Lemma wf_send_ss_header c key : session_wf c -> session_wf (send_ss_header c key).2.
Proof.
  intros Hc. unfold send_ss_header. repeat case_match; cbn [snd]; [|eauto 8 with sodchan].
  apply wf_set_out; [eauto 8 with sodchan |].
  match goal with E : out_append_frame ?o ?h = (_, ?o') |- _ =>
    replace o' with (out_append_frame o h).2 by (by rewrite E) end.
  apply out_append_frame_wf. eauto 8 with sodchan.
Qed.
End Preserve.

#[export] Hint Resolve wf_queue wf_set_error_call wf_fail wf_ss_send wf_send_encoded wf_ch_free
  wf_send_hello wf_send_ss_header : sodchan.

Lemma fits_bound `{Sodium} `{SizeT} (e : res (bytes * Z)) (pdu : bytes) (n : Z) :
  e = Ok (pdu, n) -> fits e -> 0 <= n < 2147483648.
Proof. intros E He. by apply (He pdu). Qed.

#[export] Hint Extern 2 (0 <= _ < 2147483648) => eapply fits_bound; [eassumption |] : sodchan.

(** [wf_step]: open the next test or call of a handler; what a call returns is
    well formed by the callee's lemma. *)
Ltac wf_solve := solve [eauto 20 with sodchan lia].
Ltac wf_step :=
  cbv beta zeta; cbn [snd];
  lazymatch goal with
  | |- session_wf (snd (match ?m with (_, _) => _ end)) =>
      lazymatch type of m with
      | (_ * session)%type =>
          let E := fresh "E" in
          destruct m as [? ?] eqn:E;
          lazymatch type of E with
          | _ = (_, ?c') =>
              let Hc := fresh "Hc" in
              assert (session_wf c') as Hc
                by (replace c' with (snd m) by (rewrite E; reflexivity); wf_solve)
          end
      | _ => destruct m eqn:?
      end
  | |- session_wf (snd (match ?m with _ => _ end)) => destruct m eqn:?
  | |- session_wf (snd (if ?b then _ else _)) => destruct b eqn:?
  end.
Ltac wf_run := repeat wf_step; cbn [snd]; try wf_solve.

(** ** The handlers *)

Section Handlers.
Context `{Sodium} `{SizeT} {SP : SodiumSpec _}.

Lemma strlen_nonneg s : 0 <= strlen s.
Proof. unfold strlen. lia. Qed.

Lemma strlen_cap_nonneg s n :
  0 <= n -> 0 <= (if n <? strlen s then n else strlen s).
Proof. pose proof (strlen_nonneg s). destruct (_ <? _); lia. Qed.

Hint Resolve strlen_cap_nonneg : sodchan.
Hint Extern 1 (0 <= SODCHAN_USER_MAX) => consts; lia : sodchan.
Hint Extern 1 (0 <= SODCHAN_DEVICE_ID_MAX) => consts; lia : sodchan.

Lemma wf_client_send_auth_device c :
  session_wf c -> session_wf (client_send_auth_device c).2.
Proof. intros Hc. unfold client_send_auth_device. wf_run. Qed.

Lemma wf_auth_fail c : session_wf c -> session_wf (server_send_auth_fail c).2.
Proof. intros Hc. unfold server_send_auth_fail. wf_run. Qed.

Lemma wf_auth_ok c claims n :
  0 <= n -> session_wf c -> session_wf (server_send_auth_ok c claims n).2.
Proof. intros Hn Hc. unfold server_send_auth_ok. wf_run. Qed.

Lemma wf_emit_hello c : session_wf c -> session_wf (emit_hello_received c).
Proof. apply wf_queue. Qed.
Lemma wf_emit_kx c : session_wf c -> session_wf (emit_kx_complete c).
Proof. apply wf_queue. Qed.
Lemma wf_emit_authenticated c : session_wf c -> session_wf (emit_authenticated c).
Proof. apply wf_queue. Qed.
Lemma wf_emit_auth_failed c r m : session_wf c -> session_wf (emit_auth_failed c r m).
Proof. apply wf_queue. Qed.

Hint Resolve wf_client_send_auth_device wf_auth_fail wf_auth_ok wf_emit_hello wf_emit_kx
  wf_emit_authenticated wf_emit_auth_failed : sodchan.

Lemma auth_device_pk b u d r :
  sodchan_wire_auth_device_decode (Some b) u d = Ok r -> length (ad_client_id_pk r) = 32%nat.
Proof. by intros (? & ? & ? & _)%auth_device_decode_ok. Qed.
Hint Resolve auth_device_pk : sodchan.

Lemma wf_handle_auth_device c plain :
  session_wf c -> session_wf (handle_auth_device_pdu c plain).2.
Proof. intros Hc. unfold handle_auth_device_pdu. wf_run. Qed.

Lemma wf_handle_auth_ok c plain :
  session_wf c -> session_wf (handle_auth_ok_pdu c plain).2.
Proof. intros Hc. unfold handle_auth_ok_pdu. wf_run. Qed.

Lemma wf_handle_auth_fail c plain :
  session_wf c -> session_wf (handle_auth_fail_pdu c plain).2.
Proof. intros Hc. unfold handle_auth_fail_pdu. wf_run. Qed.

Lemma wf_auth_decide_ex c accept claims n :
  0 <= n -> session_wf c -> session_wf (sodchan_auth_decide_ex c accept claims n).2.
Proof. intros Hn Hc. unfold sodchan_auth_decide_ex. wf_run. Qed.

Lemma wf_derive_both c a b : session_wf c -> session_wf (derive_both c a b).2.
Proof.
  intros Hc. unfold derive_both. wf_run.
  - apply wf_set_s2c; eauto using ss_key_derive_length with sodchan.
  - eauto using ss_key_derive_length with sodchan.
  - eauto using ss_key_derive_length with sodchan.
Qed.
Hint Resolve wf_derive_both : sodchan.

Lemma wf_derive_client c : session_wf c -> session_wf (derive_ss_keys_client c).2.
Proof. intros Hc. unfold derive_ss_keys_client. wf_run. Qed.
Lemma wf_derive_server c : session_wf c -> session_wf (derive_ss_keys_server c).2.
Proof. intros Hc. unfold derive_ss_keys_server. wf_run. Qed.
Hint Resolve wf_derive_client wf_derive_server : sodchan.

Lemma build_t_hello_length p s ce se si o t :
  length ce = 32%nat -> length se = 32%nat -> length si = 32%nat -> length o = 123%nat ->
  sodchan_wire_build_t_hello p s (Some ce) (Some se) (Some si) (Some o) = Ok t ->
  length t = 123%nat.
Proof.
  intros ? ? ? ?. rewrite build_t_hello_ok by done. intros [= <-].
  by apply length_t_hello_bytes.
Qed.

Lemma wf_queue_local_hello c : session_wf c -> session_wf (queue_local_hello c).2.
Proof.
  intros Hc. pose proof Hc as []. unfold queue_local_hello. do 3 (wf_step; try wf_solve).
  eapply build_t_hello_length in Heqr; [| done..]. wf_run.
Qed.
Hint Resolve wf_queue_local_hello : sodchan.

Lemma wf_client_peer_hello c h :
  hello_wf h -> session_wf c -> session_wf (client_peer_hello c h).2.
Proof.
  intros [] Hc. pose proof Hc as []. unfold client_peer_hello, client_accept_hello.
  wf_step; [wf_solve |]. wf_step; [wf_solve |].
  set (c1 := if accept_any_server_pk _ then _ else _).
  assert (session_wf c1) as Hc1 by (subst c1; case_match; wf_solve).
  clearbody c1. cbv zeta.
  set (c2 := c1 <| peer_eph_pk := _ |> <| peer_id_pk := _ |> <| have_peer_eph := _ |>
                <| have_peer_id := _ |>).
  assert (session_wf c2) as Hc2 by wf_solve. clearbody c2. pose proof Hc2 as [].
  wf_step; [| wf_solve | wf_solve].
  eapply build_t_hello_length in Heqr; [| done..]. wf_run.
Qed.

Lemma wf_server_peer_hello c h :
  hello_wf h -> session_wf c -> session_wf (server_peer_hello c h).2.
Proof.
  intros [] Hc. unfold server_peer_hello. wf_step; [wf_solve |].
  match goal with |- context [if sodium_is_zero _ =? 0 then ?a else ?b] =>
    set (c1 := if sodium_is_zero _ =? 0 then a else b) end.
  assert (session_wf c1) as Hc1 by (subst c1; case_match; wf_solve).
  clearbody c1. wf_run.
Qed.

Lemma wf_handle_peer_hello c b : session_wf c -> session_wf (handle_peer_hello c b).2.
Proof.
  intros Hc. unfold handle_peer_hello.
  destruct (sodchan_wire_hello_decode (Some b)) as [h | |] eqn:E; [| wf_run | wf_run].
  apply hello_decode_ok in E as [Hh _].
  destruct (role c); [by apply wf_server_peer_hello | by apply wf_client_peer_hello].
Qed.

Lemma wf_handle_peer_ss c b : session_wf c -> session_wf (handle_peer_ss_header c b).2.
Proof.
  intros Hc. unfold handle_peer_ss_header, server_send_ss_header_s2c. wf_run.
Qed.

Lemma wf_handshake_start c : session_wf c -> session_wf (handshake_start c).2.
Proof.
  intros Hc. unfold handshake_start.
  destruct (crypto_kx_keypair (rng c)) as [[[pk sk]|] e] eqn:E; [| wf_run].
  assert (kx_pair pk sk) as Hk by (by exists (rng c), e).
  apply kx_length in Hk as [? ?]. wf_run.
Qed.
End Handlers.

#[export] Hint Resolve wf_client_send_auth_device wf_auth_fail wf_auth_ok wf_emit_hello
  wf_emit_kx wf_emit_authenticated wf_emit_auth_failed wf_handle_auth_device
  wf_handle_auth_ok wf_handle_auth_fail wf_auth_decide_ex wf_queue_local_hello
  wf_handle_peer_hello wf_handle_peer_ss wf_handshake_start : sodchan.

(** ** The channels *)

Section ChannelOps.
Context `{Sodium} `{SizeT} {SP : SodiumSpec _}.

(** A found slot holds a used channel with 32-bit fields. *)
Lemma found_slot c id i :
  session_wf c -> ch_by_local (chans c) id = Some i ->
  channels (chans c) !! i = Some (ch_at (chans c) i) /\ used (ch_at (chans c) i) = true /\
  channel_ranges (ch_at (chans c) i).
Proof.
  intros Hc Hi. apply ch_by_local_some in Hi as (? & ? & _).
  split; [done |]. split; [done |]. apply ch_at_ranges, Hc.
Qed.

Lemma wf_update_slot c id i v :
  session_wf c -> ch_by_local (chans c) id = Some i ->
  used v = true -> channel_ranges v -> session_wf (put_ch c i v).
Proof.
  intros Hc Hi Hu Hv. destruct (found_slot c id i Hc Hi) as (Hl & Hu' & _).
  eapply wf_put_ch; [done | done | by rewrite Hu' | done].
Qed.

Lemma open_slot_some c id i :
  open_slot c id = Some i ->
  ch_by_local (chans c) id = Some i /\ ch_state (ch_at (chans c) i) = SODCHAN_CH_OPEN /\
  ch_have_peer_id (ch_at (chans c) i) = true.
Proof.
  unfold open_slot. destruct (ch_by_local (chans c) id) as [j|]; [|done].
  case_bool_decide; [|done]. cbn [negb orb].
  destruct (ch_have_peer_id (ch_at (chans c) j)) eqn:E; [|done]. cbn [negb].
  by intros [= <-].
Qed.

(** A slot that was just allocated, filled. *)
Lemma wf_fill_slot c t i v :
  session_wf c -> ch_alloc (chans c) (max_channels (cfg c)) = (Some i, t) ->
  used v = true -> channel_ranges v -> session_wf (put_ch (c <| chans := t |>) i v).
Proof.
  intros Hc Ha Hu Hr. pose proof Hc as [].
  change (session_wf (c <| chans := ch_set t i v |>)).
  destruct (ch_alloc_wf _ _ wf_chans0 _ _ Ha) as (_ & _ & _ & Hset).
  apply wf_set_chans; [done | by apply Hset |].
  revert Ha. unfold ch_alloc. destruct (_ <=? _) eqn:E; [done |].
  destruct (ch_scan _ _ _); [|done]. intros [= _ <-]. simpl.
  destruct wf_chans0, wf_cfg0. rewrite u32_small; [lia |].
  change (Z.of_nat SODCHAN_MAX_CHANNELS) with 16 in *. lia.
Qed.

Lemma alloc_slot_ranges c t i :
  session_wf c -> ch_alloc (chans c) (max_channels (cfg c)) = (Some i, t) ->
  channel_ranges (ch_at t i).
Proof.
  intros [] Ha. destruct (ch_alloc_wf _ _ wf_chans0 _ _ Ha) as (_ & _ & -> & _).
  destruct wf_chans0. unfold channel_ranges. simpl. lia.
Qed.

Lemma wf_ch_alloc_none c t :
  session_wf c -> ch_alloc (chans c) (max_channels (cfg c)) = (None, t) ->
  session_wf (c <| chans := t |>).
Proof. intros Hc ->%ch_alloc_none. pose proof Hc as []. by apply wf_set_chans. Qed.

Lemma wf_refuse_open c p r m n :
  0 <= n -> session_wf c -> session_wf (refuse_open c p r m n).2.
Proof. intros. unfold refuse_open. wf_run. Qed.
End ChannelOps.

(** [slot_ranges]: the ranges of an updated channel. *)
Ltac slot_ranges :=
  unfold channel_ranges in *; simpl;
  repeat match goal with
  | |- context [if ?b then _ else _] => destruct b
  | |- context [u32 ?z] => pose proof (u32_range z); generalize dependent (u32 z); intros
  end; lia.

Section MuxOps.
Context `{Sodium} `{SizeT} {SP : SodiumSpec _}.
Hint Resolve wf_refuse_open : sodchan.

Lemma wf_mux_open c p : session_wf c -> session_wf (mux_channel_open c p).2.
Proof.
  intros Hc. pose proof Hc as []. pose proof wf_cfg0 as []. unfold mux_channel_open.
  destruct (sodchan_wire_channel_open_decode _ _) as [m | |] eqn:E; [| wf_run | wf_run].
  apply open_decode_ok in E as (_ & ? & ? & ? & _).
  wf_step; [wf_solve |].
  destruct (ch_alloc _ _) as [[i|] t] eqn:Ha; cbv beta zeta.
  2: { apply wf_refuse_open; [lia |]. by apply wf_ch_alloc_none. }
  cbn [snd]. apply wf_queue, wf_fill_slot; [done | done | done |].
  pose proof (alloc_slot_ranges c t i Hc Ha). slot_ranges.
Qed.

Lemma wf_mux_confirm c p : session_wf c -> session_wf (mux_channel_open_confirm c p).2.
Proof.
  intros Hc. pose proof Hc as []. pose proof wf_cfg0 as []. unfold mux_channel_open_confirm.
  destruct (sodchan_wire_channel_open_confirm_decode _) as [[[[s r] w] k] | |] eqn:E;
    [| wf_run | wf_run].
  apply confirm_decode_ok in E as (? & ? & ? & ? & _).
  destruct (ch_by_local (chans c) r) as [i|] eqn:Hi; [| wf_run].
  destruct (found_slot c r i Hc Hi) as (_ & _ & ?).
  wf_step; [wf_solve |]. cbv zeta. cbn [snd].
  apply wf_queue. eapply wf_update_slot; [done | done | done | slot_ranges].
Qed.

Lemma wf_mux_open_fail c p : session_wf c -> session_wf (mux_channel_open_fail c p).2.
Proof.
  intros Hc. unfold mux_channel_open_fail. wf_run.
Qed.

Lemma wf_mux_data c p : session_wf c -> session_wf (mux_channel_data c p).2.
Proof.
  intros Hc. unfold mux_channel_data.
  destruct (sodchan_wire_channel_data_decode _) as [[[r d] n] | |]; [| wf_run | wf_run].
  destruct (ch_by_local (chans c) r) as [i|] eqn:Hi; [| wf_run].
  destruct (found_slot c r i Hc Hi) as (_ & Hu & ?).
  wf_run. apply wf_queue. eapply wf_update_slot; [done | done | done | slot_ranges].
Qed.

Lemma wf_mux_window c p : session_wf c -> session_wf (mux_channel_window c p).2.
Proof.
  intros Hc. unfold mux_channel_window.
  destruct (sodchan_wire_channel_window_decode _) as [[r add] | |]; [| wf_run | wf_run].
  destruct (ch_by_local (chans c) r) as [i|] eqn:Hi; [| wf_run].
  destruct (found_slot c r i Hc Hi) as (_ & Hu & ?).
  wf_run. apply wf_queue. eapply wf_update_slot; [done | done | done | slot_ranges].
Qed.

Lemma wf_mux_eof c p : session_wf c -> session_wf (mux_channel_eof c p).2.
Proof.
  intros Hc. unfold mux_channel_eof.
  destruct (sodchan_wire_channel_eof_decode _) as [r | |]; [| wf_run | wf_run].
  destruct (ch_by_local (chans c) r) as [i|] eqn:Hi; [| wf_run].
  destruct (found_slot c r i Hc Hi) as (_ & Hu & ?).
  cbv zeta. cbn [snd]. apply wf_queue.
  eapply wf_update_slot; [done | done | done | slot_ranges].
Qed.

Lemma wf_mux_close c p : session_wf c -> session_wf (mux_channel_close c p).2.
Proof.
  intros Hc. unfold mux_channel_close. wf_run.
Qed.

Lemma wf_mux_ping c p : session_wf c -> session_wf (mux_ping c p).2.
Proof. intros Hc. unfold mux_ping. wf_run. Qed.

Lemma wf_mux_disconnect c p : session_wf c -> session_wf (mux_disconnect c p).2.
Proof. intros Hc. unfold mux_disconnect. wf_run. Qed.

Hint Resolve wf_mux_open wf_mux_confirm wf_mux_open_fail wf_mux_data wf_mux_window wf_mux_eof
  wf_mux_close wf_mux_ping wf_mux_disconnect : sodchan.

Lemma wf_handle_mux c p : session_wf c -> session_wf (handle_mux_pdu c p).2.
Proof. intros Hc. unfold handle_mux_pdu. wf_run. Qed.
Hint Resolve wf_handle_mux : sodchan.

Lemma wf_dispatch c t p : session_wf c -> session_wf (dispatch_pdu c t p).2.
Proof. intros Hc. unfold dispatch_pdu. wf_run. Qed.
Hint Resolve wf_dispatch : sodchan.

Lemma wf_handle_encrypted c ct : session_wf c -> session_wf (handle_encrypted_pdu c ct).2.
Proof. intros Hc. unfold handle_encrypted_pdu. wf_run. Qed.
Hint Resolve wf_handle_encrypted : sodchan.

Lemma wf_handle_frame c b : session_wf c -> session_wf (handle_frame c b).2.
Proof. intros Hc. unfold handle_frame. wf_run. Qed.
End MuxOps.

#[export] Hint Resolve wf_handle_frame wf_handle_encrypted : sodchan.

(** ** The engine *)

Section EngineOps.
Context `{Sodium} `{SizeT} {SP : SodiumSpec _}.

Lemma frame_limits c : session_wf c ->
  ss_frame_max_body c <= frame_limit /\ SODCHAN_MAX_CLEAR_FRAME <= frame_limit.
Proof.
  intros []. destruct wf_cfg0. pose proof (ss_frame_max_body_bound c swf_record0).
  unfold frame_limit. consts. lia.
Qed.

(** The three ways the parse of the next frame goes. *)
Lemma next_frame_cases c data :
  session_wf c ->
  let m := if bool_decide (hs c = SODCHAN_HS_DONE) then ss_frame_max_body c
           else SODCHAN_MAX_CLEAR_FRAME in
  (exists body t, 0 < len body <= m /\ data = frame_bytes body ++ t /\
     next_frame c data = Ok (4 + len body, body)) \/
  next_frame c data = Fail SODCHAN_ERR_PROTOCOL \/
  (next_frame c data = Fail SODCHAN_ERR_FULL /\ len data < 4 + m).
Proof.
  intros Hc m. pose proof (frame_limits c Hc) as [Hl1 Hl2].
  assert (0 <= m) as Hm0.
  { subst m. case_bool_decide; [|consts; lia]. destruct Hc. destruct wf_cfg0.
    by apply ss_frame_max_body_bound. }
  assert (next_frame c data = sodchan_wire_frame_parse_max (Some data) m) as ->.
  { unfold next_frame, sodchan_wire_frame_parse. subst m. by case_bool_decide. }
  assert (m <= frame_limit) as Hm by (subst m; by case_bool_decide).
  clearbody m. clear -Hm Hm0.
  destruct (frame_parse_max_cases data m Hm) as [[Hl ->] | (L & t & HL & -> & ->)].
  - right. right. split; [done | lia].
  - destruct ((L =? 0) || (m <? L)) eqn:E0; [by right; left |].
    destruct (len t <? L) eqn:E1.
    + right. right. split; [done |]. rewrite length_app, length_be32. lia.
    + left. exists (take (Z.to_nat L) t), (drop (Z.to_nat L) t).
      assert (len (take (Z.to_nat L) t) = L) as Ht by (rewrite length_take; lia).
      rewrite Ht. split; [lia |]. split; [|done].
      unfold frame_bytes. by rewrite Ht, <- app_assoc, take_drop.
Qed.

Lemma wf_process_turn x : ctx_wf x -> ctx_wf (process_turn x).1.
Proof.
  intros [Hc Hb]. unfold process_turn. destruct (stopped _); [done |].
  destruct (_ <? 4); [done |].
  destruct (next_frame_cases (core x) (in_buf x) Hc) as [(body & t & Hl & Hd & ->) | [-> | [-> _]]].
  - destruct (handle_frame (core x) body) as [rc c'] eqn:E.
    assert (session_wf c') by (replace c' with (handle_frame (core x) body).2
      by (by rewrite E); by apply wf_handle_frame).
    destruct (negb (rc =? 0)); (split; [done |]); simpl; [done |].
    rewrite length_drop. lia.
  - split; [|done]. by apply wf_fail.
  - done.
Qed.

(** A turn that goes on consumes at least five bytes. *)
Lemma process_turn_consumes x x' :
  ctx_wf x -> process_turn x = (x', true) -> (length (in_buf x') + 5 <= length (in_buf x))%nat.
Proof.
  intros [Hc _]. unfold process_turn. destruct (stopped _); [done |].
  destruct (_ <? 4); [done |].
  destruct (next_frame_cases (core x) (in_buf x) Hc) as [(body & t & Hl & Hd & ->) | [-> | [-> _]]];
    [| done | done].
  destruct (handle_frame (core x) body) as [rc c']. destruct (negb _); [done |].
  intros [= <-]. simpl. rewrite length_drop. apply (f_equal List.length) in Hd.
  rewrite length_app in Hd. pose proof (length_frame_bytes body). lia.
Qed.

Lemma wf_process_loop n x : ctx_wf x -> ctx_wf (process_loop n x).
Proof.
  revert x. induction n as [|n IH]; intros x Hx; simpl; [done |].
  pose proof (wf_process_turn x Hx). destruct (process_turn x) as [x' []]; simpl in *; auto.
Qed.

Lemma wf_feed x data : ctx_wf x -> ctx_wf (sodchan_feed_input x data).2.
Proof.
  intros [Hc Hb]. unfold sodchan_feed_input. destruct data as [data|]; [|done].
  destruct (_ =? 0) eqn:E0; [done |]. destruct (stopped _); [done |].
  match goal with |- context [if ?b then ?n else len data] =>
    set (k := if b then n else len data) end.
  assert (0 <= k <= len data /\ k <= SODCHAN_IN_BUF_SIZE - len (in_buf x)) as Hk.
  { subst k. destruct (_ <? _) eqn:E; lia. }
  cbv zeta. destruct (k =? 0); [done |]. cbn [snd]. apply wf_process_loop.
  split; [done |]. simpl. rewrite length_app, length_take. lia.
Qed.
End EngineOps.

(** ** The calls *)

Section Calls.
Context `{Sodium} `{SizeT} {SP : SodiumSpec _}.

(** The ranges of a call's arguments. *)
Definition call_ok (op : call) : Prop :=
  match op with
  | Call_get_output _ n => 0 <= n
  | Call_auth_decide_ex _ _ n => 0 <= n
  | Call_channel_send _ _ _ n => 0 <= n
  | Call_channel_window_adjust _ n => 0 <= n < 4294967296
  | _ => True
  end.

Lemma wf_get_output c buf n : 0 <= n -> session_wf c -> session_wf (sodchan_get_output c buf n).2.
Proof.
  intros Hn Hc. unfold sodchan_get_output. destruct buf; [|done]. cbn [negb].
  destruct (get_output (out c) n) as [bs o] eqn:E. cbn [snd].
  apply wf_set_out; [done |]. replace o with (get_output (out c) n).2 by (by rewrite E).
  eauto with sodchan.
Qed.

Lemma wf_next_event c b : session_wf c -> session_wf (sodchan_next_event c b).2.
Proof.
  intros Hc. unfold sodchan_next_event. destruct b; [|done]. cbn [negb].
  destruct (next_event (evq c)) as [ev q] eqn:E. cbn [snd].
  apply wf_set_evq; [done |]. replace q with (next_event (evq c)).2 by (by rewrite E).
  eauto with sodchan.
Qed.

Hint Resolve strlen_nonneg : sodchan.

Lemma wf_channel_open c name : session_wf c -> session_wf (sodchan_channel_open c name).2.
Proof.
  intros Hc. pose proof Hc as []. pose proof wf_cfg0 as []. unfold sodchan_channel_open.
  do 4 (wf_step; [wf_solve |]).
  destruct (ch_alloc _ _) as [[i|] t] eqn:Ha; cbv beta zeta; cbn [snd].
  2: by apply wf_ch_alloc_none.
  match goal with |- context [put_ch _ i ?v] => assert (session_wf (put_ch (c <| chans := t |>) i v)) end.
  { apply wf_fill_slot; [done | done | done |].
    pose proof (alloc_slot_ranges c t i Hc Ha). slot_ranges. }
  wf_run.
Qed.

Lemma wf_after_send c c' i id plain n rc v :
  session_wf c -> ch_by_local (chans c) id = Some i -> session_wf c' ->
  ss_send_pdu c plain n = (rc, c') ->
  used v = true -> channel_ranges v -> session_wf (put_ch c' i v).
Proof.
  intros Hc Hi Hc' E Hu Hr. eapply wf_update_slot; [done | | done | done].
  destruct (ss_send_only c plain n) as (st & o & Eo). rewrite E in Eo. cbn [snd] in Eo.
  by rewrite Eo.
Qed.

Lemma wf_channel_accept c id a : session_wf c -> session_wf (sodchan_channel_accept c id a).2.
Proof.
  intros Hc. pose proof Hc as []. pose proof wf_cfg0 as []. unfold sodchan_channel_accept.
  wf_step; [wf_solve |]. destruct (ch_by_local (chans c) id) as [i|] eqn:Hi; [| wf_run].
  destruct (found_slot c id i Hc Hi) as (_ & Hu & ?).
  wf_run. destruct (wf_cfg _ Hc0).
  apply wf_queue. eapply wf_after_send; [exact Hc | done.. | slot_ranges].
Qed.

(** What the three calls on an open channel share. *)
Lemma open_slot_found c id i :
  session_wf c -> open_slot c id = Some i ->
  ch_by_local (chans c) id = Some i /\ used (ch_at (chans c) i) = true /\
  channel_ranges (ch_at (chans c) i).
Proof.
  intros Hc (Hi & _ & _)%open_slot_some. split; [done |].
  by apply (found_slot c id i Hc Hi).
Qed.

Lemma wf_channel_send mem c id data n :
  0 <= n -> session_wf c -> session_wf (sodchan_channel_send mem c id data n).2.
Proof.
  intros Hn Hc. unfold sodchan_channel_send. do 2 (wf_step; [wf_solve |]).
  destruct (open_slot c id) as [i|] eqn:Ho; [| wf_run].
  destruct (open_slot_found c id i Hc Ho) as (Hi & Hu & ?).
  do 2 (wf_step; [wf_solve |]). apply orb_false_iff in Heqb2 as [_ Hmax].
  assert (0 <= n <= SODCHAN_DATA_MAX) by lia.
  wf_run. eapply wf_after_send; [exact Hc | done.. | slot_ranges].
Qed.

Lemma wf_channel_eof c id : session_wf c -> session_wf (sodchan_channel_eof c id).2.
Proof.
  intros Hc. unfold sodchan_channel_eof. wf_step; [wf_solve |].
  destruct (open_slot c id) as [i|] eqn:Ho; [| wf_run].
  destruct (open_slot_found c id i Hc Ho) as (Hi & Hu & ?).
  unfold sodchan_wire_channel_eof_encode.
  wf_run. eapply wf_after_send; [exact Hc | done.. | slot_ranges].
Qed.

Lemma wf_window_adjust c id n :
  session_wf c -> session_wf (sodchan_channel_window_adjust c id n).2.
Proof.
  intros Hc. unfold sodchan_channel_window_adjust. do 2 (wf_step; [wf_solve |]).
  destruct (open_slot c id) as [i|] eqn:Ho; [| wf_run].
  destruct (open_slot_found c id i Hc Ho) as (Hi & Hu & ?).
  wf_run. eapply wf_after_send; [exact Hc | done.. | slot_ranges].
Qed.

Lemma wf_channel_close c id : session_wf c -> session_wf (sodchan_channel_close c id).2.
Proof.
  intros Hc. unfold sodchan_channel_close, sodchan_wire_channel_close_encode.
  wf_step; [wf_solve |]. wf_step; [| wf_solve]. wf_step; [wf_solve |]. cbv zeta. cbn [snd].
  case_match; wf_solve.
Qed.

Lemma wf_disconnect c r msg : session_wf c -> session_wf (sodchan_disconnect c r msg).2.
Proof.
  intros Hc. unfold sodchan_disconnect. wf_step; [wf_solve |].
  match goal with |- context [sodchan_wire_disconnect_encode _ _ ?k _] =>
    assert (0 <= k) as Hk; [|generalize dependent k; intros n Hn] end.
  { destruct msg; [|lia]. apply strlen_cap_nonneg. lia. }
  wf_run.
Qed.

Lemma wf_reset x : ctx_wf x -> ctx_wf (sodchan_reset x).
Proof.
  intros [Hc _]. pose proof Hc as []. unfold sodchan_reset. cbv zeta.
  split; [|simpl; consts; lia]. cbn [core]. apply wf_handshake_start.
  apply wf_set_out; [|apply outbuf_empty_wf].
  apply wf_set_evq; [|destruct wf_evq0; auto with sodchan].
  apply wf_set_error_msg; [|consts; simpl; lia]. apply wf_set_error.
  apply wf_set_chans; [wf_solve | apply table_empty_wf |].
  simpl. destruct wf_cfg0. lia.
Qed.

Hint Resolve wf_get_output wf_next_event wf_channel_open wf_channel_accept wf_channel_send
  wf_channel_eof wf_window_adjust wf_channel_close wf_disconnect wf_reset wf_feed : sodchan.

Lemma wf_api x op : call_ok op -> ctx_wf x -> ctx_wf (api_ctx x op).2.
Proof.
  intros Hop Hx. pose proof Hx as [Hc Hb].
  destruct op; simpl in Hop; cbn [api_ctx]; unfold on_core; cbn [snd];
    try (split; cbn [core in_buf]; [wf_solve | done]); [by apply wf_reset |].
  pose proof (wf_feed x data Hx). by destruct (sodchan_feed_input x data).
Qed.
End Calls.

(** ** Creation *)

Section Create.
Context `{Sodium} `{SizeT} {SP : SodiumSpec _}.

(** A string short enough for [cfg_store_used + n] not to wrap. *)
Definition short_string (s : option bytes) : Prop :=
  match s with Some s => strlen s + 2049 < 4294967296 | None => True end.

(** The sizes the header asks of a configuration, and its integer ranges. *)
Record config_wf (cfg : sodchan_config_t) : Prop := {
  cwf_record : cfg_max_record_size cfg = 0 \/
    0 < cfg_max_record_size cfg /\
    (32 < SIZE_BITS \/ cfg_max_record_size cfg + 21 < 4294967296);
  cwf_channels : 0 <= cfg_max_channels cfg;
  cwf_queue : 0 <= cfg_event_queue_size cfg;
  cwf_window : 0 <= cfg_initial_window cfg < 4294967296;
  cwf_packet : 0 <= cfg_max_packet cfg < 4294967296;
  cwf_client_pk k : cfg_client_id_pk cfg = Some k -> length k = 32%nat;
  cwf_client_sk k : cfg_client_id_sk cfg = Some k -> length k = 64%nat;
  cwf_server_pk k : cfg_server_id_pk cfg = Some k -> length k = 32%nat;
  cwf_server_sk k : cfg_server_id_sk cfg = Some k -> length k = 64%nat;
  cwf_allowed : short_string (cfg_allowed_channels cfg);
  cwf_username : short_string (cfg_client_username cfg);
  cwf_device : short_string (cfg_client_device_id cfg)
}.

Lemma cfg_dup_wf (used : Z) (s : option bytes) :
  0 <= used <= SODCHAN_CFG_STORE_SIZE ->
  short_string s ->
  cfg_string (cfg_dup used s).1 /\ 0 <= (cfg_dup used s).2 <= SODCHAN_CFG_STORE_SIZE.
Proof.
  intros Hu Hs. unfold cfg_dup. destruct s as [s|]; [|done]. unfold short_string in Hs.
  pose proof (strlen_nonneg s). consts. rewrite size_t_small by lia.
  destruct (_ <? _) eqn:E; [done |]. simpl. split; [|lia].
  split; [apply cstr_no_nul | unfold strlen in *; consts; lia].
Qed.

Lemma copy_key_length (k : option bytes) (n : nat) :
  (forall b, k = Some b -> length b = n) -> length (copy_key k n).1 = n.
Proof.
  intros Hk. destruct k as [b|]; simpl; [|apply length_replicate].
  rewrite length_take, (Hk b) by done. lia.
Qed.

Lemma apply_config_wf cfg :
  config_wf cfg ->
  settings_wf (apply_config_defaults cfg).1 /\
  length (apply_config_defaults cfg).2.1 = 32%nat.
Proof.
  intros []. unfold apply_config_defaults.
  pose proof (copy_key_length (cfg_client_id_pk cfg) 32 cwf_client_pk0) as K1.
  pose proof (copy_key_length (cfg_client_id_sk cfg) 64 cwf_client_sk0) as K2.
  pose proof (copy_key_length (cfg_server_id_pk cfg) 32 cwf_server_pk0) as K3.
  pose proof (copy_key_length (cfg_server_id_sk cfg) 64 cwf_server_sk0) as K4.
  destruct (copy_key (cfg_client_id_pk cfg) 32), (copy_key (cfg_client_id_sk cfg) 64),
    (copy_key (cfg_server_id_pk cfg) 32), (copy_key (cfg_server_id_sk cfg) 64).
  assert (cfg_string (cfg_dup 0 (cfg_allowed_channels cfg)).1 /\
          0 <= (cfg_dup 0 (cfg_allowed_channels cfg)).2 <= SODCHAN_CFG_STORE_SIZE) as D1.
  { apply cfg_dup_wf; [consts; lia | done]. }
  destruct (cfg_dup 0 (cfg_allowed_channels cfg)) as [al u1]. simpl in D1.
  pose proof (cfg_dup_wf u1 (cfg_client_username cfg) (proj2 D1) cwf_username0) as D2.
  destruct (cfg_dup u1 (cfg_client_username cfg)) as [us u2]. simpl in D2.
  pose proof (cfg_dup_wf u2 (cfg_client_device_id cfg) (proj2 D2) cwf_device0) as D3.
  destruct (cfg_dup u2 (cfg_client_device_id cfg)) as [dv u3]. simpl in *.
  split; [|done].
  constructor; simpl; try done; try tauto; unfold cfg_default_size, cfg_default_u32,
    record_sane; consts; simpl;
    change (Z.of_nat SODCHAN_MAX_CHANNELS) with 16;
    repeat match goal with |- context [if ?b then _ else _] => destruct b eqn:? end; lia.
Qed.

Lemma wf_session_zero r s spk have cap e :
  settings_wf s -> length spk = 32%nat -> 0 < cap ->
  session_wf (session_zero r s spk have cap e).
Proof.
  intros Hs Hk Hcap. pose proof Hs as [].
  constructor; simpl; try done; try apply length_replicate; try apply outbuf_empty_wf;
    [by apply evqueue_new_wf | apply table_empty_wf | lia].
Qed.

Lemma wf_create lab m1 m2 r cfg e x :
  config_wf (default config_zero cfg) ->
  sodchan_create lab m1 m2 r cfg e = Some x -> ctx_wf x.
Proof.
  intros Hcfg. unfold sodchan_create.
  destruct (role_of r) as [ro|]; [|done]. cbv zeta. set (g := default config_zero cfg) in *.
  do 4 (lazymatch goal with |- (if ?b then None else _) = _ -> _ => destruct b; [done |] end).
  destruct (apply_config_wf g Hcfg) as [Hs Hk].
  destruct (apply_config_defaults g) as [s [spk have]]. simpl in Hs, Hk.
  pose proof Hs as []. replace (event_queue_size s =? 0) with false by lia.
  case_match; [done |].
  set (z := session_zero _ _ _ _ _ _).
  assert (session_wf z) as Hz.
  { by apply wf_session_zero. }
  pose proof (wf_handshake_start z Hz) as Hw.
  destruct (handshake_start z) as [rc c]. case_match; [done |]. intros [= <-].
  split; [done |]. simpl. consts. lia.
Qed.
End Create.

(** ** Reachable contexts *)

Section Reachable.
Context `{Sodium} `{SizeT}.

(** The contexts a host can get by creating one with a role and a
    configuration and calling it, the peer's bytes being whatever it feeds and
    the generator being drawn from in between. *)
Inductive reachable (r : Z) (cfg : sodchan_config_t) : ctx -> Prop :=
  | reach_create lab m1 m2 e x :
      config_wf cfg -> sodchan_create lab m1 m2 r (Some cfg) e = Some x -> reachable r cfg x
  | reach_call x op : reachable r cfg x -> call_ok op -> reachable r cfg (api_ctx x op).2
  | reach_rng x e : reachable r cfg x -> reachable r cfg (with_rng e x).

Lemma reachable_wf {SP : SodiumSpec _} r cfg x : reachable r cfg x -> ctx_wf x.
Proof.
  induction 1 as [lab m1 m2 e x Hcfg Hx | x op Hx IH Hop | x e Hx [IH ?]]; [| by apply wf_api |].
  - by apply (wf_create lab m1 m2 r (Some cfg) e).
  - split; [by apply wf_set_rng | done].
Qed.
Lemma reach_call_at r cfg e x op :
  reachable r cfg x -> call_ok op -> reachable r cfg (call_at e x op).1.2.
Proof.
  intros Hx Hop. unfold call_at. pose proof (reach_call r cfg _ op (reach_rng r cfg x e Hx) Hop) as Hr.
  by destruct (api_ctx _ op) as [a x'].
Qed.
Lemma reachable_cfg r cfg x : reachable r cfg x -> config_wf cfg.
Proof. by induction 1. Qed.

(** A host's calls, one after the other. *)
Definition run (x : ctx) (ops : list call) : ctx :=
  fold_left (fun x op => (api_ctx x op).2) ops x.

Lemma run_reachable r cfg x ops :
  Forall call_ok ops -> reachable r cfg x -> reachable r cfg (run x ops).
Proof.
  revert x. induction ops as [|op ops IH]; intros x Hops Hx; [done |].
  apply Forall_cons_iff in Hops as [Hop Hops]. simpl. apply IH; [done |]. by apply reach_call.
Qed.
End Reachable.
