(* ===== verification/Calm.v ===== *)
(** The footprint of everything that is not the handshake: [calm c c'] says
    that [c'] has the identity, the settings, the transcript, the keys and the
    authentication flags of [c], and a state that is the same or nearer to the
    end.  Every mux handler and every channel call is calm, and so is every
    way to fail. *)

From Stdlib Require Import ZArith Lia ZifyBool String.
From S2P Require Import Prelude Defs WireBase WireHello WireAuth WireMux Crypto EventQueue.
From S2P Require Import OutBuf Channels Session Auth Handshake Mux Engine Api Invariant.
Local Open Scope Z_scope.
Local Open Scope sodchan_scope.

Section Calm.
Context `{Sodium}.

(** The moves of the state outside the handshake. *)
Definition state_calm (s s' : sodchan_state_t) : Prop :=
  s' = s \/ s' = SODCHAN_STATE_ERROR \/ s' = SODCHAN_STATE_CLOSED \/
  s' = SODCHAN_STATE_DRAINING /\ (s = SODCHAN_STATE_AUTH \/ s = SODCHAN_STATE_READY).

Record calm (c c' : session) : Prop := {
  calm_state : state_calm (state c) (state c');
  calm_role : role c' = role c;
  calm_hs : hs c' = hs c;
  calm_cfg : cfg c' = cfg c;
  calm_server_pk : server_id_pk c' = server_id_pk c;
  calm_have_server_pk : have_server_id_pk c' = have_server_id_pk c;
  calm_eph_pk : eph_pk c' = eph_pk c;
  calm_eph_sk : eph_sk c' = eph_sk c;
  calm_peer_eph : peer_eph_pk c' = peer_eph_pk c;
  calm_peer_id : peer_id_pk c' = peer_id_pk c;
  calm_have_peer_id : have_peer_id c' = have_peer_id c;
  calm_t_hello : t_hello c' = t_hello c;
  calm_have_t_hello : have_t_hello c' = have_t_hello c;
  calm_push_ready : ss_push_ready c' = ss_push_ready c;
  calm_pull_ready : ss_pull_ready c' = ss_pull_ready c;
  calm_awaiting : auth_awaiting_decide c' = auth_awaiting_decide c;
  calm_decided : auth_decided c' = auth_decided c;
  calm_complete : auth_complete c' = auth_complete c;
  calm_cap : event_cap (evq c') = event_cap (evq c)
}.

#[global] Instance state_calm_refl : Reflexive state_calm.
Proof. intros s. by left. Qed.

#[global] Instance state_calm_trans : Transitive state_calm.
Proof.
  intros s s' s'' Ha Hb. unfold state_calm in *. destruct s, s', s''; intuition congruence.
Qed.

#[global] Instance calm_preorder : PreOrder calm.
Proof.
  split; [intros c; by constructor |].
  intros c c' c'' [] []. constructor; try congruence. by etransitivity.
Qed.

Lemma calm_refl c : calm c c.
Proof. reflexivity. Qed.

Lemma calm_set_evq c c' q :
  event_cap q = event_cap (evq c') -> calm c c' -> calm c (c' <| evq := q |>).
Proof. intros Hq []. constructor; try done. cbn. congruence. Qed.
Lemma calm_set_out c c' o : calm c c' -> calm c (c' <| out := o |>).
Proof. intros []; by constructor. Qed.
Lemma calm_set_chans c c' t : calm c c' -> calm c (c' <| chans := t |>).
Proof. intros []; by constructor. Qed.
Lemma calm_set_error c c' v : calm c c' -> calm c (c' <| error := v |>).
Proof. intros []; by constructor. Qed.
Lemma calm_set_error_msg c c' v : calm c c' -> calm c (c' <| error_msg := v |>).
Proof. intros []; by constructor. Qed.
Lemma calm_set_push c c' v : calm c c' -> calm c (c' <| ss_push := v |>).
Proof. intros []; by constructor. Qed.
Lemma calm_set_pull c c' v : calm c c' -> calm c (c' <| ss_pull := v |>).
Proof. intros []; by constructor. Qed.
Lemma calm_set_auth_sent c c' v : calm c c' -> calm c (c' <| auth_sent := v |>).
Proof. intros []; by constructor. Qed.
Lemma calm_set_c2s c c' v : calm c c' -> calm c (c' <| ss_key_c2s := v |>).
Proof. intros []; by constructor. Qed.
Lemma calm_set_s2c c c' v : calm c c' -> calm c (c' <| ss_key_s2c := v |>).
Proof. intros []; by constructor. Qed.
Lemma calm_set_rng c c' v : calm c c' -> calm c (c' <| rng := v |>).
Proof. intros []; by constructor. Qed.
Lemma calm_set_peer_flag c c' v : calm c c' -> calm c (c' <| have_peer_eph := v |>).
Proof. intros []; by constructor. Qed.
Lemma calm_put_ch c c' i v : calm c c' -> calm c (put_ch c' i v).
Proof. apply calm_set_chans. Qed.
Lemma calm_queue c c' ev : calm c c' -> calm c (queue c' ev).
Proof. apply calm_set_evq. unfold sodchan_i_queue_event. by case_match. Qed.
Lemma calm_set_error_call c c' code msg :
  calm c c' -> calm c (sodchan_i_set_error c' code msg).
Proof.
  intros []. unfold sodchan_i_set_error. apply calm_queue. constructor; try assumption.
  right. by left.
Qed.
Lemma calm_fail c c' code msg : calm c c' -> calm c (fail c' code msg).2.
Proof. apply calm_set_error_call. Qed.
Lemma calm_closed c c' : calm c c' -> calm c (c' <| state := SODCHAN_STATE_CLOSED |>).
Proof. intros []; constructor; try assumption. by right; right; left. Qed.

Context `{SizeT}.

Lemma calm_ss_send c c' plain n : calm c c' -> calm c (ss_send_pdu c' plain n).2.
Proof.
  intros Hc. destruct (ss_send_only c' plain n) as (st & o & ->).
  by apply calm_set_out, calm_set_push.
Qed.
Lemma calm_send_encoded c c' e code : calm c c' -> calm c (send_encoded c' e code).2.
Proof.
  intros Hc. destruct (send_encoded_only c' e code) as (st & o & ->).
  by apply calm_set_out, calm_set_push.
Qed.
Lemma calm_refuse c c' p r m n : calm c c' -> calm c (refuse_open c' p r m n).2.
Proof. apply calm_send_encoded. Qed.
Lemma calm_auth_fail_send c c' : calm c c' -> calm c (server_send_auth_fail c').2.
Proof. apply calm_send_encoded. Qed.
Lemma calm_auth_ok_send c c' k n : calm c c' -> calm c (server_send_auth_ok c' k n).2.
Proof. apply calm_send_encoded. Qed.
Lemma calm_emit_failed c c' r m : calm c c' -> calm c (emit_auth_failed c' r m).
Proof. apply calm_queue. Qed.
End Calm.

#[export] Hint Resolve calm_refl calm_set_out calm_set_chans calm_set_error
  calm_set_error_msg calm_set_push calm_set_pull calm_set_auth_sent calm_set_c2s calm_set_s2c
  calm_set_rng calm_set_peer_flag calm_put_ch calm_queue
  calm_set_error_call calm_fail calm_closed calm_ss_send calm_send_encoded calm_refuse
  calm_auth_fail_send calm_auth_ok_send calm_emit_failed : sodchan.

(** [calm_run]: like [wf_run], for the footprint. *)
Ltac calm_solve := solve [eauto 12 with sodchan].
Ltac calm_step :=
  cbv beta zeta; cbn [snd];
  lazymatch goal with
  | |- calm ?c0 (snd (match ?m with (_, _) => _ end)) =>
      lazymatch type of m with
      | (_ * session)%type =>
          let E := fresh "E" in
          destruct m as [? ?] eqn:E;
          lazymatch type of E with
          | _ = (_, ?c') =>
              let Hc := fresh "Hc" in
              assert (calm c0 c') as Hc
                by (replace c' with (snd m) by (rewrite E; reflexivity); calm_solve)
          end
      | _ => destruct m eqn:?
      end
  | |- calm _ (snd (match ?m with _ => _ end)) => destruct m eqn:?
  | |- calm _ (snd (if ?b then _ else _)) => destruct b eqn:?
  end.
Ltac calm_run := repeat calm_step; cbn [snd]; try calm_solve.

Section CalmOps.
Context `{Sodium} `{SizeT}.

Lemma calm_client_auth_device c c' :
  calm c c' -> calm c (client_send_auth_device c').2.
Proof. intros Hc. unfold client_send_auth_device. calm_run. Qed.

Lemma calm_handle_auth_fail c p : calm c (handle_auth_fail_pdu c p).2.
Proof. unfold handle_auth_fail_pdu. calm_run. Qed.

Lemma calm_handle_mux c p : calm c (handle_mux_pdu c p).2.
Proof.
  unfold handle_mux_pdu, mux_channel_open, mux_channel_open_confirm, mux_channel_open_fail,
    mux_channel_data, mux_channel_window, mux_channel_eof, mux_channel_close, mux_ping,
    mux_disconnect.
  calm_run.
Qed.

Lemma calm_channel_open c name : calm c (sodchan_channel_open c name).2.
Proof. unfold sodchan_channel_open. calm_run. Qed.

Lemma calm_channel_accept c id a : calm c (sodchan_channel_accept c id a).2.
Proof. unfold sodchan_channel_accept. calm_run. Qed.

Lemma calm_channel_send mem c id data n : calm c (sodchan_channel_send mem c id data n).2.
Proof. unfold sodchan_channel_send. calm_run. Qed.

Lemma calm_channel_eof c id : calm c (sodchan_channel_eof c id).2.
Proof. unfold sodchan_channel_eof. calm_run. Qed.

Lemma calm_channel_close c id : calm c (sodchan_channel_close c id).2.
Proof.
  unfold sodchan_channel_close. calm_step; [calm_solve |]. calm_step; [| calm_solve].
  calm_step; [calm_solve |]. cbv zeta. cbn [snd]. case_match; calm_solve.
Qed.

Lemma calm_window_adjust c id n : calm c (sodchan_channel_window_adjust c id n).2.
Proof. unfold sodchan_channel_window_adjust. calm_run. Qed.

Lemma calm_disconnect c r msg : calm c (sodchan_disconnect c r msg).2.
Proof.
  unfold sodchan_disconnect. calm_step; [calm_solve |]. cbv zeta.
  match goal with |- context [send_encoded c ?e ?k] =>
    pose proof (calm_send_encoded c c e k (calm_refl c)) as Hs end.
  destruct (ss_push_ready c && _) eqn:E; [|calm_solve].
  cbn [snd]. destruct Hs. constructor; try assumption. simpl.
  apply andb_true_iff in E as [_ E].
  repeat (apply orb_true_iff in E as [E|E]); apply bool_decide_eq_true in E; rewrite E;
    unfold state_calm; tauto.
Qed.

Lemma calm_derive_both c c' a b : calm c c' -> calm c (derive_both c' a b).2.
Proof. intros Hc. unfold derive_both. calm_run. Qed.
Hint Resolve calm_derive_both : sodchan.

Lemma calm_derive_client c c' : calm c c' -> calm c (derive_ss_keys_client c').2.
Proof. intros Hc. unfold derive_ss_keys_client. calm_run. Qed.

Lemma calm_derive_server c c' : calm c c' -> calm c (derive_ss_keys_server c').2.
Proof. intros Hc. unfold derive_ss_keys_server. calm_run. Qed.

Lemma calm_send_hello c c' h : calm c c' -> calm c (send_hello c' h).2.
Proof. intros Hc. unfold send_hello. calm_run. Qed.

Lemma calm_get_output c b n : calm c (sodchan_get_output c b n).2.
Proof. unfold sodchan_get_output. calm_run. Qed.

Lemma calm_next_event c b : calm c (sodchan_next_event c b).2.
Proof.
  unfold sodchan_next_event, next_event. destruct b; [| done]. cbn [negb].
  destruct (event_count (evq c) =? 0); cbn [snd]; by apply calm_set_evq.
Qed.
End CalmOps.

#[export] Hint Resolve calm_derive_client calm_derive_server calm_send_hello
  calm_client_auth_device calm_handle_auth_fail calm_handle_mux
  calm_channel_open calm_channel_accept calm_channel_send calm_channel_eof calm_channel_close
  calm_window_adjust calm_disconnect calm_get_output calm_next_event : sodchan.
