(* ===== verification/EngineLemmas.v ===== *)
(** What the input engine promises: the loop ends by one of its own exits, a
    non-zero code of a handler is a context in error, a live context always
    has room for more input, and the session depends on the bytes it was fed
    and not on how they were cut. *)

From Stdlib Require Import ZArith Lia ZifyBool String.
From S2P Require Import Prelude Defs WireBase WireHello WireAuth WireMux Crypto EventQueue.
From S2P Require Import OutBuf Channels Session Auth Handshake Mux Engine Api Invariant.
Local Open Scope Z_scope.
Local Open Scope sodchan_scope.

(** ** A handler's non-zero code *)

Section Codes.
Context `{Sodium} `{SizeT}.

(** The code is 0, or -1 with the state ERROR. *)
Definition code_ok (r : Z * session) : Prop :=
  r.1 = 0 \/ r.1 = -1 /\ state r.2 = SODCHAN_STATE_ERROR.

Lemma fail_code c code msg : code_ok (fail c code msg).
Proof. right. split; [done |]. done. Qed.

Lemma ok_code c : code_ok (0, c).
Proof. by left. Qed.

Lemma refuse_code c p r m n : code_ok (refuse_open c p r m n).
Proof. by left. Qed.
End Codes.

#[export] Hint Resolve fail_code ok_code refuse_code : sodchan.

(** [code_run]: every branch of a handler ends in [fail] or in code 0. *)
Ltac code_step :=
  cbv beta zeta;
  lazymatch goal with
  | |- code_ok (match ?m with _ => _ end) => destruct m eqn:?
  | |- code_ok (if ?b then _ else _) => destruct b eqn:?
  end.
Ltac code_run := repeat code_step; auto with sodchan.

Section HandlerCodes.
Context `{Sodium} `{SizeT}.

Lemma auth_device_code c p : code_ok (handle_auth_device_pdu c p).
Proof. unfold handle_auth_device_pdu. code_run. Qed.
Lemma auth_ok_code c p : code_ok (handle_auth_ok_pdu c p).
Proof. unfold handle_auth_ok_pdu. code_run. Qed.
Lemma auth_fail_code c p : code_ok (handle_auth_fail_pdu c p).
Proof. unfold handle_auth_fail_pdu. code_run. Qed.
Lemma mux_code c p : code_ok (handle_mux_pdu c p).
Proof.
  unfold handle_mux_pdu, mux_channel_open, mux_channel_open_confirm, mux_channel_open_fail,
    mux_channel_data, mux_channel_window, mux_channel_eof, mux_channel_close, mux_ping,
    mux_disconnect. code_run.
Qed.
Hint Resolve auth_device_code auth_ok_code auth_fail_code mux_code : sodchan.

Lemma encrypted_code c ct : code_ok (handle_encrypted_pdu c ct).
Proof. unfold handle_encrypted_pdu, dispatch_pdu. code_run. Qed.
Lemma hello_code c b : code_ok (handle_peer_hello c b).
Proof. unfold handle_peer_hello, client_peer_hello, client_accept_hello,
  server_peer_hello. code_run. Qed.
Lemma ss_header_code c b : code_ok (handle_peer_ss_header c b).
Proof. unfold handle_peer_ss_header. code_run. Qed.
Hint Resolve encrypted_code hello_code ss_header_code : sodchan.

Lemma handle_frame_code c b : code_ok (handle_frame c b).
Proof. unfold handle_frame. code_run. Qed.

Lemma code_ok_stopped rc c : code_ok (rc, c) -> negb (rc =? 0) = true -> stopped c = true.
Proof.
  intros [Hrc | [_ Hs]]; simpl in *; [lia |]. intros _. unfold stopped.
  by rewrite bool_decide_eq_true_2.
Qed.
End HandlerCodes.

(** ** The loop *)

Section Loop.
Context `{Sodium} `{SizeT} {SP : SodiumSpec _}.

(** Nothing to do: the state is final, or the next frame is not complete. *)
Definition quiet (x : ctx) : Prop :=
  stopped (core x) = true \/ next_frame (core x) (in_buf x) = Fail SODCHAN_ERR_FULL.

Lemma quiet_turn x : quiet x -> process_turn x = (x, false).
Proof.
  unfold process_turn. intros [-> | Hf]; [done |]. destruct (stopped _); [done |].
  destruct (_ <? 4); [done |]. by rewrite Hf.
Qed.

(** A short buffer holds no frame. *)
Lemma short_frame c data :
  len data < 4 -> next_frame c data = Fail SODCHAN_ERR_FULL.
Proof.
  intros Hl. unfold next_frame, sodchan_wire_frame_parse, sodchan_wire_frame_parse_max.
  cbn [nonnull res_bind]. replace (_ <? 4) with true by lia. by case_bool_decide.
Qed.

(** A turn that ends the loop found nothing to do, or ended the session. *)
Lemma turn_end x x' :
  ctx_wf x -> process_turn x = (x', false) -> (x' = x /\ quiet x) \/ stopped (core x') = true.
Proof.
  intros [Hc Hb]. unfold process_turn. destruct (stopped (core x)) eqn:Es.
  { intros [= <-]. by right. }
  destruct (_ <? 4) eqn:E4.
  { intros [= <-]. left. split; [done |]. right. apply short_frame. lia. }
  destruct (next_frame_cases (core x) (in_buf x) Hc) as [(body & t & Hl & Hd & ->) | [-> | [Hf _]]].
  - pose proof (handle_frame_code (core x) body) as Hcode.
    destruct (handle_frame (core x) body) as [rc c']. destruct (negb _) eqn:En; [|done].
    intros [= <-]. right. by eapply code_ok_stopped.
  - intros [= <-]. right. unfold stopped. by rewrite bool_decide_eq_true_2.
  - rewrite Hf. intros [= <-]. left. split; [done | by right].
Qed.

Lemma turn_quiet x x' : ctx_wf x -> process_turn x = (x', false) -> quiet x'.
Proof. intros Hx [[-> ?] | ?]%turn_end; [done | by left | done]. Qed.

Lemma quiet_dec x : ctx_wf x -> quiet x \/ ~ quiet x.
Proof.
  intros [Hc _]. unfold quiet. destruct (stopped (core x)); [by left; left |].
  destruct (next_frame_cases (core x) (in_buf x) Hc) as [(body & t & _ & _ & ->) | [-> | [-> _]]];
    [right | right | by left; right]; intros [|]; done.
Qed.

(** Enough fuel ends the loop, and more changes nothing. *)
Lemma process_loop_quiet n x :
  ctx_wf x -> (length (in_buf x) < n)%nat -> quiet (process_loop n x).
Proof.
  revert x. induction n as [|n IH]; intros x Hx Hn; [lia |]. simpl.
  pose proof (wf_process_turn x Hx) as Hw.
  destruct (process_turn x) as [x' []] eqn:E; simpl in Hw.
  - pose proof (process_turn_consumes x x' Hx E). apply IH; [done | lia].
  - by apply (turn_quiet x).
Qed.

Lemma process_loop_stable n x : quiet x -> process_loop n x = x.
Proof. intros Hq. destruct n; simpl; [done |]. by rewrite quiet_turn. Qed.

Lemma process_loop_fuel n m x :
  ctx_wf x -> (length (in_buf x) < n)%nat -> (length (in_buf x) < m)%nat ->
  process_loop n x = process_loop m x.
Proof.
  revert m x. induction n as [|n IH]; intros m x Hx Hn Hm; [lia |].
  destruct m as [|m]; [lia |]. simpl.
  pose proof (wf_process_turn x Hx) as Hw.
  destruct (process_turn x) as [x' []] eqn:E; simpl in Hw; [|done].
  pose proof (process_turn_consumes x x' Hx E). apply IH; [done | lia | lia].
Qed.

(** A live quiet context has room: the frame it waits for fits the buffer. *)
Lemma quiet_room x :
  ctx_wf x -> quiet x -> stopped (core x) = false -> len (in_buf x) < SODCHAN_IN_BUF_SIZE.
Proof.
  intros [Hc _] [Hs | Hf] Hlive; [congruence |].
  destruct (next_frame_cases (core x) (in_buf x) Hc)
    as [(body & t & _ & _ & Hf') | [Hf' | [_ Hl]]]; [by rewrite Hf in Hf' | by rewrite Hf in Hf' |].
  pose proof (ss_frame_max_body_bound (core x) (swf_record _ (wf_cfg _ Hc))).
  revert Hl. consts. case_bool_decide; lia.
Qed.

Lemma process_loop_shrinks n x :
  (length (in_buf (process_loop n x)) <= length (in_buf x))%nat.
Proof.
  revert x. induction n as [|n IH]; intros x; simpl; [done |].
  assert (length (in_buf (process_turn x).1) <= length (in_buf x))%nat as Ht.
  { unfold process_turn. repeat case_match; simpl; rewrite ?length_drop; lia. }
  destruct (process_turn x) as [x' []]; simpl in Ht; [|done].
  pose proof (IH x'). lia.
Qed.

(** *** More bytes *)

Lemma next_frame_more c data more :
  session_wf c -> next_frame c data <> Fail SODCHAN_ERR_FULL ->
  next_frame c (data ++ more) = next_frame c data.
Proof.
  intros Hc. destruct (frame_limits c Hc). unfold next_frame, sodchan_wire_frame_parse.
  case_bool_decide; by apply frame_parse_max_mono.
Qed.

Definition append_in (x : ctx) (more : bytes) : ctx := mk_ctx (core x) (in_buf x ++ more).

(** A turn with more bytes behind does the same, unless it waited for them. *)
Lemma process_turn_more x more :
  ctx_wf x -> ~ quiet x ->
  process_turn (append_in x more) =
    (append_in (process_turn x).1 more, (process_turn x).2).
Proof.
  intros [Hc Hb] Hq. unfold process_turn, append_in. cbn [core in_buf].
  destruct (stopped (core x)) eqn:Es; [destruct Hq; by left |].
  assert (next_frame (core x) (in_buf x) <> Fail SODCHAN_ERR_FULL) as Hn
    by (intros Hf; apply Hq; by right).
  assert ((len (in_buf x) <? 4) = false) as E4.
  { apply Z.ltb_ge, Z.nlt_ge. intros E4. by apply Hn, short_frame. }
  rewrite E4. replace (len (in_buf x ++ more) <? 4) with false by (rewrite length_app; lia).
  rewrite next_frame_more by done.
  destruct (next_frame_cases (core x) (in_buf x) Hc) as [(body & t & Hl & Hd & ->) | [-> | [Hf _]]];
    [| done | done].
  destruct (handle_frame (core x) body) as [rc c']. destruct (negb _); [done |]. simpl.
  do 2 f_equal. apply drop_app_le. apply (f_equal List.length) in Hd.
  rewrite length_app in Hd. pose proof (length_frame_bytes body). lia.
Qed.

Lemma stopped_process n x : stopped (core x) = true -> process_loop n x = x.
Proof. intros Hs. apply process_loop_stable. by left. Qed.

(** The loop on more bytes is the loop, then the loop on the rest. *)
Lemma process_loop_more n m k x more :
  ctx_wf x -> (length (in_buf x) < n)%nat ->
  (length (in_buf x) + length more < m)%nat -> (length (in_buf x) + length more < k)%nat ->
  ctx_wf (append_in x more) ->
  process_loop m (append_in x more) = process_loop k (append_in (process_loop n x) more).
Proof.
  revert m x. induction n as [|n IH]; intros m x Hx Hn Hm Hk Hxm; [lia |].
  destruct (quiet_dec x Hx) as [Hq | Hq].
  { rewrite (process_loop_stable (S n) x) by done. unfold append_in in *.
    apply process_loop_fuel; [done | |]; simpl; rewrite length_app; lia. }
  destruct m as [|m]; [lia |]. simpl. rewrite process_turn_more by done.
  pose proof (wf_process_turn x Hx) as Hw.
  pose proof (wf_process_turn (append_in x more) Hxm) as Hwm.
  rewrite process_turn_more in Hwm by done.
  destruct (process_turn x) as [x' []] eqn:E; simpl in Hw, Hwm |- *.
  - pose proof (process_turn_consumes x x' Hx E). apply IH; [done | lia | lia | lia | done].
  - apply turn_end in E as [[_ ?] | Hs]; [done | | done].
    by rewrite stopped_process.
Qed.
End Loop.

(** ** Feeding *)

Section Feed.
Context `{Sodium} `{SizeT} {SP : SodiumSpec _}.

Lemma process_input_quiet x : ctx_wf x -> quiet (process_input x).
Proof. intros. apply process_loop_quiet; [done | lia]. Qed.

Lemma append_in_wf x data :
  ctx_wf x -> len (in_buf x) + len data <= SODCHAN_IN_BUF_SIZE -> ctx_wf (append_in x data).
Proof. intros [Hc Hb] Hl. split; [done |]. simpl. rewrite length_app. lia. Qed.

(** A feed does nothing, or processes what it took. *)
Lemma feed_cases x data :
  (sodchan_feed_input x data).2 = x \/
  exists more, len (in_buf x) + len more <= Z.max (len (in_buf x)) SODCHAN_IN_BUF_SIZE /\
    (sodchan_feed_input x data).2 = process_input (append_in x more).
Proof.
  unfold sodchan_feed_input. destruct data as [data|]; [|by left].
  destruct (len data =? 0); [by left |]. destruct (stopped _); [by left |].
  destruct (_ <? len data) eqn:E; cbv zeta; (case_match; [by left |]); right;
    (eexists; split; [|done]); rewrite length_take; lia.
Qed.

(** Input that fits is taken whole and processed. *)
Lemma feed_fits x data :
  ctx_wf x -> quiet x -> len (in_buf x) + len data <= SODCHAN_IN_BUF_SIZE ->
  (sodchan_feed_input x (Some data)).2 =
    if stopped (core x) then x else process_input (append_in x data).
Proof.
  intros Hx Hq Hl. unfold sodchan_feed_input.
  destruct (len data =? 0) eqn:E0.
  { destruct data; [|simpl in E0; lia]. destruct (stopped (core x)); [done |].
    unfold append_in. rewrite app_nil_r. destruct x. simpl.
    unfold process_input. by rewrite process_loop_stable. }
  destruct (stopped (core x)); [done |].
  replace (SODCHAN_IN_BUF_SIZE - len (in_buf x) <? len data) with false by lia. cbv zeta.
  rewrite E0. cbn [snd]. unfold append_in. by rewrite take_ge by lia.
Qed.

(** How much a live context takes: all that fits, and never nothing. *)
Lemma feed_count x data :
  ctx_wf x -> quiet x -> stopped (core x) = false -> data <> [] ->
  (sodchan_feed_input x (Some data)).1 =
    Z.min (len data) (SODCHAN_IN_BUF_SIZE - len (in_buf x)) /\
  0 < (sodchan_feed_input x (Some data)).1.
Proof.
  intros Hx Hq Hs Hd. pose proof (quiet_room x Hx Hq Hs). unfold sodchan_feed_input.
  assert (0 < len data) by (destruct data; [done | simpl; lia]).
  replace (len data =? 0) with false by lia. rewrite Hs.
  destruct (_ <? len data) eqn:E; cbv zeta.
  - replace (_ - _ =? 0) with false by lia. simpl. lia.
  - replace (len data =? 0) with false by lia. simpl. lia.
Qed.

(** The session does not see how its input was cut. *)
Lemma feed_split x a b :
  ctx_wf x -> quiet x -> len (in_buf x) + len a + len b <= SODCHAN_IN_BUF_SIZE ->
  core (sodchan_feed_input x (Some (a ++ b))).2 =
  core (sodchan_feed_input (sodchan_feed_input x (Some a)).2 (Some b)).2.
Proof.
  intros Hx Hq Hl.
  rewrite (feed_fits x (a ++ b)) by (try done; rewrite length_app; lia).
  rewrite (feed_fits x a) by (try done; lia).
  destruct (stopped (core x)) eqn:Hs.
  { rewrite feed_fits by (try done; lia). by rewrite Hs. }
  set (xa := append_in x a).
  assert (ctx_wf xa) as Hxa by (apply append_in_wf; [done | lia]).
  assert (append_in x (a ++ b) = append_in xa b) as ->
    by (unfold append_in, xa; simpl; by rewrite app_assoc).
  assert (ctx_wf (append_in xa b)) as Hxb.
  { apply append_in_wf; [done |]. subst xa. simpl. rewrite length_app. lia. }
  assert (length (in_buf (process_input xa)) <= length (in_buf x) + length a)%nat as Hle.
  { pose proof (process_loop_shrinks (S (length (in_buf xa))) xa) as Hle.
    etransitivity; [exact Hle |]. unfold xa. simpl. by rewrite length_app. }
  assert (length (in_buf xa) = length (in_buf x) + length a)%nat as Hxl
    by (unfold xa; simpl; by rewrite length_app).
  set (k := S (length (in_buf xa) + length b)).
  unfold process_input at 1.
  rewrite (process_loop_more (S (length (in_buf xa))) _ k xa b)
    by (try done; unfold k; simpl; rewrite ?length_app; lia).
  fold (process_input xa).
  assert (ctx_wf (process_input xa)) as Hy by (by apply wf_process_loop).
  pose proof (process_input_quiet xa Hxa) as Hqy.
  generalize dependent (process_input xa). intros y Hle Hy Hqy.
  rewrite feed_fits by (try done; lia).
  destruct (stopped (core y)) eqn:Hst; [by rewrite stopped_process |].
  f_equal. apply process_loop_fuel; [apply append_in_wf; [done | lia] | |];
    unfold k, append_in; simpl; rewrite ?length_app; lia.
Qed.
End Feed.
