(* ===== verification/Safety.v ===== *)
(** The security invariant of a session: what holds of the handshake's and the
    authentication's fields in every state, and its preservation by every
    frame the peer sends and every call the host makes. *)

From Stdlib Require Import ZArith Lia ZifyBool String.
From S2P Require Import Prelude Defs WireBase WireHello WireAuth WireMux Crypto EventQueue.
From S2P Require Import OutBuf Channels Session Auth Handshake Mux Engine Api Invariant Calm.
From S2P Require Import EngineLemmas.
Local Open Scope Z_scope.
Local Open Scope sodchan_scope.

Section Safe.
Context `{Sodium} `{SizeT}.

(** The role, the settings and the server key a context was created with. *)
Variables (r0 : sodchan_role_t) (s0 : settings) (pk0 : bytes).

(** The state that goes with a handshake state, if the session is live. *)
Definition phase (c : session) : Prop :=
  stopped c = true \/
  match hs c with
  | SODCHAN_HS_START => False
  | SODCHAN_HS_WAIT_PEER_HELLO => state c = SODCHAN_STATE_HELLO
  | SODCHAN_HS_WAIT_PEER_SS => state c = SODCHAN_STATE_SS_HEADER
  | SODCHAN_HS_DONE => state c = SODCHAN_STATE_AUTH \/ state c = SODCHAN_STATE_READY \/
                       state c = SODCHAN_STATE_DRAINING
  end.

(** The client holds a server key that signed this handshake's transcript,
    and it is the configured one unless any is accepted. *)
Definition server_verified (c : session) : Prop :=
  have_t_hello c = true /\ have_peer_id c = true /\
  t_hello c = t_hello_bytes SODCHAN_PROTO_VERSION SODCHAN_SUITE_V1 (eph_pk c) (peer_eph_pk c)
                (peer_id_pk c) /\
  (exists sig, crypto_sign_verify_detached sig (t_hello c) (peer_id_pk c) = 0) /\
  (accept_any_server_pk s0 = false -> peer_id_pk c = pk0).

(** The transcript a server signed. *)
Definition server_transcript (c : session) : Prop :=
  have_t_hello c = true /\
  t_hello c = t_hello_bytes SODCHAN_PROTO_VERSION SODCHAN_SUITE_V1 (peer_eph_pk c) (eph_pk c) pk0.

(** The server holds a device key that signed this session's transcript. *)
Definition device_verified (c : session) : Prop :=
  have_peer_id c = true /\
  exists sig user dev,
    len user <= SODCHAN_USER_MAX /\ len dev <= SODCHAN_DEVICE_ID_MAX /\
    crypto_sign_verify_detached sig (t_auth_bytes (t_hello c) (peer_id_pk c) user dev)
      (peer_id_pk c) = 0.

Definition past_hello (c : session) : Prop :=
  hs c = SODCHAN_HS_WAIT_PEER_SS \/ hs c = SODCHAN_HS_DONE.

Record safe (c : session) : Prop := {
  sf_role : role c = r0;
  sf_cfg : cfg c = s0;
  sf_pin : r0 = SODCHAN_ROLE_SERVER \/ accept_any_server_pk s0 = false -> server_id_pk c = pk0;
  sf_phase : phase c;
  sf_client : r0 = SODCHAN_ROLE_CLIENT -> past_hello c -> server_verified c;
  sf_server : r0 = SODCHAN_ROLE_SERVER -> past_hello c -> server_transcript c;
  sf_flags : r0 = SODCHAN_ROLE_CLIENT ->
    auth_awaiting_decide c = false /\ auth_decided c = false;
  sf_device : auth_awaiting_decide c = true \/ auth_decided c = true ->
    hs c = SODCHAN_HS_DONE /\ device_verified c;
  sf_once : auth_awaiting_decide c = true -> auth_decided c = false;
  sf_complete : auth_complete c = true -> hs c = SODCHAN_HS_DONE /\
    (r0 = SODCHAN_ROLE_SERVER -> auth_decided c = true);
  sf_ready : state c = SODCHAN_STATE_READY -> auth_complete c = true;
  sf_push : r0 = SODCHAN_ROLE_CLIENT -> past_hello c -> ss_push_ready c = true;
  sf_keys : hs c = SODCHAN_HS_DONE -> ss_push_ready c = true /\ ss_pull_ready c = true
}.

Lemma stopped_iff c :
  stopped c = true <-> state c = SODCHAN_STATE_ERROR \/ state c = SODCHAN_STATE_CLOSED.
Proof. unfold stopped. by rewrite orb_true_iff, !bool_decide_eq_true. Qed.

Lemma calm_stopped c c' : calm c c' -> stopped c = true -> stopped c' = true.
Proof.
  intros [] Hs. apply stopped_iff. apply stopped_iff in Hs.
  destruct calm_state as [-> | [-> | [-> | [-> Hd]]]]; [done | by left | by right |].
  destruct Hs as [Hs | Hs]; rewrite Hs in Hd; intuition congruence.
Qed.

Lemma calm_phase c c' : calm c c' -> phase c -> phase c'.
Proof.
  intros Hc [Hs | Hp]; [left; by eapply calm_stopped |].
  pose proof Hc as []. unfold phase. rewrite stopped_iff, calm_hs.
  destruct calm_state as [-> | [-> | [-> | [-> Hd]]]]; [by right | by left; left | by left; right |].
  right. destruct (hs c); [done | intuition congruence | intuition congruence | by right; right].
Qed.

(** A calm step keeps the invariant. *)
Lemma safe_calm c c' : calm c c' -> safe c -> safe c'.
Proof.
  intros Hc []. pose proof (calm_phase c c' Hc sf_phase0). pose proof Hc as [].
  constructor; unfold past_hello, server_verified, server_transcript, device_verified in *;
    rewrite ?calm_role, ?calm_hs, ?calm_cfg, ?calm_server_pk, ?calm_eph_pk, ?calm_peer_eph,
      ?calm_peer_id, ?calm_have_peer_id, ?calm_t_hello, ?calm_have_t_hello, ?calm_push_ready,
      ?calm_pull_ready, ?calm_awaiting, ?calm_decided, ?calm_complete; try done.
  intros Hr. apply sf_ready0. destruct calm_state as [<- | [Hs | [Hs | [Hs _]]]]; congruence.
Qed.

(** *** Before the peer's HELLO is accepted *)

(** What the handshake keeps while [hs] is [SODCHAN_HS_WAIT_PEER_HELLO]. *)
Record early (c : session) : Prop := {
  ea_role : role c = r0;
  ea_cfg : cfg c = s0;
  ea_pin : r0 = SODCHAN_ROLE_SERVER \/ accept_any_server_pk s0 = false -> server_id_pk c = pk0;
  ea_hs : hs c = SODCHAN_HS_WAIT_PEER_HELLO;
  ea_flags : auth_awaiting_decide c = false /\ auth_decided c = false /\ auth_complete c = false
}.

Lemma safe_early c : safe c -> hs c = SODCHAN_HS_WAIT_PEER_HELLO -> early c.
Proof.
  intros [] Hh. constructor; try done.
  destruct (auth_awaiting_decide c), (auth_decided c), (auth_complete c); intuition congruence.
Qed.

Lemma early_calm c c' : calm c c' -> early c -> early c'.
Proof. intros [] []. constructor; congruence || intuition congruence. Qed.

(** An early session is safe when it is waiting or has failed. *)
Lemma early_safe c :
  early c -> state c = SODCHAN_STATE_HELLO \/ state c = SODCHAN_STATE_ERROR -> safe c.
Proof.
  intros [] Hs. destruct ea_flags0 as (Ha & Hd & Hc).
  constructor; unfold past_hello; rewrite ?Ha, ?Hd, ?Hc, ?ea_hs0; try done; try intuition congruence.
  unfold phase. rewrite stopped_iff, ea_hs0. tauto.
Qed.

Lemma early_fail c code msg : early c -> safe (fail c code msg).2.
Proof.
  intros He. apply early_safe; [|by right]. eapply early_calm; [|done].
  apply calm_fail, calm_refl.
Qed.

(** It becomes a session that waits for the secretstream header. *)
Lemma early_advance c :
  early c ->
  (r0 = SODCHAN_ROLE_CLIENT -> server_verified c /\ ss_push_ready c = true) ->
  (r0 = SODCHAN_ROLE_SERVER -> server_transcript c) ->
  safe (c <| state := SODCHAN_STATE_SS_HEADER |> <| hs := SODCHAN_HS_WAIT_PEER_SS |>).
Proof.
  intros [] Hv Ht. destruct ea_flags0 as (Ha & Hd & Hc).
  constructor; simpl; unfold past_hello; rewrite ?Ha, ?Hd, ?Hc; simpl; try done;
    try intuition congruence.
  by right.
Qed.

(** *** The fields of an early session *)

Lemma early_set_peer_eph c k : early c -> early (c <| peer_eph_pk := k |>).
Proof. intros []; by constructor. Qed.
Lemma early_set_peer_id c k : early c -> early (c <| peer_id_pk := k |>).
Proof. intros []; by constructor. Qed.
Lemma early_set_have_peer_id c b : early c -> early (c <| have_peer_id := b |>).
Proof. intros []; by constructor. Qed.
Lemma early_set_have_peer_eph c b : early c -> early (c <| have_peer_eph := b |>).
Proof. intros []; by constructor. Qed.
Lemma early_set_t_hello c t : early c -> early (c <| t_hello := t |>).
Proof. intros []; by constructor. Qed.
Lemma early_set_have_t_hello c b : early c -> early (c <| have_t_hello := b |>).
Proof. intros []; by constructor. Qed.
Lemma early_set_push_ready c b : early c -> early (c <| ss_push_ready := b |>).
Proof. intros []; by constructor. Qed.

Lemma verified_calm c c' : calm c c' -> server_verified c -> server_verified c'.
Proof.
  intros [] Hv. unfold server_verified in *.
  by rewrite calm_have_t_hello, calm_have_peer_id, calm_t_hello, calm_eph_pk, calm_peer_eph,
    calm_peer_id.
Qed.

Lemma transcript_calm c c' : calm c c' -> server_transcript c -> server_transcript c'.
Proof.
  intros [] Hv. unfold server_transcript in *.
  by rewrite calm_have_t_hello, calm_t_hello, calm_eph_pk, calm_peer_eph.
Qed.

(** The secretstream header makes the writer ready and is calm otherwise. *)
Lemma send_ss_header_only c key :
  calm c (send_ss_header c key).2 \/
  calm (c <| ss_push_ready := true |>) (send_ss_header c key).2.
Proof.
  unfold send_ss_header. destruct (crypto_secretstream_init_push key (rng c)) as [[[st h]|] e].
  - right. cbv zeta. destruct (out_append_frame _ h) as [rc o]. cbn [snd]. by constructor.
  - left. by constructor.
Qed.

Lemma send_ss_header_ready c key rc c' :
  send_ss_header c key = (rc, c') -> rc = SODCHAN_OK -> ss_push_ready c' = true.
Proof.
  unfold send_ss_header. destruct (crypto_secretstream_init_push key (rng c)) as [[[st h]|] e].
  - cbv zeta. destruct (out_append_frame _ h) as [rc' o]. by intros [= _ <-].
  - by intros [= <- _].
Qed.

Lemma early_ss_header c key : early c -> early (send_ss_header c key).2.
Proof.
  intros He. destruct (send_ss_header_only c key) as [Hc | Hc].
  - by eapply early_calm.
  - eapply early_calm; [exact Hc |]. by apply early_set_push_ready.
Qed.

Lemma verified_ss_header c key : server_verified c -> server_verified (send_ss_header c key).2.
Proof.
  intros He. destruct (send_ss_header_only c key) as [Hc | Hc]; by eapply verified_calm.
Qed.

Context {SP : SodiumSpec _}.

Lemma safe_client_accept c h :
  r0 = SODCHAN_ROLE_CLIENT -> length (h_eph_pk h) = 32%nat -> length (h_id_pk h) = 32%nat ->
  (accept_any_server_pk s0 = false -> h_id_pk h = pk0) ->
  session_wf c -> early c -> safe (client_accept_hello c h).2.
Proof.
  intros Hr Heph Hid Hk [] He. unfold client_accept_hello. cbv zeta.
  set (c1 := c <| peer_eph_pk := _ |> <| peer_id_pk := _ |> <| have_peer_eph := _ |>
               <| have_peer_id := _ |>).
  assert (early c1) as He1
    by (by apply early_set_have_peer_id, early_set_have_peer_eph, early_set_peer_id,
          early_set_peer_eph).
  rewrite build_t_hello_ok by done.
  set (c2 := c1 <| t_hello := _ |> <| have_t_hello := _ |>).
  assert (early c2) as He2 by (by apply early_set_have_t_hello, early_set_t_hello).
  destruct (negb (crypto_sign_verify_detached _ _ _ =? 0)) eqn:Ev; [by apply early_fail |].
  assert (server_verified c2) as Hv2.
  { split_and!; try done. exists (h_id_sig h). by apply negb_false_iff, Z.eqb_eq in Ev. }
  clearbody c2. clear -Hr He2 Hv2.
  assert (early (emit_hello_received c2)) as He3
    by (eapply early_calm; [|done]; apply calm_queue, calm_refl).
  assert (server_verified (emit_hello_received c2)) as Hv3
    by (eapply verified_calm; [|done]; apply calm_queue, calm_refl).
  generalize dependent (emit_hello_received c2). clear c2 He2 Hv2. intros c He Hv.
  pose proof (calm_derive_client c c (calm_refl c)) as Hd.
  destruct (derive_ss_keys_client c) as [rc c3]. cbn [snd] in Hd.
  apply (early_calm _ _ Hd) in He. apply (verified_calm _ _ Hd) in Hv.
  destruct (negb (rc =? _)); [by apply early_fail |].
  unfold client_send_ss_header_c2s.
  pose proof (early_ss_header c3 (ss_key_c2s c3) He) as He4.
  pose proof (verified_ss_header c3 (ss_key_c2s c3) Hv) as Hv4.
  pose proof (send_ss_header_ready c3 (ss_key_c2s c3)) as Hp.
  destruct (send_ss_header c3 (ss_key_c2s c3)) as [rc' c4]. cbn [snd] in He4, Hv4.
  destruct (negb (rc' =? _)) eqn:Erc; [by apply early_fail |].
  apply early_advance; [done | | congruence]. intros _. split; [done |].
  apply (Hp rc' c4 eq_refl). consts. lia.
Qed.

Lemma safe_client_hello c h :
  r0 = SODCHAN_ROLE_CLIENT -> hello_wf h -> session_wf c -> early c ->
  safe (client_peer_hello c h).2.
Proof.
  intros Hr [] Hwf He. unfold client_peer_hello.
  destruct (negb (h_role h =? _)); [by apply early_fail |].
  pose proof He as [].
  assert (accept_any_server_pk (cfg c) = true \/
    (accept_any_server_pk (cfg c) = false /\
     negb (have_server_id_pk c) || negb (sodium_memcmp (h_id_pk h) (server_id_pk c) =? 0) = false)
    \/ negb (accept_any_server_pk (cfg c)) &&
       (negb (have_server_id_pk c) || negb (sodium_memcmp (h_id_pk h) (server_id_pk c) =? 0)) = true)
    as Hpin by (destruct (accept_any_server_pk (cfg c)), (negb (have_server_id_pk c) || _); auto).
  destruct (negb (accept_any_server_pk (cfg c)) && _) eqn:Eg; [by apply early_fail |].
  destruct Hpin as [Hany | [[Hany Hpin] | ?]]; [| | done].
  all: rewrite Hany; cbv zeta.
  - set (c1 := c <| server_id_pk := _ |> <| have_server_id_pk := _ |>).
    assert (early c1) as He1.
    { constructor; simpl; try done. intros [|Ha]; [congruence |]. congruence. }
    assert (session_wf c1) as Hwf1 by (subst c1; wf_solve).
    assert (accept_any_server_pk s0 = false -> h_id_pk h = pk0) as Hk by congruence.
    clearbody c1. by apply safe_client_accept.
  - apply orb_false_iff in Hpin as [_ Hm]. apply negb_false_iff, Z.eqb_eq in Hm.
    apply memcmp_eq in Hm; [| destruct Hwf; congruence].
    apply safe_client_accept; try done.
    intros Ha. rewrite Hm. apply ea_pin0. by right.
Qed.

(** The server's HELLO fixes the transcript. *)
Lemma queue_local_hello_server c :
  r0 = SODCHAN_ROLE_SERVER -> session_wf c -> early c ->
  early (queue_local_hello c).2 /\
  ((queue_local_hello c).1 = SODCHAN_OK -> server_transcript (queue_local_hello c).2).
Proof.
  intros Hr [] He. unfold queue_local_hello. rewrite (ea_role c He), Hr.
  destruct (negb (have_peer_eph c)); [done |].
  rewrite build_t_hello_ok by done. cbv zeta.
  set (c1 := c <| t_hello := _ |> <| have_t_hello := _ |>).
  assert (early c1) as He1 by (by apply early_set_have_t_hello, early_set_t_hello).
  destruct (crypto_sign_detached _ _) as [sig|]; [|done].
  pose proof (calm_send_hello c1 c1) as Hs.
  match goal with |- context [send_hello c1 ?h] => specialize (Hs h (calm_refl c1)) end.
  split; [by eapply early_calm |]. intros _. eapply transcript_calm; [exact Hs |].
  split; [done |]. simpl. rewrite (ea_pin c He); [done | by left].
Qed.

Lemma safe_server_hello c h :
  r0 = SODCHAN_ROLE_SERVER -> hello_wf h -> session_wf c -> early c ->
  safe (server_peer_hello c h).2.
Proof.
  intros Hr [] Hwf He. unfold server_peer_hello.
  destruct (negb (h_role h =? _)); [by apply early_fail |]. cbv zeta.
  set (c1 := c <| peer_eph_pk := _ |> <| have_peer_eph := _ |>).
  assert (early c1) as He1 by (by apply early_set_have_peer_eph, early_set_peer_eph).
  assert (session_wf c1) as Hwf1 by (subst c1; wf_solve). clearbody c1.
  match goal with |- context [emit_hello_received (if ?b then ?x else _)] =>
    set (c2 := if b then x else c1) end.
  assert (early c2) as He2.
  { subst c2. case_match; [|done]. by apply early_set_have_peer_id, early_set_peer_id. }
  assert (session_wf c2) as Hwf2 by (subst c2; case_match; wf_solve). clearbody c2.
  assert (early (emit_hello_received c2)) as He3
    by (eapply early_calm; [|done]; apply calm_queue, calm_refl).
  assert (session_wf (emit_hello_received c2)) as Hwf3 by (by apply wf_emit_hello).
  generalize dependent (emit_hello_received c2). clear -Hr SP. intros c He Hwf.
  destruct (queue_local_hello_server c Hr Hwf He) as [He4 Ht].
  destruct (queue_local_hello c) as [rc c4]. cbn [fst snd] in He4, Ht.
  destruct (negb (rc =? SODCHAN_OK)) eqn:Erc; [by apply early_fail |].
  specialize (Ht ltac:(lia)).
  pose proof (calm_derive_server c4 c4 (calm_refl c4)) as Hd.
  destruct (derive_ss_keys_server c4) as [rc' c5]. cbn [snd] in Hd.
  apply (early_calm _ _ Hd) in He4. apply (transcript_calm _ _ Hd) in Ht.
  destruct (negb (rc' =? _)); [by apply early_fail |].
  apply early_advance; [done | congruence | done].
Qed.

Lemma safe_handle_peer_hello c b :
  session_wf c -> safe c -> hs c = SODCHAN_HS_WAIT_PEER_HELLO ->
  safe (handle_peer_hello c b).2.
Proof.
  intros Hwf Hs Hh. pose proof (safe_early c Hs Hh) as He. unfold handle_peer_hello.
  destruct (sodchan_wire_hello_decode (Some b)) as [h | |] eqn:E;
    [| by apply early_fail | by apply early_fail].
  apply hello_decode_ok in E as [Hw _]. pose proof (ea_role c He) as Hr.
  destruct (role c); [by apply safe_server_hello | by apply safe_client_hello].
Qed.

(** *** The secretstream header *)

(** The session enters the AUTH phase with both cipher states ready. *)
Lemma safe_enter_auth c :
  safe c -> hs c = SODCHAN_HS_WAIT_PEER_SS -> ss_push_ready c = true ->
  safe (c <| ss_pull_ready := true |> <| hs := SODCHAN_HS_DONE |>
          <| state := SODCHAN_STATE_AUTH |>).
Proof.
  intros [] Hh Hp.
  assert (past_hello c) as Hpast by (by left).
  assert (auth_complete c = false) by (destruct (auth_complete c); intuition congruence).
  constructor; simpl; unfold server_verified, server_transcript, device_verified in *;
    simpl; try done; try intuition congruence.
  right. by left.
Qed.

Lemma safe_enter_auth_calm c c' :
  safe c -> hs c = SODCHAN_HS_WAIT_PEER_SS -> ss_push_ready c = true ->
  calm (c <| ss_pull_ready := true |> <| hs := SODCHAN_HS_DONE |>
          <| state := SODCHAN_STATE_AUTH |>) c' -> safe c'.
Proof. intros. eapply safe_calm; [done |]. by apply safe_enter_auth. Qed.

Lemma safe_send_ss_header c key :
  r0 = SODCHAN_ROLE_SERVER -> hs c = SODCHAN_HS_WAIT_PEER_SS ->
  safe c -> safe (send_ss_header c key).2.
Proof.
  intros Hr Hh Hs. destruct (send_ss_header_only c key) as [Hc | Hc]; [by eapply safe_calm |].
  eapply safe_calm; [exact Hc |]. destruct Hs. constructor; try done. simpl. congruence.
Qed.

Lemma calm_auth_fields c v :
  v = SODCHAN_STATE_AUTH ->
  forall st, calm (c <| ss_pull_ready := true |> <| hs := SODCHAN_HS_DONE |> <| state := v |>)
    (emit_kx_complete (c <| ss_pull := st |> <| ss_pull_ready := true |>
       <| hs := SODCHAN_HS_DONE |> <| state := v |>)).
Proof. intros -> st. apply calm_queue. by constructor. Qed.

Lemma safe_handle_peer_ss c b :
  safe c -> hs c = SODCHAN_HS_WAIT_PEER_SS -> safe (handle_peer_ss_header c b).2.
Proof.
  intros Hs Hh. pose proof (sf_role c Hs) as Hr. unfold handle_peer_ss_header.
  destruct (negb (_ =? _)); [eapply safe_calm; [apply calm_fail, calm_refl | done] |].
  destruct (role c) eqn:Er.
  - destruct (crypto_secretstream_init_pull b (ss_key_c2s c)) as [st|];
      [| eapply safe_calm; [apply calm_fail, calm_refl | done]].
    cbv zeta. unfold server_send_ss_header_s2c.
    set (c1 := c <| ss_pull := st |> <| ss_pull_ready := true |>).
    assert (safe c1) as Hs1 by (destruct Hs; constructor; try done; simpl; congruence).
    pose proof (safe_send_ss_header c1 (ss_key_s2c c1) (eq_sym Hr) Hh Hs1) as Hs2.
    pose proof (send_ss_header_ready c1 (ss_key_s2c c1)) as Hp.
    pose proof (send_ss_header_only c1 (ss_key_s2c c1)) as Ho.
    destruct (send_ss_header c1 (ss_key_s2c c1)) as [rc c2]. cbn [snd] in Hs2, Ho.
    destruct (negb (rc =? SODCHAN_OK)) eqn:Erc;
      [eapply safe_calm; [apply calm_fail, calm_refl | done] |].
    assert (ss_pull_ready c2 = true) as Hpull
      by (destruct Ho as [Ho | Ho]; by rewrite (calm_pull_ready _ _ Ho)).
    cbn [snd]. apply (safe_enter_auth_calm c2); [done | | | apply calm_queue; by constructor].
    + destruct Ho as [Ho | Ho]; by rewrite (calm_hs _ _ Ho).
    + apply (Hp rc c2 eq_refl). consts. lia.
  - destruct (crypto_secretstream_init_pull b (ss_key_s2c c)) as [st|];
      [| eapply safe_calm; [apply calm_fail, calm_refl | done]].
    cbv zeta. apply (safe_enter_auth_calm c); [done | done | |].
    { apply (sf_push c Hs); [done | by left]. }
    pose proof (calm_auth_fields c _ eq_refl st) as Hc.
    apply (calm_client_auth_device _ _) in Hc.
    destruct (client_send_auth_device _) as [rc c2]. cbn [snd] in Hc.
    destruct (negb (rc =? SODCHAN_OK)); [by apply calm_fail | done].
Qed.

(** *** The AUTH phase *)

(** A decoded string that was not cut is whole in its buffer. *)
Lemma field_buf_fits s cap : len s < cap -> field_buf s cap = s ++ [Byte.x00].
Proof.
  intros Hl. unfold field_buf. replace (0 <? cap) with true by lia. by rewrite take_ge by lia.
Qed.

Lemma safe_auth_device c p :
  safe c -> hs c = SODCHAN_HS_DONE -> session_wf c -> safe (handle_auth_device_pdu c p).2.
Proof.
  intros Hs Hh Hwf. unfold handle_auth_device_pdu.
  assert (forall code msg, safe (fail c code msg).2) as Hfail.
  { intros. eapply safe_calm; [apply calm_fail, calm_refl | done]. }
  case_bool_decide as Hr; [|apply Hfail]. cbn [negb].
  destruct (auth_awaiting_decide c || auth_complete c || auth_decided c) eqn:Ef; [apply Hfail |].
  apply orb_false_iff in Ef as [[Ea Ec]%orb_false_iff Ed].
  destruct (negb (have_t_hello c)); [apply Hfail |].
  destruct (sodchan_wire_auth_device_decode _ _ _) as [ad | |] eqn:E; [| apply Hfail..].
  apply auth_device_decode_ok in E as (user & dev & Hk & _ & Hu & Hd & Eu & Eul & Ev & Evl & _).
  cbv zeta. rewrite Eu, Ev, Eul, Evl, !field_buf_fits by (consts; lia).
  pose proof (wf_t_hello c Hwf).
  rewrite build_t_auth_ok by (try done; unfold zeros; rewrite length_replicate; lia).
  cbn [res_bind]. rewrite rd_head by done. cbv iota beta.
  destruct (negb (_ =? 0)) eqn:Ev0.
  { eapply safe_calm; [|exact Hs]. apply calm_fail, calm_emit_failed, calm_auth_fail_send,
      calm_refl. }
  cbn [snd]. apply negb_false_iff, Z.eqb_eq in Ev0.
  destruct Hs. constructor; simpl; try done; try congruence.
  intros _. split; [done |]. split; [done |].
  by exists (ad_client_sig ad), user, dev.
Qed.

Lemma safe_auth_ok c p :
  safe c -> hs c = SODCHAN_HS_DONE -> safe (handle_auth_ok_pdu c p).2.
Proof.
  intros Hs Hh. unfold handle_auth_ok_pdu.
  assert (forall code msg, safe (fail c code msg).2) as Hfail.
  { intros. eapply safe_calm; [apply calm_fail, calm_refl | done]. }
  case_bool_decide as Hr; [|apply Hfail]. cbn [negb].
  destruct (sodchan_wire_auth_ok_decode _) as [k | |]; [| apply Hfail..].
  cbn [snd]. destruct Hs. assert (r0 = SODCHAN_ROLE_CLIENT) as Hr0 by congruence.
  constructor; simpl; try done; try (intros; congruence).
  - right. simpl. rewrite Hh. right. by left.
  - intros _. split; [done | congruence].
Qed.

Lemma safe_handle_encrypted c ct :
  session_wf c -> safe c -> hs c = SODCHAN_HS_DONE -> safe (handle_encrypted_pdu c ct).2.
Proof.
  intros Hwf Hs Hh. unfold handle_encrypted_pdu.
  assert (forall code msg, safe (fail c code msg).2) as Hfail.
  { intros. eapply safe_calm; [apply calm_fail, calm_refl | done]. }
  do 3 (case_match; [apply Hfail |]).
  destruct (crypto_secretstream_pull _ _) as [[[st plain] tag]|]; [|apply Hfail].
  cbv zeta. set (c1 := c <| ss_pull := st |>).
  assert (safe c1) as Hs1 by (eapply safe_calm; [apply calm_set_pull, calm_refl | done]).
  assert (session_wf c1) as Hwf1 by (by apply wf_set_ss_pull).
  assert (hs c1 = SODCHAN_HS_DONE) as Hh1 by done. clearbody c1.
  case_match. { eapply safe_calm; [apply calm_closed, calm_queue, calm_refl | done]. }
  case_match; [done |]. case_match; [done |].
  destruct (sodchan_wire_pdu_type _) as [t | |];
    [| eapply safe_calm; [apply calm_fail, calm_refl | done]..].
  unfold dispatch_pdu.
  repeat case_match; try (by eapply safe_calm; [apply calm_fail, calm_refl | done]);
    try (by eapply safe_calm; [apply calm_handle_mux | done]).
  - by apply safe_auth_device.
  - by apply safe_auth_ok.
  - eapply safe_calm; [apply calm_handle_auth_fail | done].
Qed.

Lemma safe_handle_frame c b :
  session_wf c -> safe c -> stopped c = false -> safe (handle_frame c b).2.
Proof.
  intros Hwf Hs _. unfold handle_frame. destruct (hs c) eqn:Hh.
  - eapply safe_calm; [apply calm_fail, calm_refl | done].
  - by apply safe_handle_peer_hello.
  - by apply safe_handle_peer_ss.
  - by apply safe_handle_encrypted.
Qed.

Definition ctx_safe (x : ctx) : Prop := ctx_wf x /\ safe (core x).

Lemma safe_process_turn x : ctx_safe x -> ctx_safe (process_turn x).1.
Proof.
  intros [Hx Hs]. split; [by apply wf_process_turn |].
  unfold process_turn. destruct (stopped (core x)) eqn:Est; [done |].
  destruct (_ <? 4); [done |].
  destruct (next_frame (core x) (in_buf x)) as [[n body] | rc |].
  - pose proof (safe_handle_frame (core x) body (proj1 Hx) Hs Est) as Hf.
    destruct (handle_frame (core x) body) as [rc c']. by case_match.
  - case_match; [done |]. eapply safe_calm; [apply calm_fail, calm_refl | done].
  - eapply safe_calm; [apply calm_fail, calm_refl | done].
Qed.

Lemma safe_process_loop n x : ctx_safe x -> ctx_safe (process_loop n x).
Proof.
  revert x. induction n as [|n IH]; intros x Hx; simpl; [done |].
  pose proof (safe_process_turn x Hx). destruct (process_turn x) as [x' []]; simpl in *; auto.
Qed.

Lemma safe_feed x data : ctx_safe x -> safe (core (sodchan_feed_input x data).2).
Proof.
  intros [Hx Hs]. pose proof (proj2 Hx) as Hb. unfold sodchan_feed_input. destruct data as [data|]; [|done].
  destruct (_ =? 0); [done |]. destruct (stopped _); [done |].
  destruct (_ <? len data) eqn:E; cbv zeta; (case_match; [done |]); cbn [snd];
    apply safe_process_loop; (split; [|done]); apply append_in_wf; try done;
    rewrite ?length_take; lia.
Qed.

(** The host's decision on a device. *)
Lemma safe_auth_decide c accept claims n :
  session_wf c -> safe c -> safe (sodchan_auth_decide_ex c accept claims n).2.
Proof.
  intros Hwf Hs. unfold sodchan_auth_decide_ex.
  case_bool_decide as Hr; [|done]. cbn [negb].
  destruct (negb (auth_awaiting_decide c) || auth_decided c) eqn:Ef; [done |].
  case_bool_decide as Hst; [|done]. cbn [negb]. do 2 (case_match; [done |]). cbv zeta.
  apply orb_false_iff in Ef as [Ha Hd]. apply negb_false_iff in Ha.
  set (c1 := c <| auth_awaiting_decide := _ |> <| auth_decided := _ |>).
  assert (safe c1) as Hs1.
  { destruct Hs. destruct sf_device0 as [Hh Hv]; [by left |].
    constructor; simpl; try done.
    intros Hc0. apply sf_flags0 in Hc0 as []. congruence. }
  destruct accept.
  - pose proof (calm_auth_ok_send c1 c1 claims n (calm_refl c1)) as Hc.
    destruct (server_send_auth_ok c1 claims n) as [rc c2]. cbn [snd] in Hc.
    case_match; [eapply safe_calm; [by apply calm_set_error_call | done] |].
    cbn [snd]. pose proof (safe_calm _ _ Hc Hs1) as Hs2. pose proof Hs2 as [].
    destruct Hs as [_ _ _ _ _ _ _ sf_dev _ _ _ _ _].
    assert (hs c2 = SODCHAN_HS_DONE) as Hh
      by (rewrite (calm_hs _ _ Hc); apply sf_dev; by left).
    constructor; simpl; try done.
    + right. simpl. rewrite Hh. right. by left.
    + intros _. split; [done |]. intros _. by rewrite (calm_decided _ _ Hc).
  - pose proof (calm_auth_fail_send c1 c1 (calm_refl c1)) as Hc.
    destruct (server_send_auth_fail c1) as [rc c2]. cbn [snd] in Hc.
    case_match; (eapply safe_calm; [|exact Hs1]); cbn [snd];
      eauto using calm_set_error_call, calm_emit_failed.
Qed.

(** *** The start of a handshake *)

(** A session about to start: nothing authenticated. *)
Record unstarted (c : session) : Prop := {
  us_role : role c = r0;
  us_cfg : cfg c = s0;
  us_pin : r0 = SODCHAN_ROLE_SERVER \/ accept_any_server_pk s0 = false -> server_id_pk c = pk0;
  us_flags : auth_awaiting_decide c = false /\ auth_decided c = false /\ auth_complete c = false
}.

Lemma handshake_start_early c :
  unstarted c -> (handshake_start c).1 = SODCHAN_OK ->
  early (handshake_start c).2 /\ state (handshake_start c).2 = SODCHAN_STATE_HELLO.
Proof.
  intros []. unfold handshake_start.
  destruct (crypto_kx_keypair (rng c)) as [[[pk sk]|] e]; [|done]. cbv zeta.
  set (c1 := c <| rng := e |> <| eph_pk := pk |> <| eph_sk := sk |>).
  change (role c1) with (role c). destruct (role c) eqn:Er.
  - intros _. split; [|done]. constructor; simpl; try done; congruence.
  - assert (calm c1 (queue_local_hello c1).2) as [].
    { unfold queue_local_hello. change (role c1) with (role c). rewrite Er.
      apply calm_send_hello, calm_refl. }
    destruct (queue_local_hello c1) as [rc c2]. cbn [snd] in *.
    destruct (negb _) eqn:Erc; [done |]. intros _. split; [|done].
    subst c1. simpl in *. constructor; simpl; try congruence; try done.
    intros Hp. rewrite calm_server_pk. by apply us_pin0.
Qed.

Lemma safe_handshake_start c :
  unstarted c -> (handshake_start c).1 = SODCHAN_OK -> safe (handshake_start c).2.
Proof.
  intros Hu Hok. destruct (handshake_start_early c Hu Hok) as [He Hs].
  apply early_safe; [done | by left].
Qed.

(** The start only fails when libsodium makes no key pair. *)
Lemma handshake_start_ok c :
  session_wf c -> unread (out c) = [] -> (exists kp, (crypto_kx_keypair (rng c)).1 = Some kp) ->
  (handshake_start c).1 = SODCHAN_OK.
Proof.
  intros Hc Ho [[pk sk] Hk]. unfold handshake_start.
  destruct (crypto_kx_keypair (rng c)) as [k e] eqn:E. simpl in Hk. subst k.
  assert (kx_pair pk sk) as Hp by (by exists (rng c), e).
  apply kx_length in Hp as [Hpk _]. cbv zeta. simpl.
  destruct (role c) eqn:Er; [done |]. unfold queue_local_hello. simpl. rewrite Er.
  unfold send_hello. pose proof (wf_cfg c Hc) as []. pose proof Hc as [].
  rewrite hello_encode_ok; [| done | by case_match | done | done]. cbn [res_bind].
  match goal with |- context [hello_bytes ?h] => set (hb := hello_bytes h);
    assert (length hb = 140%nat) as Hl by (apply length_hello_bytes; try done; by case_match) end.
  clearbody hb. rewrite rd_head by (rewrite ?Hl; done). cbn [out].
  rewrite out_append_frame_spec by (consts; lia).
  match goal with |- context [out_append ?b _] => change b with (out c) end.
  rewrite out_append_spec by done. rewrite Ho. rewrite length_frame_bytes, Hl.
  reflexivity.
Qed.
End Safe.

(** ** One call *)

Section Stopped.
Context `{Sodium}.

Lemma stopped_not_live c :
  stopped c = true ->
  bool_decide (state c = SODCHAN_STATE_READY) = false /\
  bool_decide (state c = SODCHAN_STATE_DRAINING) = false /\
  bool_decide (state c = SODCHAN_STATE_AUTH) = false.
Proof.
  intros [Hs | Hs]%stopped_iff; rewrite !bool_decide_eq_false, Hs; done.
Qed.
End Stopped.

Section Step.
Context `{Sodium} `{SizeT} {SP : SodiumSpec _}.
Variables (r0 : sodchan_role_t) (s0 : settings) (pk0 : bytes).
Notation safe := (safe r0 s0 pk0).
Notation ctx_safe := (ctx_safe r0 s0 pk0).

(** What every frame and a parse error respect, a feed respects. *)
Lemma process_loop_rel (R : session -> session -> Prop) `{!PreOrder R} :
  (forall c, R c (fail c SODCHAN_ERR_PROTOCOL (lit "frame parse error")).2) ->
  (forall c b, session_wf c -> safe c -> stopped c = false -> R c (handle_frame c b).2) ->
  forall n x, ctx_safe x -> R (core x) (core (process_loop n x)).
Proof.
  intros Hfail Hframe n. induction n as [|n IH]; intros x Hx; simpl; [reflexivity |].
  pose proof (safe_process_turn _ _ _ x Hx) as Hs.
  assert (R (core x) (core (process_turn x).1)) as Ht.
  { unfold process_turn. destruct (stopped (core x)) eqn:Est; [reflexivity |].
    destruct (_ <? 4); [reflexivity |].
    destruct (next_frame _ _) as [[m body] | rc |];
      [| case_match; [reflexivity | apply Hfail] | apply Hfail].
    pose proof (Hframe (core x) body (proj1 (proj1 Hx)) (proj2 Hx) Est) as Hf.
    destruct (handle_frame (core x) body) as [rc c']. by case_match. }
  destruct (process_turn x) as [x' []]; simpl in *; [|done].
  etransitivity; [exact Ht | by apply IH].
Qed.

Lemma feed_rel (R : session -> session -> Prop) `{!PreOrder R} x data :
  (forall c, R c (fail c SODCHAN_ERR_PROTOCOL (lit "frame parse error")).2) ->
  (forall c b, session_wf c -> safe c -> stopped c = false -> R c (handle_frame c b).2) ->
  ctx_safe x -> R (core x) (core (sodchan_feed_input x data).2).
Proof.
  intros Hfail Hframe Hx. pose proof (feed_cases x data) as Hf.
  destruct (sodchan_feed_input x data) as [n x']. cbn [snd] in *.
  destruct Hf as [-> | (more & Hm & ->)]; [reflexivity |].
  refine (process_loop_rel R Hfail Hframe _ (append_in x more) _).
  pose proof (proj2 (proj1 Hx)). split; [apply append_in_wf; [apply Hx | lia] | apply Hx].
Qed.

(** Once decided, the AUTH handlers refuse and the rest is calm. *)
Lemma decided_auth_device c c' p :
  calm c c' -> auth_decided c' = true -> calm c (handle_auth_device_pdu c' p).2.
Proof.
  intros Hc Hd. unfold handle_auth_device_pdu. rewrite Hd, orb_true_r.
  case_match; eauto with sodchan.
Qed.

Lemma server_auth_ok c c' p :
  calm c c' -> role c' = SODCHAN_ROLE_SERVER -> calm c (handle_auth_ok_pdu c' p).2.
Proof.
  intros Hc Hr. unfold handle_auth_ok_pdu. rewrite Hr. simpl negb. eauto with sodchan.
Qed.

Lemma calm_dispatch c c' t p :
  calm c c' -> auth_decided c' = true -> role c' = SODCHAN_ROLE_SERVER ->
  calm c (dispatch_pdu c' t p).2.
Proof.
  intros Hc Hd Hr. unfold dispatch_pdu.
  repeat case_match; eauto using decided_auth_device, server_auth_ok with sodchan.
  all: etransitivity; [exact Hc | eauto with sodchan].
Qed.

Lemma decided_frame_calm c b :
  safe c -> auth_decided c = true -> calm c (handle_frame c b).2.
Proof.
  intros [] Hd. destruct sf_device0 as [Hh _]; [by right |]. unfold handle_frame. rewrite Hh.
  assert (role c = SODCHAN_ROLE_SERVER) as Hr.
  { rewrite sf_role0. destruct r0; [done |]. destruct sf_flags0 as [_ ?]; [done |]. congruence. }
  unfold handle_encrypted_pdu. do 11 (try calm_step); try calm_solve.
  apply calm_dispatch; [calm_solve | done | done].
Qed.

Definition keeps_decision (c c' : session) : Prop :=
  auth_decided c = true -> auth_decided c' = true.

#[local] Instance keeps_decision_preorder : PreOrder keeps_decision.
Proof. split; unfold keeps_decision; [intros ? | intros ???]; tauto. Qed.

Lemma decided_api x op :
  ctx_safe x -> op <> Call_reset -> auth_decided (core x) = true ->
  auth_decided (core (api_ctx x op).2) = true.
Proof.
  intros Hx Hop Hd.
  assert (forall c', calm (core x) c' -> auth_decided c' = true) as Hcalm
    by (intros c' Hc; by rewrite (calm_decided _ _ Hc)).
  destruct op; cbn [api_ctx]; unfold on_core; cbn [snd core];
    try (apply Hcalm; solve [eauto with sodchan]); [done | |].
  - cut (keeps_decision (core x) (core (sodchan_feed_input x data).2)).
    { intros Hk. destruct (sodchan_feed_input x data). by apply Hk. }
    apply (feed_rel keeps_decision); [intros c Hc; exact Hc | | done]. intros c b _ Hs _ Hc.
    by rewrite (calm_decided _ _ (decided_frame_calm c b Hs Hc)).
  - unfold sodchan_auth_decide_ex. rewrite Hd, orb_true_r. by case_match.
Qed.

(** *** How a server becomes READY *)

Lemma calm_ready c c' : calm c c' -> state c' = SODCHAN_STATE_READY -> state c = SODCHAN_STATE_READY.
Proof. intros [[<- | [Hs | [Hs | [Hs _]]]]] ?; congruence. Qed.

(** [r] does not enter READY. *)
Definition stays (c : session) (r : Z * session) : Prop :=
  state r.2 = SODCHAN_STATE_READY -> state c = SODCHAN_STATE_READY.

Lemma stays_calm c r : calm c r.2 -> stays c r.
Proof. intros Hc. exact (calm_ready _ _ Hc). Qed.

Lemma stays_auth_device c c' p :
  calm c c' -> stays c (handle_auth_device_pdu c' p).
Proof.
  intros Hc. unfold handle_auth_device_pdu.
  repeat (case_match; try (intros Hs; discriminate Hs)).
  all: intros Hs; exact (calm_ready _ _ Hc Hs).
Qed.

Lemma stays_handshake c b :
  role c = SODCHAN_ROLE_SERVER -> hs c <> SODCHAN_HS_DONE -> stays c (handle_frame c b).
Proof.
  intros Hr Hh. unfold handle_frame.
  destruct (hs c); [intros Hs; discriminate Hs | | | done].
  - unfold handle_peer_hello, server_peer_hello. rewrite Hr.
    repeat (case_match; try (intros Hs; discriminate Hs)).
  - unfold handle_peer_ss_header. rewrite Hr.
    repeat (case_match; try (intros Hs; discriminate Hs)).
Qed.

Lemma stays_encrypted c b : role c = SODCHAN_ROLE_SERVER -> stays c (handle_encrypted_pdu c b).
Proof.
  intros Hr. unfold handle_encrypted_pdu.
  do 3 (case_match; [intros Hs; discriminate Hs |]).
  destruct (crypto_secretstream_pull _ _) as [[[st plain] tag]|]; [|intros Hs; discriminate Hs].
  cbv zeta. assert (calm c (c <| ss_pull := st |>)) as Hc by eauto with sodchan.
  case_match; [intros Hs; discriminate Hs |].
  do 2 (case_match; [by apply stays_calm |]).
  destruct (sodchan_wire_pdu_type _) as [t | |]; [| intros Hs; discriminate Hs..].
  unfold dispatch_pdu. repeat case_match;
    try (intros Hs; discriminate Hs); try (by apply stays_auth_device);
    apply stays_calm; try (apply server_auth_ok; done);
    (etransitivity; [exact Hc | eauto with sodchan]).
Qed.

Lemma stays_frame c b : role c = SODCHAN_ROLE_SERVER -> stays c (handle_frame c b).
Proof.
  intros Hr. destruct (decide (hs c = SODCHAN_HS_DONE)) as [Hh | Hh].
  - unfold handle_frame. rewrite Hh. by apply stays_encrypted.
  - by apply stays_handshake.
Qed.

Definition not_made_ready (c c' : session) : Prop :=
  state c' = SODCHAN_STATE_READY -> state c = SODCHAN_STATE_READY.

#[local] Instance not_made_ready_preorder : PreOrder not_made_ready.
Proof. split; unfold not_made_ready; [intros ? | intros ???]; tauto. Qed.

(** Only the host's acceptance makes a server READY. *)
Lemma ready_step x op :
  r0 = SODCHAN_ROLE_SERVER -> ctx_safe x -> call_ok op ->
  state (core x) <> SODCHAN_STATE_READY ->
  state (core (api_ctx x op).2) = SODCHAN_STATE_READY ->
  (exists claims n, op = Call_auth_decide_ex true claims n) /\
  auth_awaiting_decide (core x) = true /\ state (core x) = SODCHAN_STATE_AUTH.
Proof.
  intros Hr Hx Hop Hn Hrd.
  assert (forall c', calm (core x) c' -> state c' = SODCHAN_STATE_READY -> False) as Hcalm
    by (intros c' Hc Hs; by apply Hn, (calm_ready _ c')).
  destruct op; cbn [api_ctx] in Hrd; unfold on_core in Hrd; cbn [snd core] in Hrd;
    try (exfalso; eapply Hcalm; [|exact Hrd]; solve [eauto with sodchan]).
  - exfalso. revert Hrd. unfold sodchan_reset, handshake_start. cbn [core].
    match goal with |- context [crypto_kx_keypair ?e] => destruct (crypto_kx_keypair e) as [[[pk sk]|] e'] end;
      [|done].
    cbv zeta. simpl role. rewrite (sf_role _ _ _ _ (proj2 Hx)), Hr. done.
  - exfalso. apply Hn. cut (not_made_ready (core x) (core (sodchan_feed_input x data).2)).
    { intros Hk. destruct (sodchan_feed_input x data). by apply Hk. }
    apply (feed_rel not_made_ready); [intros c Hc; discriminate Hc | | done]. intros c b _ Hs _.
    apply stays_frame. by rewrite (sf_role _ _ _ _ Hs).
  - revert Hrd. unfold sodchan_auth_decide_ex. case_bool_decide; [|done]. cbn [negb].
    destruct (negb (auth_awaiting_decide _) || _) eqn:Ea; [done |].
    apply orb_false_iff in Ea as [Ea%negb_false_iff _].
    case_bool_decide as Hst; [|done]. cbn [negb]. do 2 (case_match; [done |]).
    intros Hrd. split; [|done]. destruct accept; [by eexists _, _ |].
    exfalso. revert Hrd. cbv zeta. destruct (server_send_auth_fail _) as [rc c']. by case_match.
Qed.

(** *** Waiting for input *)

Lemma quiet_core x c' :
  quiet x -> hs c' = hs (core x) -> cfg c' = cfg (core x) ->
  (stopped (core x) = true -> stopped c' = true) -> quiet (mk_ctx c' (in_buf x)).
Proof.
  intros [Hs | Hf] Hh Hc Hst; [left; by apply Hst |]. right. simpl. rewrite <- Hf.
  unfold next_frame, ss_frame_max_body. by rewrite Hh, Hc.
Qed.

Lemma quiet_calm x c' : quiet x -> calm (core x) c' -> quiet (mk_ctx c' (in_buf x)).
Proof.
  intros Hq Hc. apply quiet_core; [done | apply Hc | apply Hc | by apply calm_stopped].
Qed.

Lemma quiet_api x op : ctx_wf x -> quiet x -> quiet (api_ctx x op).2.
Proof.
  intros Hx Hq. destruct op; cbn [api_ctx]; unfold on_core; cbn [snd];
    try (apply quiet_calm; [done | solve [eauto with sodchan]]).
  - right. simpl. apply short_frame. simpl. lia.
  - pose proof (feed_cases x data) as Hf.
    destruct (sodchan_feed_input x data) as [n x']. cbn [snd] in *.
    destruct Hf as [-> | (more & Hm & ->)]; [done |]. apply process_input_quiet.
    destruct Hx as [Hc Hb]. apply append_in_wf; [done | lia].
  - unfold sodchan_auth_decide_ex.
    destruct (negb (bool_decide (role _ = _))); [by destruct x |].
    destruct (negb _ || _); [by destruct x |].
    case_bool_decide as Hst; [|by destruct x]. cbn [negb].
    do 2 (case_match; [by destruct x |]). cbv zeta.
    set (c1 := (core x) <| auth_awaiting_decide := _ |> <| auth_decided := _ |>).
    destruct accept.
    + pose proof (calm_auth_ok_send c1 c1 claims claims_len (calm_refl c1)) as Hc.
      destruct (server_send_auth_ok c1 claims claims_len) as [rc c2]. cbn [snd] in Hc.
      apply quiet_core; [done | | | unfold stopped at 1; by rewrite Hst];
        case_match; simpl; apply Hc.
    + pose proof (calm_auth_fail_send c1 c1 (calm_refl c1)) as Hc.
      destruct (server_send_auth_fail c1) as [rc c2]. cbn [snd] in Hc.
      apply quiet_core; [done | | | unfold stopped at 1; by rewrite Hst];
        case_match; simpl; apply Hc.
Qed.
End Step.

(** ** Every reachable context *)

Section Reach.
Context `{Sodium} `{SizeT} {SP : SodiumSpec _}.

(** libsodium's [crypto_kx_keypair] always makes a key pair, as documented.  The
    theorems on authentication and on the order of states assume it: a reset
    whose [handshake_start] fails keeps the state of the old session. *)
Definition kx_total : Prop := forall e, exists kp, (crypto_kx_keypair e).1 = Some kp.

Context (KX : kx_total).
Variables (r0 : sodchan_role_t) (s0 : settings) (pk0 : bytes).

Lemma safe_reset x : ctx_safe r0 s0 pk0 x -> ctx_safe r0 s0 pk0 (sodchan_reset x).
Proof.
  intros [Hx Hs]. split; [by apply wf_reset |]. unfold sodchan_reset. cbv zeta. cbn [core].
  match goal with |- context [handshake_start ?c] => set (c1 := c) end.
  assert (unstarted r0 s0 pk0 c1) as Hu by (destruct Hs; by constructor).
  apply safe_handshake_start; [done |].
  assert (session_wf c1) as Hw.
  { destruct Hx as [Hc _]. destruct Hc. subst c1. constructor; simpl; try done;
      auto using table_empty_wf, outbuf_empty_wf.
    - destruct wf_evq. auto using evqueue_new_wf.
    - destruct wf_cfg. lia. }
  apply handshake_start_ok; [done | done | apply KX].
Qed.

Lemma safe_api x op : call_ok op -> ctx_safe r0 s0 pk0 x -> ctx_safe r0 s0 pk0 (api_ctx x op).2.
Proof.
  intros Hop Hx. split; [apply wf_api; [done | apply Hx] |].
  assert (forall c', calm (core x) c' -> safe r0 s0 pk0 c') as Hcalm
    by (intros; by eapply safe_calm, Hx).
  destruct op; cbn [api_ctx]; unfold on_core; cbn [snd core];
    try (apply Hcalm; solve [eauto with sodchan]).
  - by apply safe_reset.
  - pose proof (safe_feed _ _ _ x data Hx) as Hf. by destruct (sodchan_feed_input x data).
  - apply safe_auth_decide; apply Hx.
Qed.
End Reach.

Section Reachable.
Context `{Sodium} `{SizeT} {SP : SodiumSpec _}.

Lemma quiet_create lab m1 m2 r cfg e x :
  sodchan_create lab m1 m2 r cfg e = Some x -> in_buf x = [].
Proof.
  unfold sodchan_create. destruct (role_of r); [|done]. cbv zeta.
  do 4 (lazymatch goal with |- (if ?b then None else _) = _ -> _ => destruct b; [done |] end).
  destruct (apply_config_defaults _) as [st [spk have]]. case_match; [done |].
  destruct (handshake_start _) as [rc c]. case_match; [done |]. by intros [= <-].
Qed.

Lemma reachable_quiet r cfg x : reachable r cfg x -> quiet x.
Proof.
  induction 1 as [lab m1 m2 e x Hcfg Hx | x op Hx IH Hop | x e Hx IH]; [| |done].
  - right. apply short_frame. apply quiet_create in Hx as ->. simpl. lia.
  - apply quiet_api; [by eapply reachable_wf | done].
Qed.

Lemma safe_create lab m1 m2 r cfg e x :
  config_wf cfg -> sodchan_create lab m1 m2 r (Some cfg) e = Some x ->
  exists r0, role_of r = Some r0 /\
    ctx_safe r0 (apply_config_defaults cfg).1 (apply_config_defaults cfg).2.1 x.
Proof.
  intros Hcfg Hx. pose proof (wf_create lab m1 m2 r (Some cfg) e x Hcfg Hx) as Hw. revert Hx.
  unfold sodchan_create. destruct (role_of r) as [ro|]; [|done]. cbv zeta.
  change (default config_zero (Some cfg)) with cfg.
  do 4 (lazymatch goal with |- (if ?b then None else _) = _ -> _ => destruct b; [done |] end).
  destruct (apply_config_defaults cfg) as [st [spk have]]. destruct m2; [|done]. cbn [negb].
  match goal with |- context [handshake_start ?c] => set (z := c) end.
  pose proof (safe_handshake_start ro st spk z) as Hs.
  destruct (handshake_start z) as [rc c]. case_match; [done |]. intros [= <-].
  exists ro. split; [done |]. split; [done |]. apply Hs; [by constructor | simpl; lia].
Qed.

Lemma reachable_safe r cfg x :
  kx_total -> reachable r cfg x ->
  exists r0, role_of r = Some r0 /\
    ctx_safe r0 (apply_config_defaults cfg).1 (apply_config_defaults cfg).2.1 x.
Proof.
  intros KX. induction 1 as [lab m1 m2 e x Hcfg Hx | x op Hx IH Hop | x e Hx IH].
  - by eapply safe_create.
  - destruct IH as (r0 & Hr & Hs). exists r0. split; [done |]. by apply safe_api.
  - destruct IH as (r0 & Hr & [Hw Hs]). exists r0. split; [done |].
    split; [split; [apply wf_set_rng, Hw | apply Hw] |]. destruct Hs. by constructor.
Qed.
(** The device's signature, with the transcript written out. *)
Definition device_authenticated (cfg : sodchan_config_t) (c : session) : Prop :=
  exists sig user dev,
    len user <= SODCHAN_USER_MAX /\ len dev <= SODCHAN_DEVICE_ID_MAX /\
    crypto_sign_verify_detached sig
      (t_auth_bytes
         (t_hello_bytes SODCHAN_PROTO_VERSION SODCHAN_SUITE_V1 (peer_eph_pk c) (eph_pk c)
            (apply_config_defaults cfg).2.1)
         (peer_id_pk c) user dev)
      (peer_id_pk c) = 0.

Lemma safe_device_authenticated s0 cfg c :
  safe SODCHAN_ROLE_SERVER s0 (apply_config_defaults cfg).2.1 c ->
  auth_awaiting_decide c = true \/ auth_decided c = true -> device_authenticated cfg c.
Proof.
  intros [] Hf. destruct sf_device0 as [Hh [_ Hd]]; [done |].
  destruct sf_server0 as [_ Ht]; [done | by right |]. unfold device_authenticated.
  by rewrite <- Ht.
Qed.

Lemma reachable_role r cfg x r0 :
  kx_total -> reachable r cfg x -> role (core x) = r0 ->
  ctx_safe r0 (apply_config_defaults cfg).1 (apply_config_defaults cfg).2.1 x.
Proof.
  intros KX Hx Hr. destruct (reachable_safe r cfg x KX Hx) as (r1 & _ & Hs).
  by replace r0 with r1 by (rewrite <- Hr; symmetry; apply (sf_role _ _ _ _ (proj2 Hs))).
Qed.

Lemma decided_run r cfg x ops :
  kx_total -> reachable r cfg x -> auth_decided (core x) = true ->
  Forall (fun op => call_ok op /\ op <> Call_reset) ops ->
  auth_decided (core (run x ops)) = true.
Proof.
  intros KX. revert x. induction ops as [|op ops IH]; intros x Hx Hd Hops; [done |].
  apply Forall_cons_iff in Hops as [[Hop Hne] Hops]. simpl.
  destruct (reachable_safe r cfg x KX Hx) as (r0 & _ & Hs).
  apply IH; [by apply reach_call | by eapply decided_api | done].
Qed.
Lemma accept_any_settings cfg :
  cfg_accept_any_server_pk cfg = false ->
  accept_any_server_pk (apply_config_defaults cfg).1 = false.
Proof. intros Ha. unfold apply_config_defaults. by repeat case_match. Qed.

Lemma configured_server_pk cfg k :
  cfg_server_id_pk cfg = Some k -> length k = 32%nat ->
  (apply_config_defaults cfg).2.1 = k.
Proof.
  intros Hk Hl. unfold apply_config_defaults. rewrite Hk. simpl.
  repeat case_match; simpl; by rewrite take_ge by lia.
Qed.
(** The end of [sodchan_create], past its guards. *)
Lemma create_start r0 cfg e :
  config_wf cfg ->
  let '(s, (server_pk, have_server_pk)) := apply_config_defaults cfg in
  let cap := if event_queue_size s =? 0 then SODCHAN_DEFAULT_EVENT_QUEUE else event_queue_size s in
  ((handshake_start (session_zero r0 s server_pk have_server_pk cap e)).1 =? SODCHAN_OK) =
    isSome (crypto_kx_keypair e).1.
Proof.
  intros Hcfg. destruct (apply_config_wf cfg Hcfg) as [Hs Hk].
  destruct (apply_config_defaults cfg) as [s [spk have]]. simpl in Hs, Hk. cbv zeta.
  set (z := session_zero _ _ _ _ _ _).
  destruct (crypto_kx_keypair e) as [[kp|] e'] eqn:E.
  - rewrite (handshake_start_ok z); [done | | done |].
    + apply wf_session_zero; [done | done |]. destruct Hs. by replace (event_queue_size s =? 0) with false by lia.
    + exists kp. change (rng z) with e. by rewrite E.
  - unfold handshake_start. change (rng z) with e. by rewrite E.
Qed.

Lemma create_tail r0 m2 cfg e :
  config_wf cfg ->
  isSome (let '(s, (server_pk, have_server_pk)) := apply_config_defaults cfg in
          if negb m2 then None else
          let '(rc, c) :=
            handshake_start (session_zero r0 s server_pk have_server_pk
              (if event_queue_size s =? 0 then SODCHAN_DEFAULT_EVENT_QUEUE else event_queue_size s) e) in
          if negb (rc =? SODCHAN_OK) then None else Some (mk_ctx c [])) =
  m2 && isSome (crypto_kx_keypair e).1.
Proof.
  intros Hcfg. pose proof (create_start r0 cfg e Hcfg) as Hs.
  destruct (apply_config_defaults cfg) as [s [spk have]]. destruct m2; [|done]. cbn [negb andb].
  cbv zeta in Hs. destruct (handshake_start _) as [rc c]. simpl in Hs. rewrite <- Hs.
  by destruct (rc =? SODCHAN_OK).
Qed.

(** What [sodchan_create] tests, in one condition. *)
Lemma create_guards lab m1 m2 r cfg e :
  config_wf cfg ->
  isSome (sodchan_create lab m1 m2 r (Some cfg) e) =
    match role_of r with
    | None => false
    | Some SODCHAN_ROLE_SERVER => isSome (cfg_server_id_pk cfg) && isSome (cfg_server_id_sk cfg)
    | Some SODCHAN_ROLE_CLIENT => cfg_accept_any_server_pk cfg || isSome (cfg_server_id_pk cfg)
    end && (lab || negb (cfg_lab_mode cfg)) && (0 <=? sodium_init) && m1 && m2 &&
    isSome (crypto_kx_keypair e).1.
Proof.
  intros Hcfg. unfold sodchan_create, sodchan_crypto_init.
  change (default config_zero (Some cfg)) with cfg.
  destruct (role_of r) as [ro|]; [|done]. cbv zeta.
  destruct lab, (cfg_lab_mode cfg); cbn [negb andb orb]; try (by rewrite !andb_false_r);
    (destruct ro; [destruct (cfg_server_id_pk cfg), (cfg_server_id_sk cfg) |
      destruct (cfg_accept_any_server_pk cfg), (cfg_server_id_pk cfg)]);
    cbn [isSome negb andb orb]; try done;
    destruct (sodium_init <? 0) eqn:E; cbn [negb];
    try (replace (0 <=? sodium_init) with false by lia; done);
    replace (0 <=? sodium_init) with true by lia;
    (destruct m1; [|done]); exact (create_tail _ m2 cfg e Hcfg).
Qed.
Lemma create_hello lab m1 m2 r cfg e x :
  config_wf cfg -> sodchan_create lab m1 m2 r (Some cfg) e = Some x ->
  state (core x) = SODCHAN_STATE_HELLO /\ hs (core x) = SODCHAN_HS_WAIT_PEER_HELLO.
Proof.
  intros Hcfg. unfold sodchan_create. destruct (role_of r) as [ro|]; [|done]. cbv zeta.
  change (default config_zero (Some cfg)) with cfg.
  do 4 (lazymatch goal with |- (if ?b then None else _) = _ -> _ => destruct b; [done |] end).
  destruct (apply_config_defaults cfg) as [st [spk have]]. destruct m2; [|done]. cbn [negb].
  match goal with |- context [handshake_start ?c] => set (z := c) end.
  pose proof (handshake_start_early ro st spk z) as Hs.
  destruct (handshake_start z) as [rc c]. case_match; [done |]. intros [= <-].
  destruct Hs as [He Hst]; [by constructor | simpl; lia |]. split; [done | apply He].
Qed.

(** The refusal a server sends. *)
Lemma auth_fail_sent c c' rc :
  out_wf (out c) -> server_send_auth_fail c = (rc, c') ->
  (rc <> SODCHAN_OK /\ unsent c c') \/
  (rc = SODCHAN_OK /\ sent c [byte.of_Z SODCHAN_PDU_AUTH_FAIL; Byte.x00; Byte.x00] c').
Proof.
  intros Ho. unfold server_send_auth_fail. rewrite auth_fail_encode_ok by (vm_compute; done).
  unfold send_encoded. intros Hs. eapply ss_send_bytes in Hs; [| done | done]. tauto.
Qed.
End Reachable.
