(* ===== verification/EventTypes.v ===== *)
(** The events fit the structure the host reads them from: every string and
    block an event carries is within the array of [sodchan_event_t] it is copied
    to, and every integer within its type, whatever the peer sends.

    [typed] is the invariant; [ty_run] proves that a handler keeps it, as
    [wf_run] does for [session_wf]. *)

From Stdlib Require Import ZArith Lia ZifyBool String.
From S2P Require Import Prelude Defs WireBase WireHello WireAuth WireMux Crypto EventQueue.
From S2P Require Import OutBuf Channels Session Auth Handshake Mux Engine Api Invariant Calm.
From S2P Require Import EngineLemmas Safety.
Local Open Scope Z_scope.
Local Open Scope sodchan_scope.

Definition is_u32 (z : Z) : Prop := 0 <= z < 4294967296.

Definition event_fits (ev : sodchan_event_t) : Prop :=
  match ev with
  | EVENT_HELLO_RECEIVED pk => len pk = SODCHAN_PUBKEY_BYTES
  | EVENT_AUTH_DEVICE pk user dev fp _ =>
      len pk = SODCHAN_PUBKEY_BYTES /\ len user <= SODCHAN_USER_MAX /\
      len dev <= SODCHAN_DEVICE_ID_MAX /\ len fp < SODCHAN_FP_SHA256_MAX
  | EVENT_AUTH_FAILED _ m | EVENT_DISCONNECTED _ m | EVENT_ERROR _ m => len m < SODCHAN_ERROR_MAX
  | EVENT_CHANNEL_OPEN id pid name w p | EVENT_CHANNEL_OPENED id pid name w p =>
      is_u32 id /\ is_u32 pid /\ len name <= SODCHAN_CHANNEL_NAME_MAX /\ is_u32 w /\ is_u32 p
  | EVENT_CHANNEL_OPEN_FAIL id name => is_u32 id /\ len name <= SODCHAN_CHANNEL_NAME_MAX
  | EVENT_CHANNEL_DATA id d => is_u32 id /\ len d <= SODCHAN_DATA_MAX
  | EVENT_CHANNEL_WINDOW id a w => is_u32 id /\ is_u32 a /\ is_u32 w
  | EVENT_CHANNEL_EOF id | EVENT_CHANNEL_CLOSE id => is_u32 id
  | EVENT_NONE | EVENT_KX_COMPLETE | EVENT_AUTHENTICATED | EVENT_PING => True
  end.

Definition name_fits (ch : sodchan_channel_t) : Prop := len (ch_name ch) <= SODCHAN_CHANNEL_NAME_MAX.

Lemma snprintf_fits cap s n : 0 < cap -> n = cap -> len (snprintf_s cap s) < n.
Proof. intros Hc ->. unfold snprintf_s. rewrite length_take. lia. Qed.

(** A slot of the ring, when there is one, holds an event that fits. *)
Lemma slot_fits q i : Forall event_fits (events q) -> event_fits (nth i (events q) EVENT_NONE).
Proof.
  intros He. rewrite nth_lookup. destruct (events q !! i) eqn:E; [| exact I].
  by eapply Forall_lookup_1 in He.
Qed.

Lemma pending_fits q : Forall event_fits (events q) -> Forall event_fits (pending q).
Proof. intros He. apply Forall_map, Forall_forall. intros i _. by apply slot_fits. Qed.

Lemma next_event_fits `{Sodium} c b ev :
  Forall event_fits (events (evq c)) -> (sodchan_next_event c b).1 = Some ev -> event_fits ev.
Proof.
  intros He. destruct b; [| done]. unfold sodchan_next_event, next_event. cbn [negb].
  destruct (event_count (evq c) =? 0); [done |]. cbn. intros Hl. by eapply Forall_lookup_1 in Hl.
Qed.

Section Typed.
Context `{Sodium}.

Definition typed (c : session) : Prop :=
  Forall event_fits (events (evq c)) /\ Forall name_fits (channels (chans c)).

Lemma typed_same c c' : evq c' = evq c -> chans c' = chans c -> typed c -> typed c'.
Proof. unfold typed. by intros -> ->. Qed.

Lemma typed_queue c ev : event_fits ev -> typed c -> typed (queue c ev).
Proof.
  intros Hev [He Hn]. split; [| done]. unfold queue, sodchan_i_queue_event. cbn.
  case_match; [done |]. by apply Forall_insert.
Qed.

Lemma typed_name c i : typed c -> name_fits (ch_at (chans c) i).
Proof.
  intros [_ Hn]. unfold ch_at. rewrite nth_lookup.
  destruct (channels (chans c) !! i) eqn:E; [| vm_compute; discriminate].
  by eapply Forall_lookup_1 in Hn.
Qed.

Lemma typed_put c i v : name_fits v -> typed c -> typed (put_ch c i v).
Proof. intros Hv [He Hn]. split; [done |]. by apply Forall_insert. Qed.

Lemma typed_free c i : typed c -> typed (c <| chans := ch_free (chans c) i |>).
Proof.
  intros [He Hn]. split; [done |]. cbn. unfold ch_free. case_bool_decide; [done |].
  apply Forall_insert; [done |]. vm_compute. discriminate.
Qed.

Lemma typed_alloc c m o t : ch_alloc (chans c) m = (o, t) -> typed c -> typed (c <| chans := t |>).
Proof.
  intros Ha [He Hn]. split; [done |]. cbn. unfold ch_alloc in Ha. case_match; [by injection Ha as <- <- |].
  case_match; injection Ha as <- <-; [| done]. apply Forall_insert; [done |]. vm_compute. discriminate.
Qed.

Lemma typed_error c code msg : typed c -> typed (sodchan_i_set_error c code msg).
Proof.
  intros Hc. unfold sodchan_i_set_error. apply typed_queue; [| exact Hc].
  cbn. rewrite length_take. consts. lia.
Qed.

Lemma typed_fail c code msg : typed c -> typed (fail c code msg).2.
Proof. apply typed_error. Qed.

Context `{SizeT}.

Lemma typed_ss_send c plain n : typed c -> typed (ss_send_pdu c plain n).2.
Proof. by destruct (ss_send_only c plain n) as (st & o & ->). Qed.

Lemma typed_send_encoded c e code : typed c -> typed (send_encoded c e code).2.
Proof. by destruct (send_encoded_only c e code) as (st & o & ->). Qed.

Lemma typed_refuse c p r m n : typed c -> typed (refuse_open c p r m n).2.
Proof. apply typed_send_encoded. Qed.

Lemma typed_emit_failed c r m : typed c -> typed (emit_auth_failed c r m).
Proof. apply typed_queue. by apply snprintf_fits. Qed.

Lemma typed_auth_fail c : typed c -> typed (server_send_auth_fail c).2.
Proof. apply typed_send_encoded. Qed.

Lemma typed_auth_ok c k n : typed c -> typed (server_send_auth_ok c k n).2.
Proof. apply typed_send_encoded. Qed.

Lemma typed_kx c : typed c -> typed (emit_kx_complete c).
Proof. by apply typed_queue. Qed.

Lemma typed_authenticated c : typed c -> typed (emit_authenticated c).
Proof. by apply typed_queue. Qed.

Lemma typed_hello c : len (peer_id_pk c) = SODCHAN_PUBKEY_BYTES -> typed c -> typed (emit_hello_received c).
Proof. intros Hl. apply typed_queue. cbn. by case_match. Qed.
End Typed.

Create HintDb typing.
#[export] Hint Resolve typed_queue typed_put typed_free typed_error typed_fail
  typed_ss_send typed_send_encoded typed_refuse typed_emit_failed typed_auth_fail typed_auth_ok
  typed_kx typed_authenticated typed_hello : typing.

(** An update of a field other than the ring and the channels. *)
#[export] Hint Extern 1 (typed (_ _ ?c)) =>
  apply (typed_same c); [reflexivity | reflexivity |] : typing.
#[export] Hint Extern 3 (event_fits _) => exact I : typing.
#[export] Hint Extern 3 (event_fits (EVENT_DISCONNECTED _ [])) => reflexivity : typing.

(** [ty_run]: like [wf_run], for [typed]. *)
Ltac ty_solve := solve [eauto 14 with typing].
Ltac ty_step :=
  cbv beta zeta; cbn [snd];
  lazymatch goal with
  | |- typed (snd (match ?m with (_, _) => _ end)) =>
      lazymatch type of m with
      | (_ * session)%type =>
          let E := fresh "E" in
          destruct m as [? ?] eqn:E;
          lazymatch type of E with
          | _ = (_, ?c') =>
              let Hc := fresh "Hc" in
              assert (typed c') as Hc
                by (replace c' with (snd m) by (rewrite E; reflexivity); ty_solve)
          end
      | _ => destruct m eqn:?
      end
  | |- typed (snd (match ?m with _ => _ end)) => destruct m eqn:?
  | |- typed (snd (if ?b then _ else _)) => destruct b eqn:?
  end.
Ltac ty_run := repeat ty_step; cbn [snd]; try ty_solve.

(** [ty_event]: what an event carries, from the ranges at hand. *)
Ltac ty_event :=
  cbn [event_fits]; unfold is_u32, channel_ranges in *; cbn;
  repeat match goal with
  | |- context [if ?b then _ else _] => destruct b
  | |- context [u32 ?z] => pose proof (u32_range z); generalize dependent (u32 z); intros
  end; split_and?; try lia; try done.

(** ** The handlers *)

Section Handlers.
Context `{Sodium} `{SizeT} {SP : SodiumSpec _}.

Lemma typed_client_auth c : typed c -> typed (client_send_auth_device c).2.
Proof. intros Hc. unfold client_send_auth_device. ty_run. Qed.
Hint Resolve typed_client_auth : typing.

Lemma typed_auth_device c p : typed c -> typed (handle_auth_device_pdu c p).2.
Proof.
  intros Hc. unfold handle_auth_device_pdu. do 3 (ty_step; [ty_solve |]).
  destruct (sodchan_wire_auth_device_decode _ _ _) as [ad| |] eqn:Ead; [| ty_run ..]. cbv zeta.
  ty_step; [| ty_run ..]. ty_step; [ty_run |]. cbn [snd].
  apply auth_device_decode_ok in Ead as (user & dev & Hk & _ & Hu & Hd & Eu & _ & Ev & _).
  match goal with |- typed (_ _ ?c1) => apply (typed_same c1); [done | done |] end.
  apply typed_queue; [| exact Hc]. cbn [event_fits]. unfold snprintf_s. rewrite !length_take, Hk.
  split; [done |]. split; [consts; lia |]. split; [consts; lia |].
  destruct (sodchan_pubkey_fingerprint_sha256 _ _) as [fp| |] eqn:Ef; [| done ..].
  apply fingerprint_string in Ef as (d & Hd' & ->); [| done | done].
  rewrite length_app, (base64_length d (sha256_length _ _ Hd')). done.
Qed.

Lemma typed_auth_ok_pdu c p : typed c -> typed (handle_auth_ok_pdu c p).2.
Proof. intros Hc. unfold handle_auth_ok_pdu. ty_run. Qed.

Lemma typed_auth_fail_pdu c p : typed c -> typed (handle_auth_fail_pdu c p).2.
Proof. intros Hc. unfold handle_auth_fail_pdu. ty_run. Qed.
Hint Resolve typed_auth_device typed_auth_ok_pdu typed_auth_fail_pdu : typing.

Lemma typed_decide c accept claims n : typed c -> typed (sodchan_auth_decide_ex c accept claims n).2.
Proof. intros Hc. unfold sodchan_auth_decide_ex. ty_run. Qed.

Lemma typed_send_hello c h : typed c -> typed (send_hello c h).2.
Proof. intros Hc. unfold send_hello. ty_run. Qed.
Hint Resolve typed_send_hello : typing.

Lemma typed_local_hello c : typed c -> typed (queue_local_hello c).2.
Proof. intros Hc. unfold queue_local_hello. ty_run. Qed.

Lemma typed_derive c a b : typed c -> typed (derive_both c a b).2.
Proof. intros Hc. unfold derive_both. ty_run. Qed.
Hint Resolve typed_local_hello typed_derive : typing.

Lemma typed_derive_client c : typed c -> typed (derive_ss_keys_client c).2.
Proof. intros Hc. unfold derive_ss_keys_client. ty_run. Qed.

Lemma typed_derive_server c : typed c -> typed (derive_ss_keys_server c).2.
Proof. intros Hc. unfold derive_ss_keys_server. ty_run. Qed.

Lemma typed_ss_header_send c key : typed c -> typed (send_ss_header c key).2.
Proof. intros Hc. unfold send_ss_header. ty_run. Qed.
Hint Resolve typed_derive_client typed_derive_server typed_ss_header_send : typing.

Lemma typed_peer_hello c b : session_wf c -> typed c -> typed (handle_peer_hello c b).2.
Proof.
  intros Hw Hc. unfold handle_peer_hello.
  destruct (sodchan_wire_hello_decode (Some b)) as [h| |] eqn:E; [| ty_run ..].
  apply hello_decode_ok in E as [[] _].
  assert (len (h_id_pk h) = SODCHAN_PUBKEY_BYTES) as Hl by (by rewrite hello_wf_id).
  destruct (role c).
  - unfold server_peer_hello. ty_step; [ty_solve |]. cbv zeta.
    match goal with |- context [if sodium_is_zero ?i =? 0 then ?a else ?b] =>
      set (c1 := if sodium_is_zero i =? 0 then a else b) end.
    assert (typed (emit_hello_received c1)) as Hc1.
    { apply typed_hello; [| subst c1; case_match; exact Hc].
      subst c1. case_match; [done |]. cbn. by rewrite (wf_peer_id _ Hw). }
    generalize dependent (emit_hello_received c1). intros c2 Hc2. clear c1. ty_run.
  - unfold client_peer_hello. do 2 (ty_step; [ty_solve |]). cbv zeta.
    match goal with |- context [client_accept_hello ?c0 h] => set (c1 := c0) end.
    assert (typed c1) as Hc1 by (subst c1; case_match; exact Hc). clearbody c1.
    unfold client_accept_hello. cbv zeta. ty_step; [| ty_run ..]. ty_step; [ty_solve |].
    match goal with |- context [emit_hello_received ?c0] =>
      assert (typed (emit_hello_received c0)) as Hc2 by (by apply typed_hello);
      generalize dependent (emit_hello_received c0); intros c2 Hc2 end. ty_run.
Qed.

Lemma typed_peer_ss c b : typed c -> typed (handle_peer_ss_header c b).2.
Proof.
  intros Hc. unfold handle_peer_ss_header, server_send_ss_header_s2c. ty_run.
Qed.

(** *** The channels *)

Lemma typed_open c p : session_wf c -> typed c -> typed (mux_channel_open c p).2.
Proof.
  intros Hw Hc. pose proof (wf_cfg _ Hw) as []. unfold mux_channel_open.
  destruct (sodchan_wire_channel_open_decode _ _) as [m | |] eqn:E; [| ty_run ..].
  apply open_decode_ok in E as (_ & ? & ? & ? & _).
  ty_step; [ty_solve |].
  destruct (ch_alloc _ _) as [o t] eqn:Ha; cbv beta zeta.
  pose proof (typed_alloc _ _ _ _ Ha Hc) as Ht. destruct o as [i|]; [| ty_solve].
  cbn [snd]. pose proof (alloc_slot_ranges c t i Hw Ha) as Hr.
  pose proof (snprintf_fits (SODCHAN_CHANNEL_NAME_MAX + 1) (co_name m) _ ltac:(consts; lia) eq_refl).
  apply typed_queue.
  - change (chans (c <| chans := t |>)) with t in *. ty_event.
  - apply typed_put; [| exact Ht]. unfold name_fits. cbn. lia.
Qed.

Lemma typed_confirm c p : session_wf c -> typed c -> typed (mux_channel_open_confirm c p).2.
Proof.
  intros Hw Hc. pose proof (wf_cfg _ Hw) as []. unfold mux_channel_open_confirm.
  destruct (sodchan_wire_channel_open_confirm_decode _) as [[[[s r] w] k] | |] eqn:E; [| ty_run ..].
  apply confirm_decode_ok in E as (? & ? & ? & ? & _).
  destruct (ch_by_local (chans c) r) as [i|] eqn:Hi; [| ty_run].
  destruct (found_slot c r i Hw Hi) as (_ & _ & ?). pose proof (typed_name c i Hc) as Hn.
  ty_step; [ty_solve |]. cbv zeta. cbn [snd].
  apply typed_queue; [ty_event | by apply typed_put].
Qed.

Lemma typed_open_fail c p : session_wf c -> typed c -> typed (mux_channel_open_fail c p).2.
Proof.
  intros Hw Hc. unfold mux_channel_open_fail.
  destruct (sodchan_wire_channel_open_fail_decode _ _) as [[[[r a] m] k] | |]; [| ty_run ..].
  destruct (ch_by_local (chans c) r) as [i|] eqn:Hi; [| ty_run].
  destruct (found_slot c r i Hw Hi) as (_ & _ & ?). pose proof (typed_name c i Hc) as Hn.
  ty_step; [| ty_solve]. cbn [snd]. apply typed_free, typed_queue; [ty_event | done].
Qed.

Lemma typed_data c p : session_wf c -> typed c -> typed (mux_channel_data c p).2.
Proof.
  intros Hw Hc. unfold mux_channel_data.
  destruct (sodchan_wire_channel_data_decode _) as [[[r d] n] | |] eqn:E; [| ty_run ..].
  apply data_decode_ok in E as (data & ? & -> & ? & -> & _).
  destruct (ch_by_local (chans c) r) as [i|] eqn:Hi; [| ty_run].
  destruct (found_slot c r i Hw Hi) as (_ & _ & ?). pose proof (typed_name c i Hc) as Hn.
  do 3 (ty_step; [ty_solve |]). destruct (SODCHAN_DATA_MAX <? len data) eqn:Em; [ty_solve |].
  cbv zeta. cbn [snd]. apply typed_queue; [| by apply typed_put].
  destruct (0 <? len data); ty_event; cbn; consts; lia.
Qed.

Lemma typed_window c p : session_wf c -> typed c -> typed (mux_channel_window c p).2.
Proof.
  intros Hw Hc. unfold mux_channel_window.
  destruct (sodchan_wire_channel_window_decode _) as [[r add] | |] eqn:E; [| ty_run ..].
  apply window_decode_ok in E as (? & ? & _).
  destruct (ch_by_local (chans c) r) as [i|] eqn:Hi; [| ty_run].
  destruct (found_slot c r i Hw Hi) as (_ & _ & ?). pose proof (typed_name c i Hc) as Hn.
  ty_step; [ty_solve |]. cbv zeta. cbn [snd].
  apply typed_queue; [ty_event | by apply typed_put].
Qed.

Lemma typed_eof c p : session_wf c -> typed c -> typed (mux_channel_eof c p).2.
Proof.
  intros Hw Hc. unfold mux_channel_eof.
  destruct (sodchan_wire_channel_eof_decode _) as [r | |]; [| ty_run ..].
  destruct (ch_by_local (chans c) r) as [i|] eqn:Hi; [| ty_run].
  destruct (found_slot c r i Hw Hi) as (_ & _ & ?). pose proof (typed_name c i Hc) as Hn.
  cbv zeta. cbn [snd]. apply typed_queue; [ty_event | by apply typed_put].
Qed.

Lemma typed_close c p : session_wf c -> typed c -> typed (mux_channel_close c p).2.
Proof.
  intros Hw Hc. unfold mux_channel_close.
  destruct (sodchan_wire_channel_close_decode _) as [r | |]; [| ty_run ..].
  destruct (ch_by_local (chans c) r) as [i|] eqn:Hi; [| ty_run].
  destruct (found_slot c r i Hw Hi) as (_ & _ & ?).
  cbv zeta. cbn [snd]. apply typed_free, typed_queue; [ty_event | done].
Qed.

Lemma typed_ping c p : typed c -> typed (mux_ping c p).2.
Proof. intros Hc. unfold mux_ping. ty_run. Qed.

Lemma typed_disconnect c p : typed c -> typed (mux_disconnect c p).2.
Proof.
  intros Hc. unfold mux_disconnect.
  destruct (sodchan_wire_disconnect_decode _ _) as [[[a m] n] | |]; [| ty_run ..]. cbv zeta. cbn [snd].
  match goal with |- typed (_ _ ?c1) => apply (typed_same c1); [done | done |] end.
  apply typed_queue; [| done]. cbn [event_fits]. case_match; [done |].
  by apply snprintf_fits.
Qed.
Hint Resolve typed_peer_hello typed_peer_ss typed_open typed_confirm typed_open_fail typed_data
  typed_window typed_eof typed_close typed_ping typed_disconnect : typing.

Lemma typed_mux c p : session_wf c -> typed c -> typed (handle_mux_pdu c p).2.
Proof. intros Hw Hc. unfold handle_mux_pdu. ty_run. Qed.
Hint Resolve typed_mux : typing.

Lemma typed_encrypted c ct : session_wf c -> typed c -> typed (handle_encrypted_pdu c ct).2.
Proof.
  intros Hw Hc. unfold handle_encrypted_pdu, dispatch_pdu. do 3 (ty_step; [ty_solve |]).
  destruct (crypto_secretstream_pull _ _) as [[[st p] tag]|]; [| ty_solve]. cbv zeta.
  pose proof (wf_set_ss_pull c st Hw) as Hw1.
  assert (typed (c <| ss_pull := st |>)) as Hc1 by exact Hc.
  generalize dependent (c <| ss_pull := st |>). intros c1 Hw1 Hc1. ty_run.
Qed.
Hint Resolve typed_encrypted : typing.

Lemma typed_frame c b : session_wf c -> typed c -> typed (handle_frame c b).2.
Proof. intros Hw Hc. unfold handle_frame. ty_run. Qed.
End Handlers.

#[export] Hint Resolve typed_decide typed_local_hello typed_frame : typing.

(** ** The calls *)

Section Calls.
Context `{Sodium} `{SizeT} {SP : SodiumSpec _}.

Lemma typed_turn x : ctx_wf x -> typed (core x) -> typed (core (process_turn x).1).
Proof.
  intros [Hw _] Hc. unfold process_turn. destruct (stopped _); [done |].
  destruct (_ <? 4); [done |]. destruct (next_frame _ _) as [[k b]|rc|].
  - pose proof (typed_frame _ b Hw Hc) as Hf. destruct (handle_frame _ b) as [rc c']. by case_match.
  - case_match; [done |]. by apply typed_fail.
  - by apply typed_fail.
Qed.

Lemma typed_loop n x : ctx_wf x -> typed (core x) -> typed (core (process_loop n x)).
Proof.
  revert x. induction n as [|n IH]; intros x Hx Hc; [done |]. cbn [process_loop].
  pose proof (typed_turn x Hx Hc) as Ht. pose proof (wf_process_turn x Hx) as Hw.
  destruct (process_turn x) as [x' []]; [by apply IH | done].
Qed.

Lemma typed_feed x data : ctx_wf x -> typed (core x) -> typed (core (sodchan_feed_input x data).2).
Proof.
  intros Hx Hc. pose proof (feed_cases x data) as Hf.
  destruct (sodchan_feed_input x data) as [n x']. cbn [snd] in *.
  destruct Hf as [-> | (more & Hm & ->)]; [done |]. unfold process_input.
  apply typed_loop; [| done]. apply append_in_wf; [done |]. destruct Hx. lia.
Qed.

Lemma typed_channel_open c name : session_wf c -> typed c -> typed (sodchan_channel_open c name).2.
Proof.
  intros Hw Hc. unfold sodchan_channel_open. do 4 (ty_step; [ty_solve |]).
  destruct (ch_alloc _ _) as [o t] eqn:Ha. cbv zeta.
  pose proof (typed_alloc _ _ _ _ Ha Hc) as Ht. destruct o as [i|]; [| ty_solve].
  pose proof (snprintf_fits (SODCHAN_CHANNEL_NAME_MAX + 1) (default [] name) _ ltac:(consts; lia) eq_refl).
  match goal with |- context [put_ch ?c0 i ?v] => assert (typed (put_ch c0 i v)) as Hp
    by (apply typed_put; [unfold name_fits; cbn; lia | exact Ht]);
    generalize dependent (put_ch c0 i v); intros c1 Hc1 end. ty_run.
Qed.

Lemma typed_accept c id a : session_wf c -> typed c -> typed (sodchan_channel_accept c id a).2.
Proof.
  intros Hw Hc. unfold sodchan_channel_accept. ty_step; [ty_solve |].
  destruct (ch_by_local (chans c) id) as [i|] eqn:Hi; [| ty_solve]. cbv zeta.
  destruct (found_slot c id i Hw Hi) as (_ & _ & Hr). pose proof (typed_name c i Hc) as Hn.
  pose proof (wf_cfg _ Hw) as []. do 2 (ty_step; [ty_solve |]). destruct a; [| ty_run].
  destruct (sodchan_wire_channel_open_confirm_encode _ _ _ _ _) as [[pdu n]| |]; [| ty_solve ..].
  pose proof (typed_ss_send c (Some pdu) n Hc) as Hs.
  destruct (ss_send_only c (Some pdu) n) as (st & o & Eo).
  destruct (ss_send_pdu c (Some pdu) n) as [rc c1]. cbn [snd] in Hs, Eo.
  assert (cfg c1 = cfg c) as Hcfg by (by rewrite Eo). ty_step; [ty_solve |]. cbv zeta. cbn [snd].
  apply typed_queue; [| by apply typed_put].
  change (cfg (put_ch c1 i ?v)) with (cfg c1). rewrite ?Hcfg.
  ty_event.
Qed.

Lemma typed_send mem c id data n : typed c -> typed (sodchan_channel_send mem c id data n).2.
Proof.
  intros Hc. unfold sodchan_channel_send. do 2 (ty_step; [ty_solve |]).
  destruct (open_slot c id) as [i|]; [| ty_solve]. pose proof (typed_name c i Hc) as Hn. ty_run;
  by apply typed_put.
Qed.

Lemma typed_eof_call c id : typed c -> typed (sodchan_channel_eof c id).2.
Proof.
  intros Hc. unfold sodchan_channel_eof. ty_step; [ty_solve |].
  destruct (open_slot c id) as [i|]; [| ty_solve]. pose proof (typed_name c i Hc) as Hn. ty_run;
  by apply typed_put.
Qed.

Lemma typed_close_call c id : typed c -> typed (sodchan_channel_close c id).2.
Proof.
  intros Hc. unfold sodchan_channel_close. ty_step; [ty_solve |].
  destruct (ch_by_local (chans c) id) as [i|]; [| ty_solve]. cbv zeta.
  ty_step; [ty_solve |]. cbn [snd]. apply typed_free. case_match; [| done].
  by apply typed_send_encoded.
Qed.

Lemma typed_adjust c id n : typed c -> typed (sodchan_channel_window_adjust c id n).2.
Proof.
  intros Hc. unfold sodchan_channel_window_adjust. do 2 (ty_step; [ty_solve |]).
  destruct (open_slot c id) as [i|]; [| ty_solve]. pose proof (typed_name c i Hc) as Hn. ty_run;
  by apply typed_put.
Qed.

Lemma typed_disconnect_call c r m : typed c -> typed (sodchan_disconnect c r m).2.
Proof. intros Hc. unfold sodchan_disconnect. ty_run. Qed.

Lemma typed_output c b n : typed c -> typed (sodchan_get_output c b n).2.
Proof. intros Hc. unfold sodchan_get_output. ty_run. Qed.

Lemma typed_next c b : typed c -> typed (sodchan_next_event c b).2.
Proof.
  intros [He Hn]. unfold sodchan_next_event. destruct b; [| done]. cbn [negb].
  unfold next_event. destruct (_ =? 0); done.
Qed.

Lemma typed_handshake_start c : typed c -> typed (handshake_start c).2.
Proof. intros Hc. unfold handshake_start. ty_run. Qed.

Lemma typed_fresh cap : Forall event_fits (events (evqueue_new cap)) /\
  Forall name_fits (channels chtable_empty).
Proof.
  split; [by apply Forall_replicate |]. apply Forall_replicate. vm_compute. discriminate.
Qed.

Lemma typed_api x op : call_ok op -> ctx_wf x -> typed (core x) -> typed (core (api_ctx x op).2).
Proof.
  intros Hop Hx Hc. pose proof Hx as [Hw _]. destruct op; cbn [api_ctx]; unfold on_core; cbn [snd core].
  - unfold sodchan_reset. cbn [core]. apply typed_handshake_start. apply typed_fresh.
  - pose proof (typed_feed x data Hx Hc) as Hf. by destruct (sodchan_feed_input x data).
  - by apply typed_output.
  - by apply typed_next.
  - by apply typed_decide.
  - by apply typed_channel_open.
  - by apply typed_accept.
  - by apply typed_send.
  - by apply typed_eof_call.
  - by apply typed_close_call.
  - by apply typed_adjust.
  - by apply typed_disconnect_call.
Qed.

Lemma typed_create lab m1 m2 r cfg e x : sodchan_create lab m1 m2 r cfg e = Some x -> typed (core x).
Proof.
  unfold sodchan_create. destruct (role_of r) as [ro|]; [|done]. cbv zeta.
  do 4 (lazymatch goal with |- (if ?b then None else _) = _ -> _ => destruct b; [done |] end).
  destruct (apply_config_defaults _) as [st [spk have]]. destruct (negb m2); [done |].
  match goal with |- context [handshake_start ?c] =>
    pose proof (typed_handshake_start c (typed_fresh _)) as Hs;
    destruct (handshake_start c) as [rc c'] end.
  case_match; [done |]. by intros <-%(inj Some).
Qed.

Lemma reachable_typed r cfg x : reachable r cfg x -> typed (core x).
Proof.
  induction 1 as [lab m1 m2 e x Hcfg Hx | x op Hx IH Hop | x e Hx IH]; [| | done].
  - by eapply typed_create.
  - apply typed_api; [done | by eapply reachable_wf | done].
Qed.
End Calls.
