(* ===== verification/Constants.v ===== *)
(** What a context was created with and never changes: its role, its settings,
    the capacity of its ring and, unless it trusts any server, the server's
    key with its flag.  [keeps] relates a session to a later one. *)

From Stdlib Require Import ZArith Lia ZifyBool String.
From S2P Require Import Prelude Defs WireBase WireHello WireAuth WireMux Crypto EventQueue.
From S2P Require Import OutBuf Channels Session Auth Handshake Mux Engine Api Invariant Calm.
From S2P Require Import EngineLemmas Safety.
Local Open Scope Z_scope.
Local Open Scope sodchan_scope.

Section Keeps.
Context `{Sodium}.

(** The server's key is the configured one. *)
Definition pinned (c : session) : bool :=
  match role c with
  | SODCHAN_ROLE_SERVER => true
  | SODCHAN_ROLE_CLIENT => negb (accept_any_server_pk (cfg c))
  end.

Record keeps (c c' : session) : Prop := {
  keeps_role : role c' = role c;
  keeps_cfg : cfg c' = cfg c;
  keeps_cap : event_cap (evq c') = event_cap (evq c);
  keeps_pk : pinned c = true ->
    server_id_pk c' = server_id_pk c /\ have_server_id_pk c' = have_server_id_pk c
}.

#[global] Instance keeps_preorder : PreOrder keeps.
Proof.
  split; [intros c; by constructor |].
  intros c1 c2 c3 [R1 C1 Q1 P1] [R2 C2 Q2 P2]. constructor; try congruence.
  intros Hp. destruct (P1 Hp) as [<- <-]. apply P2. unfold pinned in *. by rewrite R1, C1.
Qed.

Lemma keeps_refl c : keeps c c.
Proof. reflexivity. Qed.

Lemma keeps_same c c1 c2 :
  role c2 = role c1 -> cfg c2 = cfg c1 -> evq c2 = evq c1 ->
  server_id_pk c2 = server_id_pk c1 -> have_server_id_pk c2 = have_server_id_pk c1 ->
  keeps c c1 -> keeps c c2.
Proof. intros ? ? Eq ? ? Hk. etransitivity; [exact Hk |]. constructor; [..| by split]; congruence. Qed.

Lemma keeps_calm c c1 c2 : calm c1 c2 -> keeps c c1 -> keeps c c2.
Proof. intros [] Hk. etransitivity; [exact Hk |]. by constructor. Qed.

Lemma keeps_queue c c' ev : keeps c c' -> keeps c (queue c' ev).
Proof. apply keeps_calm, calm_queue, calm_refl. Qed.

Lemma keeps_hello c c' : keeps c c' -> keeps c (emit_hello_received c').
Proof. apply keeps_queue. Qed.

Lemma keeps_set_error c c' code msg : keeps c c' -> keeps c (sodchan_i_set_error c' code msg).
Proof. apply keeps_calm, calm_set_error_call, calm_refl. Qed.

Lemma keeps_fail c c' code msg : keeps c c' -> keeps c (fail c' code msg).2.
Proof. apply keeps_set_error. Qed.

Context `{SizeT}.

Lemma keeps_send_encoded c c' e code : keeps c c' -> keeps c (send_encoded c' e code).2.
Proof. apply keeps_calm, calm_send_encoded, calm_refl. Qed.

Lemma keeps_client_auth c c' : keeps c c' -> keeps c (client_send_auth_device c').2.
Proof. apply keeps_calm, calm_client_auth_device, calm_refl. Qed.

Lemma keeps_mux c c' p : keeps c c' -> keeps c (handle_mux_pdu c' p).2.
Proof. apply keeps_calm, calm_handle_mux. Qed.

Lemma keeps_derive_client c c' : keeps c c' -> keeps c (derive_ss_keys_client c').2.
Proof. apply keeps_calm, calm_derive_client, calm_refl. Qed.

Lemma keeps_derive_server c c' : keeps c c' -> keeps c (derive_ss_keys_server c').2.
Proof. apply keeps_calm, calm_derive_server, calm_refl. Qed.

Lemma keeps_send_hello c c' h : keeps c c' -> keeps c (send_hello c' h).2.
Proof. apply keeps_calm, calm_send_hello, calm_refl. Qed.

Lemma keeps_header c c' key : keeps c c' -> keeps c (send_ss_header c' key).2.
Proof.
  intros Hk. destruct (send_ss_header_only c' key) as [Hc | Hc];
    (eapply keeps_calm; [exact Hc |]); [done |]. by apply (keeps_same c c').
Qed.
End Keeps.

Create HintDb keeps.
#[export] Hint Resolve keeps_refl keeps_queue keeps_hello keeps_set_error keeps_fail keeps_send_encoded
  keeps_client_auth keeps_mux keeps_derive_client keeps_derive_server keeps_send_hello keeps_header : keeps.

(** An update of a field [keeps] does not speak of. *)
#[export] Hint Extern 1 (keeps ?c (with_field _ _ ?c')) =>
  apply (keeps_same c c'); [reflexivity .. |] : keeps.

(** [keeps_run]: like [wf_run], for [keeps]. *)
Ltac keeps_solve := solve [eauto 14 with keeps].
Ltac keeps_step :=
  cbv beta zeta; cbn [snd];
  lazymatch goal with
  | |- keeps ?c0 (snd (match ?m with (_, _) => _ end)) =>
      lazymatch type of m with
      | (_ * session)%type =>
          let E := fresh "E" in
          destruct m as [? ?] eqn:E;
          lazymatch type of E with
          | _ = (_, ?c') =>
              let Hc := fresh "Hc" in
              assert (keeps c0 c') as Hc
                by (replace c' with (snd m) by (rewrite E; reflexivity); keeps_solve)
          end
      | _ => destruct m eqn:?
      end
  | |- keeps _ (snd (match ?m with _ => _ end)) => destruct m eqn:?
  | |- keeps _ (snd (if ?b then _ else _)) => destruct b eqn:?
  end.
Ltac keeps_run := repeat keeps_step; cbn [snd]; try keeps_solve.

(** ** The handlers *)

Section Handlers.
Context `{Sodium} `{SizeT}.

Lemma keeps_local_hello c c' : keeps c c' -> keeps c (queue_local_hello c').2.
Proof. intros Hk. unfold queue_local_hello. keeps_run. Qed.
Hint Resolve keeps_local_hello : keeps.

Lemma keeps_client_accept c c' h : keeps c c' -> keeps c (client_accept_hello c' h).2.
Proof.
  intros Hk. unfold client_accept_hello, client_send_ss_header_c2s. cbv zeta.
  set (c1 := c' <| peer_eph_pk := _ |> <| peer_id_pk := _ |> <| have_peer_eph := _ |>
               <| have_peer_id := _ |>).
  assert (keeps c c1) as Hk1 by (apply (keeps_same c c'); [vm_compute; reflexivity .. | exact Hk]).
  clearbody c1. keeps_run.
Qed.

Lemma keeps_peer_hello c b : keeps c (handle_peer_hello c b).2.
Proof.
  unfold handle_peer_hello. destruct (sodchan_wire_hello_decode (Some b)) as [h| |]; [| keeps_run ..].
  destruct (role c) eqn:Er.
  - unfold server_peer_hello. keeps_step; [keeps_solve |]. cbv zeta.
    match goal with |- context [if sodium_is_zero ?i =? 0 then ?a else ?b] =>
      set (c1 := if sodium_is_zero i =? 0 then a else b) end.
    assert (keeps c c1) as Hk by (subst c1; case_match; by apply (keeps_same c c)).
    clearbody c1. keeps_run.
  - unfold client_peer_hello. do 2 (keeps_step; [keeps_solve |]). cbv zeta.
    apply keeps_client_accept. destruct (accept_any_server_pk (cfg c)) eqn:Ea; [| done].
    constructor; try done. unfold pinned. by rewrite Er, Ea.
Qed.

Lemma keeps_peer_ss c b : keeps c (handle_peer_ss_header c b).2.
Proof.
  unfold handle_peer_ss_header, server_send_ss_header_s2c, emit_kx_complete. keeps_run.
Qed.

Lemma keeps_auth_device c c' p : keeps c c' -> keeps c (handle_auth_device_pdu c' p).2.
Proof.
  intros Hk. unfold handle_auth_device_pdu, server_send_auth_fail, emit_auth_failed. keeps_run.
Qed.

Lemma keeps_auth_ok c c' p : keeps c c' -> keeps c (handle_auth_ok_pdu c' p).2.
Proof. intros Hk. unfold handle_auth_ok_pdu, emit_authenticated. keeps_run. Qed.

Lemma keeps_auth_fail c c' p : keeps c c' -> keeps c (handle_auth_fail_pdu c' p).2.
Proof. apply keeps_calm, calm_handle_auth_fail. Qed.
Hint Resolve keeps_auth_device keeps_auth_ok keeps_auth_fail : keeps.

Lemma keeps_encrypted c b : keeps c (handle_encrypted_pdu c b).2.
Proof. unfold handle_encrypted_pdu, dispatch_pdu. keeps_run. Qed.

Lemma keeps_frame c b : keeps c (handle_frame c b).2.
Proof.
  unfold handle_frame. destruct (hs c);
    [keeps_solve | apply keeps_peer_hello | apply keeps_peer_ss | apply keeps_encrypted].
Qed.

Lemma keeps_turn x : keeps (core x) (core (process_turn x).1).
Proof.
  unfold process_turn. destruct (stopped _); [done |]. destruct (_ <? 4); [done |].
  destruct (next_frame _ _) as [[k b]|rc|].
  - pose proof (keeps_frame (core x) b) as Hf. destruct (handle_frame _ b) as [rc c']. by case_match.
  - case_match; [done |]. cbn [fst core]. keeps_solve.
  - cbn [fst core]. keeps_solve.
Qed.

Lemma keeps_loop n x : keeps (core x) (core (process_loop n x)).
Proof.
  revert x. induction n as [|n IH]; intros x; [done |]. cbn [process_loop].
  pose proof (keeps_turn x) as Ht. destruct (process_turn x) as [x' []]; [| done].
  etransitivity; [exact Ht | apply IH].
Qed.

Lemma keeps_start c c' : keeps c c' -> keeps c (handshake_start c').2.
Proof. intros Hk. unfold handshake_start. keeps_run. Qed.

Lemma keeps_decide c a k n : keeps c (sodchan_auth_decide_ex c a k n).2.
Proof.
  unfold sodchan_auth_decide_ex, server_send_auth_ok, server_send_auth_fail, emit_authenticated,
    emit_auth_failed. keeps_run.
Qed.

Lemma keeps_api x op : keeps (core x) (core (api_ctx x op).2).
Proof.
  destruct op; cbn [api_ctx]; unfold on_core; cbn [snd core];
    try (eapply keeps_calm; [| reflexivity]; solve [auto with sodchan]).
  - unfold sodchan_reset. cbn [core]. apply keeps_start. by constructor.
  - pose proof (feed_cases x data) as Hf. destruct (sodchan_feed_input x data) as [n x']. cbn [snd] in *.
    destruct Hf as [-> | (more & Hm & ->)]; [done |]. unfold process_input.
    apply (keeps_loop _ (mk_ctx (core x) _)).
  - apply keeps_decide.
Qed.
End Handlers.

(** ** Every reachable context *)

Section Reach.
Context `{Sodium} `{SizeT}.

(** The memory of [sodchan_create] before [handshake_start]. *)
Definition blank (ro : sodchan_role_t) (cfg : sodchan_config_t) (e : entropy) : session :=
  let '(s, (pk, have)) := apply_config_defaults cfg in
  session_zero ro s pk have
    (if event_queue_size s =? 0 then SODCHAN_DEFAULT_EVENT_QUEUE else event_queue_size s) e.

Lemma create_blank lab m1 m2 r cfg e x :
  sodchan_create lab m1 m2 r (Some cfg) e = Some x ->
  exists ro, role_of r = Some ro /\ handshake_start (blank ro cfg e) = (SODCHAN_OK, core x) /\
    in_buf x = [].
Proof.
  unfold sodchan_create, blank. destruct (role_of r) as [ro|]; [|done]. cbv zeta. cbn [default].
  do 4 (lazymatch goal with |- (if ?b then None else _) = _ -> _ => destruct b; [done |] end).
  destruct (apply_config_defaults _) as [s [spk have]]. destruct (negb m2); [done |].
  destruct (handshake_start _) as [rc c'] eqn:E. destruct (rc =? SODCHAN_OK) eqn:Erc; [| done].
  apply Z.eqb_eq in Erc as ->. intros <-%(inj Some). by exists ro.
Qed.

Lemma reachable_keeps r cfg x :
  reachable r cfg x -> exists ro e, role_of r = Some ro /\ keeps (blank ro cfg e) (core x).
Proof.
  induction 1 as [lab m1 m2 e x Hcfg Hx | x op Hx (ro & e & Hr & IH) Hop | x e Hx (ro & e' & Hr & IH)].
  - apply create_blank in Hx as (ro & Hr & Hs & _). exists ro, e. split; [done |].
    replace (core x) with (handshake_start (blank ro cfg e)).2 by (by rewrite Hs).
    by apply keeps_start.
  - exists ro, e. split; [done |]. etransitivity; [exact IH | apply keeps_api].
  - exists ro, e'. split; [done |]. by apply (keeps_same _ (core x)).
Qed.
End Reach.
