(* ===== verification/Fresh.v ===== *)
(** A reset context behaves as a new one.

    [sodchan_reset] clears flags, not the memory the flags guard: the peer's
    keys, the transcript and the two cipher states of the old session stay
    where they were.  [alike] relates two sessions that differ at most there;
    every operation respects it ([Proper]), gives the same answers and keeps
    it, so that what stayed is never seen. *)

From Stdlib Require Import ZArith Lia ZifyBool String.
From S2P Require Import Prelude Defs WireBase WireHello WireAuth WireMux Crypto EventQueue.
From S2P Require Import OutBuf Channels Session Auth Handshake Mux Engine Api Invariant Calm.
From S2P Require Import EngineLemmas Safety Constants.
Local Open Scope Z_scope.
Local Open Scope sodchan_scope.

Section Alike.
Context `{Sodium}.

Record alike (c d : session) : Prop := {
  al_role : role d = role c;
  al_state : state d = state c;
  al_hs : hs d = hs c;
  al_error : error d = error c;
  al_error_msg : error_msg d = error_msg c;
  al_cfg : cfg d = cfg c;
  al_pk : pinned c = true ->
    server_id_pk d = server_id_pk c /\ have_server_id_pk d = have_server_id_pk c;
  al_eph_pk : eph_pk d = eph_pk c;
  al_eph_sk : eph_sk d = eph_sk c;
  al_have_peer_eph : have_peer_eph d = have_peer_eph c;
  al_peer_eph : have_peer_eph c = true -> peer_eph_pk d = peer_eph_pk c;
  al_have_peer_id : have_peer_id d = have_peer_id c;
  al_peer_id : have_peer_id c = true -> peer_id_pk d = peer_id_pk c;
  al_c2s : ss_key_c2s d = ss_key_c2s c;
  al_s2c : ss_key_s2c d = ss_key_s2c c;
  al_push_ready : ss_push_ready d = ss_push_ready c;
  al_push : ss_push_ready c = true -> ss_push d = ss_push c;
  al_pull_ready : ss_pull_ready d = ss_pull_ready c;
  al_pull : ss_pull_ready c = true -> ss_pull d = ss_pull c;
  al_have_t_hello : have_t_hello d = have_t_hello c;
  al_t_hello : have_t_hello c = true -> t_hello d = t_hello c;
  al_t_length : length (t_hello c) = 123%nat /\ length (t_hello d) = 123%nat;
  al_auth_sent : auth_sent d = auth_sent c;
  al_awaiting : auth_awaiting_decide d = auth_awaiting_decide c;
  al_decided : auth_decided d = auth_decided c;
  al_complete : auth_complete d = auth_complete c;
  al_chans : chans d = chans c;
  al_out : out d = out c;
  al_evq : evq d = evq c;
  al_rng : rng d = rng c
}.

Lemma alike_refl c : length (t_hello c) = 123%nat -> alike c c.
Proof. intros Ht. by constructor. Qed.

(** What the flags guard is equal: the flags are. *)
Local Ltac guarded :=
  intros; repeat match goal with Hg : _ = true -> _ = _ |- _ => rewrite Hg by congruence end; congruence.

#[global] Instance alike_per : RelationClasses.PER alike.
Proof.
  split.
  - intros c d []. constructor; try congruence; [| first [guarded | by destruct_and?; split] ..].
    intros Hp. unfold pinned in *. rewrite al_role0, al_cfg0 in Hp. by destruct (al_pk0 Hp) as [-> ->].
  - intros c1 c2 c3 [] []. constructor; try congruence; [| first [guarded | by destruct_and?; split] ..].
    intros Hp. assert (pinned c2 = true) as Hp2 by (unfold pinned; by rewrite al_role0, al_cfg0).
    destruct (al_pk0 Hp) as [<- <-]. by apply al_pk1.
Qed.

(** *** Updates *)

#[global] Instance alike_set_state v : Proper (alike ==> alike) (with_field state v).
Proof. intros c d []. by constructor. Qed.
#[global] Instance alike_set_hs v : Proper (alike ==> alike) (with_field hs v).
Proof. intros c d []. by constructor. Qed.
#[global] Instance alike_set_error v : Proper (alike ==> alike) (with_field error v).
Proof. intros c d []. by constructor. Qed.
#[global] Instance alike_set_error_msg v : Proper (alike ==> alike) (with_field error_msg v).
Proof. intros c d []. by constructor. Qed.
#[global] Instance alike_set_eph_pk v : Proper (alike ==> alike) (with_field eph_pk v).
Proof. intros c d []. by constructor. Qed.
#[global] Instance alike_set_eph_sk v : Proper (alike ==> alike) (with_field eph_sk v).
Proof. intros c d []. by constructor. Qed.
#[global] Instance alike_set_c2s v : Proper (alike ==> alike) (with_field ss_key_c2s v).
Proof. intros c d []. by constructor. Qed.
#[global] Instance alike_set_s2c v : Proper (alike ==> alike) (with_field ss_key_s2c v).
Proof. intros c d []. by constructor. Qed.
#[global] Instance alike_set_push v : Proper (alike ==> alike) (with_field ss_push v).
Proof. intros c d []. by constructor. Qed.
#[global] Instance alike_set_pull v : Proper (alike ==> alike) (with_field ss_pull v).
Proof. intros c d []. by constructor. Qed.
#[global] Instance alike_set_sent v : Proper (alike ==> alike) (with_field auth_sent v).
Proof. intros c d []. by constructor. Qed.
#[global] Instance alike_set_awaiting v :
  Proper (alike ==> alike) (with_field auth_awaiting_decide v).
Proof. intros c d []. by constructor. Qed.
#[global] Instance alike_set_decided v : Proper (alike ==> alike) (with_field auth_decided v).
Proof. intros c d []. by constructor. Qed.
#[global] Instance alike_set_complete v : Proper (alike ==> alike) (with_field auth_complete v).
Proof. intros c d []. by constructor. Qed.
#[global] Instance alike_set_chans v : Proper (alike ==> alike) (with_field chans v).
Proof. intros c d []. by constructor. Qed.
#[global] Instance alike_set_out v : Proper (alike ==> alike) (with_field out v).
Proof. intros c d []. by constructor. Qed.
#[global] Instance alike_set_evq v : Proper (alike ==> alike) (with_field evq v).
Proof. intros c d []. by constructor. Qed.
#[global] Instance alike_set_rng v : Proper (alike ==> alike) (with_field rng v).
Proof. intros c d []. by constructor. Qed.

(** What a flag guards, set together with the flag. *)
Lemma alike_set_peer_id k c d :
  alike c d ->
  alike (c <| peer_id_pk := k |> <| have_peer_id := true |>)
        (d <| peer_id_pk := k |> <| have_peer_id := true |>).
Proof. intros []. by constructor. Qed.
Lemma alike_set_peer_eph k c d :
  alike c d ->
  alike (c <| peer_eph_pk := k |> <| have_peer_eph := true |>)
        (d <| peer_eph_pk := k |> <| have_peer_eph := true |>).
Proof. intros []. by constructor. Qed.
Lemma alike_set_t_hello t c d :
  length t = 123%nat -> alike c d ->
  alike (c <| t_hello := t |> <| have_t_hello := true |>)
        (d <| t_hello := t |> <| have_t_hello := true |>).
Proof. intros Ht []. by constructor. Qed.
Lemma alike_push_ready s c d :
  alike c d ->
  alike (c <| ss_push := s |> <| ss_push_ready := true |>)
        (d <| ss_push := s |> <| ss_push_ready := true |>).
Proof. intros []. by constructor. Qed.
Lemma alike_pull_ready s c d :
  alike c d ->
  alike (c <| ss_pull := s |> <| ss_pull_ready := true |>)
        (d <| ss_pull := s |> <| ss_pull_ready := true |>).
Proof. intros []. by constructor. Qed.
End Alike.

(** The same answer, and sessions that are alike. *)
Abbreviation same_result := (prod_relation eq alike).

Lemma alike_snd `{Sodium} {A} (m n : A * session) :
  prod_relation eq alike m n -> alike m.2 n.2.
Proof. by intros []. Qed.

(** [al_rw]: the fields of the second session are those of the first. *)
Ltac al_rw := repeat match goal with Ha : alike ?c ?d |- _ =>
  progress rewrite ?(al_role c d Ha), ?(al_state c d Ha), ?(al_hs c d Ha), ?(al_error c d Ha),
    ?(al_error_msg c d Ha), ?(al_cfg c d Ha), ?(al_eph_pk c d Ha), ?(al_eph_sk c d Ha),
    ?(al_have_peer_eph c d Ha), ?(al_have_peer_id c d Ha), ?(al_c2s c d Ha), ?(al_s2c c d Ha),
    ?(al_push_ready c d Ha), ?(al_pull_ready c d Ha), ?(al_have_t_hello c d Ha),
    ?(al_auth_sent c d Ha), ?(al_awaiting c d Ha), ?(al_decided c d Ha), ?(al_complete c d Ha),
    ?(al_chans c d Ha), ?(al_out c d Ha), ?(al_evq c d Ha), ?(al_rng c d Ha) end.

(** [al_solve]: by the instances, once the arguments are the same; what a
    session was updated from is abstracted first. *)
Ltac al_abstract a b tac :=
  tryif is_var a then idtac else
    (let Ha := fresh "Ha" in
     assert (alike a b) as Ha by tac;
     revert Ha; generalize b; generalize a; intros ? ? ?).
Ltac al_solve :=
  al_rw; first [assumption |
  lazymatch goal with
  | |- alike (with_field ?f _ ?a) (with_field ?f _ ?b) => al_abstract a b al_solve
  | |- alike (queue ?a _) (queue ?b _) => al_abstract a b al_solve
  | |- alike (sodchan_i_set_error ?a _ _) (sodchan_i_set_error ?b _ _) => al_abstract a b al_solve
  | |- alike (put_ch ?a _ _) (put_ch ?b _ _) => al_abstract a b al_solve
  | |- alike (snd _) (snd _) => apply alike_snd
  | |- alike (if ?t then _ else _) (if ?t then _ else _) => destruct t; al_solve
  | _ => idtac
  end;
  al_rw; solve [repeat (first [assumption | f_equiv])]].

(** [al_run]: both sides of a [same_result] take the same branches. *)
Ltac al_step :=
  al_rw;
  lazymatch goal with
  | |- prod_relation eq alike (let x := ?a in @?P x) (let y := ?b in @?Q y) =>
      lazymatch type of a with
      | session =>
          let Ha := fresh "Ha" in
          assert (alike a b) as Ha by al_solve;
          change (prod_relation eq alike (P a) (Q b));
          generalize dependent b; generalize dependent a; cbv beta; intros ? ? ?
      | _ => change (prod_relation eq alike (P a) (Q b)); cbv beta
      end
  | |- prod_relation eq alike (match ?m with (_, _) => _ end) (match ?n with (_, _) => _ end) =>
      lazymatch type of m with
      | (_ * session)%type =>
          let Hm := fresh "Hm" in let E := fresh "E" in let E' := fresh "E" in
          assert (prod_relation eq alike m n) as Hm by al_solve;
          destruct m as [? ?], n as [? ?]; destruct Hm as [E' Hm]; cbn [fst snd] in E', Hm; subst
      | _ => destruct m as [? ?]
      end
  | |- prod_relation eq alike (match ?m with _ => _ end) _ => destruct m eqn:?
  | |- prod_relation eq alike (_, _) (_, _) => split; cbn [fst snd]; [reflexivity |]
  end.
Ltac al_run := repeat al_step; al_solve.

Section Session.
Context `{Sodium}.

#[global] Instance alike_queue : Proper (alike ==> eq ==> alike) queue.
Proof. intros c d Hc ev _ <-. cbv beta delta [queue]. al_solve. Qed.

#[global] Instance alike_error : Proper (alike ==> eq ==> eq ==> alike) sodchan_i_set_error.
Proof.
  intros c d Hc code _ <- msg _ <-. cbv beta delta [sodchan_i_set_error]. cbv zeta.
  apply alike_queue; [| reflexivity]. al_solve.
Qed.

#[global] Instance alike_fail : Proper (alike ==> eq ==> eq ==> same_result) fail.
Proof. intros c d Hc code _ <- msg _ <-. cbv beta delta [fail]. al_run. Qed.

#[global] Instance alike_hello : Proper (alike ==> alike) emit_hello_received.
Proof.
  intros c d Hc. cbv beta delta [emit_hello_received]. al_rw. destruct (have_peer_id c) eqn:Ep; [| al_solve].
  rewrite (al_peer_id c d Hc Ep). al_solve.
Qed.

#[global] Instance alike_kx : Proper (alike ==> alike) emit_kx_complete.
Proof. intros c d Hc. cbv beta delta [emit_kx_complete]. al_solve. Qed.

#[global] Instance alike_authenticated : Proper (alike ==> alike) emit_authenticated.
Proof. intros c d Hc. cbv beta delta [emit_authenticated]. al_solve. Qed.

#[global] Instance alike_emit_failed : Proper (alike ==> eq ==> eq ==> alike) emit_auth_failed.
Proof. intros c d Hc r _ <- m _ <-. cbv beta delta [emit_auth_failed]. al_solve. Qed.

#[global] Instance alike_put_ch : Proper (alike ==> eq ==> eq ==> alike) put_ch.
Proof. intros c d Hc i _ <- v _ <-. cbv beta delta [put_ch]. al_solve. Qed.

Context `{SizeT}.

#[global] Instance alike_max_body : Proper (alike ==> eq) ss_frame_max_body.
Proof. intros c d Hc. cbv beta delta [ss_frame_max_body]. by al_rw. Qed.

#[global] Instance alike_send : Proper (alike ==> eq ==> eq ==> same_result) ss_send_pdu.
Proof.
  intros c d Hc p _ <- n _ <-. cbv beta delta [ss_send_pdu]. al_rw.
  destruct (ss_push_ready c) eqn:Ep; cbn [negb orb]; [| al_run].
  do 2 (al_step; [al_run |]). cbv beta zeta.
  set (c1 := c <| out := _ |>). set (d1 := d <| out := _ |>).
  assert (alike c1 d1) as Ha by (subst c1 d1; al_solve).
  assert (ss_push d1 = ss_push c1) as Hp by exact (al_push c d Hc Ep).
  clearbody c1 d1. rewrite Hp, (alike_max_body c1 d1 Ha). al_run.
Qed.

#[global] Instance alike_send_encoded : Proper (alike ==> eq ==> eq ==> same_result) send_encoded.
Proof. intros c d Hc e _ <- k _ <-. cbv beta delta [send_encoded]. al_run. Qed.

#[global] Instance alike_send_fail : Proper (alike ==> same_result) server_send_auth_fail.
Proof. intros c d Hc. cbv beta delta [server_send_auth_fail]. al_run. Qed.

#[global] Instance alike_send_ok :
  Proper (alike ==> eq ==> eq ==> same_result) server_send_auth_ok.
Proof. intros c d Hc k _ <- n _ <-. cbv beta delta [server_send_auth_ok]. al_run. Qed.

#[global] Instance alike_refuse :
  Proper (alike ==> eq ==> eq ==> eq ==> eq ==> same_result) refuse_open.
Proof.
  intros c d Hc p _ <- r _ <- m _ <- n _ <-. cbv beta delta [refuse_open]. al_run.
Qed.
End Session.

(** ** The handlers *)

Section Handlers.
Context `{Sodium} `{SizeT}.

#[global] Instance alike_client_auth : Proper (alike ==> same_result) client_send_auth_device.
Proof.
  intros c d Hc. cbv beta delta [client_send_auth_device]. do 2 (al_step; [al_run |]).
  rewrite (al_t_hello c d Hc) by (destruct (have_t_hello c); [done | lia]). al_run.
Qed.

#[global] Instance alike_auth_ok : Proper (alike ==> eq ==> same_result) handle_auth_ok_pdu.
Proof. intros c d Hc p _ <-. cbv beta delta [handle_auth_ok_pdu]. al_run. Qed.

#[global] Instance alike_auth_fail : Proper (alike ==> eq ==> same_result) handle_auth_fail_pdu.
Proof. intros c d Hc p _ <-. cbv beta delta [handle_auth_fail_pdu]. al_run. Qed.

#[global] Instance alike_decide :
  Proper (alike ==> eq ==> eq ==> eq ==> same_result) sodchan_auth_decide_ex.
Proof. intros c d Hc a _ <- k _ <- n _ <-. cbv beta delta [sodchan_auth_decide_ex]. al_run. Qed.

#[global] Instance alike_send_hello : Proper (alike ==> eq ==> same_result) send_hello.
Proof. intros c d Hc h _ <-. cbv beta delta [send_hello]. al_run. Qed.

#[global] Instance alike_derive : Proper (alike ==> eq ==> eq ==> same_result) derive_both.
Proof. intros c d Hc a _ <- b _ <-. cbv beta delta [derive_both]. al_run. Qed.

#[global] Instance alike_mux_open : Proper (alike ==> eq ==> same_result) mux_channel_open.
Proof. intros c d Hc p _ <-. cbv beta delta [mux_channel_open]. al_run. Qed.

#[global] Instance alike_mux_confirm :
  Proper (alike ==> eq ==> same_result) mux_channel_open_confirm.
Proof. intros c d Hc p _ <-. cbv beta delta [mux_channel_open_confirm]. al_run. Qed.

#[global] Instance alike_mux_fail : Proper (alike ==> eq ==> same_result) mux_channel_open_fail.
Proof. intros c d Hc p _ <-. cbv beta delta [mux_channel_open_fail]. al_run. Qed.

#[global] Instance alike_mux_data : Proper (alike ==> eq ==> same_result) mux_channel_data.
Proof. intros c d Hc p _ <-. cbv beta delta [mux_channel_data]. al_run. Qed.

#[global] Instance alike_mux_window : Proper (alike ==> eq ==> same_result) mux_channel_window.
Proof. intros c d Hc p _ <-. cbv beta delta [mux_channel_window]. al_run. Qed.

#[global] Instance alike_mux_eof : Proper (alike ==> eq ==> same_result) mux_channel_eof.
Proof. intros c d Hc p _ <-. cbv beta delta [mux_channel_eof]. al_run. Qed.

#[global] Instance alike_mux_close : Proper (alike ==> eq ==> same_result) mux_channel_close.
Proof. intros c d Hc p _ <-. cbv beta delta [mux_channel_close]. al_run. Qed.

#[global] Instance alike_mux_ping : Proper (alike ==> eq ==> same_result) mux_ping.
Proof.
  intros c d Hc p _ <-. cbv beta delta [mux_ping]. al_step; [| al_run ..].
  al_run.
Qed.

#[global] Instance alike_mux_disconnect : Proper (alike ==> eq ==> same_result) mux_disconnect.
Proof. intros c d Hc p _ <-. cbv beta delta [mux_disconnect]. al_run. Qed.

#[global] Instance alike_mux : Proper (alike ==> eq ==> same_result) handle_mux_pdu.
Proof. intros c d Hc p _ <-. cbv beta delta [handle_mux_pdu]. al_run. Qed.

#[global] Instance alike_auth_device : Proper (alike ==> eq ==> same_result) handle_auth_device_pdu.
Proof.
  intros c d Hc p _ <-. cbv beta delta [handle_auth_device_pdu]. do 3 (al_step; [al_run |]).
  rewrite (al_t_hello c d Hc) by (by destruct (have_t_hello c)).
  al_step; [| al_run ..]. cbv beta zeta. al_step; [| al_run ..]. al_step.
  - pose proof (alike_snd _ _ (alike_send_fail c d Hc)) as Hs.
    generalize dependent (server_send_auth_fail d).2.
    generalize dependent (server_send_auth_fail c).2. intros. al_run.
  - split; [done |]. cbn [snd].
    pose proof (alike_set_peer_id (ad_client_id_pk a) c d Hc) as Hs. al_solve.
Qed.

(** *** The clear handshake *)

Lemma alike_derive_client c d :
  have_peer_eph c = true -> alike c d ->
  same_result (derive_ss_keys_client c) (derive_ss_keys_client d).
Proof.
  intros He Hc. cbv beta delta [derive_ss_keys_client].
  rewrite (al_peer_eph c d Hc He). al_run.
Qed.

Lemma alike_derive_server c d :
  have_peer_eph c = true -> alike c d ->
  same_result (derive_ss_keys_server c) (derive_ss_keys_server d).
Proof.
  intros He Hc. cbv beta delta [derive_ss_keys_server].
  rewrite (al_peer_eph c d Hc He). al_run.
Qed.

Lemma alike_client_hello_out c d :
  role c = SODCHAN_ROLE_CLIENT -> alike c d ->
  same_result (queue_local_hello c) (queue_local_hello d).
Proof. intros Hr Hc. cbv beta zeta delta [queue_local_hello]. al_rw. rewrite Hr. al_run. Qed.

Lemma alike_local_hello c d :
  length (server_id_pk c) = 32%nat -> length (eph_pk c) = 32%nat ->
  length (peer_eph_pk c) = 32%nat -> alike c d ->
  same_result (queue_local_hello c) (queue_local_hello d).
Proof.
  intros Hs He Hp Hc. destruct (role c) eqn:Er; [| by apply alike_client_hello_out].
  cbv beta zeta delta [queue_local_hello]. al_rw. rewrite Er. destruct (have_peer_eph c) eqn:Eh; cbn [negb]; [| al_run].
  destruct (al_pk c d Hc) as [Hk _]; [unfold pinned; by rewrite Er |].
  rewrite (al_peer_eph c d Hc Eh), Hk.
  rewrite !build_t_hello_ok by (done || apply (al_t_length c d Hc)).
  change (server_id_pk (?x <| t_hello := _ |> <| have_t_hello := _ |>)) with (server_id_pk x).
  rewrite Hk. pose proof (length_t_hello_bytes SODCHAN_PROTO_VERSION SODCHAN_SUITE_V1 _ _ _ Hp He Hs) as Hl.
  pose proof (alike_set_t_hello _ c d Hl Hc) as Ha. al_run.
Qed.

Lemma local_hello_peer c : have_peer_eph (queue_local_hello c).2 = have_peer_eph c.
Proof.
  unfold queue_local_hello, send_hello.
  repeat (first [reflexivity | case_match; cbn [snd]]).
Qed.

#[global] Instance alike_header : Proper (alike ==> eq ==> same_result) send_ss_header.
Proof.
  intros c d Hc key _ <-. cbv beta delta [send_ss_header]. al_rw.
  destruct (crypto_secretstream_init_push key (rng c)) as [[[st h]|] e]; [| al_run]. cbv beta zeta.
  pose proof (alike_push_ready st (c <| rng := e |>) (d <| rng := e |>)
    (alike_set_rng e c d Hc)) as Ha. al_run.
Qed.

Lemma alike_client_accept c d h :
  hello_wf h -> length (eph_pk c) = 32%nat -> alike c d ->
  same_result (client_accept_hello c h) (client_accept_hello d h).
Proof.
  intros [] He Hc. cbv beta zeta delta [client_accept_hello client_send_ss_header_c2s].
  set (c1 := c <| peer_eph_pk := _ |> <| peer_id_pk := _ |> <| have_peer_eph := _ |>
               <| have_peer_id := _ |>).
  set (d1 := d <| peer_eph_pk := _ |> <| peer_id_pk := _ |> <| have_peer_eph := _ |>
               <| have_peer_id := _ |>).
  assert (alike c1 d1) as H1 by (destruct Hc; by constructor).
  change (eph_pk c1) with (eph_pk c). change (eph_pk d1) with (eph_pk d). rewrite (al_eph_pk c d Hc).
  change (peer_eph_pk c1) with (h_eph_pk h). change (peer_eph_pk d1) with (h_eph_pk h).
  change (peer_id_pk c1) with (h_id_pk h). change (peer_id_pk d1) with (h_id_pk h).
  assert (have_peer_eph c1 = true /\ peer_id_pk c1 = h_id_pk h /\ peer_id_pk d1 = h_id_pk h)
    as (Hp & Hi & Hi') by done. clearbody c1 d1.
  rewrite build_t_hello_ok by done.
  set (t := t_hello_bytes _ _ _ _ _).
  assert (length t = 123%nat) as Ht by (by apply length_t_hello_bytes).
  pose proof (alike_set_t_hello t c1 d1 Ht H1) as H2.
  change (peer_id_pk (?x <| t_hello := _ |> <| have_t_hello := _ |>)) with (peer_id_pk x).
  rewrite Hi, Hi'.
  set (c2 := c1 <| t_hello := t |> <| have_t_hello := true |>) in *.
  set (d2 := d1 <| t_hello := t |> <| have_t_hello := true |>) in *.
  assert (have_peer_eph (emit_hello_received c2) = true) as Hp2 by done.
  pose proof (alike_hello c2 d2 H2) as H3. clearbody c2 d2. clear H1 Hp.
  al_step; [al_run |].
  pose proof (alike_derive_client _ _ Hp2 H3) as [Hrc H4].
  destruct (derive_ss_keys_client (emit_hello_received c2)) as [rc c4],
    (derive_ss_keys_client (emit_hello_received d2)) as [rc' d4].
  cbn [fst snd] in Hrc, H4. subst rc'. al_run.
Qed.

Lemma alike_client_hello c d h :
  hello_wf h -> role c = SODCHAN_ROLE_CLIENT -> length (eph_pk c) = 32%nat -> alike c d ->
  same_result (client_peer_hello c h) (client_peer_hello d h).
Proof.
  intros Hh Hr He Hc. cbv beta delta [client_peer_hello]. al_step; [al_run |]. al_rw.
  destruct (accept_any_server_pk (cfg c)) eqn:Ea; cbn [negb andb].
  - cbv beta zeta. apply alike_client_accept; [done | done |]. destruct Hc. by constructor.
  - destruct (al_pk c d Hc) as [-> ->]; [unfold pinned; by rewrite Hr, Ea |].
    al_step; [al_run |]. cbv beta zeta. by apply alike_client_accept.
Qed.

Lemma alike_server_hello c d h :
  hello_wf h -> session_wf c -> alike c d ->
  same_result (server_peer_hello c h) (server_peer_hello d h).
Proof.
  intros [] [] Hc. cbv beta delta [server_peer_hello]. al_step; [al_run |].
  pose proof (alike_set_peer_eph (h_eph_pk h) c d Hc) as H1. cbv beta zeta.
  set (c1 := c <| peer_eph_pk := _ |> <| have_peer_eph := _ |>) in *.
  set (d1 := d <| peer_eph_pk := _ |> <| have_peer_eph := _ |>) in *.
  set (c2 := if _ =? 0 then _ else c1). set (d2 := if _ =? 0 then _ else d1).
  assert (alike c2 d2) as H2 by (subst c2 d2; case_match; [by apply alike_set_peer_id | done]).
  assert (have_peer_eph c2 = true /\ length (server_id_pk c2) = 32%nat /\
    length (eph_pk c2) = 32%nat /\ length (peer_eph_pk c2) = 32%nat) as (Hp & Hs & He & Hpe)
    by (subst c2; case_match; by split_and!).
  clearbody c2 d2. pose proof (alike_hello c2 d2 H2) as H3.
  pose proof (alike_local_hello (emit_hello_received c2) _ Hs He Hpe H3) as [Hrc H4].
  pose proof (local_hello_peer (emit_hello_received c2)) as Hp4.
  change (have_peer_eph (emit_hello_received c2)) with (have_peer_eph c2) in Hp4.
  destruct (queue_local_hello (emit_hello_received c2)) as [rc c4],
    (queue_local_hello (emit_hello_received d2)) as [rc' d4]. cbn [fst snd] in *. subst rc'.
  al_step; [al_run |].
  pose proof (alike_derive_server c4 d4 ltac:(congruence) H4) as [Hrc H5].
  destruct (derive_ss_keys_server c4) as [rc' c5], (derive_ss_keys_server d4) as [? d5].
  cbn [fst snd] in *. subst. al_run.
Qed.

Lemma alike_peer_hello c d b :
  session_wf c -> alike c d -> same_result (handle_peer_hello c b) (handle_peer_hello d b).
Proof.
  intros Hw Hc. cbv beta delta [handle_peer_hello].
  destruct (sodchan_wire_hello_decode (Some b)) as [h| |] eqn:E; [| al_run ..].
  apply hello_decode_ok in E as [Hh _]. al_rw.
  destruct (role c) eqn:Er; [by apply alike_server_hello | apply alike_client_hello; try done].
  apply Hw.
Qed.

#[global] Instance alike_peer_ss : Proper (alike ==> eq ==> same_result) handle_peer_ss_header.
Proof.
  intros c d Hc b _ <-. cbv beta delta [handle_peer_ss_header server_send_ss_header_s2c].
  al_step; [al_run |]. al_rw. destruct (role c).
  - al_step; [| al_run]. cbv beta zeta. pose proof (alike_pull_ready s c d Hc) as Hs.
    set (c1 := c <| ss_pull := _ |> <| ss_pull_ready := _ |>) in *.
    set (d1 := d <| ss_pull := _ |> <| ss_pull_ready := _ |>) in *. clearbody c1 d1. al_run.
  - al_step; [| al_run]. cbv beta zeta. pose proof (alike_pull_ready s c d Hc) as Hs.
    set (c1 := c <| ss_pull := _ |> <| ss_pull_ready := _ |>) in *.
    set (d1 := d <| ss_pull := _ |> <| ss_pull_ready := _ |>) in *. clearbody c1 d1. al_run.
Qed.

(** *** Records *)

#[global] Instance alike_dispatch : Proper (alike ==> eq ==> eq ==> same_result) dispatch_pdu.
Proof. intros c d Hc t _ <- p _ <-. cbv beta delta [dispatch_pdu]. al_run. Qed.

#[global] Instance alike_encrypted : Proper (alike ==> eq ==> same_result) handle_encrypted_pdu.
Proof.
  intros c d Hc b _ <-. cbv beta delta [handle_encrypted_pdu]. al_rw.
  destruct (ss_pull_ready c) eqn:Ep; cbn [negb]; [| al_run].
  rewrite (al_pull c d Hc Ep). al_run.
Qed.

Lemma alike_frame c d b :
  session_wf c -> alike c d -> same_result (handle_frame c b) (handle_frame d b).
Proof.
  intros Hw Hc. cbv beta delta [handle_frame]. al_rw.
  destruct (hs c); [al_run | by apply alike_peer_hello | al_run | al_run].
Qed.
End Handlers.

(** ** The calls *)

Section Calls.
Context `{Sodium} `{SizeT}.

#[global] Instance alike_output :
  Proper (alike ==> eq ==> eq ==> same_result) sodchan_get_output.
Proof. intros c d Hc b _ <- n _ <-. cbv beta delta [sodchan_get_output]. al_run. Qed.

#[global] Instance alike_next : Proper (alike ==> eq ==> same_result) sodchan_next_event.
Proof. intros c d Hc b _ <-. cbv beta delta [sodchan_next_event]. al_run. Qed.

#[global] Instance alike_open_slot : Proper (alike ==> eq ==> eq) open_slot.
Proof. intros c d Hc i _ <-. unfold open_slot. by al_rw. Qed.

#[global] Instance alike_channel_open :
  Proper (alike ==> eq ==> same_result) sodchan_channel_open.
Proof. intros c d Hc n _ <-. cbv beta delta [sodchan_channel_open]. al_run. Qed.

#[global] Instance alike_channel_accept :
  Proper (alike ==> eq ==> eq ==> same_result) sodchan_channel_accept.
Proof. intros c d Hc i _ <- a _ <-. cbv beta delta [sodchan_channel_accept]. al_run. Qed.

#[global] Instance alike_channel_send mem :
  Proper (alike ==> eq ==> eq ==> eq ==> same_result) (sodchan_channel_send mem).
Proof.
  intros c d Hc i _ <- a _ <- n _ <-. cbv beta delta [sodchan_channel_send].
  rewrite (alike_open_slot c d Hc i i eq_refl). al_run.
Qed.

#[global] Instance alike_channel_eof : Proper (alike ==> eq ==> same_result) sodchan_channel_eof.
Proof.
  intros c d Hc i _ <-. cbv beta delta [sodchan_channel_eof].
  rewrite (alike_open_slot c d Hc i i eq_refl). al_run.
Qed.

#[global] Instance alike_channel_close :
  Proper (alike ==> eq ==> same_result) sodchan_channel_close.
Proof.
  intros c d Hc i _ <-. cbv beta delta [sodchan_channel_close]. al_run.
Qed.

#[global] Instance alike_adjust :
  Proper (alike ==> eq ==> eq ==> same_result) sodchan_channel_window_adjust.
Proof.
  intros c d Hc i _ <- n _ <-. cbv beta delta [sodchan_channel_window_adjust].
  rewrite (alike_open_slot c d Hc i i eq_refl). al_run.
Qed.

#[global] Instance alike_disconnect :
  Proper (alike ==> eq ==> eq ==> same_result) sodchan_disconnect.
Proof.
  intros c d Hc r _ <- m _ <-. cbv beta delta [sodchan_disconnect]. al_run.
Qed.

Lemma alike_start c d : alike c d -> same_result (handshake_start c) (handshake_start d).
Proof.
  intros Hc. cbv beta delta [handshake_start]. al_rw.
  destruct (crypto_kx_keypair (rng c)) as [[[pk sk]|] e]; [| al_run]. cbv beta zeta.
  set (c1 := c <| rng := _ |> <| eph_pk := _ |> <| eph_sk := _ |>).
  set (d1 := d <| rng := _ |> <| eph_pk := _ |> <| eph_sk := _ |>).
  assert (alike c1 d1) as H1 by (destruct Hc; by constructor).
  assert (role c1 = role c /\ role d1 = role d) as [Er Er'] by done. clearbody c1 d1.
  rewrite Er, Er'. al_rw. destruct (role c) eqn:Er0; [al_run |].
  pose proof (alike_client_hello_out c1 d1 Er H1) as [Hrc H2].
  destruct (queue_local_hello c1) as [rc c2], (queue_local_hello d1) as [rc' d2].
  cbn [fst snd] in Hrc, H2. subst rc'. al_run.
Qed.
End Calls.

(** ** Contexts *)

Section Contexts.
Context `{Sodium} `{SizeT} {SP : SodiumSpec _}.

Definition alike_ctx (x y : ctx) : Prop := alike (core x) (core y) /\ in_buf y = in_buf x.

Lemma alike_turn x y :
  ctx_wf x -> alike_ctx x y ->
  alike_ctx (process_turn x).1 (process_turn y).1 /\ (process_turn y).2 = (process_turn x).2.
Proof.
  intros [Hw _] [Hc Hb]. unfold process_turn, stopped, next_frame. cbv zeta. rewrite Hb. al_rw.
  destruct (bool_decide _ || bool_decide _); [done |].
  destruct (len (in_buf x) <? 4); [done |]. rewrite (alike_max_body _ _ Hc).
  destruct (if bool_decide _ then _ else _) as [[k b]|rc|].
  - pose proof (alike_frame _ _ b Hw Hc) as [Hrc Hf].
    destruct (handle_frame (core x) b) as [rc c'], (handle_frame (core y) b) as [rc' d'].
    cbn [fst snd] in Hrc, Hf. subst rc'. by destruct (negb (rc =? 0)).
  - destruct (rc =? SODCHAN_ERR_FULL); [done |]. split; [| done]. split; [| done].
    by apply alike_snd, alike_fail.
  - split; [| done]. split; [| done]. by apply alike_snd, alike_fail.
Qed.

Lemma alike_loop n x y :
  ctx_wf x -> alike_ctx x y -> alike_ctx (process_loop n x) (process_loop n y).
Proof.
  revert x y. induction n as [|n IH]; intros x y Hw Hc; [done |]. cbn [process_loop].
  pose proof (alike_turn x y Hw Hc) as [Ht Em]. pose proof (wf_process_turn x Hw) as Hw'.
  destruct (process_turn x) as [x' m], (process_turn y) as [y' m']. cbn [fst snd] in *. subst m'.
  destruct m; [by apply IH | done].
Qed.

Lemma alike_feed x y data :
  ctx_wf x -> alike_ctx x y ->
  (sodchan_feed_input y data).1 = (sodchan_feed_input x data).1 /\
  alike_ctx (sodchan_feed_input x data).2 (sodchan_feed_input y data).2.
Proof.
  intros Hw [Hc Hb]. unfold sodchan_feed_input, stopped. destruct data as [data|]; [| done].
  rewrite Hb. al_rw. destruct (len data =? 0); [done |].
  destruct (bool_decide _ || bool_decide _); [done |]. cbv zeta.
  destruct ((if _ <? len data then _ else _) =? 0) eqn:Et; [done |]. split; [done |]. cbn [snd].
  unfold process_input. cbn [in_buf]. apply alike_loop; [| done].
  pose proof Hw as [_ Hl]. apply (append_in_wf x _ Hw). rewrite length_take. case_match; lia.
Qed.

Lemma alike_reset x y :
  ctx_wf x -> ctx_wf y -> alike_ctx x y -> alike_ctx (sodchan_reset x) (sodchan_reset y).
Proof.
  intros [[] _] [[] _] [Hc Hb]. unfold sodchan_reset. cbv zeta. split; [| done]. cbn [core].
  apply alike_snd, alike_start. destruct Hc. constructor; try done. cbn. by rewrite al_evq0.
Qed.

Lemma alike_rng e x y : alike_ctx x y -> alike_ctx (with_rng e x) (with_rng e y).
Proof. intros [Hc Hb]. split; [by apply alike_set_rng | done]. Qed.

Lemma alike_on_core {A} (k : A -> answer) x y (m n : A * session) :
  in_buf y = in_buf x -> prod_relation eq alike m n ->
  (on_core y k n).1 = (on_core x k m).1 /\ alike_ctx (on_core x k m).2 (on_core y k n).2.
Proof. intros Hb [E Hc]. unfold on_core. cbn [fst snd]. by rewrite E. Qed.

(** Whatever the call: the same answer, and contexts that are still alike. *)
Lemma alike_api x y op :
  ctx_wf x -> ctx_wf y -> alike_ctx x y ->
  (api_ctx y op).1 = (api_ctx x op).1 /\ alike_ctx (api_ctx x op).2 (api_ctx y op).2.
Proof.
  intros Hx Hy Ha. pose proof Ha as [Hc Hb].
  destruct op; cbn [api_ctx]; try (apply alike_on_core; [done |]; by f_equiv).
  - split; [done | by apply alike_reset].
  - pose proof (alike_feed x y data Hx Ha) as [E Hf].
    destruct (sodchan_feed_input x data), (sodchan_feed_input y data). cbn [fst snd] in *. by subst.
Qed.

(** Calls one after the other, each with the state the process's generator is
    in: what the host and the generator get, and the context at the end. *)
Fixpoint trace (x : ctx) (ops : list (entropy * call)) : list (answer * entropy) * ctx :=
  match ops with
  | [] => ([], x)
  | (e, op) :: ops =>
      let '(a, x, e) := call_at e x op in
      let '(l, x) := trace x ops in ((a, e) :: l, x)
  end.

Lemma alike_trace x y ops :
  Forall (fun op => call_ok op.2) ops -> ctx_wf x -> ctx_wf y -> alike_ctx x y ->
  (trace y ops).1 = (trace x ops).1 /\ alike_ctx (trace x ops).2 (trace y ops).2.
Proof.
  intros Hops. revert x y. induction Hops as [|[e op] ops Hop Hops IH]; intros x y Hx Hy Hc; [done |].
  assert (forall z, ctx_wf z -> ctx_wf (with_rng e z)) as Hr
    by (intros z [? ?]; split; [by apply wf_set_rng | done]).
  pose proof (alike_api _ _ op (Hr x Hx) (Hr y Hy) (alike_rng e x y Hc)) as [Ea Hc'].
  pose proof (wf_api _ op Hop (Hr x Hx)) as Hx'. pose proof (wf_api _ op Hop (Hr y Hy)) as Hy'.
  cbn [trace]. unfold call_at.
  destruct (api_ctx (with_rng e x) op) as [a x'], (api_ctx (with_rng e y) op) as [b y'].
  cbn [fst snd] in *. subst b. destruct (IH x' y' Hx' Hy' Hc') as [El Hc2].
  destruct (trace x' ops) as [l x2], (trace y' ops) as [l' y2]. cbn [fst snd] in *. subst l'.
  split; [| done]. cbn [fst]. by rewrite (al_rng _ _ (proj1 Hc')).
Qed.

(** What [handshake_start] sets when it succeeds takes the place of what was
    there. *)
Lemma start_overwrites c pk st h :
  (handshake_start (c <| eph_pk := pk |> <| state := st |> <| hs := h |>)).1 = SODCHAN_OK ->
  handshake_start (c <| eph_pk := pk |> <| state := st |> <| hs := h |>) = handshake_start c.
Proof.
  set (c' := c <| eph_pk := pk |> <| state := st |> <| hs := h |>). unfold handshake_start.
  change (rng c') with (rng c).
  destruct (crypto_kx_keypair (rng c)) as [[[k sk]|] e]; [| done]. cbv zeta.
  set (d := c <| rng := e |> <| eph_pk := k |> <| eph_sk := sk |>).
  set (d' := c' <| rng := e |> <| eph_pk := k |> <| eph_sk := sk |>).
  assert (d' = d <| state := st |> <| hs := h |>) as Ed by done. clearbody d d'. subst d'.
  change (role (d <| state := st |> <| hs := h |>)) with (role d).
  destruct (role d) eqn:Er; [done |]. unfold queue_local_hello.
  change (role (d <| state := st |> <| hs := h |>)) with (role d). rewrite Er. cbv beta iota zeta.
  unfold send_hello.
  change (cfg (d <| state := st |> <| hs := h |>)) with (cfg d).
  change (eph_pk (d <| state := st |> <| hs := h |>)) with (eph_pk d).
  change (out (d <| state := st |> <| hs := h |>)) with (out d).
  destruct (res_bind _ _) as [body|rc|]; [| by destruct (rc =? SODCHAN_OK) eqn:E | done].
  destruct (out_append_frame (out d) body) as [rc o].
  by destruct (rc =? SODCHAN_OK).
Qed.

(** Before its [handshake_start], a reset context is what [sodchan_create] made
    of the memory, but for what [handshake_start] sets and what flags guard. *)
Lemma cleared_alike ro cfg e e' (c : session) c1 :
  keeps (blank ro cfg e') c -> length (t_hello c) = 123%nat ->
  c1 = c <| rng := e |> <| eph_sk := zeros 32 |> <| ss_key_c2s := zeros 32 |>
         <| ss_key_s2c := zeros 32 |> <| have_peer_eph := false |> <| have_peer_id := false |>
         <| have_t_hello := false |> <| ss_push_ready := false |> <| ss_pull_ready := false |>
         <| auth_sent := false |> <| auth_awaiting_decide := false |> <| auth_decided := false |>
         <| auth_complete := false |> <| chans := chtable_empty |> <| error := 0 |>
         <| error_msg := [] |> <| evq := evqueue_new (event_cap (evq c)) |>
         <| out := outbuf_empty |> ->
  alike (blank ro cfg e)
    (c1 <| eph_pk := zeros 32 |> <| state := SODCHAN_STATE_IDLE |> <| hs := SODCHAN_HS_START |>).
Proof.
  intros [K1 K2 K3 K4] Ht ->. revert K1 K2 K3 K4. unfold blank.
  destruct (apply_config_defaults cfg) as [s [pk have]].
  cbn [role Session.cfg evq event_cap session_zero evqueue_new server_id_pk have_server_id_pk].
  intros K1 K2 K3 K4. constructor; cbn; try done. by rewrite K3.
Qed.

Lemma reset_alike r cfg x lab m1 m2 e x0 :
  reachable r cfg x -> sodchan_create lab m1 m2 r (Some cfg) e = Some x0 ->
  alike_ctx x0 (sodchan_reset (with_rng e x)).
Proof.
  intros Hx Hc. apply create_blank in Hc as (ro & Hr & Hs & Hb).
  destruct (reachable_keeps r cfg x Hx) as (ro' & e' & Hr' & Hk).
  assert (ro' = ro) as -> by congruence.
  pose proof (wf_t_hello _ (proj1 (reachable_wf r cfg x Hx))) as Ht.
  split; [| by rewrite Hb]. unfold sodchan_reset. cbv zeta. cbn [core].
  match goal with |- alike _ (handshake_start ?c).2 =>
    pose proof (cleared_alike ro cfg e e' (core x) c Hk Ht eq_refl) as Ha; generalize dependent c end.
  intros c1 Ha. pose proof (alike_start _ _ Ha) as [Ec Hst]. rewrite Hs in Ec, Hst. cbn [fst snd] in Ec, Hst.
  rewrite (start_overwrites c1) in Hst by done. exact Hst.
Qed.
End Contexts.
