(* ===== verification/Order.v ===== *)
(** The order of the states: no frame and no call but [sodchan_reset] takes a
    session back to an earlier state. *)

From Stdlib Require Import ZArith Lia ZifyBool String.
From S2P Require Import Prelude Defs WireBase WireHello WireAuth WireMux Crypto EventQueue.
From S2P Require Import OutBuf Channels Session Auth Handshake Mux Engine Api Invariant Calm.
From S2P Require Import EngineLemmas Safety.
Local Open Scope Z_scope.
Local Open Scope sodchan_scope.

(** How far a session has come; CLOSED and ERROR are both the end. *)
Definition rank (s : sodchan_state_t) : Z :=
  match s with
  | SODCHAN_STATE_IDLE => 0
  | SODCHAN_STATE_HELLO => 1
  | SODCHAN_STATE_SS_HEADER => 2
  | SODCHAN_STATE_AUTH => 3
  | SODCHAN_STATE_READY => 4
  | SODCHAN_STATE_DRAINING => 5
  | SODCHAN_STATE_CLOSED | SODCHAN_STATE_ERROR => 6
  end.

Lemma rank_bounds s : 0 <= rank s <= 6.
Proof. destruct s; simpl; lia. Qed.

Section Order.
Context `{Sodium} `{SizeT} {SP : SodiumSpec _}.
Variables (r0 : sodchan_role_t) (s0 : settings) (pk0 : bytes).
Notation safe := (safe r0 s0 pk0).

Definition forward (c c' : session) : Prop := rank (state c) <= rank (state c').

#[local] Instance forward_preorder : PreOrder forward.
Proof. split; unfold forward; [intros c | intros c c' c'']; lia. Qed.

Lemma forward_calm c c' : calm c c' -> forward c c'.
Proof.
  intros Hc. unfold forward. destruct (calm_state _ _ Hc) as [-> | [-> | [-> | [-> Hs]]]];
    [reflexivity | apply rank_bounds | apply rank_bounds |].
  by destruct Hs as [-> | ->].
Qed.

Lemma forward_fail c c' code msg : forward c (fail c' code msg).2.
Proof. apply rank_bounds. Qed.

Lemma forward_ss_header c body :
  state c = SODCHAN_STATE_SS_HEADER -> forward c (handle_peer_ss_header c body).2.
Proof.
  intros Hst. unfold handle_peer_ss_header.
  case_match; [apply forward_fail |]. destruct (role c).
  - case_match; [|apply forward_fail]. cbv zeta.
    destruct (server_send_ss_header_s2c _) as [rc c'].
    case_match; [apply forward_fail |]. unfold forward. rewrite Hst. simpl. lia.
  - destruct (crypto_secretstream_init_pull body (ss_key_s2c c)) as [st|];
      [|apply forward_fail]. cbv zeta.
    set (c1 := emit_kx_complete _).
    pose proof (forward_calm _ _ (calm_client_auth_device c1 c1 (calm_refl c1))) as Hc.
    destruct (client_send_auth_device c1) as [rc c']. case_match; [apply forward_fail |].
    unfold forward in *. rewrite Hst. simpl in *. lia.
Qed.

Lemma forward_auth c c' t p :
  state c' = state c -> state c = SODCHAN_STATE_AUTH -> forward c (dispatch_pdu c' t p).2.
Proof.
  intros He Hst. unfold dispatch_pdu. rewrite He, Hst.
  case_match; [| case_match; [| case_match; [| apply forward_fail]]].
  - unfold handle_auth_device_pdu. repeat (case_match; try apply forward_fail).
    all: unfold forward; simpl; rewrite He; lia.
  - unfold handle_auth_ok_pdu. repeat (case_match; try apply forward_fail).
    unfold forward. rewrite Hst. simpl. lia.
  - unfold handle_auth_fail_pdu. repeat (case_match; try apply forward_fail).
Qed.

Lemma forward_encrypted c body : forward c (handle_encrypted_pdu c body).2.
Proof.
  unfold handle_encrypted_pdu. do 3 (case_match; [apply forward_fail |]).
  destruct (crypto_secretstream_pull _ _) as [[[st plain] tag]|]; [|apply forward_fail].
  cbv zeta. case_match; [apply forward_calm; eauto with sodchan |].
  do 2 (case_match; [apply forward_calm; eauto with sodchan |]).
  destruct (sodchan_wire_pdu_type _) as [t | |]; [| apply forward_fail..].
  set (c1 := c <| ss_pull := st |>).
  destruct (decide (state c = SODCHAN_STATE_AUTH)) as [Hst | Hst]; [by apply forward_auth |].
  apply forward_calm. transitivity c1; [subst c1; eauto with sodchan |].
  assert (state c1 <> SODCHAN_STATE_AUTH) as Hst1 by done. clearbody c1.
  unfold dispatch_pdu. destruct (state c1); try done; eauto with sodchan.
Qed.

Lemma forward_frame c b :
  session_wf c -> safe c -> stopped c = false -> forward c (handle_frame c b).2.
Proof.
  intros Hw Hs Hn. pose proof (safe_handle_frame r0 s0 pk0 c b Hw Hs Hn) as Hs'.
  destruct (sf_phase _ _ _ _ Hs) as [Hp | Hp]; [congruence |]. revert Hs'.
  unfold handle_frame. destruct (hs c); intros Hs'; [done | | |].
  - unfold forward. rewrite Hp. simpl.
    destruct (sf_phase _ _ _ _ Hs') as [[-> | ->]%stopped_iff | Hp']; [done | done |].
    destruct (hs _); [done | by rewrite Hp' | by rewrite Hp' |].
    by destruct Hp' as [-> | [-> | ->]].
  - by apply forward_ss_header.
  - apply forward_encrypted.
Qed.

Lemma forward_decide c accept claims n :
  forward c (sodchan_auth_decide_ex c accept claims n).2.
Proof.
  unfold sodchan_auth_decide_ex. destruct (negb (bool_decide (role c = _))); [reflexivity |].
  destruct (_ || _); [reflexivity |].
  case_bool_decide as Hst; [|reflexivity]. cbn [negb]. do 2 (case_match; [reflexivity |]).
  cbv zeta. unfold forward. rewrite Hst.
  destruct accept; [destruct (server_send_auth_ok _ _ _) | destruct (server_send_auth_fail _)];
    case_match; simpl; lia.
Qed.

Lemma forward_api x op :
  ctx_safe r0 s0 pk0 x -> op <> Call_reset -> forward (core x) (core (api_ctx x op).2).
Proof.
  intros Hx Hop. destruct op; cbn [api_ctx]; unfold on_core; cbn [snd core];
    try (apply forward_calm; solve [eauto with sodchan]); [done | |].
  - pose proof (feed_rel r0 s0 pk0 forward x data) as Hf.
    destruct (sodchan_feed_input x data) as [n x']. apply Hf; [| | done].
    + intros c. apply forward_fail.
    + apply forward_frame.
  - apply forward_decide.
Qed.
End Order.
