(* ===== verification/Tables.v ===== *)
(** The channel ids of a session: every frame and every call keeps the used
    slots' ids different, and gives at most one new id.  [tbl c c'] is one such
    step; the budget of a run bounds the ids it gives, so that the 32-bit
    counter does not wrap within it. *)

From Stdlib Require Import ZArith Lia ZifyBool String.
From S2P Require Import Prelude Defs WireBase WireHello WireAuth WireMux Crypto EventQueue.
From S2P Require Import OutBuf Channels Session Auth Handshake Mux Engine Api Invariant.
From S2P Require Import EngineLemmas Safety.
Local Open Scope Z_scope.
Local Open Scope sodchan_scope.

(** A table that is a map, with a counter in range. *)
Definition ids_ok (t : chtable) : Prop := table_ids t /\ 0 <= next_local_channel_id t.

(** The counter does not go back, and an id it has passed that is free stays
    free. *)
Definition keeps_ids (t t' : chtable) : Prop :=
  next_local_channel_id t <= next_local_channel_id t' /\
  forall k, k < next_local_channel_id t -> ch_lookup t k = None -> ch_lookup t' k = None.

#[export] Instance keeps_ids_preorder : PreOrder keeps_ids.
Proof.
  split; [by intros t |]. intros t t1 t2 [Hn Hk] [Hn' Hk']. split; [lia |].
  intros k Hlt Hf. apply Hk'; [lia | auto].
Qed.

(** At most one new id, if the counter does not wrap. *)
Definition id_step (t t' : chtable) : Prop :=
  ids_ok t -> next_local_channel_id t < 4294967295 ->
  ids_ok t' /\ next_local_channel_id t' <= next_local_channel_id t + 1 /\ keeps_ids t t'.

Lemma id_step_refl t : id_step t t.
Proof. intros ? ?. split_and!; [done | lia | done]. Qed.

Lemma keeps_free t i : keeps_ids t (ch_free t i).
Proof.
  unfold ch_free. case_match; [done |]. split; [simpl; lia |]. intros k _.
  rewrite !ch_lookup_none. simpl. intros Hf j c Hj Hu.
  apply list_lookup_insert_Some in Hj as [(_ & <- & _) | [_ Hj]]; [done | by eapply Hf].
Qed.

Lemma keeps_set t k i v :
  ch_by_local t k = Some i -> local_id v = local_id (ch_at t i) -> keeps_ids t (ch_set t i v).
Proof.
  intros (Hi & Hu & _)%ch_by_local_some Hv. split; [simpl; lia |]. intros n _.
  rewrite !ch_lookup_none. simpl. intros Hf j c Hj Hc.
  apply list_lookup_insert_Some in Hj as [(_ & <- & _) | [_ Hj]]; [| by eapply Hf].
  rewrite Hv. by eapply Hf.
Qed.

Lemma id_step_free t t' i : id_step t t' -> id_step t (ch_free t' i).
Proof.
  intros Hs Ht Hn. destruct (Hs Ht Hn) as ([Ht' Hn'] & Hle & Hk).
  assert (next_local_channel_id (ch_free t' i) = next_local_channel_id t') as E
    by (unfold ch_free; by case_match).
  split; [split; [by apply ch_free_ids | by rewrite E] |]. split; [by rewrite E |].
  etransitivity; [exact Hk | apply keeps_free].
Qed.

Lemma id_step_set t t' k i v :
  id_step t t' -> ch_by_local t' k = Some i -> local_id v = local_id (ch_at t' i) ->
  id_step t (ch_set t' i v).
Proof.
  intros Hs Hl Hv Ht Hn. pose proof (ch_by_local_some _ _ _ Hl) as (Hi & Hu & _).
  destruct (Hs Ht Hn) as ([Ht' Hn'] & Hle & Hk).
  split; [split; [by eapply ch_set_ids | done] |]. split; [done |].
  etransitivity; [exact Hk | by eapply keeps_set].
Qed.

Lemma id_step_alloc t t' m i v :
  ch_alloc t m = (Some i, t') -> used v = true -> local_id v = local_id (ch_at t' i) ->
  id_step t (ch_set t' i v).
Proof.
  intros Ha Hv Hl [Ht Hn] Hm. revert Ha Hl. unfold ch_alloc.
  destruct (_ <=? _) eqn:Em; [done |]. destruct (ch_scan _ _ _) as [k|] eqn:Es; [|done].
  intros Ha Hl. assert (Hal : ch_alloc t m = (Some i, t')) by (unfold ch_alloc; by rewrite Em, Es).
  injection Ha as <- <-. apply ch_scan_some in Es as (j & c & -> & Hj & _).
  unfold ch_at in Hl. simpl in Hl.
  rewrite nth_lookup, list_lookup_insert_eq in Hl by (by eapply lookup_lt_Some). simpl in Hl.
  destruct (ch_alloc_lookup t _ m _ v 0 Ht Hm Hn Hal Hv Hl) as [Hids _].
  assert (keeps_ids t (ch_set (ch_alloc t m).2 (0 + j)%nat v)) as Hk.
  { rewrite Hal. cbn [snd]. split; [simpl; rewrite u32_small; lia |]. intros k Hk Hf.
    destruct (ch_alloc_lookup t _ m _ v k Ht Hm Hn Hal Hv Hl) as (_ & _ & ->).
    by replace (k =? next_local_channel_id t) with false by lia. }
  rewrite Hal in Hk. split; [split; [exact Hids |] |]; simpl; rewrite u32_small by lia; [lia |].
  split; [lia |]. cbn [snd] in Hk. rewrite u32_small in Hk by lia. exact Hk.
Qed.

Lemma alloc_none_table t t' m : ch_alloc t m = (None, t') -> t' = t.
Proof. unfold ch_alloc. repeat case_match; congruence. Qed.

Section Tables.
Context `{Sodium} `{SizeT} {SP : SodiumSpec _}.

Definition tbl (c c' : session) : Prop := id_step (chans c) (chans c').

Lemma tbl_refl c : tbl c c.
Proof. apply id_step_refl. Qed.

(** What leaves the table alone. *)
Lemma tbl_same c c' : chans c' = chans c -> tbl c c'.
Proof. unfold tbl. intros ->. apply id_step_refl. Qed.

Lemma send_chans c p n : chans (ss_send_pdu c p n).2 = chans c.
Proof. by destruct (ss_send_only c p n) as (st & o & ->). Qed.
Lemma send_encoded_chans c e k : chans (send_encoded c e k).2 = chans c.
Proof. by destruct (send_encoded_only c e k) as (st & o & ->). Qed.
End Tables.

(** [chans_of lem t]: from the lemma that the call [t] leaves the table alone,
    the equation for its result, which it names. *)
Ltac chans_of lem t :=
  let E := fresh "E" in
  let Hc := fresh "Hc" in
  pose proof lem as Hc; destruct t as [? ?] eqn:E; cbn [snd] in Hc.

(** [chans_cases]: branch by branch, to the branches that need a lemma. *)
Ltac chans_cases := repeat (cbv zeta; case_match; try reflexivity).

(** [chans_sent]: the branches that end with a send. *)
Ltac chans_sent :=
  match goal with
  | E : ss_send_pdu ?c ?p ?n = _ |- _ =>
      let Hs := fresh "Hs" in
      pose proof (send_chans c p n) as Hs; rewrite E in Hs; exact Hs
  | E : send_encoded ?c ?e ?k = _ |- _ =>
      let Hs := fresh "Hs" in
      pose proof (send_encoded_chans c e k) as Hs; rewrite E in Hs; exact Hs
  | |- chans (snd (send_encoded ?c ?e ?k)) = _ => exact (send_encoded_chans c e k)
  end.

Section Same.
Context `{Sodium} `{SizeT} {SP : SodiumSpec _}.

Lemma client_auth_chans c : chans (client_send_auth_device c).2 = chans c.
Proof. unfold client_send_auth_device. chans_cases; chans_sent. Qed.

Lemma derive_both_chans c a b : chans (derive_both c a b).2 = chans c.
Proof. unfold derive_both. chans_cases. Qed.

Lemma send_hello_chans c h : chans (send_hello c h).2 = chans c.
Proof. unfold send_hello. chans_cases. Qed.

Lemma queue_hello_chans c : chans (queue_local_hello c).2 = chans c.
Proof.
  unfold queue_local_hello. chans_cases; rewrite send_hello_chans; done.
Qed.

Lemma handshake_start_chans c : chans (handshake_start c).2 = chans c.
Proof.
  unfold handshake_start. destruct (crypto_kx_keypair (rng c)) as [[[pk sk]|] e]; [|done].
  cbv zeta. destruct (role _); [done |].
  set (c1 := _ <| eph_sk := _ |>). chans_of (queue_hello_chans c1) (queue_local_hello c1).
  by case_match.
Qed.

Lemma ss_header_chans c key : chans (send_ss_header c key).2 = chans c.
Proof. unfold send_ss_header. chans_cases. Qed.

Lemma derive_client_chans c : chans (derive_ss_keys_client c).2 = chans c.
Proof. unfold derive_ss_keys_client. chans_cases. apply derive_both_chans. Qed.

Lemma derive_server_chans c : chans (derive_ss_keys_server c).2 = chans c.
Proof. unfold derive_ss_keys_server. chans_cases. apply derive_both_chans. Qed.

Lemma accept_hello_chans c h : chans (client_accept_hello c h).2 = chans c.
Proof.
  unfold client_accept_hello. cbv zeta. case_match; [| done | done].
  case_match; [done |]. set (c1 := emit_hello_received _).
  assert (chans c1 = chans c) as Hc1 by done.
  chans_of (derive_client_chans c1) (derive_ss_keys_client c1). case_match; [done |].
  unfold client_send_ss_header_c2s.
  match goal with |- context [send_ss_header ?c ?k] =>
    chans_of (ss_header_chans c k) (send_ss_header c k) end.
  case_match; simpl; congruence.
Qed.

Lemma server_hello_chans c h : chans (server_peer_hello c h).2 = chans c.
Proof.
  unfold server_peer_hello. case_match; [done |]. cbv zeta.
  set (c1 := emit_hello_received _). assert (chans c1 = chans c) as Hc1 by (subst c1; by case_match).
  clearbody c1. chans_of (queue_hello_chans c1) (queue_local_hello c1).
  case_match; [simpl; congruence |].
  match goal with |- context [derive_ss_keys_server ?c] =>
    chans_of (derive_server_chans c) (derive_ss_keys_server c) end.
  case_match; simpl; congruence.
Qed.

Lemma peer_hello_chans c body : chans (handle_peer_hello c body).2 = chans c.
Proof.
  unfold handle_peer_hello. case_match; [| done | done].
  case_match; [apply server_hello_chans |]. unfold client_peer_hello.
  do 2 (case_match; [done |]). cbv zeta. rewrite accept_hello_chans. by case_match.
Qed.

Lemma peer_ss_chans c body : chans (handle_peer_ss_header c body).2 = chans c.
Proof.
  unfold handle_peer_ss_header. case_match; [done |]. destruct (role c).
  - case_match; [|done]. cbv zeta. unfold server_send_ss_header_s2c.
    match goal with |- context [send_ss_header ?c ?k] =>
      chans_of (ss_header_chans c k) (send_ss_header c k) end.
    case_match; assumption.
  - case_match; [|done]. cbv zeta.
    match goal with |- context [client_send_auth_device ?c] =>
      chans_of (client_auth_chans c) (client_send_auth_device c) end.
    case_match; assumption.
Qed.

Lemma auth_device_chans c p : chans (handle_auth_device_pdu c p).2 = chans c.
Proof.
  unfold handle_auth_device_pdu. chans_cases. cbn [snd]. unfold server_send_auth_fail.
  cbn -[send_encoded]. apply send_encoded_chans.
Qed.

Lemma auth_ok_chans c p : chans (handle_auth_ok_pdu c p).2 = chans c.
Proof. unfold handle_auth_ok_pdu. chans_cases. Qed.

Lemma auth_fail_chans c p : chans (handle_auth_fail_pdu c p).2 = chans c.
Proof. unfold handle_auth_fail_pdu. chans_cases. Qed.

Lemma decide_chans c a k n : chans (sodchan_auth_decide_ex c a k n).2 = chans c.
Proof.
  unfold sodchan_auth_decide_ex, server_send_auth_ok, server_send_auth_fail.
  chans_cases; chans_sent.
Qed.

Lemma disconnect_chans c r m : chans (sodchan_disconnect c r m).2 = chans c.
Proof.
  unfold sodchan_disconnect. case_match; [done |]. cbv zeta. case_match; [|done].
  cbn -[send_encoded]. apply send_encoded_chans.
Qed.
End Same.

Section Changes.
Context `{Sodium} `{SizeT} {SP : SodiumSpec _}.

Lemma tbl_put c c' k i v ev :
  chans c' = chans c -> ch_by_local (chans c) k = Some i ->
  local_id v = local_id (ch_at (chans c) i) -> tbl c (queue (put_ch c' i v) ev).
Proof.
  intros Hc Hi Hv. unfold tbl. change (chans (queue _ _)) with (ch_set (chans c') i v).
  rewrite Hc. by apply (id_step_set _ _ k); [apply id_step_refl | |].
Qed.

Lemma tbl_put_quiet c c' k i v :
  chans c' = chans c -> ch_by_local (chans c) k = Some i ->
  local_id v = local_id (ch_at (chans c) i) -> tbl c (put_ch c' i v).
Proof. intros. exact (tbl_put c c' k i v EVENT_NONE ltac:(done) ltac:(done) ltac:(done)). Qed.

Lemma tbl_free c c' i :
  chans c' = chans c -> tbl c (c' <| chans := ch_free (chans c') i |>).
Proof. intros Hc. unfold tbl. simpl. rewrite Hc. apply id_step_free, id_step_refl. Qed.

Lemma tbl_mux_open c p : tbl c (mux_channel_open c p).2.
Proof.
  unfold mux_channel_open. case_match; [| by apply tbl_same..].
  case_match; [apply tbl_same, send_encoded_chans |].
  destruct (ch_alloc _ _) as [[i|] t] eqn:Ea; cbv zeta.
  - by apply (id_step_alloc _ t _ i _ Ea).
  - apply alloc_none_table in Ea as ->. apply tbl_same. unfold refuse_open.
    exact (send_encoded_chans _ _ _).
Qed.

Lemma tbl_mux_confirm c p : tbl c (mux_channel_open_confirm c p).2.
Proof.
  unfold mux_channel_open_confirm. case_match; [| by apply tbl_same..].
  repeat case_match; try by apply tbl_same. all: by eapply tbl_put.
Qed.

Lemma tbl_mux_open_fail c p : tbl c (mux_channel_open_fail c p).2.
Proof.
  unfold mux_channel_open_fail. repeat case_match; try by apply tbl_same. by apply tbl_free.
Qed.

Lemma tbl_mux_data c p : tbl c (mux_channel_data c p).2.
Proof.
  unfold mux_channel_data. repeat case_match; try by apply tbl_same. all: by eapply tbl_put.
Qed.

Lemma tbl_mux_window c p : tbl c (mux_channel_window c p).2.
Proof.
  unfold mux_channel_window. repeat case_match; try by apply tbl_same. all: by eapply tbl_put.
Qed.

Lemma tbl_mux_eof c p : tbl c (mux_channel_eof c p).2.
Proof.
  unfold mux_channel_eof. repeat case_match; try by apply tbl_same. all: by eapply tbl_put.
Qed.

Lemma tbl_mux_close c p : tbl c (mux_channel_close c p).2.
Proof.
  unfold mux_channel_close. repeat case_match; try by apply tbl_same. by apply tbl_free.
Qed.

Lemma tbl_mux_ping c p : tbl c (mux_ping c p).2.
Proof.
  unfold mux_ping. case_match; [| by apply tbl_same..]. apply tbl_same.
  exact (send_encoded_chans _ _ _).
Qed.

Lemma tbl_mux c p : tbl c (handle_mux_pdu c p).2.
Proof.
  unfold handle_mux_pdu. case_match; [| by apply tbl_same..].
  repeat (lazymatch goal with |- context [if ?b then _ else _] => destruct b end;
    [solve [auto using tbl_mux_open, tbl_mux_confirm, tbl_mux_open_fail, tbl_mux_data,
       tbl_mux_window, tbl_mux_eof, tbl_mux_close, tbl_mux_ping, tbl_refl] |]).
  case_match; [| by apply tbl_same].
  unfold mux_disconnect. apply tbl_same. chans_cases.
Qed.
End Changes.

Section Runs.
Context `{Sodium} `{SizeT} {SP : SodiumSpec _}.

(** [sent_first]: split the send a call starts with, and keep what it says
    of the table. *)
Ltac sent_first :=
  match goal with
  | |- context [ss_send_pdu ?c ?p ?n] => chans_of (send_chans c p n) (ss_send_pdu c p n)
  end; case_match; [by apply tbl_same |].

Lemma tbl_channel_open c name : tbl c (sodchan_channel_open c name).2.
Proof.
  unfold sodchan_channel_open. do 4 (cbv zeta; case_match; [apply tbl_refl |]).
  destruct (ch_alloc _ _) as [[i|] t] eqn:Ea; cbv zeta;
    [| apply alloc_none_table in Ea as ->; by apply tbl_same].
  match goal with |- context [put_ch ?c ?i ?v] => set (c1 := put_ch c i v) end.
  assert (tbl c c1) as Hc1 by (by apply (id_step_alloc _ t _ i _ Ea)).
  case_match; [| by apply id_step_free..]. case_match.
  match goal with |- context [ss_send_pdu ?c ?p ?n] =>
    chans_of (send_chans c p n) (ss_send_pdu c p n) end.
  unfold tbl in *. rewrite <- Hc in Hc1. case_match; [by apply id_step_free | done].
Qed.

Lemma tbl_channel_accept c id a : tbl c (sodchan_channel_accept c id a).2.
Proof.
  unfold sodchan_channel_accept. case_match; [apply tbl_refl |].
  destruct (ch_by_local _ _) as [i|] eqn:Hi; [|apply tbl_refl]. cbv zeta.
  do 2 (case_match; [apply tbl_refl |]). destruct a.
  - case_match; [| apply tbl_refl..]. case_match. sent_first. by eapply tbl_put.
  - case_match; [| apply tbl_refl..]. case_match. sent_first. by apply tbl_free.
Qed.

Lemma tbl_channel_send mem c id d n : tbl c (sodchan_channel_send mem c id d n).2.
Proof.
  unfold sodchan_channel_send. do 2 (case_match; [apply tbl_refl |]).
  destruct (open_slot _ _) as [i|] eqn:Hi; [|apply tbl_refl]. cbv zeta.
  apply open_slot_some in Hi as [Hi _]. do 4 (case_match; [apply tbl_refl |]).
  case_match; [| apply tbl_refl..]. case_match. sent_first. by eapply tbl_put_quiet.
Qed.

Lemma tbl_channel_eof c id : tbl c (sodchan_channel_eof c id).2.
Proof.
  unfold sodchan_channel_eof. case_match; [apply tbl_refl |].
  destruct (open_slot _ _) as [i|] eqn:Hi; [|apply tbl_refl]. cbv zeta.
  apply open_slot_some in Hi as [Hi _]. case_match; [apply tbl_refl |].
  case_match; [| apply tbl_refl..]. case_match. sent_first. by eapply tbl_put_quiet.
Qed.

Lemma tbl_window_adjust c id n : tbl c (sodchan_channel_window_adjust c id n).2.
Proof.
  unfold sodchan_channel_window_adjust. do 2 (case_match; [apply tbl_refl |]).
  destruct (open_slot _ _) as [i|] eqn:Hi; [|apply tbl_refl]. cbv zeta.
  apply open_slot_some in Hi as [Hi _].
  case_match; [| apply tbl_refl..]. case_match. sent_first. by eapply tbl_put_quiet.
Qed.

Lemma tbl_channel_close c id : tbl c (sodchan_channel_close c id).2.
Proof.
  unfold sodchan_channel_close. case_match; [apply tbl_refl |].
  destruct (ch_by_local _ _) as [i|] eqn:Hi; [|apply tbl_refl]. cbv zeta.
  case_match; [apply tbl_refl |]. cbn [snd]. apply tbl_free.
  case_match; [apply send_encoded_chans | done].
Qed.

Lemma tbl_frame c b : tbl c (handle_frame c b).2.
Proof.
  unfold handle_frame. case_match;
    [by apply tbl_same | apply tbl_same, peer_hello_chans | apply tbl_same, peer_ss_chans |].
  unfold handle_encrypted_pdu. do 3 (case_match; [by apply tbl_same |]).
  destruct (crypto_secretstream_pull _ _) as [[[st plain] tag]|]; [|by apply tbl_same].
  cbv zeta. do 3 (case_match; [by apply tbl_same |]).
  case_match; [| by apply tbl_same..]. unfold dispatch_pdu.
  set (c1 := c <| ss_pull := st |>). change (tbl c) with (tbl c1).
  case_match; try (by apply tbl_same); try apply tbl_mux.
  repeat case_match; apply tbl_same;
    auto using auth_device_chans, auth_ok_chans, auth_fail_chans.
Qed.

(** *** The ids a context has given and the bytes it may give ids for *)

Definition spent (x : ctx) : Z := next_local_channel_id (chans (core x)) + len (in_buf x).

(** What a call may spend. *)
Definition cost (op : call) : Z :=
  1 + match op with Call_feed_input (Some data) => len data | _ => 0 end.

Definition costs (ops : list call) : Z := fold_right (fun op n => cost op + n) 0 ops.

(** [within K n x x']: from [x] to [x'] at most [n] is spent; and when [K]
    holds, the ids that are free and passed stay free. *)
Definition within (K : Prop) (n : Z) (x x' : ctx) : Prop :=
  ids_ok (chans (core x)) -> spent x + n < 4294967295 ->
  ids_ok (chans (core x')) /\ spent x' <= spent x + n /\
  (K -> keeps_ids (chans (core x)) (chans (core x'))).

Lemma within_refl K n x : 0 <= n -> within K n x x.
Proof. intros Hn Hi _. split_and!; [done | lia | done]. Qed.

Lemma within_tbl K x c' : tbl (core x) c' -> within K 1 x (mk_ctx c' (in_buf x)).
Proof.
  unfold within, spent. intros Hc Hx Hn. simpl.
  destruct Hc as (? & ? & ?); [done | lia |]. split_and!; [done | lia | done].
Qed.

Lemma within_next K m n x y z :
  within K m x y -> within K n y z -> 0 <= m -> 0 <= n -> within K (m + n) x z.
Proof.
  unfold within. intros Ha Hb Hm0 Hn0 Hi Hn. destruct Ha as (Hy & Hle & Hk); [done | lia |].
  destruct Hb as (Hz & Hle' & Hk'); [done | lia |]. split_and!; [done | lia |].
  intros HK. etransitivity; eauto.
Qed.

Lemma process_turn_within K x :
  ctx_wf x ->
  let '(x', more) := process_turn x in within K (if more then 0 else 1) x x'.
Proof.
  intros Hx. pose proof (process_turn_consumes x) as Hlt.
  assert (within K 1 x x) as Hid by (by apply within_refl).
  assert (forall msg, within K 1 x (mk_ctx (fail (core x) SODCHAN_ERR_PROTOCOL msg).2 (in_buf x)))
    as Hf by (intros; apply within_tbl; by apply tbl_same).
  revert Hlt. unfold process_turn. destruct (stopped _); [done |]. destruct (_ <? 4); [done |].
  destruct (next_frame _ _) as [[m body] | rc |]; [| by case_match | done].
  pose proof (tbl_frame (core x) body) as Ht. destruct (handle_frame (core x) body) as [rc c'].
  cbn [snd] in Ht. case_match; intros Hlt; [by apply within_tbl |].
  specialize (Hlt _ Hx eq_refl). unfold within, spent in *. simpl in *. intros Hi Hn.
  destruct Ht as (? & ? & ?); [done | lia |]. split_and!; [done | lia | done].
Qed.

Lemma process_loop_within K n x : ctx_wf x -> within K 1 x (process_loop n x).
Proof.
  revert x. induction n as [|n IH]; intros x Hx; simpl; [by apply within_refl |].
  pose proof (process_turn_within K x Hx) as Ht. pose proof (wf_process_turn x Hx) as Hw.
  destruct (process_turn x) as [x' []]; cbn [fst] in Hw; [|done].
  apply (within_next K 0 1 _ x'); [done | by apply IH | done..].
Qed.

Lemma feed_within K x data :
  ctx_wf x -> within K (cost (Call_feed_input data)) x (sodchan_feed_input x data).2.
Proof.
  intros Hx. pose proof (within_refl K) as Hid.
  unfold sodchan_feed_input. destruct data as [data|]; [|by apply Hid].
  case_match; [apply Hid; unfold cost; lia |]. case_match; [apply Hid; unfold cost; lia |].
  cbv zeta. match goal with |- context [take (Z.to_nat ?t) data] => set (t_ := t) in * end.
  assert (t_ <= len data /\ (0 < t_ -> t_ <= SODCHAN_IN_BUF_SIZE - len (in_buf x))) as [Ht Ht'].
  { subst t_. case_match; lia. }
  case_match; [apply Hid; unfold cost; lia |]. cbn [snd]. destruct Hx as [Hc Hb].
  set (x1 := mk_ctx (core x) (in_buf x ++ take (Z.to_nat t_) data)).
  assert (len (in_buf x1) <= len (in_buf x) + len data) as Hl.
  { subst x1. simpl. rewrite length_app, length_take. lia. }
  assert (within K 1 x1 (process_input x1)) as Hw.
  { apply process_loop_within. split; [done |]. subst x1. simpl.
    rewrite length_app, length_take. lia. }
  unfold within, spent in *. unfold cost. change (core x1) with (core x) in Hw.
  intros Hi Hn. destruct Hw as (Hi' & Hle & Hk); [done | lia |]. split_and!; [done | lia | done].
Qed.

Lemma cost_pos op : 0 < cost op.
Proof. unfold cost. repeat case_match; lia. Qed.

Lemma api_within x op : ctx_wf x -> within (op <> Call_reset) (cost op) x (api_ctx x op).2.
Proof.
  intros Hx. set (K := op <> Call_reset).
  assert (forall c', tbl (core x) c' -> within K 1 x (mk_ctx c' (in_buf x))) as Ht
    by apply within_tbl.
  destruct op; cbn [api_ctx]; unfold on_core; cbn [snd];
    try (change (cost _) with 1; apply Ht;
         auto using tbl_channel_open, tbl_channel_accept, tbl_channel_send, tbl_channel_eof,
           tbl_channel_close, tbl_window_adjust, tbl_same, decide_chans, disconnect_chans).
  - unfold within, spent, cost, sodchan_reset. cbv zeta. cbn [core in_buf length].
    rewrite handshake_start_chans. simpl. intros [_ Hn] _.
    split_and!; [split; [apply table_empty_ids | done] | lia | by intros []].
  - pose proof (feed_within K x data Hx) as Hf. by destruct (sodchan_feed_input x data).
  - apply tbl_same. unfold sodchan_get_output. destruct buf; [|done]. simpl.
    by destruct (get_output _ _).
  - apply tbl_same. unfold sodchan_next_event. destruct ev; [|done]. simpl.
    by destruct (next_event _).
Qed.

Lemma costs_nonneg ops : 0 <= costs ops.
Proof. induction ops as [|op ops IH]; simpl; [lia |]. pose proof (cost_pos op). lia. Qed.

Lemma costs_app ops ops' : costs (ops ++ ops') = costs ops + costs ops'.
Proof. induction ops as [|op ops IH]; simpl; lia. Qed.

Lemma run_app x ops ops' : run x (ops ++ ops') = run (run x ops) ops'.
Proof. apply fold_left_app. Qed.

Lemma run_within x ops :
  ctx_wf x -> Forall call_ok ops ->
  within (Forall (fun op => op <> Call_reset) ops) (costs ops) x (run x ops).
Proof.
  revert x. induction ops as [|op ops IH]; intros x Hx Hops; [by apply within_refl |].
  apply Forall_cons_iff in Hops as [Hop Hops]. simpl.
  set (K := Forall _ (op :: ops)). pose proof (cost_pos op). pose proof (costs_nonneg ops).
  apply (within_next K _ _ _ (api_ctx x op).2); [| | lia..].
  - intros Hi Hn. destruct (api_within x op Hx Hi Hn) as (? & ? & Hk).
    split_and!; [done.. |]. intros HK. apply Hk. by apply Forall_cons_iff in HK as [? _].
  - intros Hi Hn. destruct (IH _ (wf_api x op Hop Hx) Hops Hi Hn) as (? & ? & Hk).
    split_and!; [done.. |]. intros HK. apply Hk. by apply Forall_cons_iff in HK as [_ ?].
Qed.

Lemma create_table lab m1 m2 r cfg e x :
  sodchan_create lab m1 m2 r cfg e = Some x -> chans (core x) = chtable_empty.
Proof.
  unfold sodchan_create. destruct (role_of r); [|done]. cbv zeta.
  do 4 (lazymatch goal with |- (if ?b then None else _) = _ -> _ => destruct b; [done |] end).
  destruct (apply_config_defaults _) as [st [spk have]]. case_match; [done |].
  match goal with |- context [handshake_start ?c] =>
    chans_of (handshake_start_chans c) (handshake_start c) end.
  destruct (z =? SODCHAN_OK); cbn [negb]; intros Hx; [|done]. injection Hx as <-. exact Hc.
Qed.
Lemma run_wf x ops : Forall call_ok ops -> ctx_wf x -> ctx_wf (run x ops).
Proof.
  revert x. induction ops as [|op ops IH]; intros x Hops Hx; [done |].
  apply Forall_cons_iff in Hops as [Hop Hops]. simpl. apply IH; [done |]. by apply wf_api.
Qed.

(** The same, of a run that starts with a new context: the table after it is a
    map, and from then on a run without a reset gives fresh ids only. *)
Lemma created_within lab m1 m2 r cfg e x ops ops' :
  config_wf cfg -> sodchan_create lab m1 m2 r (Some cfg) e = Some x ->
  Forall call_ok (ops ++ ops') -> costs (ops ++ ops') < 4294967295 ->
  ids_ok (chans (core (run x ops))) /\
  next_local_channel_id (chans (core (run x ops))) <= costs ops /\
  (Forall (fun op => op <> Call_reset) ops' ->
   keeps_ids (chans (core (run x ops))) (chans (core (run x (ops ++ ops'))))).
Proof.
  intros Hcfg Hx Hops Hn. pose proof (wf_create lab m1 m2 r (Some cfg) e x Hcfg Hx) as Hw.
  assert (in_buf x = []) as Hb by (by eapply quiet_create).
  apply Forall_app in Hops as [Ho Ho']. rewrite costs_app in Hn.
  pose proof (costs_nonneg ops) as H1. pose proof (costs_nonneg ops') as H2.
  destruct (run_within x ops Hw Ho) as (Hi & Hle & _).
  { rewrite (create_table lab m1 m2 r (Some cfg) e x Hx). split; [apply table_empty_ids | done]. }
  { unfold spent. rewrite (create_table lab m1 m2 r (Some cfg) e x Hx), Hb. simpl. lia. }
  revert Hle. unfold spent at 2. rewrite (create_table lab m1 m2 r (Some cfg) e x Hx), Hb. simpl.
  intros Hle. rewrite run_app.
  destruct (run_within (run x ops) ops' (run_wf x ops Ho Hw) Ho') as (_ & _ & Hk); [done | lia |].
  split_and!; [done | unfold spent in Hle; lia | done].
Qed.
End Runs.
