(* ===== verification/Transport.v ===== *)
(** What the channel calls put on the wire and what the peer's handlers make of
    it: the functional behaviour of the calls and of the mux handlers, and the
    delivery of an encrypted PDU from one end to the other. *)

From Stdlib Require Import ZArith Lia ZifyBool String.
From S2P Require Import Prelude Defs WireBase WireHello WireAuth WireMux Crypto EventQueue.
From S2P Require Import OutBuf Channels Session Auth Handshake Mux Engine Api Invariant Calm.
From S2P Require Import EngineLemmas.
Local Open Scope Z_scope.
Local Open Scope sodchan_scope.

Section Calls.
Context `{Sodium} `{SizeT} {SP : SodiumSpec _}.

(** *** Small facts *)

Lemma sent_chans c p c' : sent c p c' -> chans c' = chans c /\ evq c' = evq c.
Proof. by intros (st & ct & _ & _ & _ & ->). Qed.

Lemma unsent_chans c c' : unsent c c' -> chans c' = chans c /\ evq c' = evq c.
Proof. by intros [-> | ->]. Qed.

(** A PDU encoded at the head of a buffer is what is sent. *)
Lemma send_head c c' e (p t : bytes) n code rc :
  out_wf (out c) -> e = Ok (p ++ t, n) -> n = len p -> len p + 21 < 4294967296 ->
  send_encoded c e code = (rc, c') ->
  (rc <> SODCHAN_OK /\ unsent c c') \/ (rc = SODCHAN_OK /\ sent c p c').
Proof.
  intros Hwf -> -> Hp. unfold send_encoded. intros Hs.
  apply ss_send_bytes in Hs; [| done | done]. tauto.
Qed.

(** *** Sending data *)

Lemma open_slot_local c id i : open_slot c id = Some i -> local_id (ch_at (chans c) i) = id.
Proof. intros (Hi & _)%open_slot_some. by apply ch_by_local_some in Hi as (_ & _ & ?). Qed.

(** What a send has checked when it reaches the encoder. *)
Definition send_guards (c : session) (i : nat) (n : Z) : Prop :=
  let ch := ch_at (chans c) i in
  state c = SODCHAN_STATE_READY /\ local_eof ch = false /\ n <= ch_max_packet ch /\
  n <= SODCHAN_DATA_MAX /\ n <= send_window ch.

Lemma data_encode_call (r : Z) (d : bytes) :
  len d <= SODCHAN_DATA_MAX ->
  sodchan_wire_channel_data_encode r (Some d) (len d)
    (Some (zeros (Z.to_nat (size_t (9 + len d))))) = Ok (data_bytes r d, 9 + len d).
Proof.
  intros Hd. consts. rewrite size_t_small by lia.
  assert (length (data_bytes r d) = Z.to_nat (9 + len d)) as Hl
    by (unfold data_bytes; simpl; lia).
  pose proof (data_encode_ok r d [] (zeros (Z.to_nat (9 + len d)))) as He.
  rewrite app_nil_r in He. rewrite He.
  - rewrite drop_ge; [by rewrite app_nil_r |]. unfold zeros. rewrite length_replicate. lia.
  - lia.
  - unfold zeros. rewrite length_replicate. lia.
Qed.

Lemma length_data_bytes (r : Z) (d : bytes) : len (data_bytes r d) = 9 + len d.
Proof. unfold data_bytes. simpl. lia. Qed.

(** Past its guards, a send is the send of the PDU and of nothing else. *)
Lemma channel_send_guarded c id i d :
  open_slot c id = Some i -> send_guards c i (len d) ->
  sodchan_channel_send true c id (Some d) (len d) =
    let ch := ch_at (chans c) i in
    let '(rc, cs) := ss_send_pdu c (Some (data_bytes (peer_id ch) d)) (9 + len d) in
    if negb (rc =? SODCHAN_OK) then (rc, cs) else
    (SODCHAN_OK, put_ch cs i (ch <| send_window := u32 (send_window ch - u32 (len d)) |>)).
Proof.
  intros Ho (Hr & He & Hp & Hd & Hw). unfold sodchan_channel_send. cbn [isSome negb].
  rewrite andb_false_r, bool_decide_eq_true_2 by done. cbn [negb].
  rewrite Ho, He. cbv zeta. replace (ch_max_packet _ <? len d) with false by lia.
  replace (SODCHAN_DATA_MAX <? len d) with false by lia. cbn [orb].
  replace (send_window _ <? len d) with false by lia. by rewrite data_encode_call.
Qed.

Lemma channel_send_refused mem c id d rc c' :
  sodchan_channel_send mem c id (Some d) (len d) = (rc, c') ->
  (rc <> SODCHAN_OK /\ c' = c) \/
  (mem = true /\ exists i, open_slot c id = Some i /\ send_guards c i (len d)).
Proof.
  unfold sodchan_channel_send. cbn [isSome negb]. rewrite andb_false_r.
  case_bool_decide as Hr; cbn [negb]; [|intros [= <- <-]; by left].
  destruct (open_slot c id) as [i|] eqn:Ho; [|intros [= <- <-]; by left]. cbv zeta.
  destruct (local_eof _) eqn:He; [intros [= <- <-]; by left |].
  destruct (_ || _) eqn:Em; [intros [= <- <-]; by left |].
  destruct (send_window _ <? _) eqn:Ew; [intros [= <- <-]; by left |].
  destruct mem; [|intros [= <- <-]; by left]. intros _. right. split; [done |].
  exists i. split; [done |]. apply orb_false_iff in Em as [? ?].
  unfold send_guards. split_and!; [done | done | lia | lia | lia].
Qed.

(** A send is all or nothing. *)
Lemma channel_send_spec mem c id d rc c' :
  session_wf c -> sodchan_channel_send mem c id (Some d) (len d) = (rc, c') ->
  (rc <> SODCHAN_OK /\ unsent c c') \/
  (rc = SODCHAN_OK /\ exists i cs,
     open_slot c id = Some i /\ send_guards c i (len d) /\
     sent c (data_bytes (peer_id (ch_at (chans c) i)) d) cs /\
     c' = put_ch cs i ((ch_at (chans c) i)
            <| send_window := send_window (ch_at (chans c) i) - len d |>)).
Proof.
  intros Hc Hs. pose proof Hs as Hs'.
  apply channel_send_refused in Hs' as [[? ->] | (-> & i & Ho & Hg)]; [left; by split; [|left] |].
  rewrite (channel_send_guarded c id i) in Hs by done. cbv zeta in Hs.
  destruct (open_slot_found c id i Hc Ho) as (Hi & Hu & Hr).
  destruct (ss_send_pdu _ _ _) as [rc1 cs] eqn:E.
  destruct Hg as (Hst & He & Hp & Hd & Hw). unfold channel_ranges in Hr.
  rewrite <- (length_data_bytes (peer_id (ch_at (chans c) i))) in E.
  rewrite <- (app_nil_r (data_bytes _ _)) in E at 1.
  apply ss_send_bytes in E; [| apply Hc | rewrite length_data_bytes; consts; lia].
  destruct E as [[Hne Hun] | (-> & _ & Hsent)].
  - replace (negb (rc1 =? SODCHAN_OK)) with true in Hs by lia.
    injection Hs as <- <-. by left.
  - injection Hs as <- <-. right. split; [done |]. exists i, cs.
    split; [done |]. split; [done |]. split; [done |].
    rewrite (u32_small (len d)) by (consts; lia). by rewrite u32_small by lia.
Qed.
End Calls.

(** ** What the handlers make of a PDU *)

Section Receive.
Context `{Sodium} `{SizeT} {SP : SodiumSpec _}.

(** DATA: accepted exactly on an open channel, within its window. *)
Definition data_acceptable (ch : sodchan_channel_t) (n : Z) : bool :=
  bool_decide (ch_state ch = SODCHAN_CH_OPEN) && (n <=? recv_window ch) &&
  (n <=? SODCHAN_DATA_MAX).

Lemma mux_data_ok c r d i :
  session_wf c -> 0 <= r < 4294967296 -> ch_by_local (chans c) r = Some i ->
  data_acceptable (ch_at (chans c) i) (len d) = true ->
  mux_channel_data c (data_bytes r d) =
    (0, queue (put_ch c i ((ch_at (chans c) i)
                 <| recv_window := recv_window (ch_at (chans c) i) - len d |>))
          (EVENT_CHANNEL_DATA r d)).
Proof.
  intros Hc Hr Hi Ha. unfold data_acceptable in Ha.
  apply andb_true_iff in Ha as [[Ho%bool_decide_eq_true Hw]%andb_true_iff Hm].
  destruct (found_slot c r i Hc Hi) as (_ & _ & Hrg). unfold channel_ranges in Hrg.
  pose proof (ch_by_local_some _ _ _ Hi) as (_ & _ & Hid).
  unfold mux_channel_data. rewrite data_decode_bytes by (consts; lia). rewrite Hi. cbv zeta.
  rewrite Ho. rewrite bool_decide_eq_true_2 by done. cbn [negb andb].
  replace (recv_window _ <? _) with false by lia.
  replace (SODCHAN_DATA_MAX <? _) with false by lia.
  rewrite (u32_small (len d)) by (consts; lia). rewrite u32_small by lia.
  simpl local_id. rewrite Hid. destruct d; [done |].
  replace (0 <? len (b :: d)) with true by (simpl; lia). done.
Qed.

Lemma mux_data_rejected c r d :
  0 <= r < 4294967296 -> len d <= 4294967295 - 9 ->
  (match ch_by_local (chans c) r with
   | Some i => data_acceptable (ch_at (chans c) i) (len d)
   | None => false
   end) = false ->
  exists msg, mux_channel_data c (data_bytes r d) = fail c SODCHAN_ERR_PROTOCOL msg.
Proof.
  intros Hr Hd Ha. unfold mux_channel_data. rewrite data_decode_bytes by done.
  destruct (ch_by_local (chans c) r) as [i|]; [|by eexists]. cbv zeta.
  unfold data_acceptable in Ha. set (ch := ch_at (chans c) i) in *.
  destruct (negb (bool_decide (ch_state ch = SODCHAN_CH_OPEN))) eqn:Eo.
  { destruct (negb (bool_decide (ch_state ch = SODCHAN_CH_PENDING))); by eexists. }
  apply negb_false_iff in Eo. rewrite Eo in Ha. cbn [andb] in *.
  destruct (recv_window ch <? len d) eqn:Ew; [by eexists |].
  destruct (SODCHAN_DATA_MAX <? len d) eqn:Em; [by eexists |]. lia.
Qed.

(** WINDOW: the credit is added modulo 2^32; a stale id is ignored. *)
Lemma mux_window_ok c r add i :
  0 <= r < 4294967296 -> 0 <= add < 4294967296 -> ch_by_local (chans c) r = Some i ->
  ch_state (ch_at (chans c) i) = SODCHAN_CH_OPEN ->
  mux_channel_window c (window_bytes r add) =
    let w := u32 (send_window (ch_at (chans c) i) + add) in
    (0, queue (put_ch c i ((ch_at (chans c) i) <| send_window := w |>))
          (EVENT_CHANNEL_WINDOW r add w)).
Proof.
  intros Hr Ha Hi Ho. unfold mux_channel_window.
  rewrite (proj2 (window_decode_ok (window_bytes r add) r add)) by done.
  rewrite Hi. cbv zeta. rewrite Ho, bool_decide_eq_true_2 by done. cbn [negb].
  simpl local_id. by apply ch_by_local_some in Hi as (_ & _ & ->).
Qed.

(** OPEN *)
Lemma open_decode_call s w p name :
  0 <= s < 4294967296 -> 0 <= w < 4294967296 -> 0 <= p < 4294967296 -> len name <= 63 ->
  sodchan_wire_channel_open_decode (Some (open_bytes s w p name)) (SODCHAN_CHANNEL_NAME_MAX + 1) =
  Ok {| co_sender_channel := s; co_init_window := w; co_max_packet := p;
        co_name := name ++ [Byte.x00]; co_name_len := len name |}.
Proof.
  intros. apply open_decode_ok. exists name. simpl. split_and!; try done; try lia.
  consts. unfold field_buf. simpl. by rewrite take_ge by lia.
Qed.

Lemma allowed_name l name :
  channel_name_allowed l (name ++ [Byte.x00]) = channel_name_allowed l name.
Proof. unfold channel_name_allowed. by rewrite cstr_app_nul. Qed.

(** A name that is not on the list makes no channel and no event. *)
Lemma mux_open_denied c s w p name :
  session_wf c -> 0 <= s < 4294967296 -> 0 <= w < 4294967296 -> 0 <= p < 4294967296 ->
  len name <= 63 -> channel_name_allowed (allowed_channels (cfg c)) name = false ->
  exists c', mux_channel_open c (open_bytes s w p name) = (0, c') /\
    chans c' = chans c /\ evq c' = evq c /\
    (unsent c c' \/
     sent c (open_fail_bytes s SODCHAN_REASON_ADMIN_PROHIBITED (lit "not allowed")) c').
Proof.
  intros Hc Hs Hw Hp Hn Ha. unfold mux_channel_open. rewrite open_decode_call by done.
  cbn [co_name co_sender_channel co_init_window co_max_packet]. rewrite allowed_name, Ha.
  cbn [negb]. unfold refuse_open.
  destruct (send_encoded c _ _) as [rc c'] eqn:E. exists c'. split; [done |].
  pose proof (open_fail_encode_ok s SODCHAN_REASON_ADMIN_PROHIBITED (lit "not allowed") []
    (zeros 64) ltac:(vm_compute; done) ltac:(vm_compute; done)) as He.
  rewrite app_nil_r in He. change (len (lit "not allowed")) with 11 in He.
  rewrite He in E. eapply send_head in E; [| apply Hc | done | done | done].
  destruct E as [[_ Hu] | [_ Hsn]].
  - destruct (unsent_chans _ _ Hu). split_and!; [done | done | by left].
  - destruct (sent_chans _ _ _ Hsn). split_and!; [done | done | by right].
Qed.

(** The channel an accepted OPEN leaves behind. *)
Definition pending_channel (c : session) (s w p : Z) (name : bytes) : sodchan_channel_t :=
  mk_channel SODCHAN_CH_PENDING (next_local_channel_id (chans c)) s true (cstr name) w
    (initial_window (cfg c)) (if p =? 0 then max_packet (cfg c) else p) false false.

Lemma snprintf_name cap name :
  len name < cap -> snprintf_s cap (name ++ [Byte.x00]) = cstr name.
Proof.
  intros Hn. unfold snprintf_s. rewrite cstr_app_nul.
  pose proof (strlen_le name). unfold strlen in *. apply take_ge. lia.
Qed.

Lemma mux_open_accepted c s w p name i t :
  session_wf c -> 0 <= s < 4294967296 -> 0 <= w < 4294967296 -> 0 <= p < 4294967296 ->
  len name <= 63 -> channel_name_allowed (allowed_channels (cfg c)) name = true ->
  ch_alloc (chans c) (max_channels (cfg c)) = (Some i, t) ->
  mux_channel_open c (open_bytes s w p name) =
    let ch := pending_channel c s w p name in
    (0, queue (c <| chans := ch_set t i ch |>)
          (EVENT_CHANNEL_OPEN (local_id ch) s (cstr name) w (ch_max_packet ch))).
Proof.
  intros Hc Hs Hw Hp Hn Ha Hal. unfold mux_channel_open. rewrite open_decode_call by done.
  cbn [co_name co_sender_channel co_init_window co_max_packet]. rewrite allowed_name, Ha.
  cbn [negb]. rewrite Hal. cbv zeta.
  destruct (ch_alloc_wf _ _ (wf_chans c Hc) _ _ Hal) as (_ & _ & Hch & _).
  rewrite !snprintf_name by (consts; lia). simpl. rewrite Hch. done.
Qed.
End Receive.

(** ** From one end to the other *)

Section Delivery.
Context `{Sodium} `{SizeT} {SP : SodiumSpec _}.

(** A record that decrypts reaches the dispatch. *)
Lemma pull_delivers c p ct st :
  crypto_secretstream_pull (ss_pull c) ct = Some (st, p, TAG_MESSAGE) -> ss_pull_ready c = true ->
  0 < len p <= SODCHAN_DATA_MAX + 64 -> len p <= max_record_size (cfg c) ->
  exists x, head p = Some x /\
    handle_encrypted_pdu c ct = dispatch_pdu (c <| ss_pull := st |>) (byte.unsigned x) p.
Proof.
  intros Hpull Hready Hp Hmax. apply pull_length in Hpull as Hl.
  destruct p as [|x rest]; [simpl in Hp; lia |]. exists x. split; [done |].
  unfold handle_encrypted_pdu. rewrite Hready. cbn [negb]. consts.
  replace (len ct <? 17) with false by lia. cbv zeta.
  replace (_ || _) with false by lia. rewrite Hpull.
  destruct tags_differ as [Hf Hr].
  replace (TAG_MESSAGE =? TAG_FINAL) with false by lia.
  replace (TAG_MESSAGE =? TAG_REKEY) with false by lia.
  replace (len (x :: rest) =? 0) with false by (simpl; lia).
  by rewrite (proj2 (pdu_type_ok (x :: rest) (byte.unsigned x)) (ex_intro _ x (ex_intro _ rest (conj eq_refl eq_refl)))).
Qed.

(** A PDU one end sent reaches the dispatch of the other end unchanged, and
    the two cipher states stay in step. *)
Lemma sent_delivers cA cA' cB p :
  sent cA p cA' -> ss_synced (ss_push cA) (ss_pull cB) -> ss_pull_ready cB = true ->
  0 < len p <= SODCHAN_DATA_MAX + 64 -> len p <= max_record_size (cfg cB) ->
  exists ct st x,
    unread (out cA') = unread (out cA) ++ frame_bytes ct /\ len ct = len p + SODCHAN_SS_ABYTES /\
    head p = Some x /\ ss_synced (ss_push cA') st /\
    handle_encrypted_pdu cB ct = dispatch_pdu (cB <| ss_pull := st |>) (byte.unsigned x) p.
Proof.
  intros (st & ct & _ & Hpush & _ & ->) Hsync Hready Hp Hmax.
  apply push_length in Hpush as Hl.
  destruct (push_pull _ _ _ _ _ _ Hsync Hpush) as (st' & Hpull & Hsync').
  destruct (pull_delivers cB p ct st' Hpull Hready Hp Hmax) as (x & Hx & Hh).
  exists ct, st', x. split_and!; try done. consts. lia.
Qed.

Lemma dispatch_mux c t p :
  state c = SODCHAN_STATE_READY \/ state c = SODCHAN_STATE_DRAINING ->
  dispatch_pdu c t p = handle_mux_pdu c p.
Proof. unfold dispatch_pdu. by intros [-> | ->]. Qed.

Lemma mux_data_dispatch c r d : handle_mux_pdu c (data_bytes r d) = mux_channel_data c (data_bytes r d).
Proof. done. Qed.

Lemma mux_window_dispatch c r a :
  handle_mux_pdu c (window_bytes r a) = mux_channel_window c (window_bytes r a).
Proof. done. Qed.

Lemma mux_open_dispatch c s w p n :
  handle_mux_pdu c (open_bytes s w p n) = mux_channel_open c (open_bytes s w p n).
Proof. done. Qed.

Lemma mux_confirm_dispatch c s r w p :
  handle_mux_pdu c (confirm_bytes s r w p) = mux_channel_open_confirm c (confirm_bytes s r w p).
Proof. done. Qed.

(** The channel of slot [i] after an update of that slot. *)
Lemma put_ch_at c i ch v :
  channels (chans c) !! i = Some ch -> ch_at (chans (put_ch c i v)) i = v.
Proof.
  intros Hi. unfold ch_at, put_ch. simpl. rewrite nth_lookup, list_lookup_insert_eq; [done |].
  by eapply lookup_lt_Some.
Qed.

(** Data sent on an open channel arrives as one event with the same bytes,
    and both windows shrink by its length. *)
Lemma data_end_to_end mem cA cA' cB id d i j :
  session_wf cA -> session_wf cB ->
  sodchan_channel_send mem cA id (Some d) (len d) = (SODCHAN_OK, cA') ->
  open_slot cA id = Some i ->
  ss_synced (ss_push cA) (ss_pull cB) -> ss_pull_ready cB = true ->
  state cB = SODCHAN_STATE_READY \/ state cB = SODCHAN_STATE_DRAINING ->
  9 + len d <= max_record_size (cfg cB) ->
  ch_by_local (chans cB) (peer_id (ch_at (chans cA) i)) = Some j ->
  data_acceptable (ch_at (chans cB) j) (len d) = true ->
  exists ct cB',
    unread (out cA') = unread (out cA) ++ frame_bytes ct /\
    handle_encrypted_pdu cB ct = (0, cB') /\
    ss_synced (ss_push cA') (ss_pull cB') /\
    evq cB' = (sodchan_i_queue_event (evq cB)
                 (EVENT_CHANNEL_DATA (peer_id (ch_at (chans cA) i)) d)).2 /\
    send_window (ch_at (chans cA') i) = send_window (ch_at (chans cA) i) - len d /\
    recv_window (ch_at (chans cB') j) = recv_window (ch_at (chans cB) j) - len d.
Proof.
  intros HA HB Hs Ho Hsync Hready Hst Hmax Hj Hacc.
  apply channel_send_spec in Hs as [[Hne _] | (_ & i' & cs & Ho' & Hg & Hsent & ->)];
    [done | | done].
  assert (i' = i) as -> by congruence. set (r := peer_id _) in *.
  destruct (open_slot_found cA id i HA Ho) as (Hi & _ & Hrg).
  pose proof (ch_by_local_some _ _ _ Hi) as (Hli & _ & _).
  pose proof (ch_by_local_some _ _ _ Hj) as (Hlj & _ & _).
  destruct Hg as (_ & _ & _ & Hd & _). unfold channel_ranges in Hrg.
  destruct (sent_delivers cA cs cB (data_bytes r d) Hsent Hsync Hready)
    as (ct & st & x & Hout & _ & _ & Hsync' & Hh).
  { rewrite length_data_bytes. consts. lia. }
  { by rewrite length_data_bytes. }
  rewrite dispatch_mux, mux_data_dispatch in Hh by done.
  rewrite (mux_data_ok _ r d j) in Hh; [| by apply wf_set_ss_pull | subst r; lia | done | done].
  destruct (sent_chans _ _ _ Hsent) as [Hch _].
  eexists ct, _. split; [exact Hout |]. split; [exact Hh |]. split; [done |]. split; [done |].
  split; [erewrite put_ch_at; [done | by rewrite Hch] |].
  change (chans (queue ?c _)) with (chans c). by erewrite put_ch_at.
Qed.
End Delivery.

(** ** The other calls, and their arrival *)

Section MoreCalls.
Context `{Sodium} `{SizeT} {SP : SodiumSpec _}.

Lemma send_pdu_head c c' (p t : bytes) n rc :
  out_wf (out c) -> n = len p -> len p + 21 < 4294967296 ->
  ss_send_pdu c (Some (p ++ t)) n = (rc, c') ->
  (rc <> SODCHAN_OK /\ unsent c c') \/ (rc = SODCHAN_OK /\ sent c p c').
Proof.
  intros Hwf -> Hp Hs. apply ss_send_bytes in Hs; [| done | done]. tauto.
Qed.

Lemma rc_ok_eqb rc : rc <> SODCHAN_OK -> (rc =? SODCHAN_OK) = false.
Proof. consts. lia. Qed.

Lemma window_adjust_spec c id n rc c' :
  session_wf c -> sodchan_channel_window_adjust c id n = (rc, c') ->
  (rc <> SODCHAN_OK /\ unsent c c') \/
  (rc = SODCHAN_OK /\ exists i cs,
     open_slot c id = Some i /\ state c = SODCHAN_STATE_READY /\ n <> 0 /\
     sent c (window_bytes (peer_id (ch_at (chans c) i)) n) cs /\
     c' = put_ch cs i ((ch_at (chans c) i)
            <| recv_window := u32 (recv_window (ch_at (chans c) i) + n) |>)).
Proof.
  intros Hc. unfold sodchan_channel_window_adjust.
  destruct (n =? 0) eqn:En; [intros [= <- <-]; left; by split; [|left] |].
  case_bool_decide as Hst; cbn [negb]; [|intros [= <- <-]; left; by split; [|left]].
  destruct (open_slot c id) as [i|] eqn:Ho; [|intros [= <- <-]; left; by split; [|left]].
  cbv zeta. rewrite window_encode_ok by (vm_compute; done).
  destruct (ss_send_pdu _ _ _) as [rc1 cs] eqn:E.
  apply send_pdu_head in E; [| apply Hc | done | done].
  destruct E as [[Hne Hu] | [-> Hs]].
  - rewrite rc_ok_eqb by done. intros [= <- <-]. by left.
  - intros [= <- <-]. right. split; [done |]. exists i, cs. split_and!; try done. lia.
Qed.

(** A credit reaches the sender: both windows grow alike. *)
Lemma credit_end_to_end cA cB cB' id n i j :
  session_wf cA -> session_wf cB -> 0 < n < 4294967296 ->
  sodchan_channel_window_adjust cB id n = (SODCHAN_OK, cB') ->
  open_slot cB id = Some j ->
  ss_synced (ss_push cB) (ss_pull cA) -> ss_pull_ready cA = true ->
  state cA = SODCHAN_STATE_READY \/ state cA = SODCHAN_STATE_DRAINING ->
  9 <= max_record_size (cfg cA) ->
  ch_by_local (chans cA) (peer_id (ch_at (chans cB) j)) = Some i ->
  ch_state (ch_at (chans cA) i) = SODCHAN_CH_OPEN ->
  exists ct cA',
    unread (out cB') = unread (out cB) ++ frame_bytes ct /\
    handle_encrypted_pdu cA ct = (0, cA') /\
    ss_synced (ss_push cB') (ss_pull cA') /\
    send_window (ch_at (chans cA') i) = u32 (send_window (ch_at (chans cA) i) + n) /\
    recv_window (ch_at (chans cB') j) = u32 (recv_window (ch_at (chans cB) j) + n).
Proof.
  intros HA HB Hn Hs Ho Hsync Hready Hst Hmax Hi Hopen.
  apply window_adjust_spec in Hs as [[Hne _] | (_ & j' & cs & Ho' & _ & _ & Hsent & ->)];
    [done | | done].
  assert (j' = j) as -> by congruence. set (r := peer_id _) in *.
  destruct (open_slot_found cB id j HB Ho) as (Hj & _ & Hrg). unfold channel_ranges in Hrg.
  pose proof (ch_by_local_some _ _ _ Hj) as (Hlj & _ & _).
  pose proof (ch_by_local_some _ _ _ Hi) as (Hli & _ & _).
  destruct (sent_delivers cB cs cA (window_bytes r n) Hsent Hsync Hready)
    as (ct & st & x & Hout & _ & _ & Hsync' & Hh); [split; vm_compute; done | done |].
  rewrite dispatch_mux, mux_window_dispatch in Hh by done.
  rewrite (mux_window_ok _ r n i) in Hh by (try done; subst r; lia). cbv zeta in Hh.
  destruct (sent_chans _ _ _ Hsent) as [Hch _].
  eexists ct, _. split; [exact Hout |]. split; [exact Hh |]. split; [done |]. split.
  - change (chans (queue ?c _)) with (chans c). by erewrite put_ch_at.
  - erewrite put_ch_at; [done | by rewrite Hch].
Qed.

(** The channel an OPEN starts. *)
Definition opening_channel (c : session) (name : bytes) : sodchan_channel_t :=
  mk_channel SODCHAN_CH_OPENING (next_local_channel_id (chans c)) 0 false (cstr name) 0
    (initial_window (cfg c)) (max_packet (cfg c)) false false.

Lemma name_prefix (name : bytes) n :
  strlen name <= n -> snprintf_s (n + 1) name = cstr name.
Proof. intros Hn. unfold snprintf_s, strlen in *. apply take_ge. lia. Qed.

Lemma open_encode_call s w p (name : bytes) :
  strlen name <= 63 ->
  exists t, sodchan_wire_channel_open_encode s w p (Some name) (strlen name) (Some (zeros 128)) =
    Ok (open_bytes s w p (cstr name) ++ t, 14 + strlen name).
Proof.
  intros Hn. destruct (cstr_prefix name) as [t Ht]. eexists. rewrite Ht at 1. unfold strlen in *.
  apply open_encode_ok; [lia |]. unfold zeros. rewrite length_replicate. lia.
Qed.

Lemma length_open_bytes s w p name : len (open_bytes s w p name) = 14 + len name.
Proof. unfold open_bytes. simpl. lia. Qed.

Lemma channel_open_ok c name id c' :
  session_wf c -> sodchan_channel_open c (Some name) = (SODCHAN_OK, id, c') ->
  exists i t,
    state c = SODCHAN_STATE_READY /\ strlen name <= 63 /\
    channel_name_allowed (allowed_channels (cfg c)) name = true /\
    ch_alloc (chans c) (max_channels (cfg c)) = (Some i, t) /\
    id = Some (next_local_channel_id (chans c)) /\
    sent (c <| chans := ch_set t i (opening_channel c name) |>)
      (open_bytes (next_local_channel_id (chans c)) (initial_window (cfg c))
         (max_packet (cfg c)) (cstr name)) c'.
Proof.
  intros Hc. unfold sodchan_channel_open. change (default [] (Some name)) with name.
  cbn [isSome negb orb]. case_bool_decide as Hn; [done |].
  case_bool_decide as Hst; cbn [negb]; [|done]. cbv zeta.
  destruct (SODCHAN_CHANNEL_NAME_MAX <? strlen name) eqn:El; [done |].
  destruct (channel_name_allowed _ name) eqn:Ea; cbn [negb]; [|done].
  destruct (ch_alloc _ _) as [[i|] t] eqn:Hal; [|done]. cbv zeta.
  destruct (ch_alloc_wf _ _ (wf_chans c Hc) _ _ Hal) as (_ & _ & Hch & _).
  assert (strlen name <= 63) as Hl by (revert El; consts; lia).
  change (ch_at (chans (c <| chans := t |>)) i) with (ch_at t i).
  rewrite (name_prefix name SODCHAN_CHANNEL_NAME_MAX), Hch by done.
  match goal with |- context [put_ch _ i ?v] => change v with (opening_channel c name) end.
  destruct (open_encode_call (next_local_channel_id (chans c)) (initial_window (cfg c))
    (max_packet (cfg c)) name Hl) as [tl He].
  change (local_id (opening_channel c name)) with (next_local_channel_id (chans c)).
  match goal with |- context [put_ch ?c0 i ?v] =>
    change (put_ch c0 i v) with (c <| chans := ch_set t i v |>) end.
  match goal with |- context [match ?e with Ok _ => _ | Fail _ => _ | Oob => _ end] =>
    change e with (sodchan_wire_channel_open_encode (next_local_channel_id (chans c))
      (initial_window (cfg c)) (max_packet (cfg c)) (Some name) (strlen name)
      (Some (zeros 128))) end.
  rewrite He.
  destruct (ss_send_pdu _ _ _) as [rc cs] eqn:E.
  eapply send_pdu_head in E;
    [| apply Hc | by rewrite length_open_bytes | rewrite length_open_bytes; unfold strlen in Hl; lia].
  destruct E as [[Hne _] | [-> Hs]].
  - by rewrite rc_ok_eqb.
  - cbn [negb]. intros [= <- <-]. exists i, t. by split_and!.
Qed.
End MoreCalls.

(** ** The establishment of a channel *)

Section Establish.
Context `{Sodium} `{SizeT} {SP : SodiumSpec _}.

(** An OPEN arrives: a pending channel that names the opener's. *)
Lemma open_end_to_end cA cA' cB name id :
  session_wf cA -> session_wf cB ->
  sodchan_channel_open cA (Some name) = (SODCHAN_OK, Some id, cA') ->
  ss_synced (ss_push cA) (ss_pull cB) -> ss_pull_ready cB = true ->
  state cB = SODCHAN_STATE_READY \/ state cB = SODCHAN_STATE_DRAINING ->
  77 <= max_record_size (cfg cB) ->
  channel_name_allowed (allowed_channels (cfg cB)) (cstr name) = true ->
  forall j t, ch_alloc (chans cB) (max_channels (cfg cB)) = (Some j, t) ->
  exists ct cB',
    unread (out cA') = unread (out cA) ++ frame_bytes ct /\
    handle_encrypted_pdu cB ct = (0, cB') /\
    ss_synced (ss_push cA') (ss_pull cB') /\
    channels (chans cB') !! j =
      Some (pending_channel cB id (initial_window (cfg cA)) (max_packet (cfg cA)) name) /\
    evq cB' = (sodchan_i_queue_event (evq cB)
      (EVENT_CHANNEL_OPEN (next_local_channel_id (chans cB)) id (cstr name)
         (initial_window (cfg cA)) (max_packet (cfg cA)))).2.
Proof.
  intros HA HB Hs Hsync Hready Hst Hmax Hal j t Hj.
  apply channel_open_ok in Hs as (i & tA & _ & Hn & _ & _ & [= ->] & Hsent); [|done].
  pose proof (wf_cfg cA HA) as []. pose proof (table_wf_next _ (wf_chans cA HA)).
  assert (len (cstr name) <= 63) as Hn' by done.
  edestruct (sent_delivers _ cA' cB _ Hsent Hsync Hready)
    as (ct & st & x & Hout & _ & _ & Hsync' & Hh);
    [rewrite length_open_bytes; consts; lia | rewrite length_open_bytes; lia |].
  rewrite dispatch_mux, mux_open_dispatch in Hh by done.
  rewrite (mux_open_accepted _ _ _ _ _ j t) in Hh by (try done; try lia; by apply wf_set_ss_pull).
  cbv zeta in Hh.
  eexists ct, _. split; [exact Hout |]. split; [exact Hh |]. split; [done |]. split.
  - destruct (ch_alloc_wf _ _ (wf_chans cB HB) _ _ Hj) as (Hl & Hlt & _).
    unfold pending_channel. rewrite cstr_idemp. simpl.
    rewrite list_lookup_insert_eq; [done |]. by rewrite Hl.
  - unfold queue. simpl. rewrite cstr_idemp.
    replace (max_packet (cfg cA) =? 0) with false by lia. done.
Qed.

Lemma channel_accept_ok c id c' :
  session_wf c -> sodchan_channel_accept c id true = (SODCHAN_OK, c') ->
  exists i cs, let ch := ch_at (chans c) i in
    ch_by_local (chans c) id = Some i /\ ch_state ch = SODCHAN_CH_PENDING /\
    sent c (confirm_bytes (local_id ch) (peer_id ch) (initial_window (cfg c))
              (max_packet (cfg c))) cs /\
    exists ev, c' = queue (put_ch cs i (ch <| ch_state := SODCHAN_CH_OPEN |>
                                          <| recv_window := initial_window (cfg c) |>)) ev.
Proof.
  intros Hc. unfold sodchan_channel_accept.
  case_bool_decide as Hst; cbn [negb]; [|done].
  destruct (ch_by_local (chans c) id) as [i|] eqn:Hi; [|done]. cbv zeta.
  case_bool_decide as Hp; cbn [negb]; [|done].
  destruct (ch_have_peer_id _); cbn [negb]; [|done].
  rewrite confirm_encode_ok by (vm_compute; done).
  destruct (ss_send_pdu _ _ _) as [rc cs] eqn:E.
  pose proof (ss_send_only c (Some (confirm_bytes (local_id (ch_at (chans c) i))
    (peer_id (ch_at (chans c) i)) (initial_window (cfg c)) (max_packet (cfg c)) ++
    drop 17 (zeros 64))) 17) as (st & o & Eo).
  rewrite E in Eo. cbn [snd] in Eo.
  apply send_pdu_head in E; [| apply Hc | done | done].
  destruct E as [[Hne _] | [-> Hs]]; [by rewrite rc_ok_eqb |]. cbn [negb].
  assert (cfg cs = cfg c) as -> by (by rewrite Eo).
  intros [= <-]. exists i, cs. split_and!; [done | done | done | by eexists].
Qed.

Lemma mux_confirm_ok c s r w p i :
  0 <= s < 4294967296 -> 0 <= r < 4294967296 -> 0 <= w < 4294967296 ->
  0 <= p < 4294967296 -> ch_by_local (chans c) r = Some i ->
  ch_state (ch_at (chans c) i) = SODCHAN_CH_OPENING ->
  exists ev,
  mux_channel_open_confirm c (confirm_bytes s r w p) =
    (0, queue (put_ch c i ((ch_at (chans c) i) <| peer_id := s |> <| ch_have_peer_id := true |>
                 <| send_window := w |>
                 <| ch_max_packet := if p =? 0 then max_packet (cfg c) else p |>
                 <| ch_state := SODCHAN_CH_OPEN |>)) ev).
Proof.
  intros Hs Hr Hw Hp Hi Ho. unfold mux_channel_open_confirm.
  rewrite (proj2 (confirm_decode_ok (confirm_bytes s r w p) s r w p)) by done.
  rewrite Hi. cbv zeta. rewrite Ho, bool_decide_eq_true_2 by done. cbn [negb]. by eexists.
Qed.

(** An acceptance arrives: the opener's channel opens towards the acceptor's,
    and each end may send what the other is ready to receive. *)
Lemma accept_end_to_end cA cB cB' id i j :
  session_wf cA -> session_wf cB ->
  sodchan_channel_accept cB id true = (SODCHAN_OK, cB') ->
  ch_by_local (chans cB) id = Some j ->
  ss_synced (ss_push cB) (ss_pull cA) -> ss_pull_ready cA = true ->
  state cA = SODCHAN_STATE_READY \/ state cA = SODCHAN_STATE_DRAINING ->
  17 <= max_record_size (cfg cA) ->
  ch_by_local (chans cA) (peer_id (ch_at (chans cB) j)) = Some i ->
  ch_state (ch_at (chans cA) i) = SODCHAN_CH_OPENING ->
  exists ct cA', let a := ch_at (chans cA') i in let b := ch_at (chans cB') j in
    unread (out cB') = unread (out cB) ++ frame_bytes ct /\
    handle_encrypted_pdu cA ct = (0, cA') /\
    ss_synced (ss_push cB') (ss_pull cA') /\
    ch_state a = SODCHAN_CH_OPEN /\ ch_state b = SODCHAN_CH_OPEN /\
    peer_id a = local_id b /\ peer_id b = local_id a /\
    send_window a = recv_window b /\
    ch_max_packet a = max_packet (cfg cB).
Proof.
  intros HA HB Hs Hj Hsync Hready Hst Hmax Hi Hopen.
  apply channel_accept_ok in Hs as (j' & cs & Hj' & Hp & Hsent & ev & ->); [|done].
  assert (j' = j) as -> by congruence.
  destruct (found_slot cB id j HB Hj) as (Hlj & _ & Hrg). unfold channel_ranges in Hrg.
  pose proof (ch_by_local_some _ _ _ Hi) as (Hli & _ & Hida).
  pose proof (wf_cfg cB HB) as [].
  edestruct (sent_delivers _ cs cA _ Hsent Hsync Hready)
    as (ct & st & x & Hout & _ & _ & Hsync' & Hh); [split; vm_compute; done | done |].
  rewrite dispatch_mux, mux_confirm_dispatch in Hh by done.
  edestruct (mux_confirm_ok (cA <| ss_pull := st |>) (local_id (ch_at (chans cB) j))
    (peer_id (ch_at (chans cB) j)) (initial_window (cfg cB)) (max_packet (cfg cB)) i)
    as (ev' & Hm); [lia | lia | lia | lia | done | done |].
  rewrite Hm in Hh. destruct (sent_chans _ _ _ Hsent) as [Hch _].
  eexists ct, _. split; [exact Hout |]. split; [exact Hh |]. split; [done |].
  change (chans (queue ?c _)) with (chans c).
  erewrite !put_ch_at; [| by rewrite Hch | done]. simpl.
  replace (max_packet (cfg cB) =? 0) with false by lia. by rewrite Hida.
Qed.
End Establish.
