(* ===== verification/Link.v ===== *)
(** A channel between two ends, over any interleaving: each host sends data,
    grants credit and reads events when it likes, and the transport moves the
    bytes between the two contexts in pieces of any size.

    [link_step] is the step relation; [link_inv] the invariant: what is under
    way in each direction is a sequence of messages whose frames make up the
    bytes in the buffers and on the wire, whose cipher states are between those
    of the two ends, and whose sizes balance the windows. *)

From Stdlib Require Import ZArith Lia ZifyBool String.
From stdpp Require Import relations.
From S2P Require Import Prelude Defs WireBase WireHello WireAuth WireMux Crypto EventQueue.
From S2P Require Import OutBuf Channels Session Auth Handshake Mux Engine Api Invariant Calm.
From S2P Require Import EngineLemmas Safety Transport.
Local Open Scope Z_scope.
Local Open Scope sodchan_scope.

(** ** The cipher stream *)

Section Stream.
Context `{Sodium} {SP : SodiumSpec _}.

(** [stream w r l]: the plaintexts and records of [l] are under way between a
    writer in state [w] and a reader in state [r]. *)
Inductive stream : ss_state -> ss_state -> list (bytes * bytes) -> Prop :=
  | stream_nil w r : ss_synced w r -> stream w r []
  | stream_push w r l p w' ct :
      stream w r l -> crypto_secretstream_push w p TAG_MESSAGE = Some (w', ct) ->
      stream w' r (l ++ [(p, ct)]).

Lemma stream_synced w r : stream w r [] -> ss_synced w r.
Proof.
  inversion 1 as [? ? Hs | ? ? l p w' ct ? ? E]; [done |].
  by destruct l.
Qed.

(** The reader takes the oldest record. *)
Lemma stream_pull w r p ct l :
  stream w r ((p, ct) :: l) ->
  exists r', crypto_secretstream_pull r ct = Some (r', p, TAG_MESSAGE) /\ stream w r' l.
Proof.
  remember ((p, ct) :: l) as k eqn:E. intros Hs. revert p ct l E.
  induction Hs as [| w r l' p' w' ct' Hs IH Hp]; intros p ct l E; [done |].
  destruct l' as [|[p1 ct1] l'].
  - injection E as -> -> <-. apply stream_synced in Hs.
    destruct (push_pull _ _ _ _ _ _ Hs Hp) as (r' & Hr & Hs'). exists r'.
    split; [done | by apply stream_nil].
  - injection E as -> -> <-. destruct (IH p ct l' eq_refl) as (r' & Hr & Hs').
    exists r'. split; [done | by eapply stream_push].
Qed.
End Stream.

(** ** The channel table under an update of a slot *)

Lemma ch_scan_insert p (l : list sodchan_channel_t) i c v k :
  l !! i = Some c -> p v = p c -> ch_scan p (<[i := v]> l) k = ch_scan p l k.
Proof.
  revert i k. induction l as [|x l IH]; intros i k Hi Hp; [done |]. destruct i as [|i].
  - injection Hi as ->. simpl. by rewrite Hp.
  - simpl. by rewrite IH.
Qed.

Lemma ch_by_local_set t i c v id :
  channels t !! i = Some c -> used v = used c -> local_id v = local_id c ->
  ch_by_local (ch_set t i v) id = ch_by_local t id.
Proof.
  intros Hi Hu Hl. unfold ch_by_local. simpl. eapply ch_scan_insert; [done |]. by rewrite Hu, Hl.
Qed.

(** ** Messages *)

Section Link.
Context `{Sodium} `{SizeT} {SP : SodiumSpec _}.

(** What the two ends of a channel say to each other. *)
Inductive msg : Type :=
  | Data (d : bytes)
  | Credit (n : Z).

(** The PDU of a message to the channel the receiver calls [r]. *)
Definition msg_bytes (r : Z) (m : msg) : bytes :=
  match m with Data d => data_bytes r d | Credit n => window_bytes r n end.

Definition msg_ok (m : msg) : Prop :=
  match m with Data d => len d <= SODCHAN_DATA_MAX | Credit n => 0 < n < 4294967296 end.

(** The data of messages, what it takes of a window, and the credit. *)
Fixpoint datas (l : list msg) : list bytes :=
  match l with [] => [] | Data d :: l => d :: datas l | Credit _ :: l => datas l end.

Fixpoint data_size (l : list msg) : Z :=
  match l with [] => 0 | Data d :: l => len d + data_size l | Credit _ :: l => data_size l end.

Fixpoint credit_size (l : list msg) : Z :=
  match l with [] => 0 | Data _ :: l => credit_size l | Credit n :: l => n + credit_size l end.

Lemma datas_app l l' : datas (l ++ l') = datas l ++ datas l'.
Proof. induction l as [|[d|n] l IH]; simpl; by rewrite ?IH. Qed.

Lemma data_size_app l l' : data_size (l ++ l') = data_size l + data_size l'.
Proof. induction l as [|[d|n] l IH]; simpl; lia. Qed.

Lemma credit_size_app l l' : credit_size (l ++ l') = credit_size l + credit_size l'.
Proof. induction l as [|[d|n] l IH]; simpl; lia. Qed.

Lemma sizes_nonneg l : Forall msg_ok l -> 0 <= data_size l /\ 0 <= credit_size l.
Proof.
  induction 1 as [|m l Hm Hl IH]; simpl; [lia |]. destruct m as [d|n]; simpl in Hm; lia.
Qed.

Lemma length_msg_bytes r m : msg_ok m -> 0 < len (msg_bytes r m) <= SODCHAN_DATA_MAX + 9.
Proof.
  destruct m as [d|n]; simpl; intros Hm; [| change (len (window_bytes r n)) with 9; consts; lia].
  change (length (data_bytes r d)) with (9 + length d)%nat. lia.
Qed.

(** ** The link *)

(** One side: its context, the channel's id and slot there, the bytes on the
    wire to the other side, what its host has sent and what it has read. *)
Record side : Type := mk_side {
  at_ : ctx;
  chan_id : Z;
  chan_slot : nat;
  wire : bytes;
  said : list bytes;
  heard : list bytes
}.

(** What a host reads of an event of the channel. *)
Definition event_data (id : Z) (ev : sodchan_event_t) : list bytes :=
  match ev with EVENT_CHANNEL_DATA i d => if i =? id then [d] else [] | _ => [] end.

(** The data events the host has still to read. *)
Definition waiting (s : side) : list bytes :=
  mjoin (event_data (chan_id s) <$> pending (evq (core (at_ s)))).

Abbreviation my_channel s := (ch_at (chans (core (at_ s))) (chan_slot s)).

(** A move of the side [x], the other being [y].  A call that is refused is a
    move like any other.  The one thing a host does not do here is to grant a
    credit that takes its receive window past 2^32 - 1: the code then wraps both
    windows, and data under way is refused. *)
Inductive side_step : side -> side -> side -> side -> Prop :=
  | step_send x y mem d rc c :
      sodchan_channel_send mem (core (at_ x)) (chan_id x) (Some d) (len d) = (rc, c) ->
      side_step x y
        (mk_side (mk_ctx c (in_buf (at_ x))) (chan_id x) (chan_slot x) (wire x)
           (if rc =? SODCHAN_OK then said x ++ [d] else said x) (heard x)) y
  | step_grant x y n rc c :
      0 <= n < 4294967296 -> (rc = SODCHAN_OK -> recv_window (my_channel x) + n < 4294967296) ->
      sodchan_channel_window_adjust (core (at_ x)) (chan_id x) n = (rc, c) ->
      side_step x y
        (mk_side (mk_ctx c (in_buf (at_ x))) (chan_id x) (chan_slot x) (wire x) (said x) (heard x)) y
  | step_output x y n bs c :
      0 <= n -> sodchan_get_output (core (at_ x)) true n = (bs, c) ->
      side_step x y
        (mk_side (mk_ctx c (in_buf (at_ x))) (chan_id x) (chan_slot x) (wire x ++ bs) (said x) (heard x)) y
  | step_input x y k n z :
      sodchan_feed_input (at_ x) (Some (take k (wire y))) = (n, z) ->
      side_step x y
        (mk_side z (chan_id x) (chan_slot x) (wire x) (said x) (heard x))
        (mk_side (at_ y) (chan_id y) (chan_slot y) (drop (Z.to_nat n) (wire y)) (said y) (heard y))
  | step_event x y ev c :
      sodchan_next_event (core (at_ x)) true = (Some ev, c) ->
      side_step x y
        (mk_side (mk_ctx c (in_buf (at_ x))) (chan_id x) (chan_slot x) (wire x) (said x)
           (heard x ++ event_data (chan_id x) ev)) y.

(** Either side moves. *)
Inductive link_step : side * side -> side * side -> Prop :=
  | step_left x y x' y' : side_step x y x' y' -> link_step (x, y) (x', y')
  | step_right x y x' y' : side_step y x y' x' -> link_step (x, y) (x', y').

(** The moves as functions: what a side becomes. *)
Definition send_side (x : side) (mem : bool) (d : bytes) : side :=
  let r := sodchan_channel_send mem (core (at_ x)) (chan_id x) (Some d) (len d) in
  mk_side (mk_ctx r.2 (in_buf (at_ x))) (chan_id x) (chan_slot x) (wire x)
    (if r.1 =? SODCHAN_OK then said x ++ [d] else said x) (heard x).

Definition output_side (x : side) (n : Z) : side :=
  let r := sodchan_get_output (core (at_ x)) true n in
  mk_side (mk_ctx r.2 (in_buf (at_ x))) (chan_id x) (chan_slot x) (wire x ++ r.1) (said x) (heard x).

Lemma send_side_step x y mem d : link_step (x, y) (send_side x mem d, y).
Proof. eapply step_left, step_send, surjective_pairing. Qed.

Definition input_pair (x y : side) (k : nat) : side * side :=
  let r := sodchan_feed_input (at_ y) (Some (take k (wire x))) in
  (mk_side (at_ x) (chan_id x) (chan_slot x) (drop (Z.to_nat r.1) (wire x)) (said x) (heard x),
   mk_side r.2 (chan_id y) (chan_slot y) (wire y) (said y) (heard y)).

Lemma input_pair_step x y k : link_step (x, y) (input_pair x y k).
Proof. eapply step_right, step_input, surjective_pairing. Qed.

Lemma output_side_step x y n : 0 <= n -> link_step (x, y) (output_side x n, y).
Proof. intros Hn. eapply step_left, step_output; [done | apply surjective_pairing]. Qed.

(** ** The invariant *)

(** An end of the channel that can go on, towards the peer's id [pid]. *)
Record end_ok (x : side) (pid : Z) : Prop := {
  eo_wf : ctx_wf (at_ x);
  eo_state : state (core (at_ x)) = SODCHAN_STATE_READY;
  eo_hs : hs (core (at_ x)) = SODCHAN_HS_DONE;
  eo_ready : ss_push_ready (core (at_ x)) = true /\ ss_pull_ready (core (at_ x)) = true;
  eo_record : SODCHAN_DATA_MAX + 9 <= max_record_size (cfg (core (at_ x))) /\
    max_record_size (cfg (core (at_ x))) + 21 < 4294967296;
  eo_slot : open_slot (core (at_ x)) (chan_id x) = Some (chan_slot x);
  eo_peer : peer_id (my_channel x) = pid
}.

(** What is under way from [x] to [y], with the record of each message. *)
Record lane (x y : side) (fl : list (msg * bytes)) : Prop := {
  la_ok : Forall (fun f => msg_ok f.1) fl;
  la_stream : stream (ss_push (core (at_ x))) (ss_pull (core (at_ y)))
    ((fun f => (msg_bytes (chan_id y) f.1, f.2)) <$> fl);
  la_bytes : in_buf (at_ y) ++ wire x ++ unread (out (core (at_ x))) =
    mjoin ((fun f => frame_bytes f.2) <$> fl)
}.

(** The ring of [y] is full, or has room. *)
Definition crowded (y : side) : Prop :=
  event_count (evq (core (at_ y))) = event_cap (evq (core (at_ y))).
Definition roomy (y : side) : Prop :=
  event_count (evq (core (at_ y))) < event_cap (evq (core (at_ y))).

Lemma roomy_not_crowded y : roomy y -> ~ crowded y.
Proof. unfold roomy, crowded. lia. Qed.

(** What [y] was handed of what arrived there: some of it, in order; and, while
    its ring has never been full between two moves ([K]), all of it, unless the
    ring has just become full. *)
Definition handed (K : Prop) (y : side) (arrived : list bytes) : Prop :=
  (heard y ++ waiting y) `sublist_of` arrived /\
  (K -> crowded y \/ heard y ++ waiting y = arrived).

(** The direction from [x] to [y], [bk] being what is under way back. *)
Record direction (K : Prop) (x y : side) (fl bk : list (msg * bytes)) : Prop := {
  di_end : end_ok x (chan_id y);
  di_lane : lane x y fl;
  di_window : send_window (my_channel x) + data_size fl.*1 + credit_size bk.*1 =
    recv_window (my_channel y);
  di_log : exists arrived, said x = arrived ++ datas fl.*1 /\ handed K y arrived
}.

Definition link_inv (K K' : Prop) (l : side * side) : Prop :=
  exists fl bk, direction K l.1 l.2 fl bk /\ direction K' l.2 l.1 bk fl.

(** A channel just established: nothing said, nothing under way, and each may
    send what the other is ready to receive. *)
Record established (x y : side) : Prop := {
  es_ends : end_ok x (chan_id y) /\ end_ok y (chan_id x);
  es_streams : ss_synced (ss_push (core (at_ x))) (ss_pull (core (at_ y))) /\
    ss_synced (ss_push (core (at_ y))) (ss_pull (core (at_ x)));
  es_windows : send_window (my_channel x) = recv_window (my_channel y) /\
    send_window (my_channel y) = recv_window (my_channel x);
  es_buffers : in_buf (at_ x) = [] /\ in_buf (at_ y) = [] /\ wire x = [] /\ wire y = [] /\
    unread (out (core (at_ x))) = [] /\ unread (out (core (at_ y))) = [];
  es_logs : said x = [] /\ said y = [] /\ heard x = [] /\ heard y = [] /\
    waiting x = [] /\ waiting y = []
}.

Lemma established_inv K K' x y : established x y -> link_inv K K' (x, y).
Proof.
  intros [[Ex Ey] [S1 S2] [W1 W2] (I1 & I2 & J1 & J2 & O1 & O2) (A1 & A2 & H1' & H2' & Q1 & Q2)].
  exists [], []. split; constructor; cbn [fst snd]; try done; simpl; try lia.
  - constructor; [done | by apply stream_nil | by rewrite I2, J1, O1].
  - exists []. unfold handed. rewrite A1, H2', Q2. split; [done |]. split; [done | by right].
  - constructor; [done | by apply stream_nil | by rewrite I1, J2, O2].
  - exists []. unfold handed. rewrite A2, H1', Q1. split; [done |]. split; [done | by right].
Qed.

(** ** The moves keep the invariant *)

(** The channel of a slot updated, its identity and its state kept. *)
Definition same_channel (ch v : sodchan_channel_t) : Prop :=
  ch_state v = ch_state ch /\ local_id v = local_id ch /\ peer_id v = peer_id ch /\
  ch_have_peer_id v = ch_have_peer_id ch.

Lemma used_state ch v : ch_state v = ch_state ch -> used v = used ch.
Proof. unfold used. by intros ->. Qed.

Lemma open_slot_put c id i v :
  open_slot c id = Some i -> session_wf c -> same_channel (ch_at (chans c) i) v ->
  open_slot (put_ch c i v) id = Some i /\ ch_at (chans (put_ch c i v)) i = v /\
  exists ch, channels (chans c) !! i = Some ch.
Proof.
  intros Ho Hc (Hs & Hl & Hp & Hh). pose proof (open_slot_some _ _ _ Ho) as (Hi & Hst & Hpe).
  pose proof (ch_by_local_some _ _ _ Hi) as (Hli & _ & _).
  split; [| split; [by eapply put_ch_at | by eexists]].
  unfold open_slot. change (chans (put_ch c i v)) with (ch_set (chans c) i v).
  erewrite ch_by_local_set; [| exact Hli | by apply used_state | exact Hl]. rewrite Hi.
  change (ch_set (chans c) i v) with (chans (put_ch c i v)). erewrite put_ch_at by exact Hli.
  cbv zeta. rewrite Hs, Hst, Hh, Hpe. by rewrite bool_decide_eq_true_2.
Qed.

(** An end keeps being fine when its context changes elsewhere. *)
Lemma end_keep x x' pid :
  end_ok x pid -> ctx_wf (at_ x') -> chan_id x' = chan_id x -> chan_slot x' = chan_slot x ->
  let c := core (at_ x) in let c' := core (at_ x') in
  state c' = state c -> hs c' = hs c -> ss_push_ready c' = ss_push_ready c ->
  ss_pull_ready c' = ss_pull_ready c -> cfg c' = cfg c ->
  open_slot c' (chan_id x) = Some (chan_slot x) -> peer_id (my_channel x') = peer_id (my_channel x) ->
  end_ok x' pid.
Proof.
  intros [] Hw Hid Hsl c c' E1 E2 E3 E4 E5 E6 E7. subst c c'.
  constructor; [done | by rewrite E1 | by rewrite E2 | by rewrite E3, E4 | by rewrite E5
    | by rewrite Hid, Hsl | by rewrite E7].
Qed.

(** What a side's own move leaves alone. *)
Record own_move (K' : Prop) (x x' : side) : Prop := {
  om_id : chan_id x' = chan_id x;
  om_slot : chan_slot x' = chan_slot x;
  om_pull : ss_pull (core (at_ x')) = ss_pull (core (at_ x));
  om_in : in_buf (at_ x') = in_buf (at_ x);
  om_heard : heard x' ++ waiting x' = heard x ++ waiting x;
  om_crowded : K' -> crowded x -> crowded x'
}.

(** The way back to [x] after its own move. *)
Lemma direction_back K' x x' y fl fl' bk :
  direction K' y x bk fl -> own_move K' x x' ->
  recv_window (my_channel x') - credit_size fl'.*1 = recv_window (my_channel x) - credit_size fl.*1 ->
  direction K' y x' bk fl'.
Proof.
  intros [[] [] Hw (arr & Hl1 & Hl2 & Hl3)] [E1 E2 E3 E4 E5 E6] Hc.
  constructor; [constructor; rewrite ?E1; done | constructor; rewrite ?E1, ?E3, ?E4; done | lia |].
  exists arr. split; [done |]. unfold handed. rewrite E5. split; [done |].
  intros HK. destruct (Hl3 HK); [left; auto | by right].
Qed.

(** A message leaves: the record of [m] is the last under way. *)
Lemma says_keeps K K' x x' y fl bk m v cs :
  let c := core (at_ x) in let ch := my_channel x in
  direction K x y fl bk -> direction K' y x bk fl -> msg_ok m ->
  sent c (msg_bytes (peer_id ch) m) cs -> session_wf cs -> same_channel ch v -> channel_ranges v ->
  send_window v + data_size [m] = send_window ch ->
  recv_window v = recv_window ch + credit_size [m] ->
  x' = mk_side (mk_ctx (put_ch cs (chan_slot x) v) (in_buf (at_ x))) (chan_id x) (chan_slot x)
         (wire x) (said x ++ datas [m]) (heard x) ->
  link_inv K K' (x', y).
Proof.
  intros c ch Hxy Hyx Hm Hsent Hcs Hv Hr Hsw Hrw ->. subst c ch.
  pose proof Hxy as [Ex [Lo Ls Lb] Lw (arr & Ll & Lq)]. pose proof Ex as [[Xw Xb] X1 X2 X3 X4 X5 X6].
  pose proof Hsent as (st & ct & _ & Hpush & _ & Ecs).
  assert (chans cs = chans (core (at_ x))) as Hch by (by rewrite Ecs).
  destruct (open_slot_put cs (chan_id x) (chan_slot x) v) as (Ho & Hat & ch0 & Hi);
    [unfold open_slot; rewrite Hch; exact X5 | done | by rewrite Hch |].
  exists (fl ++ [(m, ct)]), bk. cbn [fst snd]. split.
  - constructor.
    + eapply (end_keep x); try done; cbn [at_ core chan_id chan_slot in_buf]; try (by rewrite Ecs).
      * split; [| done]. eapply wf_put_ch; [done | done | | done].
        rewrite (used_state (my_channel x)) by apply Hv. unfold ch_at. rewrite <- Hch, nth_lookup.
        by rewrite Hi.
      * cbn [at_ core chan_slot]. rewrite Hat. apply Hv.
    + constructor; cbn [at_ core in_buf wire].
      * apply Forall_app. split; [done | by repeat constructor].
      * change (ss_push (put_ch cs (chan_slot x) v)) with (ss_push cs). rewrite Ecs, fmap_app.
        eapply stream_push; [done |]. cbn. rewrite X6 in Hpush. exact Hpush.
      * change (out (put_ch cs (chan_slot x) v)) with (out cs). rewrite Ecs, fmap_app, join_app.
        rewrite <- Lb, <- !app_assoc. do 2 f_equal. cbn. by rewrite app_nil_r.
    + cbn [at_ core chan_slot]. rewrite Hat, fmap_app, data_size_app. cbn in *. lia.
    + exists arr. cbn [said]. rewrite fmap_app, datas_app, app_assoc. by rewrite <- Ll.
  - eapply direction_back; [exact Hyx | constructor; try done |].
    + cbn. by rewrite Ecs.
    + unfold waiting. cbn. by rewrite Ecs.
    + intros _. unfold crowded. cbn. by rewrite Ecs.
    + cbn [at_ core chan_slot]. rewrite Hat, fmap_app, credit_size_app. cbn in *. lia.
Qed.

(** A move that says nothing: it concerns the output, the wire or the ring. *)
Lemma quiet_keeps K K' x c w hd y fl bk :
  let x' := mk_side (mk_ctx c (in_buf (at_ x))) (chan_id x) (chan_slot x) w (said x) hd in
  direction K x y fl bk -> direction K' y x bk fl -> session_wf c ->
  (exists o q, c = (core (at_ x)) <| out := o |> <| evq := q |>) ->
  w ++ unread (out c) = wire x ++ unread (out (core (at_ x))) ->
  hd ++ waiting x' = heard x ++ waiting x -> (K' -> crowded x -> crowded x') ->
  link_inv K K' (x', y).
Proof.
  intros x' [Ex [Lo Ls Lb] Lw (arr & Ll & Lq)] Hyx Hc (o & q & ->) Hw Hh Hcr.
  exists fl, bk. cbn [fst snd]. split.
  - constructor; [| constructor; [done | done |] | done | by exists arr].
    + eapply (end_keep x); try done; [| apply Ex]. split; [done | apply Ex].
    + unfold x'. cbn [at_ core wire]. rewrite Hw. exact Lb.
  - by eapply direction_back; [exact Hyx | constructor |].
Qed.

Lemma refl_update (c : session) : exists o q, c = c <| out := o |> <| evq := q |>.
Proof. exists (out c), (evq c). by destruct c. Qed.

(** What the calls of a side did when they were refused. *)
Lemma unsent_keeps K K' x c y fl bk :
  direction K x y fl bk -> direction K' y x bk fl -> unsent (core (at_ x)) c ->
  link_inv K K' (mk_side (mk_ctx c (in_buf (at_ x))) (chan_id x) (chan_slot x) (wire x) (said x)
    (heard x), y).
Proof.
  intros Hxy Hyx Hu. pose proof (eo_wf _ _ (di_end _ _ _ _ _ Hxy)) as [Hwf _].
  apply (quiet_keeps K K' x c (wire x) (heard x) y fl bk); try done.
  - by eapply wf_unsent.
  - destruct Hu as [-> | ->]; [apply refl_update |]. eexists _, (evq (core (at_ x))). reflexivity.
  - destruct Hu as [-> | ->]; [done |]. done.
  - unfold waiting. destruct Hu as [-> | ->]; done.
  - intros _. unfold crowded. by destruct Hu as [-> | ->].
Qed.

Lemma send_keeps K K' x mem d rc c y fl bk :
  direction K x y fl bk -> direction K' y x bk fl ->
  sodchan_channel_send mem (core (at_ x)) (chan_id x) (Some d) (len d) = (rc, c) ->
  link_inv K K' (mk_side (mk_ctx c (in_buf (at_ x))) (chan_id x) (chan_slot x) (wire x)
    (if rc =? SODCHAN_OK then said x ++ [d] else said x) (heard x), y).
Proof.
  intros Hxy Hyx Hs. pose proof (di_end _ _ _ _ _ Hxy) as [[Hwf _] _ _ _ _ Ho _].
  apply channel_send_spec in Hs as [[Hne Hu] | (-> & i & cs & Ho' & Hg & Hsent & ->)]; [| | done].
  - rewrite rc_ok_eqb by done. by eapply unsent_keeps.
  - assert (i = chan_slot x) as -> by congruence. destruct Hg as (_ & _ & _ & Hd & Hw).
    pose proof (open_slot_found _ _ _ Hwf Ho) as (_ & _ & Hr).
    set (v := (my_channel x) <| send_window := _ |>).
    apply (says_keeps K K' x _ y fl bk (Data d) v cs); try done; [by eapply wf_sent | ..];
      unfold channel_ranges in *; cbn; lia.
Qed.

Lemma grant_keeps K K' x n rc c y fl bk :
  direction K x y fl bk -> direction K' y x bk fl ->
  0 <= n -> (rc = SODCHAN_OK -> recv_window (my_channel x) + n < 4294967296) ->
  sodchan_channel_window_adjust (core (at_ x)) (chan_id x) n = (rc, c) ->
  link_inv K K' (mk_side (mk_ctx c (in_buf (at_ x))) (chan_id x) (chan_slot x) (wire x) (said x)
    (heard x), y).
Proof.
  intros Hxy Hyx Hn Hw Hs. pose proof (di_end _ _ _ _ _ Hxy) as [[Hwf _] _ _ _ _ Ho _].
  apply window_adjust_spec in Hs as [[Hne Hu] | (-> & i & cs & Ho' & _ & Hn0 & Hsent & ->)]; [| | done].
  - by eapply unsent_keeps.
  - specialize (Hw eq_refl). assert (i = chan_slot x) as -> by congruence.
    pose proof (open_slot_found _ _ _ Hwf Ho) as (_ & _ & Hr). unfold channel_ranges in Hr.
    rewrite u32_small by lia. set (v := (my_channel x) <| recv_window := _ |>).
    apply (says_keeps K K' x _ y fl bk (Credit n) v cs); try done;
      [cbn; lia | by eapply wf_sent | unfold channel_ranges; cbn; lia | cbn; lia | cbn; lia |].
    cbn. by rewrite app_nil_r.
Qed.

Lemma output_keeps K K' x n bs c y fl bk :
  direction K x y fl bk -> direction K' y x bk fl -> 0 <= n ->
  sodchan_get_output (core (at_ x)) true n = (bs, c) ->
  link_inv K K' (mk_side (mk_ctx c (in_buf (at_ x))) (chan_id x) (chan_slot x) (wire x ++ bs) (said x)
    (heard x), y).
Proof.
  intros Hxy Hyx Hn. pose proof (eo_wf _ _ (di_end _ _ _ _ _ Hxy)) as [Hwf _].
  pose proof (get_output_stream _ n Hn (wf_out _ Hwf)) as [Hu _].
  pose proof (get_output_wf _ n Hn (wf_out _ Hwf)) as Ho.
  unfold sodchan_get_output. cbn [negb]. destruct (get_output (out (core (at_ x))) n) as [bs' o].
  intros [= <- <-]. cbn [fst snd] in *.
  apply (quiet_keeps K K' x _ _ (heard x) y fl bk); try done.
  - by apply wf_set_out.
  - by exists o, (evq (core (at_ x))).
  - rewrite Hu. cbn. by rewrite <- app_assoc.
Qed.

Lemma event_keeps K K' x ev c y fl bk :
  direction K x y fl bk -> direction K' y x bk fl -> (K' -> ~ crowded x) ->
  sodchan_next_event (core (at_ x)) true = (Some ev, c) ->
  link_inv K K' (mk_side (mk_ctx c (in_buf (at_ x))) (chan_id x) (chan_slot x) (wire x) (said x)
    (heard x ++ event_data (chan_id x) ev), y).
Proof.
  intros Hxy Hyx Hroom. pose proof (eo_wf _ _ (di_end _ _ _ _ _ Hxy)) as [Hwf _].
  pose proof (next_pending _ (wf_evq _ Hwf)) as Hp. pose proof (next_event_wf _ (wf_evq _ Hwf)) as Hq.
  unfold sodchan_next_event. cbn [negb].
  destruct (next_event (evq (core (at_ x)))) as [o q] eqn:E. intros [= -> <-].
  destruct (pending (evq (core (at_ x)))) as [|ev' rest] eqn:Ep; [done |].
  cbn [fst snd] in *. destruct Hp as [[= ->] Hp].
  apply (quiet_keeps K K' x _ _ _ y fl bk); try done.
  - by apply wf_set_evq.
  - by exists (out (core (at_ x))), q.
  - unfold waiting. cbn [at_ core chan_id].
    change (evq (set_evq q (core (at_ x)))) with q. rewrite Hp, Ep, fmap_cons. cbn.
    by rewrite app_assoc.
  - intros HK Hc. by destruct (Hroom HK).
Qed.

(** ** Input *)

(** The side [x] with another context. *)
Definition at_side (x : side) (z : ctx) : side :=
  mk_side z (chan_id x) (chan_slot x) (wire x) (said x) (heard x).

Lemma lane_sizes x y fl : lane x y fl -> 0 <= data_size fl.*1 /\ 0 <= credit_size fl.*1.
Proof. intros []. apply sizes_nonneg. by apply Forall_fmap. Qed.

(** What hearing a message makes of a session. *)
Definition hearing (c : session) (i : nat) (r : ss_state) (v : sodchan_channel_t)
    (ev : sodchan_event_t) : session :=
  queue (put_ch (c <| ss_pull := r |>) i v) ev.

(** An event reaches the ring: the data of it has arrived, and waits there
    unless the ring was full. *)
Lemma handed_event K x x' ev arr more :
  handed K x arr -> evq_wf (evq (core (at_ x))) ->
  chan_id x' = chan_id x -> heard x' = heard x ->
  evq (core (at_ x')) = (sodchan_i_queue_event (evq (core (at_ x))) ev).2 ->
  event_data (chan_id x) ev = more -> handed K x' (arr ++ more).
Proof.
  unfold handed, waiting, crowded. intros [Lq Lk] Hwf -> -> Hq Hev. rewrite Hq.
  destruct (Z.eq_dec (event_count (evq (core (at_ x)))) (event_cap (evq (core (at_ x))))) as [Hc | Hc].
  - rewrite queue_full by done. split; [by apply sublist_inserts_r | by left].
  - destruct (queue_pending (evq (core (at_ x))) ev Hwf) as [_ ->]; [destruct Hwf; lia |].
    rewrite fmap_app, join_app, app_assoc. cbn. rewrite app_nil_r, Hev.
    split; [by apply sublist_app |]. intros HK. destruct (Lk HK) as [| ->]; [done | by right].
Qed.

(** A message arrives: the oldest record is no longer under way. *)
Lemma hears_keeps K K' x y fl bk m ct r v ev t :
  direction K x y fl ((m, ct) :: bk) -> direction K' y x ((m, ct) :: bk) fl ->
  stream (ss_push (core (at_ y))) r ((fun f => (msg_bytes (chan_id x) f.1, f.2)) <$> bk) ->
  same_channel (my_channel x) v -> channel_ranges v ->
  send_window v = send_window (my_channel x) + credit_size [m] ->
  recv_window v = recv_window (my_channel x) - data_size [m] ->
  event_data (chan_id x) ev = datas [m] -> in_buf (at_ x) = frame_bytes ct ++ t ->
  link_inv K K' (at_side x (mk_ctx (hearing (core (at_ x)) (chan_slot x) r v ev) t), y).
Proof.
  intros [Ex Lxy Wxy Gxy] [Ey [Lo _ Lb] Wyx (arr & Ll & Lq & Lk)] Hst Hv Hr Hsw Hrw Hev Hin.
  pose proof Ex as [[Xw Xb] X1 X2 X3 X4 X5 X6].
  set (c1 := (core (at_ x)) <| ss_pull := r |>).
  assert (session_wf c1) as Hc1 by (by apply wf_set_ss_pull).
  destruct (open_slot_put c1 (chan_id x) (chan_slot x) v X5 Hc1 Hv) as (Ho & Hat & ch & Hi).
  set (x' := at_side x _).
  assert (my_channel x' = v) as Hmy by exact Hat.
  assert (session_wf (core (at_ x'))) as Hw'.
  { apply wf_queue. eapply wf_put_ch; [done | exact Hi | | done].
    change (channels (chans (core (at_ x))) !! chan_slot x = Some ch) in Hi.
    rewrite (used_state (my_channel x)) by apply Hv. unfold ch_at. by rewrite nth_lookup, Hi. }
  assert (len t <= SODCHAN_IN_BUF_SIZE) as Ht by (rewrite Hin, length_app in Xb; lia).
  apply Forall_cons_iff in Lo as [Hm Lo].
  exists fl, bk. cbn [fst snd]. split.
  - constructor; [| by destruct Lxy; constructor | | exact Gxy].
    + eapply (end_keep x); try done. rewrite Hmy. apply Hv.
    + rewrite Hmy. cbn in *. destruct m; cbn in *; lia.
  - constructor; [exact Ey | constructor; [done | exact Hst |] | |].
    + cbn [at_ x' at_side in_buf]. rewrite Hin, <- app_assoc in Lb. by apply app_inv_head in Lb.
    + rewrite Hmy. cbn in *. destruct m; cbn in *; lia.
    + exists (arr ++ datas [m]). split.
      { rewrite Ll. cbn. rewrite <- app_assoc. by destruct m. }
      apply (handed_event K' x x' ev); try done; apply Xw.
Qed.

Lemma live_ready c : state c = SODCHAN_STATE_READY -> stopped c = false.
Proof. unfold stopped. by intros ->. Qed.

(** How long the record of a message is. *)
Lemma record_length K' x y m ct fl bk :
  direction K' y x ((m, ct) :: bk) fl -> 17 < len ct <= SODCHAN_DATA_MAX + 26.
Proof.
  intros [_ [Lo Ls _] _ _]. apply Forall_cons_iff in Lo as [Hm _].
  rewrite fmap_cons in Ls. apply stream_pull in Ls as (r & Hpull & _).
  apply pull_length in Hpull. pose proof (length_msg_bytes (chan_id x) m Hm). cbn [fst snd] in *. lia.
Qed.

(** The record of a message is decrypted, dispatched and accepted. *)
Lemma message_handled K K' x y fl bk m ct :
  direction K x y fl ((m, ct) :: bk) -> direction K' y x ((m, ct) :: bk) fl ->
  exists r v ev,
    handle_frame (core (at_ x)) ct = (0, hearing (core (at_ x)) (chan_slot x) r v ev) /\
    stream (ss_push (core (at_ y))) r ((fun f => (msg_bytes (chan_id x) f.1, f.2)) <$> bk) /\
    same_channel (my_channel x) v /\ channel_ranges v /\
    send_window v = send_window (my_channel x) + credit_size [m] /\
    recv_window v = recv_window (my_channel x) - data_size [m] /\
    event_data (chan_id x) ev = datas [m].
Proof.
  intros [[[Xw _] X1 X2 [_ X3] [X4 X4'] X5 X6] Lxy Wxy _] [[[Yw _] _ _ _ _ Y5 _] Lyx Wyx _].
  pose proof (lane_sizes _ _ _ Lxy) as [Hs1 Hs2]. pose proof Lyx as [Lo Ls _].
  apply Forall_cons_iff in Lo as [Hm Lo]. cbn [fst] in Hm.
  assert (0 <= data_size bk.*1 /\ 0 <= credit_size bk.*1) as [Hs3 Hs4]
    by (apply sizes_nonneg; by apply Forall_fmap).
  rewrite fmap_cons in Ls. apply stream_pull in Ls as (r & Hpull & Hst). cbn [fst snd] in Hpull.
  pose proof (length_msg_bytes (chan_id x) m Hm) as Hl.
  destruct (pull_delivers (core (at_ x)) _ ct r Hpull X3) as (b & Hb & Hh); [consts; lia | lia |].
  rewrite dispatch_mux in Hh by (by left).
  unfold handle_frame. rewrite X2, Hh. clear Hh Hb Hpull.
  set (c1 := (core (at_ x)) <| ss_pull := r |>).
  assert (session_wf c1) as Hc1 by (by apply wf_set_ss_pull).
  pose proof (open_slot_found _ _ _ Xw X5) as (Hi & _ & Hr).
  pose proof (open_slot_some _ _ _ X5) as (_ & Hopen & _).
  pose proof (open_slot_local _ _ _ X5) as Hid.
  pose proof (open_slot_found _ _ _ Yw Y5) as (_ & _ & Hry).
  unfold channel_ranges in Hr, Hry. destruct m as [d|n]; cbn [msg_bytes] in *.
  - rewrite mux_data_dispatch. cbn in Wyx, Hm.
    rewrite (mux_data_ok c1 (chan_id x) d (chan_slot x)); [| done | lia | done |].
    2: { unfold data_acceptable. change (chans c1) with (chans (core (at_ x))).
         rewrite Hopen, bool_decide_eq_true_2 by done. lia. }
    eexists r, _, _. split; [reflexivity |]. split; [done |]. split; [done |].
    split; [unfold channel_ranges; cbn; lia |]. split; [cbn; lia |]. split; [cbn; lia |].
    cbn. by rewrite Z.eqb_refl.
  - rewrite mux_window_dispatch. cbn in Wxy, Hm.
    rewrite (mux_window_ok c1 (chan_id x) n (chan_slot x)) by (done || lia). cbv zeta.
    change (ch_at (chans c1)) with (ch_at (chans (core (at_ x)))).
    rewrite u32_small by lia.
    eexists r, _, _. split; [reflexivity |]. split; [done |]. split; [done |].
    split; [unfold channel_ranges; cbn; lia |]. split; [cbn; lia |]. split; [cbn; lia | done].
Qed.

(** A turn of the loop handles one message, or waits for its end. *)
Lemma turn_keeps K K' x y :
  link_inv K K' (x, y) -> link_inv K K' (at_side x (process_turn (at_ x)).1, y).
Proof.
  intros (fl & bk & Hxy & Hyx). cbn [fst snd] in *.
  assert (link_inv K K' (at_side x (at_ x), y)) as Hsame by (exists fl, bk; by destruct x).
  pose proof (di_end _ _ _ _ _ Hxy) as [[Xw Xb] X1 X2 X3 [X4 X4'] X5 X6].
  pose proof (la_bytes _ _ _ (di_lane _ _ _ _ _ Hyx)) as Hb.
  unfold process_turn.
  rewrite (live_ready (core (at_ x))) by done.
  destruct (len (in_buf (at_ x)) <? 4) eqn:E4; [exact Hsame |].
  destruct bk as [|[m ct] bk]; [destruct (in_buf (at_ x)); done |].
  destruct (message_handled K K' x y fl bk m ct Hxy Hyx)
    as (r & v & ev & Hh & Hst & Hv & Hr & Hsw & Hrw & Hev).
  assert (next_frame (core (at_ x)) (in_buf (at_ x)) <> Fail SODCHAN_ERR_FULL ->
    next_frame (core (at_ x)) (in_buf (at_ x)) = Ok (4 + len ct, ct) /\
    exists t, in_buf (at_ x) = frame_bytes ct ++ t) as Hnf.
  { intros Hn. pose proof (record_length K' x y m ct fl bk Hyx) as Hl.
    assert (next_frame (core (at_ x)) (in_buf (at_ x)) = Ok (4 + len ct, ct)) as Hok.
    { rewrite <- (next_frame_more _ _ (wire y ++ unread (out (core (at_ y)))) Xw Hn), Hb.
      unfold next_frame. rewrite X2, bool_decide_eq_true_2 by done.
      apply frame_parse_max_ok; [by apply (frame_limits _ Xw) |].
      rewrite ss_frame_max_body_eq by lia. split; [revert Hl X4; consts; lia |]. split; [done |].
      by eexists. }
    split; [done |]. unfold next_frame in Hok. rewrite X2, bool_decide_eq_true_2 in Hok by done.
    by apply frame_parse_max_ok in Hok as (_ & _ & ?); [| apply (frame_limits _ Xw)]. }
  destruct (next_frame (core (at_ x)) (in_buf (at_ x))) as [[k body]|rc|] eqn:En.
  - destruct Hnf as [[= -> ->] [t Ht]]; [done |]. rewrite Hh.
    change (negb (0 =? 0)) with false. cbv iota. cbn [fst].
    replace (drop (Z.to_nat (4 + len ct)) (in_buf (at_ x))) with t.
    + by eapply hears_keeps.
    + rewrite Ht. rewrite drop_app_length'; [done |]. pose proof (length_frame_bytes ct). lia.
  - destruct (rc =? SODCHAN_ERR_FULL) eqn:Erc; [exact Hsame |].
    destruct Hnf as [? _]; [| done]. intros [= ->]. revert Erc. by consts.
  - by destruct Hnf.
Qed.

Lemma loop_keeps K K' n x y :
  link_inv K K' (x, y) -> link_inv K K' (at_side x (process_loop n (at_ x)), y).
Proof.
  revert x. induction n as [|n IH]; intros x Hx; [by destruct x |]. cbn [process_loop].
  pose proof (turn_keeps K K' x y Hx) as Ht. destruct (process_turn (at_ x)) as [z []]; [| exact Ht].
  exact (IH (at_side x z) Ht).
Qed.

(** Bytes move from the wire to the buffer. *)
Lemma wire_keeps K K' x y k :
  link_inv K K' (x, y) -> len (in_buf (at_ x)) + len (take k (wire y)) <= SODCHAN_IN_BUF_SIZE ->
  link_inv K K' (at_side x (append_in (at_ x) (take k (wire y))),
    mk_side (at_ y) (chan_id y) (chan_slot y) (drop k (wire y)) (said y) (heard y)).
Proof.
  intros (fl & bk & [Ex Lxy Wxy Gxy] & [Ey [Lo Ls Lb] Wyx Gyx]) Hl. exists fl, bk. cbn [fst snd] in *.
  split; (constructor; [| | done | done]).
  - eapply (end_keep x); try done; [| apply Ex]. apply append_in_wf; [apply Ex | done].
  - by destruct Lxy.
  - by destruct Ey.
  - constructor; [done | done |]. cbn [at_ at_side append_in in_buf wire core]. rewrite <- Lb.
    rewrite <- !app_assoc. f_equal. by rewrite (app_assoc (take k _)), take_drop.
Qed.

Lemma input_keeps K K' x y k n z :
  link_inv K K' (x, y) -> sodchan_feed_input (at_ x) (Some (take k (wire y))) = (n, z) ->
  link_inv K K' (at_side x z,
    mk_side (at_ y) (chan_id y) (chan_slot y) (drop (Z.to_nat n) (wire y)) (said y) (heard y)).
Proof.
  intros Hx. assert (link_inv K K' (at_side x (at_ x),
    mk_side (at_ y) (chan_id y) (chan_slot y) (drop (Z.to_nat 0) (wire y)) (said y) (heard y)))
    as Hsame by (change (Z.to_nat 0) with 0%nat; rewrite drop_0; by destruct x, y).
  pose proof Hx as (fl & bk & Hxy & _). pose proof (eo_wf _ _ (di_end _ _ _ _ _ Hxy)) as [_ Hb].
  cbn [fst] in Hb. unfold sodchan_feed_input.
  destruct (len (take k (wire y)) =? 0); [intros [= <- <-]; exact Hsame |].
  destruct (stopped _); [intros [= <- <-]; exact Hsame |].
  match goal with |- context [if ?b then ?u else ?v] =>
    set (m := if b then u else v); assert (0 <= m <= len (take k (wire y)) /\
      m <= SODCHAN_IN_BUF_SIZE - len (in_buf (at_ x))) as [Hm Hm']
      by (subst m; destruct b eqn:E; lia) end.
  cbv zeta. destruct (m =? 0); [intros [= <- <-]; exact Hsame |]. intros [= <- <-].
  rewrite take_take, Nat.min_l by (rewrite length_take in Hm; lia).
  pose proof (wire_keeps K K' x y (Z.to_nat m) Hx) as Hw.
  rewrite length_take in Hm. rewrite length_take in Hw. specialize (Hw ltac:(lia)).
  exact (loop_keeps K K' _ _ _ Hw).
Qed.

Lemma link_inv_swap K K' x y : link_inv K K' (x, y) -> link_inv K' K (y, x).
Proof. intros (fl & bk & ? & ?). by exists bk, fl. Qed.

Lemma side_step_keeps K K' x y x' y' :
  link_inv K K' (x, y) -> (K' -> ~ crowded x) -> side_step x y x' y' -> link_inv K K' (x', y').
Proof.
  intros Hi Hroom Hs. pose proof Hi as (fl & bk & Hxy & Hyx). cbn [fst snd] in *.
  destruct Hs as [? ? ? ? ? ? Hc | ? ? ? ? ? [Hn _] Hw Hc | ? ? ? ? ? Hn Hc | ? ? ? ? ? Hc | ? ? ? ? Hc].
  - by eapply send_keeps.
  - by eapply grant_keeps.
  - by eapply output_keeps.
  - exact (input_keeps K K' _ _ _ _ _ Hi Hc).
  - by eapply event_keeps.
Qed.

(** A move during which the rings of the receivers in question have room: that
    of the right side when [K], that of the left side when [K']. *)
Definition roomy_step (K K' : Prop) (l l' : side * side) : Prop :=
  link_step l l' /\ (K -> roomy l.2 /\ roomy l'.2) /\ (K' -> roomy l.1 /\ roomy l'.1).

Lemma link_keeps K K' l l' : link_inv K K' l -> rtc (roomy_step K K') l l' -> link_inv K K' l'.
Proof.
  intros Hl. induction 1 as [| l l1 l2 (Hs & Hr & Hr') _ IH]; [done |]. apply IH. clear IH.
  destruct Hs as [x y x' y' Hs | x y x' y' Hs]; cbn [fst snd] in *.
  - eapply side_step_keeps; [done | | done]. intros HK. by apply roomy_not_crowded, Hr'.
  - apply link_inv_swap. eapply side_step_keeps; [by apply link_inv_swap | | done].
    intros HK. by apply roomy_not_crowded, Hr.
Qed.

(** *** What the invariant says of a side *)

(** Nothing is under way from [x] to [y]. *)
Definition idle (x y : side) : Prop :=
  in_buf (at_ y) = [] /\ wire x = [] /\ unread (out (core (at_ x))) = [].

Lemma idle_lane x y fl : lane x y fl -> idle x y -> fl = [].
Proof.
  intros [_ _ Lb] (H1' & H2' & H3'). rewrite H1', H2', H3' in Lb. destruct fl as [|[m ct] fl]; [done |].
  discriminate.
Qed.

(** What the hosts can rely on, in the direction from [x] to [y], whatever the
    rings: the session goes on; the sender never has more credit than the
    receiver has room, and has exactly as much once nothing is under way in
    either direction; and what the receiver was handed is, in order and
    unaltered, some of what was said. *)
Definition faithful (x y : side) : Prop :=
  state (core (at_ x)) = SODCHAN_STATE_READY /\
  send_window (my_channel x) <= recv_window (my_channel y) /\
  (idle x y -> idle y x -> send_window (my_channel x) = recv_window (my_channel y)) /\
  (heard y ++ waiting y) `sublist_of` said x.

(** Nothing was lost: what the receiver was handed is a prefix of what was
    said, and is the whole of it once nothing is under way. *)
Definition lossless (x y : side) : Prop :=
  (heard y ++ waiting y) `prefix_of` said x /\
  (idle x y -> heard y ++ waiting y = said x).

Lemma direction_faithful K x y fl bk : direction K x y fl bk -> lane y x bk -> faithful x y.
Proof.
  intros [Ex Lxy Hw (arr & Ll & Lq & _)] Lyx.
  pose proof (lane_sizes _ _ _ Lxy). pose proof (lane_sizes _ _ _ Lyx).
  split; [apply Ex |]. split; [lia |]. split.
  - intros Hi Hi'. rewrite (idle_lane _ _ _ Lxy Hi), (idle_lane _ _ _ Lyx Hi') in Hw. cbn in Hw. lia.
  - rewrite Ll. by apply sublist_inserts_r.
Qed.

Lemma direction_lossless (K : Prop) x y fl bk :
  direction K x y fl bk -> K -> ~ crowded y -> lossless x y.
Proof.
  intros [_ Lxy _ (arr & Ll & _ & Lk)] HK Hc. unfold lossless.
  destruct (Lk HK) as [| ->]; [done |]. split.
  - rewrite Ll. by apply prefix_app_r.
  - intros Hi. by rewrite Ll, (idle_lane _ _ _ Lxy Hi), app_nil_r.
Qed.

(** From the moment a channel is established. *)
Lemma established_faithful x y x' y' :
  established x y -> rtc link_step (x, y) (x', y') -> faithful x' y' /\ faithful y' x'.
Proof.
  intros He Hs.
  assert (rtc (roomy_step False False) (x, y) (x', y')) as Hs'
    by (eapply rtc_subrel; [| exact Hs]; by intros l l' ?).
  apply (link_keeps _ _ _ _ (established_inv _ _ x y He)) in Hs' as (fl & bk & Hxy & Hyx).
  split; eapply direction_faithful; try done; [apply Hyx | apply Hxy].
Qed.

Lemma established_lossless x y : established x y -> lossless x y /\ lossless y x.
Proof.
  intros [_ _ _ _ (A1 & A2 & H1' & H2' & Q1 & Q2)]. unfold lossless.
  rewrite A1, A2, H1', H2', Q1, Q2. by split.
Qed.

(** A move before and after which the ring of the right side, or of the left
    side, has room. *)
Definition right_roomy (l l' : side * side) : Prop := link_step l l' /\ roomy l.2 /\ roomy l'.2.
Definition left_roomy (l l' : side * side) : Prop := link_step l l' /\ roomy l.1 /\ roomy l'.1.

Lemma roomy_lossless x y x' y' :
  established x y ->
  (rtc right_roomy (x, y) (x', y') -> lossless x' y') /\
  (rtc left_roomy (x, y) (x', y') -> lossless y' x').
Proof.
  intros He. destruct (established_lossless x y He) as [Hl Hl'].
  split; intros Hs; pose proof Hs as Hi;
    (apply rtc_inv_r in Hi as [[= <- <-] | (l & _ & _ & _ & Hr)]; [done |]);
    apply roomy_not_crowded in Hr.
  - apply (rtc_subrel _ (roomy_step True False)) in Hs; [| by intros ? ? (? & ? & ?)].
    apply (link_keeps _ _ _ _ (established_inv _ _ x y He)) in Hs as (fl & bk & Hxy & _).
    by eapply direction_lossless.
  - apply (rtc_subrel _ (roomy_step False True)) in Hs; [| by intros ? ? (? & ? & ?)].
    apply (link_keeps _ _ _ _ (established_inv _ _ x y He)) in Hs as (fl & bk & _ & Hyx).
    by eapply direction_lossless.
Qed.
End Link.
