(* ===== verification/Agreement.v ===== *)
(** The handshake of two honest ends, step by step: each handler, given what
    the other end sent, succeeds; the two ends derive the same keys, sign and
    verify the same transcript, and their cipher states are in step.  libsodium
    is assumed to do what it is documented to do ([SodiumSpec]) and not to
    refuse ([SodiumWorks]). *)

From Stdlib Require Import ZArith Lia ZifyBool String.
From S2P Require Import Prelude Defs WireBase WireHello WireAuth WireMux Crypto EventQueue.
From S2P Require Import OutBuf Channels Session Auth Handshake Mux Engine Api Invariant.
From S2P Require Import Calm EngineLemmas Safety Transport.
Local Open Scope Z_scope.
Local Open Scope sodchan_scope.

(** ** The pieces of a handler *)

Section Pieces.
Context `{Sodium} `{SizeT} {SP : SodiumSpec _} {SW : SodiumWorks _}.

Lemma derive_works k dom :
  length k = 32%nat -> exists key, sodchan_crypto_ss_key_derive (Some k) (Some dom) = Ok key.
Proof.
  intros Hk. unfold sodchan_crypto_ss_key_derive, sodchan_crypto_init. cbn [nonnull res_bind].
  pose proof init_works. replace (sodium_init <? 0) with false by lia.
  rewrite (rd_all_eq k 32) by lia.
  destruct (hash_works k (cstr dom)) as (st0 & st1 & st2 & key & -> & E1 & E2 & E3).
  cbn [res_bind]. change (negb _) with false. cbv iota. rewrite E1, E2, E3. by eexists.
Qed.

Lemma derive_both_works c kc ks :
  length kc = 32%nat -> length ks = 32%nat ->
  exists c2s s2c,
    sodchan_crypto_ss_key_derive (Some kc) (Some SODCHAN_DOM_SS_C2S) = Ok c2s /\
    sodchan_crypto_ss_key_derive (Some ks) (Some SODCHAN_DOM_SS_S2C) = Ok s2c /\
    derive_both c kc ks = (SODCHAN_OK, c <| ss_key_c2s := c2s |> <| ss_key_s2c := s2c |>).
Proof.
  intros Hc Hs. destruct (derive_works kc SODCHAN_DOM_SS_C2S Hc) as [c2s Ec].
  destruct (derive_works ks SODCHAN_DOM_SS_S2C Hs) as [s2c Es].
  exists c2s, s2c. split_and!; [done | done |]. unfold derive_both. by rewrite Ec, Es.
Qed.

(** A frame goes to an output with room for it. *)
Lemma append_frame_ok c body :
  out_wf (out c) -> unread (out c) = [] -> 0 < len body <= SODCHAN_MAX_CLEAR_FRAME ->
  out_append_frame (out c) body = (SODCHAN_OK, mk_outbuf (frame_bytes body) 0).
Proof.
  intros Ho Hu Hb. rewrite out_append_frame_spec, out_append_spec by done. rewrite Hu.
  rewrite length_frame_bytes. revert Hb. consts. intros Hb.
  by replace (_ <? _) with false by (simpl; lia).
Qed.

Lemma send_hello_ok c h :
  out_wf (out c) -> unread (out c) = [] ->
  length (h_eph_pk h) = 32%nat -> length (h_id_pk h) = 32%nat -> length (h_id_sig h) = 64%nat ->
  send_hello c h = (SODCHAN_OK, c <| out := mk_outbuf (frame_bytes (hello_bytes h)) 0 |>).
Proof.
  intros Ho Hu He Hi Hs. unfold send_hello. rewrite hello_encode_ok by done. cbn [res_bind].
  pose proof (length_hello_bytes h He Hi Hs) as Hl.
  rewrite rd_head by (rewrite ?Hl; done). by rewrite append_frame_ok by (rewrite ?Hl; done).
Qed.

Lemma send_ss_header_ok c key :
  out_wf (out c) -> unread (out c) = [] ->
  exists st h e,
    crypto_secretstream_init_push key (rng c) = (Some (st, h), e) /\ length h = 24%nat /\
    send_ss_header c key =
      (SODCHAN_OK, c <| rng := e |> <| ss_push := st |> <| ss_push_ready := true |>
                     <| out := mk_outbuf (frame_bytes h) 0 |>).
Proof.
  intros Ho Hu. destruct (init_push_works key (rng c)) as (st & h & e & E).
  apply init_push_length in E as Hl. exists st, h, e. split_and!; [done | done |].
  unfold send_ss_header. rewrite E. cbv zeta.
  match goal with |- context [out_append_frame (out ?c) h] =>
    rewrite (append_frame_ok c h) by (done || (rewrite Hl; done)) end. done.
Qed.
End Pieces.

(** ** The two HELLOs *)

Section Hellos.
Context `{Sodium} `{SizeT} {SP : SodiumSpec _} {SW : SodiumWorks _}.

(** What accepting the peer's HELLO makes of a session. *)
Record headed (c c' : session) (t c2s s2c : bytes) : Prop := {
  hd_role : role c' = role c;
  hd_cfg : cfg c' = cfg c;
  hd_state : state c' = SODCHAN_STATE_SS_HEADER;
  hd_hs : hs c' = SODCHAN_HS_WAIT_PEER_SS;
  hd_c2s : ss_key_c2s c' = c2s;
  hd_s2c : ss_key_s2c c' = s2c;
  hd_t : t_hello c' = t;
  hd_have_t : have_t_hello c' = true;
  hd_flags : auth_sent c' = auth_sent c /\ auth_awaiting_decide c' = auth_awaiting_decide c /\
    auth_decided c' = auth_decided c /\ auth_complete c' = auth_complete c
}.

(** The HELLO a server answers with. *)
Definition server_hello (pk eph sig : bytes) : sodchan_hello_t :=
  {| h_proto_version := SODCHAN_PROTO_VERSION; h_suite_id := SODCHAN_SUITE_V1;
     h_role := role_code SODCHAN_ROLE_SERVER; h_flags := 0; h_eph_pk := eph;
     h_id_pk := pk; h_id_sig := sig |}.

Lemma server_hello_sent c sig :
  session_wf c -> role c = SODCHAN_ROLE_SERVER -> have_peer_eph c = true ->
  unread (out c) = [] -> length sig = 64%nat ->
  let t := t_hello_bytes SODCHAN_PROTO_VERSION SODCHAN_SUITE_V1 (peer_eph_pk c) (eph_pk c)
             (server_id_pk c) in
  crypto_sign_detached t (server_id_sk (cfg c)) = Some sig ->
  queue_local_hello c =
    (SODCHAN_OK, c <| t_hello := t |> <| have_t_hello := true |>
       <| out := mk_outbuf (frame_bytes (hello_bytes
                   (server_hello (server_id_pk c) (eph_pk c) sig))) 0 |>).
Proof.
  intros [] Hr Hp Ho Hsig t Esig. unfold queue_local_hello. rewrite Hr, Hp. cbn [negb].
  rewrite build_t_hello_ok by done. cbv zeta. fold t.
  change (server_id_sk (cfg (c <| t_hello := t |> <| have_t_hello := true |>)))
    with (server_id_sk (cfg c)).
  rewrite Esig. by rewrite send_hello_ok.
Qed.

Lemma server_answers s h csk :
  session_wf s -> role s = SODCHAN_ROLE_SERVER -> unread (out s) = [] ->
  kx_pair (eph_pk s) (eph_sk s) -> sign_pair (server_id_pk s) (server_id_sk (cfg s)) ->
  hello_wf h -> h_role h = role_code SODCHAN_ROLE_CLIENT -> kx_pair (h_eph_pk h) csk ->
  let t := t_hello_bytes SODCHAN_PROTO_VERSION SODCHAN_SUITE_V1 (h_eph_pk h) (eph_pk s)
             (server_id_pk s) in
  exists s' sig rx tx c2s s2c,
    handle_peer_hello s (hello_bytes h) = (0, s') /\ headed s s' t c2s s2c /\
    unread (out s') = frame_bytes (hello_bytes (server_hello (server_id_pk s) (eph_pk s) sig)) /\
    length sig = 64%nat /\ crypto_sign_verify_detached sig t (server_id_pk s) = 0 /\
    crypto_kx_client_session_keys (h_eph_pk h) csk (eph_pk s) = Some (rx, tx) /\
    sodchan_crypto_ss_key_derive (Some tx) (Some SODCHAN_DOM_SS_C2S) = Ok c2s /\
    sodchan_crypto_ss_key_derive (Some rx) (Some SODCHAN_DOM_SS_S2C) = Ok s2c.
Proof.
  intros Hwf Hr Ho Hkx Hsign Hh Hrole Hpeer t. pose proof Hh as []. pose proof Hwf as [].
  destruct (sign_works t (server_id_sk (cfg s))) as [sig Esig].
  apply sign_length in Esig as Hsig. pose proof (sign_verify _ _ _ _ Hsign Esig) as Hver.
  destruct (kx_client_works _ _ _ _ Hpeer Hkx) as [[rx tx] Ek].
  pose proof (kx_agree _ _ _ _ _ _ Hpeer Hkx Ek) as Eks.
  destruct (kx_session_length _ _ _ _ _ (or_introl Ek)) as [Hrx Htx].
  destruct (derive_works tx SODCHAN_DOM_SS_C2S Htx) as [c2s Ec].
  destruct (derive_works rx SODCHAN_DOM_SS_S2C Hrx) as [s2c Es].
  unfold handle_peer_hello. rewrite hello_decode_bytes by done. rewrite Hr.
  unfold server_peer_hello. rewrite Hrole, Z.eqb_refl. cbn [negb]. cbv zeta.
  set (c0 := if sodium_is_zero _ =? 0 then _ else _).
  assert (exists i f q, emit_hello_received c0 =
    s <| peer_eph_pk := h_eph_pk h |> <| have_peer_eph := true |> <| peer_id_pk := i |>
      <| have_peer_id := f |> <| evq := q |> /\ length i = 32%nat /\ evq_wf q)
    as (i & f & q & -> & Hi & Hq).
  { unfold emit_hello_received, queue. subst c0. case_match; eexists _, _, _;
      (split; [by destruct s |]); (split; [done | by apply queue_event_wf]). }
  set (c1 := s <| peer_eph_pk := _ |> <| have_peer_eph := _ |> <| peer_id_pk := i |>
               <| have_peer_id := f |> <| evq := q |>).
  rewrite (server_hello_sent c1 sig) by (done || (constructor; done)).
  cbv iota beta. change (negb (SODCHAN_OK =? SODCHAN_OK)) with false. cbv iota.
  unfold derive_ss_keys_server, derive_both.
  change (crypto_kx_server_session_keys _ _ _)
    with (crypto_kx_server_session_keys (eph_pk s) (eph_sk s) (h_eph_pk h)).
  rewrite Eks, Ec. cbv zeta. rewrite Es. cbv iota beta.
  change (negb (SODCHAN_OK =? SODCHAN_OK)) with false. cbv iota.
  eexists _, sig, rx, tx, c2s, s2c. split_and!; try done.
Qed.

(** The pin of a client lets a HELLO through. *)
Definition pinned (c : session) (h : sodchan_hello_t) : Prop :=
  accept_any_server_pk (cfg c) = true \/
  (have_server_id_pk c = true /\ server_id_pk c = h_id_pk h).

Lemma client_accepts c h rx tx c2s s2c :
  session_wf c -> role c = SODCHAN_ROLE_CLIENT -> unread (out c) = [] ->
  hello_wf h -> h_role h = role_code SODCHAN_ROLE_SERVER -> pinned c h ->
  let t := t_hello_bytes SODCHAN_PROTO_VERSION SODCHAN_SUITE_V1 (eph_pk c) (h_eph_pk h)
             (h_id_pk h) in
  crypto_sign_verify_detached (h_id_sig h) t (h_id_pk h) = 0 ->
  crypto_kx_client_session_keys (eph_pk c) (eph_sk c) (h_eph_pk h) = Some (rx, tx) ->
  sodchan_crypto_ss_key_derive (Some tx) (Some SODCHAN_DOM_SS_C2S) = Ok c2s ->
  sodchan_crypto_ss_key_derive (Some rx) (Some SODCHAN_DOM_SS_S2C) = Ok s2c ->
  exists c' st hd e,
    handle_peer_hello c (hello_bytes h) = (0, c') /\ headed c c' t c2s s2c /\
    crypto_secretstream_init_push c2s (rng c) = (Some (st, hd), e) /\ length hd = 24%nat /\
    unread (out c') = frame_bytes hd /\ ss_push c' = st /\ ss_push_ready c' = true /\
    peer_id_pk c' = h_id_pk h.
Proof.
  intros Hwf Hr Ho Hh Hrole Hpin t Hver Ek Ec Es. pose proof Hh as []. pose proof Hwf as [].
  unfold handle_peer_hello. rewrite hello_decode_bytes by done. rewrite Hr.
  unfold client_peer_hello. rewrite Hrole, Z.eqb_refl. cbn [negb].
  replace (negb (accept_any_server_pk (cfg c)) && _) with false.
  2: { destruct Hpin as [-> | [-> Hp]]; [done |]. cbn [negb orb].
       rewrite (proj2 (memcmp_eq (h_id_pk h) (server_id_pk c) ltac:(congruence))) by done.
       by rewrite andb_false_r. }
  cbv zeta. set (c0 := if accept_any_server_pk (cfg c) then _ else _).
  assert (exists i f, c0 = c <| server_id_pk := i |> <| have_server_id_pk := f |>)
    as (i & f & ->)
    by (subst c0; case_match; [by eexists _, _ |];
        exists (server_id_pk c), (have_server_id_pk c); by destruct c).
  unfold client_accept_hello. cbv zeta. rewrite build_t_hello_ok by done.
  match goal with |- context [crypto_sign_verify_detached ?a ?b ?d] =>
    change (crypto_sign_verify_detached a b d)
      with (crypto_sign_verify_detached (h_id_sig h) t (h_id_pk h)) end.
  rewrite Hver. change (negb (0 =? 0)) with false. cbv iota.
  match goal with |- context [emit_hello_received ?x] => set (c1 := emit_hello_received x) end.
  unfold derive_ss_keys_client, derive_both.
  change (crypto_kx_client_session_keys (eph_pk c1) (eph_sk c1) (peer_eph_pk c1))
    with (crypto_kx_client_session_keys (eph_pk c) (eph_sk c) (h_eph_pk h)).
  rewrite Ek, Ec. cbv zeta. rewrite Es. cbv iota beta.
  change (negb (SODCHAN_OK =? SODCHAN_OK)) with false. cbv iota.
  unfold client_send_ss_header_c2s. set (c2 := c1 <| ss_key_c2s := _ |> <| ss_key_s2c := _ |>).
  destruct (send_ss_header_ok c2 (ss_key_c2s c2)) as (st & hd & e & Ei & Hl & ->); [done | done |].
  cbv iota beta. change (negb (SODCHAN_OK =? SODCHAN_OK)) with false. cbv iota.
  eexists _, st, hd, e. split_and!; try done.
Qed.
End Hellos.

(** ** The stream headers and the device's authentication *)

Section Headers.
Context `{Sodium} `{SizeT} {SP : SodiumSpec _} {SW : SodiumWorks _}.

(** What accepting the peer's stream header makes of a session. *)
Record entered (c c' : session) : Prop := {
  en_role : role c' = role c;
  en_cfg : cfg c' = cfg c;
  en_state : state c' = SODCHAN_STATE_AUTH;
  en_hs : hs c' = SODCHAN_HS_DONE;
  en_t : t_hello c' = t_hello c;
  en_have_t : have_t_hello c' = have_t_hello c;
  en_keys : ss_key_c2s c' = ss_key_c2s c /\ ss_key_s2c c' = ss_key_s2c c;
  en_peer : peer_id_pk c' = peer_id_pk c;
  en_ready : ss_push_ready c' = true /\ ss_pull_ready c' = true;
  en_flags : auth_awaiting_decide c' = auth_awaiting_decide c /\
    auth_decided c' = auth_decided c /\ auth_complete c' = auth_complete c
}.

(** A reader of the stream that starts with [hd], for a writer in [st]. *)
Definition starts (key hd : bytes) (st : ss_state) : Prop :=
  length hd = 24%nat /\ exists e e', crypto_secretstream_init_push key e = (Some (st, hd), e').

Lemma starts_pull key hd st :
  starts key hd st ->
  exists st', crypto_secretstream_init_pull hd key = Some st' /\ ss_synced st st'.
Proof. intros (_ & e & e' & E). by apply init_synced in E. Qed.

Lemma starts_len key hd st : starts key hd st -> (len hd =? SODCHAN_SS_HEADER_BYTES) = true.
Proof. intros [Hl _]. by rewrite Hl. Qed.

Lemma server_header s hd st :
  session_wf s -> role s = SODCHAN_ROLE_SERVER -> unread (out s) = [] ->
  starts (ss_key_c2s s) hd st ->
  exists s' stw hd',
    handle_peer_ss_header s hd = (0, s') /\ entered s s' /\ ss_synced st (ss_pull s') /\
    starts (ss_key_s2c s) hd' stw /\ ss_push s' = stw /\ unread (out s') = frame_bytes hd'.
Proof.
  intros [] Hr Ho Hst. destruct (starts_pull _ _ _ Hst) as (stp & Ep & Hsy).
  unfold handle_peer_ss_header. rewrite (starts_len _ _ _ Hst), Hr, Ep. cbn [negb]. cbv zeta.
  unfold server_send_ss_header_s2c. set (c1 := s <| ss_pull := stp |> <| ss_pull_ready := true |>).
  destruct (send_ss_header_ok c1 (ss_key_s2c c1)) as (stw & hd' & e & Ei & Hl & ->);
    [done | done |].
  cbv iota beta. change (negb (SODCHAN_OK =? SODCHAN_OK)) with false. cbv iota.
  eexists _, stw, hd'. split_and!; try done. split; [done | by eexists _, _].
Qed.

(** The device's identity and names, as the client sends them. *)
Definition sent_name (n : option bytes) : bytes := take 128 (cstr (default [] n)).
Definition client_user (c : session) : bytes := sent_name (client_username (cfg c)).
Definition client_dev (c : session) : bytes := sent_name (client_device_id (cfg c)).

Definition has_identity (c : session) : Prop :=
  have_client_id_sk (cfg c) = true /\ have_client_id_pk (cfg c) = true /\
  length (client_id_pk (cfg c)) = 32%nat.

Lemma sent_name_prefix n lim :
  lim = 128 ->
  exists t, default [] n = sent_name n ++ t /\ len (sent_name n) <= 128 /\
    (if lim <? strlen (default [] n) then lim else strlen (default [] n)) = len (sent_name n).
Proof.
  intros ->. unfold sent_name. destruct (cstr_prefix (default [] n)) as [t Ht]. unfold strlen.
  exists (drop 128 (cstr (default [] n)) ++ t). rewrite app_assoc, take_drop.
  split; [done |]. rewrite length_take. split; [lia |]. case_match; lia.
Qed.

Lemma sent_name_cstr n : cstr (sent_name n) = sent_name n.
Proof.
  apply cstr_id. intros Hin. apply (cstr_no_nul (default [] n)).
  by apply elem_of_take in Hin as (i & Hi%list_elem_of_lookup_2 & _).
Qed.

Lemma length_auth_device_bytes pk sig u d :
  length pk = 32%nat -> length sig = 64%nat ->
  len (auth_device_bytes pk sig u d) = 99 + len u + len d.
Proof.
  intros Hp Hs. unfold auth_device_bytes. rewrite !length_app, Hp, Hs. simpl. lia.
Qed.

(** The client signs its transcript and sends one AUTH_DEVICE. *)
Lemma client_sends_auth c :
  session_wf c -> role c = SODCHAN_ROLE_CLIENT -> auth_sent c = false -> has_identity c ->
  have_t_hello c = true -> ss_push_ready c = true -> unread (out c) = [] ->
  355 <= max_record_size (cfg c) -> max_record_size (cfg c) + 21 < 4294967296 ->
  exists sig cs,
    client_send_auth_device c = (SODCHAN_OK, cs <| auth_sent := true |>) /\
    crypto_sign_detached (t_auth_bytes (t_hello c) (client_id_pk (cfg c)) (client_user c)
      (client_dev c)) (client_id_sk (cfg c)) = Some sig /\
    sent c (auth_device_bytes (client_id_pk (cfg c)) sig (client_user c) (client_dev c)) cs.
Proof.
  intros [] Hr Has (Hsk & Hpk & Hid) Ht Hready Ho Hm Hm'. unfold client_send_auth_device.
  rewrite Hr, Has, Hsk, Hpk, Ht. cbn [bool_decide negb orb]. cbv zeta.
  destruct (sent_name_prefix (client_username (cfg c)) SODCHAN_USER_MAX eq_refl)
    as (ut & Eu & Hu & ->).
  destruct (sent_name_prefix (client_device_id (cfg c)) SODCHAN_DEVICE_ID_MAX eq_refl)
    as (dt & Ed & Hd & ->).
  rewrite Eu, Ed. fold (client_user c) (client_dev c) in *.
  rewrite build_t_auth_ok
    by (try done; unfold zeros; rewrite length_replicate; lia).
  cbn [res_bind]. rewrite rd_head by done.
  set (t := t_auth_bytes _ _ _ _).
  destruct (sign_works t (client_id_sk (cfg c))) as [sig Esig]. rewrite Esig.
  apply sign_length in Esig as Hsig.
  rewrite auth_device_encode_ok by (try done; unfold zeros; rewrite length_replicate; lia).
  set (p := auth_device_bytes _ _ _ _).
  pose proof (length_auth_device_bytes (client_id_pk (cfg c)) sig (client_user c) (client_dev c)
    Hid Hsig) as Hl. fold p in Hl.
  destruct (push_works (ss_push c) p) as (st & ct & Epush).
  apply push_length in Epush as Hct.
  rewrite (ss_send_ok c p _ ct st) by (try done; rewrite ?Ho; consts; cbn [length]; lia).
  change (negb (SODCHAN_OK =? SODCHAN_OK)) with false. cbv iota.
  eexists sig, _. split; [done |]. split; [done |]. exists st, ct. split_and!; try done.
  rewrite Ho, length_frame_bytes. consts. cbn [length]. lia.
Qed.

Lemma client_header c hd st :
  session_wf c -> role c = SODCHAN_ROLE_CLIENT -> unread (out c) = [] ->
  ss_push_ready c = true -> auth_sent c = false -> has_identity c -> have_t_hello c = true ->
  355 <= max_record_size (cfg c) -> max_record_size (cfg c) + 21 < 4294967296 ->
  starts (ss_key_s2c c) hd st ->
  exists c' sig c1 c2,
    handle_peer_ss_header c hd = (0, c') /\ entered c c' /\ ss_synced st (ss_pull c') /\
    crypto_sign_detached (t_auth_bytes (t_hello c) (client_id_pk (cfg c)) (client_user c)
      (client_dev c)) (client_id_sk (cfg c)) = Some sig /\
    ss_push c1 = ss_push c /\ unread (out c1) = [] /\ c' = c2 <| auth_sent := true |> /\
    sent c1 (auth_device_bytes (client_id_pk (cfg c)) sig (client_user c) (client_dev c)) c2.
Proof.
  intros Hwf Hr Ho Hp Has Hid Ht Hm Hm' Hst. destruct (starts_pull _ _ _ Hst) as (stp & Ep & Hsy).
  unfold handle_peer_ss_header. rewrite (starts_len _ _ _ Hst), Hr, Ep. cbn [negb]. cbv zeta.
  match goal with |- context [client_send_auth_device ?x] => set (c1 := x) end.
  assert (session_wf c1) as Hwf1
    by (destruct Hwf; constructor; try done; by apply queue_event_wf).
  destruct (client_sends_auth c1) as (sig & cs & -> & Esig & Hs); try done.
  change (negb (SODCHAN_OK =? SODCHAN_OK)) with false. cbv iota.
  eexists _, sig, c1, cs. split; [done |].
  destruct Hs as (st' & ct & ? & ? & ? & ->).
  split_and!; try done. exists st', ct. split_and!; done.
Qed.
End Headers.

(** ** The device is authenticated, the host decides *)

Section Devices.
Context `{Sodium} `{SizeT} {SP : SodiumSpec _} {SW : SodiumWorks _}.

(** What the server's host reads of the device. *)
Definition device_event (pk user dev fp : bytes) : sodchan_event_t :=
  EVENT_AUTH_DEVICE pk (snprintf_s (SODCHAN_USER_MAX + 1) (user ++ [Byte.x00]))
    (snprintf_s (SODCHAN_DEVICE_ID_MAX + 1) (dev ++ [Byte.x00])) fp true.

(** The session that awaits the host's decision on the device [pk]. *)
Definition awaiting (s : session) (pk user dev fp : bytes) : session :=
  (queue (s <| peer_id_pk := pk |> <| have_peer_id := true |>) (device_event pk user dev fp))
    <| auth_awaiting_decide := true |>.

Lemma server_authenticates s pk sk sig user dev :
  session_wf s -> role s = SODCHAN_ROLE_SERVER -> have_t_hello s = true ->
  auth_awaiting_decide s = false -> auth_complete s = false -> auth_decided s = false ->
  sign_pair pk sk -> len user <= 128 -> len dev <= 128 ->
  crypto_sign_detached (t_auth_bytes (t_hello s) pk user dev) sk = Some sig ->
  exists fp, handle_auth_device_pdu s (auth_device_bytes pk sig user dev) =
    (0, awaiting s pk user dev fp).
Proof.
  intros [] Hr Ht Ha Hc Hd Hk Hu Hv Hs. apply sign_length in Hs as Hl.
  pose proof (sign_pair_length _ _ Hk) as [Hp _]. pose proof (sign_verify _ _ _ _ Hk Hs) as Hver.
  unfold handle_auth_device_pdu. rewrite Hr, Ha, Hc, Hd, Ht. cbn [negb orb].
  change (negb (bool_decide (SODCHAN_ROLE_SERVER = SODCHAN_ROLE_SERVER))) with false. cbv iota.
  set (r := {| ad_client_id_pk := pk; ad_client_sig := sig; ad_username := user ++ [Byte.x00];
    ad_username_len := len user; ad_device_id := dev ++ [Byte.x00]; ad_device_id_len := len dev |}).
  rewrite (proj2 (auth_device_decode_ok (auth_device_bytes pk sig user dev)
    (SODCHAN_USER_MAX + 1) (SODCHAN_DEVICE_ID_MAX + 1) r)).
  2: { exists user, dev. rewrite !field_buf_fits by (consts; lia). by split_and!. }
  subst r. cbn [ad_client_id_pk ad_client_sig ad_username ad_username_len ad_device_id
    ad_device_id_len]. cbv zeta.
  rewrite build_t_auth_ok by (try done; unfold zeros; rewrite length_replicate; lia).
  cbn [res_bind]. rewrite rd_head by done. rewrite Hver. change (negb (0 =? 0)) with false.
  cbv iota. by eexists.
Qed.

(** An accepted device: one AUTH_OK leaves, and the server is READY. *)
Lemma server_accepts s :
  session_wf s -> role s = SODCHAN_ROLE_SERVER -> state s = SODCHAN_STATE_AUTH ->
  auth_awaiting_decide s = true -> auth_decided s = false -> ss_push_ready s = true ->
  unread (out s) = [] -> 3 <= max_record_size (cfg s) -> max_record_size (cfg s) + 21 < 4294967296 ->
  exists s1 s2 s',
    sodchan_auth_decide s true = (SODCHAN_OK, s') /\
    s1 = s <| auth_awaiting_decide := false |> <| auth_decided := true |> /\
    sent s1 (auth_ok_bytes []) s2 /\
    s' = emit_authenticated (s2 <| auth_complete := true |> <| state := SODCHAN_STATE_READY |>).
Proof.
  intros [] Hr Hst Ha Hd Hp Ho Hm Hm'. unfold sodchan_auth_decide, sodchan_auth_decide_ex.
  rewrite Hr, Hst, Ha, Hd. rewrite !bool_decide_eq_true_2 by done. cbn [negb orb].
  change ((0 <? 0) && negb (isSome None)) with false. change (SODCHAN_CLAIMS_MAX <? 0) with false.
  cbv iota zeta. set (s1 := s <| auth_awaiting_decide := _ |> <| auth_decided := _ |>).
  unfold server_send_auth_ok. rewrite auth_ok_encode_null by (vm_compute; done).
  unfold send_encoded. destruct (push_works (ss_push s1) (auth_ok_bytes [])) as (st & ct & Epush).
  apply push_length in Epush as Hct.
  match goal with |- context [ss_send_pdu s1 ?p 3] =>
    change (ss_send_pdu s1 p 3) with (ss_send_pdu s1 p (len (auth_ok_bytes []))) end.
  rewrite (ss_send_ok s1 (auth_ok_bytes []) _ ct st)
    by (try done; change (unread (out s1)) with (unread (out s)); rewrite ?Ho;
        change (len (auth_ok_bytes [])) with 3; change (max_record_size (cfg s1))
          with (max_record_size (cfg s)); consts; cbn [length]; lia).
  change (negb (SODCHAN_OK =? SODCHAN_OK)) with false. cbv iota.
  eexists s1, _, _. split; [done |]. split; [done |]. split; [| done].
  exists st, ct. split_and!; try done. change (unread (out s1)) with (unread (out s)).
  rewrite Ho, length_frame_bytes. change (length (auth_ok_bytes [])) with 3%nat in Hct.
  consts. cbn [length]. lia.
Qed.

Lemma client_ready c :
  role c = SODCHAN_ROLE_CLIENT ->
  handle_auth_ok_pdu c (auth_ok_bytes []) =
    (0, emit_authenticated (c <| auth_complete := true |> <| state := SODCHAN_STATE_READY |>)).
Proof.
  intros Hr. unfold handle_auth_ok_pdu. rewrite Hr, bool_decide_eq_true_2 by done. cbn [negb].
  rewrite (proj2 (auth_ok_decode_ok (auth_ok_bytes []) None 0)); [done |]. by exists [].
Qed.
End Devices.
