(* ===== verification/Meeting.v ===== *)
(** Two honest ends meet: from the two creations to READY.  The steps of
    [Agreement] are put together at the level of contexts, the output of one
    end being fed to the other as the repository's programs do ([relay] of
    [Clients]). *)

From Stdlib Require Import ZArith Lia ZifyBool String.
From S2P Require Import Prelude Defs WireBase WireHello WireAuth WireMux Crypto EventQueue.
From S2P Require Import OutBuf Channels Session Auth Handshake Mux Engine Api Clients Invariant.
From S2P Require Import Calm EngineLemmas Safety Transport Agreement.
Local Open Scope Z_scope.
Local Open Scope sodchan_scope.

(** ** One frame from one context to the other *)

Section Relay.
Context `{Sodium} `{SizeT} {SP : SodiumSpec _}.

(** The largest frame body the parser of a session accepts. *)
Definition frame_room (c : session) : Z :=
  if bool_decide (hs c = SODCHAN_HS_DONE) then ss_frame_max_body c else SODCHAN_MAX_CLEAR_FRAME.

Lemma next_frame_whole c body :
  session_wf c -> 0 < len body <= frame_room c ->
  next_frame c (frame_bytes body) = Ok (4 + len body, body).
Proof.
  intros Hc Hb. destruct (frame_limits c Hc). unfold next_frame, frame_room in *.
  unfold sodchan_wire_frame_parse.
  case_bool_decide; (apply frame_parse_max_ok; [done |]; split; [done |]; split; [done |];
    exists []; by rewrite app_nil_r).
Qed.

(** A whole frame, fed to a context that waits for one. *)
Lemma feed_frame x body c' :
  session_wf (core x) -> in_buf x = [] -> stopped (core x) = false ->
  0 < len body <= frame_room (core x) -> handle_frame (core x) body = (0, c') ->
  sodchan_feed_input x (Some (frame_bytes body)) = (4 + len body, mk_ctx c' []).
Proof.
  intros Hwf Hi Hs Hb Hh. pose proof (length_frame_bytes body) as Hl.
  assert (frame_room (core x) <= SODCHAN_IN_BUF_SIZE - 4) as Hr.
  { pose proof (ss_frame_max_body_bound (core x) (swf_record _ (wf_cfg _ Hwf))).
    unfold frame_room. case_bool_decide; revert H2; consts; lia. }
  unfold sodchan_feed_input. rewrite Hi, Hs. cbn [length].
  replace (len (frame_bytes body) =? 0) with false by lia.
  replace (_ <? len (frame_bytes body)) with false by (revert Hr; consts; lia). cbv zeta.
  replace (len (frame_bytes body) =? 0) with false by lia.
  rewrite take_ge by lia. cbn [app]. unfold process_input. cbn [in_buf].
  destruct (length (frame_bytes body)) as [|m] eqn:E; [lia |]. f_equal; [lia |].
  cbn [process_loop]. unfold process_turn at 1. cbn [core in_buf]. rewrite Hs.
  replace (len (frame_bytes body) <? 4) with false by lia.
  rewrite next_frame_whole by done. rewrite Hh. change (negb (0 =? 0)) with false. cbv iota beta.
  rewrite drop_ge by lia. cbn [process_loop]. unfold process_turn. cbn [core in_buf].
  by destruct (stopped c').
Qed.

(** Reading the whole output leaves an empty buffer. *)
Lemma get_output_whole b n :
  out_wf b -> 0 < len (unread b) <= n -> get_output b n = (unread b, outbuf_empty).
Proof.
  intros Hb Hn. pose proof (length_unread b Hb) as Hl. destruct Hb. unfold get_output.
  replace (n =? 0) with false by lia. replace (_ <=? out_off b) with false by lia. cbv zeta.
  replace (n <? _) with false by lia. replace (_ <=? _) with true by lia. f_equal.
  unfold unread. rewrite take_ge; [done |]. rewrite length_drop. lia.
Qed.

Lemma get_output_nothing b n : out_wf b -> unread b = [] -> get_output b n = ([], b).
Proof.
  intros Hb Hn. pose proof (length_unread b Hb) as Hl. rewrite Hn in Hl. destruct Hb.
  unfold get_output. destruct (n =? 0); [done |]. cbn [length] in Hl.
  by replace (_ <=? out_off b) with true by lia.
Qed.

(** What a context becomes when its whole output was read. *)
Definition emptied (x : ctx) (e : entropy) : ctx :=
  mk_ctx ((core x) <| rng := e |> <| out := outbuf_empty |>) (in_buf x).

Lemma get_output_of_eq x n p :
  get_output_of x n p =
    let '(bs, o) := get_output (out (core x)) n in
    ((bs, mk_ctx ((core x) <| rng := gen p |> <| out := o |>) (in_buf x)), p).
Proof.
  destruct p as [e h]. unfold get_output_of, bind, call_ctx, call_at. cbn [api_ctx].
  unfold sodchan_get_output. cbn [negb with_rng core gen].
  change (out ((core x) <| rng := e |>)) with (out (core x)).
  by destruct (get_output (out (core x)) n).
Qed.

Lemma feed_of_eq x data p :
  feed_of x data p =
    let '(n, x) := sodchan_feed_input (with_rng (gen p) x) (Some data) in
    ((n, x), mk_process (rng (core x)) (heap p)).
Proof.
  unfold feed_of, bind, call_ctx, call_at. cbn [api_ctx].
  by destruct (sodchan_feed_input (with_rng (gen p) x) (Some data)).
Qed.

Lemma relay_frame from to n p body c' :
  out_wf (out (core from)) -> unread (out (core from)) = frame_bytes body -> 4 + len body <= n ->
  session_wf (core to) -> in_buf to = [] -> stopped (core to) = false ->
  0 < len body <= frame_room (core to) ->
  handle_frame ((core to) <| rng := gen p |>) body = (0, c') ->
  (relay from to n p).1 = (emptied from (gen p), mk_ctx c' []).
Proof.
  intros Ho Hu Hn Hwf Hi Hs Hb Hh. pose proof (length_frame_bytes body) as Hl.
  unfold relay, bind at 1. rewrite get_output_of_eq, get_output_whole by (rewrite ?Hu; lia || done).
  rewrite Hu. replace (0 <? len (frame_bytes body)) with true by lia.
  unfold bind. rewrite feed_of_eq.
  by rewrite (feed_frame (with_rng (gen p) to) body c') by (done || by apply wf_set_rng).
Qed.

Lemma relay_nothing from to n p :
  out_wf (out (core from)) -> unread (out (core from)) = [] ->
  (relay from to n p).1 = (with_rng (gen p) from, to).
Proof.
  intros Ho Hu. unfold relay, bind. rewrite get_output_of_eq, get_output_nothing by done.
  cbn [length]. change (0 <? Z.of_nat 0) with false. cbn [fst ret]. unfold with_rng.
  do 2 f_equal.
Qed.
End Relay.

(** ** A context just created *)

Section Fresh.
Context `{Sodium} `{SizeT} {SP : SodiumSpec _} {SW : SodiumWorks _}.

(** The HELLO a client starts with. *)
Definition client_hello (c : session) : sodchan_hello_t :=
  {| h_proto_version := SODCHAN_PROTO_VERSION; h_suite_id := SODCHAN_SUITE_V1;
     h_role := role_code SODCHAN_ROLE_CLIENT; h_flags := 0; h_eph_pk := eph_pk c;
     h_id_pk := if have_client_id_pk (cfg c) then client_id_pk (cfg c) else zeros 32;
     h_id_sig := zeros 64 |}.

Record fresh (r : sodchan_role_t) (cfg : sodchan_config_t) (x : ctx) : Prop := {
  fr_wf : session_wf (core x);
  fr_role : role (core x) = r;
  fr_cfg : Session.cfg (core x) = (apply_config_defaults cfg).1;
  fr_server_pk : server_id_pk (core x) = (apply_config_defaults cfg).2.1 /\
    have_server_id_pk (core x) = (apply_config_defaults cfg).2.2;
  fr_state : state (core x) = SODCHAN_STATE_HELLO;
  fr_hs : hs (core x) = SODCHAN_HS_WAIT_PEER_HELLO;
  fr_eph : kx_pair (eph_pk (core x)) (eph_sk (core x));
  fr_flags : auth_sent (core x) = false /\ auth_awaiting_decide (core x) = false /\
    auth_decided (core x) = false /\ auth_complete (core x) = false;
  fr_in : in_buf x = [];
  fr_out : unread (out (core x)) =
    match r with
    | SODCHAN_ROLE_SERVER => []
    | SODCHAN_ROLE_CLIENT => frame_bytes (hello_bytes (client_hello (core x)))
    end
}.

Lemma client_hello_wf c :
  settings_wf (cfg c) -> length (eph_pk c) = 32%nat -> hello_wf (client_hello c).
Proof.
  intros [] He. constructor; try done; [by right |]. cbn [h_id_pk client_hello]. by case_match.
Qed.

(** The start of a handshake, in full. *)
Lemma handshake_start_eq c :
  session_wf c -> unread (out c) = [] ->
  exists pk sk e,
    crypto_kx_keypair (rng c) = (Some (pk, sk), e) /\
    let c1 := c <| rng := e |> <| eph_pk := pk |> <| eph_sk := sk |> in
    handshake_start c =
      (SODCHAN_OK,
       (match role c with
        | SODCHAN_ROLE_SERVER => c1
        | SODCHAN_ROLE_CLIENT =>
            c1 <| out := mk_outbuf (frame_bytes (hello_bytes (client_hello c1))) 0 |>
        end) <| state := SODCHAN_STATE_HELLO |> <| hs := SODCHAN_HS_WAIT_PEER_HELLO |>).
Proof.
  intros Hc Ho. destruct (kx_works (rng c)) as (pk & sk & e & E). exists pk, sk, e.
  split; [done |]. cbv zeta. set (c1 := c <| rng := e |> <| eph_pk := pk |> <| eph_sk := sk |>).
  assert (length (eph_pk c1) = 32%nat) as Hl by (by apply (kx_length pk sk); exists (rng c), e).
  assert (hello_wf (client_hello c1)) as [] by (apply client_hello_wf; [apply Hc | done]).
  unfold handshake_start. rewrite E. change (role (c <| rng := e |> <| eph_pk := pk |> <| eph_sk := sk |>))
    with (role c). fold c1. destruct (role c) eqn:Er; [done |].
  unfold queue_local_hello. change (role c1) with (role c). rewrite Er.
  match goal with |- context [send_hello c1 ?h] => change h with (client_hello c1) end.
  rewrite send_hello_ok by (done || apply Hc). done.
Qed.

Lemma create_fresh lab m1 m2 r cfg e x :
  config_wf cfg -> sodchan_create lab m1 m2 (role_code r) (Some cfg) e = Some x -> fresh r cfg x.
Proof.
  intros Hcfg. unfold sodchan_create. replace (role_of (role_code r)) with (Some r) by (by destruct r).
  cbv zeta. change (default config_zero (Some cfg)) with cfg.
  do 4 (lazymatch goal with |- (if ?b then None else _) = _ -> _ => destruct b; [done |] end).
  pose proof (apply_config_wf cfg Hcfg) as [Hs Hk].
  destruct (apply_config_defaults cfg) as [st [spk have]] eqn:Ec. destruct m2; [|done].
  cbn [negb]. simpl in Hs, Hk. pose proof (swf_queue _ Hs).
  replace (event_queue_size st =? 0) with false by lia.
  set (z := session_zero _ _ _ _ _ _).
  assert (session_wf z) as Hz by (by apply wf_session_zero).
  pose proof (wf_handshake_start z Hz) as Hw.
  destruct (handshake_start_eq z Hz eq_refl) as (pk & sk & e' & Ek & E). cbv zeta in E.
  rewrite E in Hw |- *. change (negb (SODCHAN_OK =? SODCHAN_OK)) with false. cbv iota.
  intros <-%(inj Some). cbn [snd] in Hw. change (role z) with r in *.
  constructor; cbn [core in_buf]; rewrite ?Ec; try done; destruct r; try done;
    by exists (rng z), e'.
Qed.
End Fresh.

(** ** The rounds of an exchange *)

Section Rounds.
Context `{Sodium} `{SizeT} {SP : SodiumSpec _} {SW : SodiumWorks _}.

(** The client's output to the server, then the server's to the client, each
    relayed in a process of its own. *)
Definition exchange (n : Z) (p p' : process) (c s : ctx) : ctx * ctx :=
  let '(c, s) := (relay c s n p).1 in
  let '(s, c) := (relay s c n p').1 in (c, s).

(** What both ends hold once the HELLOs are exchanged. *)
Record shared (cc cs : settings) (c s : session) : Prop := {
  sh_cwf : session_wf c;
  sh_swf : session_wf s;
  sh_crole : role c = SODCHAN_ROLE_CLIENT;
  sh_srole : role s = SODCHAN_ROLE_SERVER;
  sh_ccfg : cfg c = cc;
  sh_scfg : cfg s = cs;
  sh_c2s : ss_key_c2s c = ss_key_c2s s;
  sh_s2c : ss_key_s2c c = ss_key_s2c s;
  sh_t : t_hello c = t_hello s;
  sh_have : have_t_hello c = true /\ have_t_hello s = true
}.

(** The flags of a server that has not heard of a device. *)
Definition unheard (s : session) : Prop :=
  auth_awaiting_decide s = false /\ auth_decided s = false /\ auth_complete s = false.

(** After the first round: the client's stream header is under way. *)
Record greeted (cc cs : settings) (spk : bytes) (x y : ctx) : Prop := {
  gr_shared : shared cc cs (core x) (core y);
  gr_in : in_buf x = [] /\ in_buf y = [];
  gr_states : state (core x) = SODCHAN_STATE_SS_HEADER /\ state (core y) = SODCHAN_STATE_SS_HEADER;
  gr_hs : hs (core x) = SODCHAN_HS_WAIT_PEER_SS /\ hs (core y) = SODCHAN_HS_WAIT_PEER_SS;
  gr_sent : auth_sent (core x) = false;
  gr_flags : unheard (core y);
  gr_peer : peer_id_pk (core x) = spk;
  gr_push : ss_push_ready (core x) = true;
  gr_header : exists hd, starts (ss_key_c2s (core x)) hd (ss_push (core x)) /\
    unread (out (core x)) = frame_bytes hd;
  gr_out : unread (out (core y)) = []
}.

Lemma live_state c s :
  state c = s -> bool_decide (s = SODCHAN_STATE_ERROR) || bool_decide (s = SODCHAN_STATE_CLOSED) = false ->
  stopped c = false.
Proof. by intros <-. Qed.

Lemma clear_room c (body : bytes) :
  hs c <> SODCHAN_HS_DONE -> 0 < len body <= SODCHAN_MAX_CLEAR_FRAME -> 0 < len body <= frame_room c.
Proof. intros Hh Hb. unfold frame_room. by rewrite bool_decide_eq_false_2. Qed.

Lemma wf_frame_result c body c' : session_wf c -> handle_frame c body = (0, c') -> session_wf c'.
Proof. intros Hc Hh. pose proof (wf_handle_frame c body Hc) as Hw. by rewrite Hh in Hw. Qed.

Lemma hello_frame c body :
  hs c = SODCHAN_HS_WAIT_PEER_HELLO -> handle_frame c body = handle_peer_hello c body.
Proof. unfold handle_frame. by intros ->. Qed.

Lemma header_frame c body :
  hs c = SODCHAN_HS_WAIT_PEER_SS -> handle_frame c body = handle_peer_ss_header c body.
Proof. unfold handle_frame. by intros ->. Qed.

Lemma record_frame c body :
  hs c = SODCHAN_HS_DONE -> handle_frame c body = handle_encrypted_pdu c body.
Proof. unfold handle_frame. by intros ->. Qed.

Lemma hello_round n p p' ccfg scfg x y :
  fresh SODCHAN_ROLE_CLIENT ccfg x -> fresh SODCHAN_ROLE_SERVER scfg y ->
  sign_pair (server_id_pk (core y)) (server_id_sk (cfg (core y))) ->
  accept_any_server_pk (cfg (core x)) = true \/
    (have_server_id_pk (core x) = true /\ server_id_pk (core x) = server_id_pk (core y)) ->
  144 <= n ->
  let '(x', y') := exchange n p p' x y in
  greeted (cfg (core x)) (cfg (core y)) (server_id_pk (core y)) x' y'.
Proof.
  intros [Xwf Xr Xc Xpk Xst Xhs Xk Xf Xi Xo] [Ywf Yr Yc Ypk Yst Yhs Yk Yf Yi Yo] Hsign Hpin Hn.
  set (h := client_hello (core x)) in *.
  assert (hello_wf h) as Hh by (apply client_hello_wf; apply Xwf).
  assert (len (hello_bytes h) = 140) as Hl by (destruct Hh; rewrite length_hello_bytes by done; done).
  destruct (server_answers ((core y) <| rng := gen p |>) h (eph_sk (core x)))
    as (y' & sig & rx & tx & c2s & s2c & Hy & Hd & Hu & Hsl & Hver & Ek & Ec & Es);
    [by apply wf_set_rng | done | done | done | done | done | done | done |].
  rewrite <- (hello_frame ((core y) <| rng := gen p |>)) in Hy by done.
  unfold exchange.
  rewrite (relay_frame x y n p (hello_bytes h) y');
    [| apply Xwf | exact Xo | clear -Hl Hn; clearbody h; lia | exact Ywf | exact Yi | by eapply live_state
     | apply clear_room; [by rewrite Yhs | rewrite Hl; clear; consts; lia] | exact Hy ].
  set (h' := server_hello (server_id_pk (core y)) (eph_pk (core y)) sig).
  assert (hello_wf h') as Hh'.
  { destruct Ywf. constructor; try done. by left. }
  assert (len (hello_bytes h') = 140) as Hl' by (destruct Hh'; rewrite length_hello_bytes by done; done).
  assert (session_wf y') as Ywf'.
  { eapply wf_frame_result; [by apply (wf_set_rng (core y) (gen p)) | exact Hy]. }
  set (z := (core (emptied x (gen p))) <| rng := gen p' |>).
  assert (session_wf z) as Zwf.
  { apply wf_set_rng, wf_set_out; [by apply wf_set_rng | apply outbuf_empty_wf]. }
  destruct (client_accepts z h' rx tx c2s s2c)
    as (x' & st & hd & e & Hx & Hd' & Ei & Hhl & Hxo & Hp & Hpr & Hpeer); try done.
  rewrite <- (hello_frame z) in Hx by done.
  rewrite (relay_frame (mk_ctx y' []) (emptied x (gen p)) n p' (hello_bytes h') x');
    [| apply Ywf' | exact Hu | clear -Hl' Hn; clearbody h'; lia | | exact Xi | by eapply live_state
     | apply clear_room; [change (hs (core x) <> SODCHAN_HS_DONE); by rewrite Xhs
         | rewrite Hl'; clear; consts; lia] | exact Hx ];
    [| apply wf_set_out; [by apply wf_set_rng | apply outbuf_empty_wf]].
  pose proof (hd_flags _ _ _ _ _ Hd) as (_ & F1 & F2 & F3).
  pose proof (hd_flags _ _ _ _ _ Hd') as (F0 & _). pose proof (hd_c2s _ _ _ _ _ Hd') as F4.
  destruct Hd, Hd'. cbn in *. unfold emptied. cbn [core in_buf].
  constructor; cbn [core in_buf]; try done.
  - constructor; try done; try (cbn; congruence); [by eapply wf_frame_result |].
    apply wf_set_out; [by apply wf_set_rng | apply outbuf_empty_wf].
  - rewrite F0. apply Xf.
  - destruct Yf as (_ & Y1 & Y2 & Y3). unfold unheard. cbn. by rewrite F1, F2, F3.
  - exists hd. rewrite F4, Hp. split; [| done]. split; [done | by eexists _, _].
Qed.

(** After the second round: the device's AUTH_DEVICE is under way. *)
Record keyed (cc cs : settings) (spk : bytes) (x y : ctx) : Prop := {
  ke_shared : shared cc cs (core x) (core y);
  ke_in : in_buf x = [] /\ in_buf y = [];
  ke_states : state (core x) = SODCHAN_STATE_AUTH /\ state (core y) = SODCHAN_STATE_AUTH;
  ke_hs : hs (core x) = SODCHAN_HS_DONE /\ hs (core y) = SODCHAN_HS_DONE;
  ke_ready : (ss_push_ready (core x) = true /\ ss_pull_ready (core x) = true) /\
    ss_push_ready (core y) = true /\ ss_pull_ready (core y) = true;
  ke_flags : unheard (core y);
  ke_peer : peer_id_pk (core x) = spk;
  ke_out : unread (out (core y)) = [];
  ke_down : ss_synced (ss_push (core y)) (ss_pull (core x));
  ke_auth : exists sig c1 c2,
    crypto_sign_detached (t_auth_bytes (t_hello (core x)) (client_id_pk cc)
      (client_user (core x)) (client_dev (core x))) (client_id_sk cc) = Some sig /\
    sent c1 (auth_device_bytes (client_id_pk cc) sig (client_user (core x))
      (client_dev (core x))) c2 /\
    unread (out c1) = [] /\ ss_synced (ss_push c1) (ss_pull (core y)) /\
    ss_push (core x) = ss_push c2 /\ out (core x) = out c2
}.

(** [emptied] and [with_rng] on what the records look at. *)
Lemma wf_emptied x e : session_wf (core x) -> session_wf (core (emptied x e)).
Proof. intros Hx. apply wf_set_out; [by apply wf_set_rng | apply outbuf_empty_wf]. Qed.

Lemma header_length (hd : bytes) key st : starts key hd st -> len hd = 24.
Proof. intros [Hl _]. by rewrite Hl. Qed.

Lemma header_round n p p' cc cs spk x y :
  greeted cc cs spk x y -> has_identity (core x) ->
  355 <= max_record_size cc -> max_record_size cc + 21 < 4294967296 -> 28 <= n ->
  let '(x', y') := exchange n p p' x y in keyed cc cs spk x' y'.
Proof.
  intros [Hsh [Xi Yi] [Xst Yst] [Xhs Yhs] Xs Yf Xp Xr (hd & Hst & Xo) Yo] Hid Hm Hm' Hn.
  destruct Hsh as [Xwf Ywf Xro Yro Xc Yc K1 K2 Ht [Xh Yh]].
  pose proof (header_length _ _ _ Hst) as Hl.
  destruct (server_header ((core y) <| rng := gen p |>) hd (ss_push (core x)))
    as (y' & stw & hd' & Hy & Hen & Hsy & Hst' & Yp & Yu);
    [by apply wf_set_rng | done | done | by rewrite K1 in Hst |].
  rewrite <- (header_frame ((core y) <| rng := gen p |>)) in Hy by done.
  pose proof (header_length _ _ _ Hst') as Hl'. unfold exchange.
  rewrite (relay_frame x y n p hd y');
    [| apply Xwf | exact Xo | clear -Hl Hn; lia | exact Ywf | exact Yi | by eapply live_state
     | apply clear_room; [by rewrite Yhs | rewrite Hl; clear; consts; lia] | exact Hy ].
  assert (session_wf y') as Ywf' by (eapply wf_frame_result; [|exact Hy]; by apply wf_set_rng).
  set (z := (core (emptied x (gen p))) <| rng := gen p' |>).
  assert (session_wf z) as Zwf by (by apply wf_set_rng, wf_emptied).
  destruct (client_header z hd' stw) as (x' & sig & c1 & c2 & Hx & Hen' & Hsy' & Hsig & Hc1 & Hc1o
    & Hx' & Hsent); try done; try (change (cfg z) with (cfg (core x)); by rewrite Xc).
  { change (ss_key_s2c z) with (ss_key_s2c (core x)). by rewrite K2. }
  rewrite <- (header_frame z) in Hx by done.
  rewrite (relay_frame (mk_ctx y' []) (emptied x (gen p)) n p' hd' x');
    [| apply Ywf' | exact Yu | clear -Hl' Hn; lia | by apply wf_emptied | exact Xi
     | by eapply live_state
     | apply clear_room; [change (hs (core x) <> SODCHAN_HS_DONE); by rewrite Xhs
         | rewrite Hl'; clear; consts; lia] | exact Hx ].
  assert (session_wf x') as Xwf' by (by eapply wf_frame_result).
  pose proof Hen as [E1 E2 E3 E4 E5 E6 [E7 E8] E9 E10 (E11 & E12 & E13)].
  pose proof Hen' as [F1 F2 F3 F4 F5 F6 [F7 F8] F9 F10 (F11 & F12 & F13)].
  destruct Yf as (Y1 & Y2 & Y3).
  constructor; cbn [core in_buf emptied]; try done.
  - constructor; [done | by apply (wf_emptied (mk_ctx y' [])) | ..]; cbn in *; try congruence.
    split; congruence.
  - unfold unheard. cbn in *. split_and!; congruence.
  - cbn in *. congruence.
  - cbn. by rewrite Yp.
  - change (cfg z) with (cfg (core x)) in *. rewrite Xc in Hsig, Hsent.
    assert (client_user x' = client_user z /\ client_dev x' = client_dev z) as [-> ->]
      by (unfold client_user, client_dev; rewrite F2; by split).
    exists sig, c1, c2. rewrite F5. split; [done |]. split; [done |]. split; [done |].
    split; [by rewrite Hc1 |]. by rewrite Hx'.
Qed.

(** Both ends authenticated each other, or the server is about to; the two
    cipher streams are in step, and nothing is under way. *)
Record met (cc cs : settings) (spk : bytes) (x y : ctx) : Prop := {
  me_shared : shared cc cs (core x) (core y);
  me_in : in_buf x = [] /\ in_buf y = [];
  me_hs : hs (core x) = SODCHAN_HS_DONE /\ hs (core y) = SODCHAN_HS_DONE;
  me_ready : (ss_push_ready (core x) = true /\ ss_pull_ready (core x) = true) /\
    ss_push_ready (core y) = true /\ ss_pull_ready (core y) = true;
  me_peers : peer_id_pk (core x) = spk /\ peer_id_pk (core y) = client_id_pk cc;
  me_out : unread (out (core x)) = [] /\ unread (out (core y)) = [];
  me_up : ss_synced (ss_push (core x)) (ss_pull (core y));
  me_down : ss_synced (ss_push (core y)) (ss_pull (core x))
}.

(** The server awaits its host's decision. *)
Definition undecided (x y : ctx) : Prop :=
  state (core x) = SODCHAN_STATE_AUTH /\ state (core y) = SODCHAN_STATE_AUTH /\
  auth_awaiting_decide (core y) = true /\ auth_decided (core y) = false.

Lemma record_room c (body : bytes) :
  hs c = SODCHAN_HS_DONE -> 355 <= max_record_size (cfg c) ->
  max_record_size (cfg c) + 21 < 4294967296 ->
  0 < len body <= 372 -> 0 < len body <= frame_room c.
Proof.
  intros Hh Hm Hm' Hb. unfold frame_room. rewrite Hh, bool_decide_eq_true_2 by done.
  rewrite ss_frame_max_body_eq by lia. consts. lia.
Qed.

Lemma names_short c : len (client_user c) <= 128 /\ len (client_dev c) <= 128.
Proof.
  unfold client_user, client_dev, sent_name. rewrite !length_take. lia.
Qed.

(** The AUTH_DEVICE the client sent is accepted. *)
Lemma auth_arrives c1 c2 s pk sk sig user dev :
  session_wf s -> role s = SODCHAN_ROLE_SERVER -> state s = SODCHAN_STATE_AUTH ->
  have_t_hello s = true -> unheard s -> ss_pull_ready s = true ->
  355 <= max_record_size (cfg s) -> sign_pair pk sk -> len user <= 128 -> len dev <= 128 ->
  crypto_sign_detached (t_auth_bytes (t_hello s) pk user dev) sk = Some sig ->
  sent c1 (auth_device_bytes pk sig user dev) c2 -> ss_synced (ss_push c1) (ss_pull s) ->
  exists ct st fp,
    unread (out c2) = unread (out c1) ++ frame_bytes ct /\ 0 < len ct <= 372 /\
    ss_synced (ss_push c2) st /\
    handle_encrypted_pdu s ct = (0, awaiting (s <| ss_pull := st |>) pk user dev fp).
Proof.
  intros Hwf Hr Hst Ht (Ha & Hd & Hc) Hp Hm Hk Hu Hv Hs Hsent Hsy.
  apply sign_length in Hs as Hl. pose proof (sign_pair_length _ _ Hk) as [Hpl _].
  pose proof (length_auth_device_bytes pk sig user dev Hpl Hl) as Hb.
  destruct (sent_delivers c1 c2 s _ Hsent Hsy Hp) as (ct & st & b & Ho & Hct & Hb0 & Hsy' & He);
    [rewrite Hb; consts; lia | rewrite Hb; lia |].
  destruct (server_authenticates (s <| ss_pull := st |>) pk sk sig user dev)
    as [fp Hfp]; try done; [by apply wf_set_ss_pull |].
  exists ct, st, fp. split; [done |]. rewrite Hct, Hb. split; [consts; lia |]. split; [done |].
  rewrite He. injection Hb0 as <-. unfold dispatch_pdu.
  change (state (s <| ss_pull := st |>)) with (state s). rewrite Hst. exact Hfp.
Qed.

Lemma auth_round n p p' cc cs spk x y :
  keyed cc cs spk x y -> sign_pair (client_id_pk cc) (client_id_sk cc) ->
  355 <= max_record_size cs -> max_record_size cs + 21 < 4294967296 -> 376 <= n ->
  let '(x', y') := exchange n p p' x y in met cc cs spk x' y' /\ undecided x' y'.
Proof.
  intros [[Xwf Ywf Xro Yro Xc Yc K1 K2 Ht [Xh Yh]] [Xi Yi] [Xst Yst] [Xhs Yhs] [Xr [Yr Yr']] Yf
    Xp Yo Hdown (sig & c1 & c2 & Hsig & Hsent & Ho1 & Hsy & Xpu & Xo)] Hk Hm Hm' Hn.
  destruct (names_short (core x)) as [Hu Hv].
  destruct (auth_arrives c1 c2 ((core y) <| rng := gen p |>) (client_id_pk cc) (client_id_sk cc)
    sig (client_user (core x)) (client_dev (core x))) as (ct & st & fp & Ho & Hct & Hsy' & He);
    try done; [by apply wf_set_rng | cbn; by rewrite Yc | cbn; by rewrite <- Ht |].
  rewrite Ho1 in Ho. cbn [app] in Ho. rewrite <- Xo in Ho.
  rewrite <- (record_frame ((core y) <| rng := gen p |>)) in He by done.
  match type of He with _ = (0, ?s) => set (y' := s) in * end.
  unfold exchange.
  rewrite (relay_frame x y n p ct y');
    [| apply Xwf | exact Ho | clear -Hct Hn; lia | exact Ywf | exact Yi | by eapply live_state
     | apply record_room; [done | by rewrite Yc | by rewrite Yc | done] | exact He ].
  assert (session_wf y') as Ywf' by (eapply wf_frame_result; [|exact He]; by apply wf_set_rng).
  rewrite relay_nothing; [| apply Ywf' | exact Yo].
  split; [| split_and!; try done; apply Yf]. constructor; cbn [core in_buf with_rng]; try done.
  - constructor; try done; [by apply wf_emptied | by apply wf_set_rng].
  - by rewrite <- Xpu in Hsy'.
Qed.

(** The host of the server accepts, and the client learns it. *)
Definition accepted (y : ctx) : ctx := (api_ctx y (Call_auth_decide_ex true None 0)).2.

Lemma accept_round n p p' cc cs spk x y :
  met cc cs spk x y -> undecided x y ->
  355 <= max_record_size cc -> max_record_size cc + 21 < 4294967296 ->
  355 <= max_record_size cs -> max_record_size cs + 21 < 4294967296 -> 24 <= n ->
  let '(x', y') := exchange n p p' x (accepted y) in
  met cc cs spk x' y' /\ state (core x') = SODCHAN_STATE_READY /\
  state (core y') = SODCHAN_STATE_READY.
Proof.
  intros [[Xwf Ywf Xro Yro Xc Yc K1 K2 Ht [Xh Yh]] [Xi Yi] [Xhs Yhs] [[Xr Xr'] [Yr Yr']] Hp
    [Xo Yo] Hup Hdown] (Xst & Yst & Ya & Yd) Hm Hm' Hn1 Hn2 Hn.
  destruct (server_accepts (core y)) as (s1 & s2 & y' & Hy & Hs1 & Hsent & Hy'); try done;
    [rewrite Yc; lia | by rewrite Yc |].
  assert (accepted y = mk_ctx y' []) as ->
    by (unfold accepted; cbn [api_ctx]; unfold on_core; cbn [snd];
        unfold sodchan_auth_decide in Hy; by rewrite Hy, Yi).
  pose proof (wf_auth_decide_ex (core y) true None 0 ltac:(lia) Ywf) as Ywf'.
  unfold sodchan_auth_decide in Hy. rewrite Hy in Ywf'. cbn [snd] in Ywf'.
  unfold exchange. rewrite relay_nothing by (done || apply Xwf).
  set (z := (core (with_rng (gen p) x)) <| rng := gen p' |>).
  destruct (sent_delivers s1 s2 z _ Hsent) as (ct & st & b & Ho & Hct & Hb & Hsy & He);
    [by subst s1 | done | split; vm_compute; done |
     change (cfg z) with (cfg (core x)); rewrite Xc; change (len (auth_ok_bytes [])) with 3; lia |].
  injection Hb as <-. unfold dispatch_pdu in He.
  change (state (z <| ss_pull := st |>)) with (state (core x)) in He. rewrite Xst in He.
  match type of He with _ = ?r => change r with
    (handle_auth_ok_pdu (z <| ss_pull := st |>) (auth_ok_bytes [])) in He end.
  rewrite client_ready in He by done. rewrite <- (record_frame z) in He by done.
  assert (unread (out y') = frame_bytes ct) as Ho'.
  { rewrite Hy'. change (unread (out s2) = frame_bytes ct). rewrite Ho. subst s1.
    change (unread (out (core y)) ++ frame_bytes ct = frame_bytes ct). by rewrite Yo. }
  change (len (auth_ok_bytes [])) with 3 in Hct.
  assert (len ct = 20) as Hct' by (revert Hct; consts; lia).
  rewrite (relay_frame (mk_ctx y' []) (with_rng (gen p) x) n p' ct _) with (1 := wf_out _ Ywf')
    (2 := Ho') (8 := He); [| clear -Hct' Hn; lia | by apply wf_set_rng | done | by eapply live_state |].
  2: { apply record_room; [done | | | clear -Hct'; lia];
       change (cfg (core (with_rng (gen p) x))) with (cfg (core x)); by rewrite Xc. }
  assert (session_wf z) as Zwf by (by apply wf_set_rng, wf_set_rng).
  pose proof (wf_frame_result _ _ _ Zwf He) as Xwf'.
  destruct Hsent as (st' & ct' & _ & _ & _ & Hs2).
  split; [| split; [done | by rewrite Hy']].
  constructor; cbn [core in_buf emptied]; try done.
  - constructor; [exact Xwf' | by apply (wf_emptied (mk_ctx y' [])) | ..];
      rewrite ?Hy', ?Hs2, ?Hs1; done.
  - split; [done |]. by rewrite Hy', Hs2, Hs1.
  - split; [done |]. by rewrite Hy', Hs2, Hs1.
  - destruct Hp as [Hp1 Hp2]. split; [done |]. by rewrite Hy', Hs2, Hs1.
  - by rewrite Hy', Hs2, Hs1.
  - by rewrite Hy'.
Qed.

(** With nothing under way, a round changes nothing but the generators. *)
Lemma idle_round n p p' x y :
  session_wf (core x) -> session_wf (core y) ->
  unread (out (core x)) = [] -> unread (out (core y)) = [] ->
  exchange n p p' x y = (with_rng (gen p) x, with_rng (gen p') y).
Proof.
  intros Hx Hy Ho Ho'. unfold exchange.
  rewrite relay_nothing by (done || apply Hx). by rewrite relay_nothing by (done || apply Hy).
Qed.

Lemma met_idle n p p' cc cs spk x y :
  met cc cs spk x y ->
  let '(x', y') := exchange n p p' x y in
  met cc cs spk x' y' /\ (undecided x y -> undecided x' y').
Proof.
  intros [[] ? ? ? ? [] ? ?]. rewrite idle_round by done. split; [| done].
  constructor; try done. constructor; try done; by apply wf_set_rng.
Qed.

(** [k] rounds, each relay in a process of its own. *)
Fixpoint exchanges (k : nat) (n : Z) (ps : nat -> process) (c s : ctx) : ctx * ctx :=
  match k with
  | O => (c, s)
  | S k =>
      let '(c, s) := exchange n (ps 0%nat) (ps 1%nat) c s in
      exchanges k n (fun i => ps (S (S i))) c s
  end.

Lemma met_rounds k n ps cc cs spk x y :
  met cc cs spk x y -> undecided x y ->
  let '(x', y') := exchanges k n ps x y in met cc cs spk x' y' /\ undecided x' y'.
Proof.
  revert ps x y. induction k as [|k IH]; intros ps x y Hm Hu; [done |]. cbn [exchanges].
  pose proof (met_idle n (ps 0%nat) (ps 1%nat) _ _ _ _ _ Hm) as Hi.
  destruct (exchange _ _ _ _ _) as [x' y']. apply IH; tauto.
Qed.

(** *** From the configurations *)

(** A record size with room for an AUTH_DEVICE. *)
Definition roomy (cfg : sodchan_config_t) : Prop :=
  cfg_max_record_size cfg = 0 \/
  355 <= cfg_max_record_size cfg /\ cfg_max_record_size cfg + 21 < 4294967296.

(** A client and a server configured for each other. *)
Record paired (ccfg scfg : sodchan_config_t) (spk ssk cpk csk : bytes) : Prop := {
  pa_ccfg : config_wf ccfg;
  pa_scfg : config_wf scfg;
  pa_server : cfg_server_id_pk scfg = Some spk /\ cfg_server_id_sk scfg = Some ssk;
  pa_server_keys : sign_pair spk ssk;
  pa_client : cfg_client_id_pk ccfg = Some cpk /\ cfg_client_id_sk ccfg = Some csk;
  pa_client_keys : sign_pair cpk csk;
  pa_pin : cfg_accept_any_server_pk ccfg = true \/ cfg_server_id_pk ccfg = Some spk;
  pa_rooms : roomy ccfg /\ roomy scfg
}.

Lemma configured_keys cfg :
  let '(s, (pk, have)) := apply_config_defaults cfg in
  (client_id_pk s, have_client_id_pk s) = copy_key (cfg_client_id_pk cfg) 32 /\
  (client_id_sk s, have_client_id_sk s) = copy_key (cfg_client_id_sk cfg) 64 /\
  (server_id_sk s, have_server_id_sk s) = copy_key (cfg_server_id_sk cfg) 64 /\
  (pk, have) = copy_key (cfg_server_id_pk cfg) 32 /\
  accept_any_server_pk s = cfg_accept_any_server_pk cfg /\
  max_record_size s = cfg_default_size (cfg_max_record_size cfg) SODCHAN_DEFAULT_MAX_RECORD.
Proof.
  unfold apply_config_defaults.
  destruct (copy_key (cfg_client_id_pk cfg) 32), (copy_key (cfg_client_id_sk cfg) 64),
    (copy_key (cfg_server_id_pk cfg) 32), (copy_key (cfg_server_id_sk cfg) 64).
  by repeat match goal with |- context [cfg_dup ?a ?b] => destruct (cfg_dup a b) end.
Qed.

Lemma copy_key_whole k n : length k = n -> copy_key (Some k) n = (k, true).
Proof. intros <-. unfold copy_key. by rewrite take_ge. Qed.

Lemma roomy_record cfg :
  roomy cfg -> let m := max_record_size (apply_config_defaults cfg).1 in
  355 <= m /\ m + 21 < 4294967296.
Proof.
  intros Hr. cbv zeta. pose proof (configured_keys cfg) as Hk.
  destruct (apply_config_defaults cfg) as [s [pk have]]. cbn [fst].
  destruct Hk as (_ & _ & _ & _ & _ & ->). unfold cfg_default_size. destruct Hr as [-> | ?].
  - vm_compute. by split.
  - by replace (_ =? 0) with false by lia.
Qed.

Lemma paired_server ccfg scfg spk ssk cpk csk y :
  paired ccfg scfg spk ssk cpk csk -> fresh SODCHAN_ROLE_SERVER scfg y ->
  server_id_pk (core y) = spk /\ server_id_sk (cfg (core y)) = ssk.
Proof.
  intros [_ _ [Hp Hs] Hk _ _ _ _] [_ _ Hc [Hpk _] _ _ _ _ _ _].
  destruct (sign_pair_length _ _ Hk). pose proof (configured_keys scfg) as Hcfg.
  rewrite Hc, Hpk. destruct (apply_config_defaults scfg) as [s [pk have]]. cbn [fst snd].
  rewrite Hp, Hs in Hcfg. rewrite !copy_key_whole in Hcfg by done.
  destruct Hcfg as (_ & _ & Ha & Hb & _). split; congruence.
Qed.

Lemma paired_client ccfg scfg spk ssk cpk csk x :
  paired ccfg scfg spk ssk cpk csk -> fresh SODCHAN_ROLE_CLIENT ccfg x ->
  has_identity (core x) /\ client_id_pk (cfg (core x)) = cpk /\
  client_id_sk (cfg (core x)) = csk /\
  (accept_any_server_pk (cfg (core x)) = true \/
   have_server_id_pk (core x) = true /\ server_id_pk (core x) = spk).
Proof.
  intros [_ _ _ Hsk [Hp Hs] Hk Hpin _] [_ _ Hc [Hpk Hhave] _ _ _ _ _ _].
  destruct (sign_pair_length _ _ Hk), (sign_pair_length _ _ Hsk).
  pose proof (configured_keys ccfg) as Hcfg. unfold has_identity.
  rewrite Hc, Hpk, Hhave. destruct (apply_config_defaults ccfg) as [s [pk have]]. cbn [fst snd].
  rewrite Hp, Hs in Hcfg. rewrite !copy_key_whole in Hcfg by done.
  destruct Hcfg as ([= -> ->] & [= -> ->] & _ & Hb & -> & _). split; [done |].
  split; [done |]. split; [done |]. destruct Hpin as [-> | Hpin]; [by left | right].
  rewrite Hpin, copy_key_whole in Hb by done. by injection Hb as -> ->.
Qed.

(** Three rounds take two new contexts to the host's decision. *)
Lemma three_rounds n ps ccfg scfg spk ssk cpk csk x y :
  paired ccfg scfg spk ssk cpk csk ->
  fresh SODCHAN_ROLE_CLIENT ccfg x -> fresh SODCHAN_ROLE_SERVER scfg y -> 376 <= n ->
  let '(x', y') := exchanges 3 n ps x y in
  met (cfg (core x)) (cfg (core y)) spk x' y' /\ undecided x' y'.
Proof.
  intros Hpa Hx Hy Hn. destruct (paired_server _ _ _ _ _ _ _ Hpa Hy) as [Es1 Es2].
  destruct (paired_client _ _ _ _ _ _ _ Hpa Hx) as (Hid & Ec1 & Ec2 & Hpin).
  pose proof Hpa as [_ _ _ Hsk _ Hck _ [Hrc Hrs]].
  apply roomy_record in Hrc as [Hm1 Hm1'], Hrs as [Hm2 Hm2'].
  rewrite <- (fr_cfg _ _ _ Hx) in Hm1, Hm1'. rewrite <- (fr_cfg _ _ _ Hy) in Hm2, Hm2'.
  rewrite <- Es1 in Hpin. rewrite <- Es1, <- Es2 in Hsk. rewrite <- Ec1, <- Ec2 in Hck.
  pose proof (hello_round n (ps 0%nat) (ps 1%nat) _ _ _ _ Hx Hy Hsk Hpin ltac:(lia)) as Hr1.
  cbn [exchanges]. destruct (exchange n (ps 0%nat) _ x y) as [x1 y1].
  pose proof (header_round n (ps 2%nat) (ps 3%nat) _ _ _ _ _ Hr1) as Hr2.
  destruct (exchange n (ps 2%nat) _ x1 y1) as [x2 y2].
  assert (keyed (cfg (core x)) (cfg (core y)) (server_id_pk (core y)) x2 y2) as Hr2'.
  { apply Hr2; [| done | done | lia]. unfold has_identity in *.
    by rewrite (sh_ccfg _ _ _ _ (gr_shared _ _ _ _ _ Hr1)). }
  pose proof (auth_round n (ps 4%nat) (ps 5%nat) _ _ _ _ _ Hr2' Hck Hm2 Hm2' Hn) as Hr3.
  destruct (exchange n (ps 4%nat) _ x2 y2) as [x3 y3]. by rewrite <- Es1.
Qed.

Lemma exchanges_app j k n ps x y :
  exchanges (j + k) n ps x y =
    let '(x', y') := exchanges j n ps x y in exchanges k n (fun i => ps (2 * j + i)%nat) x' y'.
Proof.
  revert ps x y. induction j as [|j IH]; intros ps x y; [done |].
  cbn [exchanges Nat.add]. destruct (exchange _ _ _ _ _) as [x1 y1]. rewrite IH.
  destruct (exchanges j _ _ _ _) as [x2 y2].
  replace (fun i => ps (S (S (2 * j + i)))) with (fun i => ps (2 * S j + i)%nat); [done |].
  replace (2 * S j)%nat with (S (S (2 * j))) by lia. done.
Qed.

Lemma met_after k n ps ccfg scfg spk ssk cpk csk x y :
  paired ccfg scfg spk ssk cpk csk ->
  fresh SODCHAN_ROLE_CLIENT ccfg x -> fresh SODCHAN_ROLE_SERVER scfg y -> 376 <= n ->
  let '(x', y') := exchanges (3 + k) n ps x y in
  met (cfg (core x)) (cfg (core y)) spk x' y' /\ undecided x' y'.
Proof.
  intros Hpa Hx Hy Hn. rewrite exchanges_app.
  pose proof (three_rounds n ps _ _ _ _ _ _ _ _ Hpa Hx Hy Hn) as Hm.
  destruct (exchanges 3 n ps x y) as [x1 y1]. destruct Hm as [Hm Hu].
  by apply (met_rounds k n (fun i => ps (2 * 3 + i)%nat)).
Qed.

Lemma accepted_rounds n p p' ccfg scfg spk ssk cpk csk x y x' y' :
  paired ccfg scfg spk ssk cpk csk ->
  fresh SODCHAN_ROLE_CLIENT ccfg x -> fresh SODCHAN_ROLE_SERVER scfg y ->
  met (cfg (core x)) (cfg (core y)) spk x' y' -> undecided x' y' -> 376 <= n ->
  let '(x'', y'') := exchange n p p' x' (accepted y') in
  met (cfg (core x)) (cfg (core y)) spk x'' y'' /\ state (core x'') = SODCHAN_STATE_READY /\
  state (core y'') = SODCHAN_STATE_READY.
Proof.
  intros Hpa Hx Hy Hm Hu Hn. pose proof (pa_rooms _ _ _ _ _ _ Hpa) as [Hrc Hrs].
  apply roomy_record in Hrc as [Hm1 Hm1'], Hrs as [Hm2 Hm2'].
  rewrite <- (fr_cfg _ _ _ Hx) in Hm1, Hm1'. rewrite <- (fr_cfg _ _ _ Hy) in Hm2, Hm2'.
  apply accept_round; try done. lia.
Qed.
End Rounds.
