(* ===== verification/Harness.v ===== *)
(** What the programs of [Clients] do: their loops end with the fuel given,
    every context they hold is one a host can reach, and the rounds of
    [fuzz_dialectic_inject] stall in the middle of the handshake.

    [always m Q] says that [m] answers something that satisfies [Q] in every
    process, whatever the generator and the heap do. *)

From Stdlib Require Import ZArith Lia ZifyBool String.
From S2P Require Import Prelude Defs WireBase WireHello WireAuth WireMux Crypto EventQueue.
From S2P Require Import OutBuf Channels Session Auth Handshake Mux Engine Api Clients Invariant.
From S2P Require Import Calm EngineLemmas Safety Transport Agreement Meeting.
Local Open Scope Z_scope.
Local Open Scope sodchan_scope.

(** ** Reasoning about a process *)

Section Always.
Context `{Sodium} `{SizeT}.

Definition always {A} (m : proc A) (Q : A -> Prop) : Prop := forall p, Q (m p).1.

Lemma bind_step {A B} (m : proc A) (f : A -> proc B) p a p' :
  m p = (a, p') -> bind m f p = f a p'.
Proof. unfold bind. by intros ->. Qed.

Lemma always_ret {A} (a : A) (Q : A -> Prop) : Q a -> always (ret a) Q.
Proof. by intros Ha p. Qed.

Lemma always_bind {A B} (m : proc A) (f : A -> proc B) (Q : A -> Prop) (R : B -> Prop) :
  always m Q -> (forall a, Q a -> always (f a) R) -> always (bind m f) R.
Proof.
  intros Hm Hf p. unfold bind. pose proof (Hm p) as Ha. destruct (m p) as [a p']. by apply Hf.
Qed.

Lemma always_weaken {A} (m : proc A) (Q R : A -> Prop) :
  always m Q -> (forall a, Q a -> R a) -> always m R.
Proof. intros Hm Hq p. apply Hq, Hm. Qed.

Lemma always_true {A} (m : proc A) : always m (fun _ => True).
Proof. by intros p. Qed.
End Always.

(** ** What every call keeps, the programs keep *)

Section Kept.
Context `{Sodium} `{SizeT}.
Variable P : ctx -> Prop.
Hypothesis P_call : forall e x op, call_ok op -> P x -> P (call_at e x op).1.2.

Lemma kept_call x op : call_ok op -> P x -> always (call_ctx x op) (fun r => P r.2).
Proof.
  intros Hop Hx p. unfold call_ctx. pose proof (P_call (gen p) x op Hop Hx) as Hc.
  by destruct (call_at (gen p) x op) as [[a x'] e].
Qed.

(** [kept]: a step that is a call, then the rest. *)
Ltac kept_bind := eapply always_bind; [by apply kept_call | intros [? ?] ?; cbn [snd] in *].

Lemma kept_get_output x n : 0 <= n -> P x -> always (get_output_of x n) (fun r => P r.2).
Proof. intros Hn Hx. unfold get_output_of. kept_bind. by apply always_ret. Qed.

Lemma kept_feed x data : P x -> always (feed_of x data) (fun r => P r.2).
Proof. intros Hx. unfold feed_of. kept_bind. by apply always_ret. Qed.

Lemma kept_next_event x : P x -> always (next_event_of x) (fun r => P r.2).
Proof. intros Hx. unfold next_event_of. kept_bind. by apply always_ret. Qed.

Lemma kept_do_call x op : call_ok op -> P x -> always (do_call x op) P.
Proof. intros Hop Hx. unfold do_call. kept_bind. by apply always_ret. Qed.

Lemma kept_drain_output n x : P x -> always (drain_output n x) P.
Proof.
  revert x. induction n as [|n IH]; intros x Hx; [by apply always_ret |]. cbn [drain_output].
  eapply always_bind; [by apply kept_get_output | intros [bs x'] Hx'].
  case_match; [by apply IH | by apply always_ret].
Qed.

Lemma kept_answer x ev : P x -> always (answer_event x ev) P.
Proof.
  intros Hx. unfold answer_event. case_match; try (by apply always_ret); by apply kept_do_call.
Qed.

Lemma kept_drain_events n x : P x -> always (drain_events n x) P.
Proof.
  revert x. induction n as [|n IH]; intros x Hx; [by apply always_ret |]. cbn [drain_events].
  eapply always_bind; [by apply kept_next_event | intros [[ev|] x'] Hx'; [|by apply always_ret]].
  eapply always_bind; [by apply kept_answer | apply IH].
Qed.

Lemma kept_drain_ctx x : P x -> always (drain_ctx x) P.
Proof.
  intros Hx. unfold drain_ctx. eapply always_bind; [by apply kept_drain_output | intros x' Hx'].
  eapply always_bind; [apply always_true | intros b _].
  case_match; [by apply always_ret | by apply kept_drain_events].
Qed.

Lemma kept_feed_chunks n data x off : P x -> always (feed_chunks n data x off) P.
Proof.
  revert x off. induction n as [|n IH]; intros x off Hx; [by apply always_ret |].
  cbn [feed_chunks]. case_match; [by apply always_ret |]. cbv zeta.
  eapply always_bind; [by apply kept_feed | intros [took x1] Hx1].
  eapply (always_bind _ _ (fun r => P r.2)).
  { case_match; [| by apply always_ret].
    eapply always_bind; [by apply kept_drain_ctx | intros x2 Hx2; by apply kept_feed]. }
  intros [took' x2] Hx2. case_match; [by apply always_ret |].
  eapply always_bind; [by apply kept_drain_ctx | intros x3 Hx3].
  case_match; [by apply always_ret | by apply IH].
Qed.

Lemma kept_open_if_ready x : P x -> always (open_if_ready x) P.
Proof.
  intros Hx. unfold open_if_ready. case_match; [| by apply always_ret]. kept_bind.
  eapply always_bind; [| by apply kept_drain_ctx].
  case_match; try (by apply always_ret). case_match; [| by apply always_ret].
  eapply always_bind; [apply always_true | intros mem _]. by apply kept_do_call.
Qed.
End Kept.

(** Two contexts, each with its own property. *)
Section KeptBoth.
Context `{Sodium} `{SizeT}.
Variables P Q : ctx -> Prop.
Hypothesis P_call : forall e x op, call_ok op -> P x -> P (call_at e x op).1.2.
Hypothesis Q_call : forall e x op, call_ok op -> Q x -> Q (call_at e x op).1.2.

Lemma kept_relay x y n :
  0 <= n -> P x -> Q y -> always (relay x y n) (fun r => P r.1 /\ Q r.2).
Proof.
  intros Hn Hx Hy. unfold relay.
  eapply always_bind; [by apply (kept_get_output P) | intros [bs x'] Hx'; cbn [snd] in *].
  case_match; [| by apply always_ret].
  eapply always_bind; [by apply (kept_feed Q) | intros [k y'] Hy'; by apply always_ret].
Qed.
End KeptBoth.

Section KeptDialectic.
Context `{Sodium} `{SizeT}.
Variables P Q : ctx -> Prop.
Hypothesis P_call : forall e x op, call_ok op -> P x -> P (call_at e x op).1.2.
Hypothesis Q_call : forall e x op, call_ok op -> Q x -> Q (call_at e x op).1.2.

Lemma kept_drain_both x y :
  P x -> Q y ->
  always (bind (drain_ctx x) (fun x => bind (drain_ctx y) (fun y => ret (x, y))))
    (fun r => P r.1 /\ Q r.2).
Proof.
  intros Hx Hy. eapply always_bind; [by apply (kept_drain_ctx P) | intros x' Hx'].
  eapply always_bind; [by apply (kept_drain_ctx Q) | intros y' Hy'; by apply always_ret].
Qed.

Lemma kept_rounds n s c :
  P s -> Q c -> always (dialectic_rounds n s c) (fun r => P r.1 /\ Q r.2).
Proof.
  revert s c. induction n as [|n IH]; intros s c Hs Hc; [by apply always_ret |].
  cbn [dialectic_rounds]. eapply (always_bind _ _ (fun r => P r.1 /\ Q r.2));
    [| intros [s' c'] [? ?]; by apply IH].
  unfold dialectic_round.
  eapply always_bind; [by apply (kept_relay Q P) | intros [c1 s1] [Hc1 Hs1]].
  eapply always_bind; [by apply (kept_relay P Q) | intros [s2 c2] [Hs2 Hc2]].
  by apply kept_drain_both.
Qed.
End KeptDialectic.

(** ** Every context of the programs is reachable *)

Section Sound.
Context `{Sodium} `{SizeT} {SP : SodiumSpec _}.

(** A context that some host can get by creation and calls. *)
Definition sound (x : ctx) : Prop := exists r cfg, reachable r cfg x.

Lemma sound_call e x op : call_ok op -> sound x -> sound (call_at e x op).1.2.
Proof. intros Hop (r & cfg & Hx). exists r, cfg. by apply reach_call_at. Qed.

Lemma always_create r cfg :
  config_wf cfg -> always (create r cfg) (fun o => forall x, o = Some x -> reachable (role_code r) cfg x).
Proof.
  intros Hcfg. unfold create. destruct (negb _); [by apply always_ret |].
  eapply always_bind; [apply always_true | intros m1 _].
  eapply always_bind; [apply always_true | intros m2 _].
  intros p x. destruct (sodchan_create _ _ _ _ _ _) eqn:E; [| done]. cbn [fst]. intros <-%(inj Some).
  by eapply reach_create.
Qed.

Lemma always_keygen :
  always keygen (fun k => forall pk sk, k = Ok (pk, sk) -> sign_pair pk sk).
Proof.
  intros p pk sk. unfold keygen, sodchan_keygen_device.
  destruct (negb _); [done |]. destruct (crypto_sign_keypair (gen p)) as [[[pk' sk']|] e] eqn:E; [|done].
  cbn [fst]. intros [= <- <-]. left. by exists (gen p), e.
Qed.

(** The configurations of the programs are well formed. *)
Ltac config_ok :=
  constructor; cbn; try (by left); try (by split); try done; try (vm_compute; done);
  try (intros ? [= <-]; done).

Lemma fuzz_config_wf r data spk ssk cpk csk :
  sign_pair spk ssk -> sign_pair cpk csk -> config_wf (fuzz_config r data spk ssk cpk csk).
Proof.
  intros [? ?]%sign_pair_length [? ?]%sign_pair_length. destruct r; config_ok.
Qed.

Lemma dialectic_server_wf spk ssk :
  sign_pair spk ssk -> config_wf (dialectic_server_config spk ssk).
Proof. intros [? ?]%sign_pair_length. config_ok. Qed.

Lemma dialectic_client_wf spk ssk cpk csk :
  sign_pair spk ssk -> sign_pair cpk csk -> config_wf (dialectic_client_config spk cpk csk).
Proof. intros [? ?]%sign_pair_length [? ?]%sign_pair_length. config_ok. Qed.

Lemma client_example_wf spk ssk cpk csk :
  sign_pair spk ssk -> sign_pair cpk csk -> config_wf (client_example_config spk cpk csk).
Proof. intros [? ?]%sign_pair_length [? ?]%sign_pair_length. config_ok. Qed.

Lemma sound_one_role r data spk ssk cpk csk :
  sign_pair spk ssk -> sign_pair cpk csk ->
  always (fuzz_one_role r data spk ssk cpk csk) (Forall sound).
Proof.
  intros Hs Hc. unfold fuzz_one_role.
  eapply always_bind; [by apply always_create, fuzz_config_wf | intros o Ho].
  destruct o as [x|]; [| by apply always_ret].
  assert (sound x) as Hx by (eexists _, _; by apply Ho).
  eapply always_bind; [by apply (kept_feed_chunks sound sound_call) | intros x1 Hx1].
  eapply always_bind; [by apply (kept_open_if_ready sound sound_call) | intros x2 Hx2].
  apply always_ret. by repeat constructor.
Qed.

Lemma sound_dialectic data spk ssk cpk csk :
  sign_pair spk ssk -> sign_pair cpk csk ->
  always (fuzz_dialectic_inject data spk ssk cpk csk) (Forall sound).
Proof.
  intros Hs Hc. unfold fuzz_dialectic_inject.
  eapply always_bind; [by apply always_create, dialectic_server_wf | intros s Hs'].
  eapply always_bind; [by eapply always_create, dialectic_client_wf | intros c Hc'].
  assert (forall x, s = Some x \/ c = Some x -> sound x) as Hx
    by (intros x [? | ?]; eexists _, _; [by apply Hs' | by apply Hc']).
  destruct s as [s|], c as [c|]; cbn [created_of];
    try (apply always_ret; repeat constructor; apply Hx; by (left + right)).
  eapply always_bind; [apply (kept_rounds sound sound sound_call sound_call); apply Hx; auto |].
  intros [s1 c1] [Hs1 Hc1]. case_match; [| apply always_ret; by repeat constructor].
  eapply always_bind; [by apply (kept_feed sound sound_call) | intros [n1 s2] Hs2].
  eapply always_bind; [by apply (kept_feed sound sound_call) | intros [n2 c2] Hc2].
  eapply always_bind; [by apply (kept_drain_ctx sound sound_call) | intros s3 Hs3].
  eapply always_bind; [by apply (kept_drain_ctx sound sound_call) | intros c3 Hc3].
  apply always_ret. by repeat constructor.
Qed.

Lemma sound_harness data : always (LLVMFuzzerTestOneInput data) (Forall sound).
Proof.
  unfold LLVMFuzzerTestOneInput.
  eapply always_bind; [apply always_keygen | intros [[spk ssk]| |] Hs]; try by apply always_ret.
  eapply always_bind; [apply always_keygen | intros [[cpk csk]| |] Hc]; try by apply always_ret.
  specialize (Hs _ _ eq_refl). specialize (Hc _ _ eq_refl). cbv zeta.
  destruct (_ =? 0); [by apply sound_one_role |]. destruct (_ =? 1); [by apply sound_one_role |].
  by apply sound_dialectic.
Qed.

Definition readable (f : file) : Prop := f_opens f = true /\ f_seeks f = true /\ 0 <= f_size f.

Lemma sound_run_file f :
  always (run_file f) (fun r => Forall sound r.2 /\ (r.1 = 1 \/ r.1 = 0 /\ readable f)).
Proof.
  unfold run_file, readable. destruct (f_opens f); [| apply always_ret; auto].
  destruct (f_seeks f); [| apply always_ret; auto]. cbn [negb]. cbv zeta.
  destruct (f_size f <? 0) eqn:E; [apply always_ret; auto |].
  eapply always_bind; [apply always_true | intros buf _].
  destruct buf; [| apply always_ret; auto]. cbn [negb].
  eapply always_bind; [apply sound_harness | intros xs Hx]. apply always_ret. cbn [fst snd].
  split; [done |]. right. split_and!; try done. lia.
Qed.

Lemma sound_run_files files rc :
  rc = 0 \/ rc = 1 ->
  always (run_files files rc) (fun r => Forall sound r.2 /\
    (r.1 = 1 \/ r.1 = 0 /\ rc = 0 /\ Forall readable files)).
Proof.
  revert rc. induction files as [|f files IH]; intros rc Hrc; cbn [run_files].
  { apply always_ret. split; [done |]. destruct Hrc as [-> | ->]; [right | by left]. done. }
  eapply always_bind; [apply sound_run_file | intros [r xs] [Hx Hr]; cbn [fst snd] in *].
  eapply always_bind; [apply IH | intros [rc' ys] [Hy Hr']; cbn [fst snd] in *].
  { destruct (r =? 0); auto. }
  apply always_ret. cbn [fst snd]. split; [by apply Forall_app |].
  destruct Hr' as [-> | (-> & Hz & Hf)]; [by left |]. right.
  destruct Hr as [-> | [-> Hf0]]; [done |]. split_and!; try done. by constructor.
Qed.

Lemma sound_fuzz_main files :
  always (fuzz_main files) (fun r => Forall sound r.2 /\
    (r.1 = 1 \/ r.1 = 0 /\ Forall readable files)).
Proof.
  destruct files as [|f files].
  - unfold fuzz_main. do 3 (eapply always_bind; [apply sound_harness | intros ? ?]).
    apply always_ret. cbn [fst snd]. split; [by repeat apply Forall_app_2 | by right].
  - eapply always_weaken; [apply (sound_run_files (f :: files) 0); by left |].
    intros r [Hx Hr]. split; [done |]. tauto.
Qed.

Lemma sound_wf x : sound x -> ctx_wf x /\ quiet x.
Proof. intros (r & cfg & Hx). split; [by eapply reachable_wf | by eapply reachable_quiet]. Qed.
End Sound.

(** ** The loops end *)

Section Drains.
Context `{Sodium} `{SizeT} {SP : SodiumSpec _}.

Lemma wf_call_at e x op : call_ok op -> ctx_wf x -> ctx_wf (call_at e x op).1.2.
Proof.
  intros Hop [Hc Hb]. unfold call_at.
  assert (ctx_wf (with_rng e x)) as Hw by (split; [by apply wf_set_rng | done]).
  pose proof (wf_api _ op Hop Hw) as Hr. by destruct (api_ctx _ op).
Qed.

(** The first loop reads the whole output. *)
Lemma drain_output_all n x p :
  out_wf (out (core x)) -> (length (unread (out (core x))) < n)%nat ->
  exists o, drain_output n x p =
      (mk_ctx ((core x) <| rng := gen p |> <| out := o |>) (in_buf x), p) /\
    unread o = [] /\ out_wf o.
Proof.
  revert x. induction n as [|n IH]; intros x Ho Hn; [lia |]. cbn [drain_output]. unfold bind.
  rewrite get_output_of_eq. destruct (get_output_stream (out (core x)) 8192 ltac:(lia) Ho) as [Hu Hl].
  pose proof (get_output_wf (out (core x)) 8192 ltac:(lia) Ho) as Ho'.
  destruct (get_output (out (core x)) 8192) as [bs o]. cbn [fst snd] in *.
  destruct (0 <? len bs) eqn:E.
  - set (x1 := mk_ctx _ _). destruct (IH x1) as (o' & Hd & Ho1 & Ho2); [done | |].
    { change (out (core x1)) with o. rewrite Hu, length_app in Hn. lia. }
    exists o'. rewrite Hd. split; [done |]. by split.
  - exists o. split; [done |]. split; [| done]. destruct bs; [| simpl in E; lia].
    rewrite Hu in Hl. simpl in Hl. destruct (unread o); [done | simpl in Hl; lia].
Qed.

(** *** The event loop *)

(** How many turns an event can cost: its own, and those of the events that
    answering it queues. *)
Definition event_cost (ev : sodchan_event_t) : nat :=
  match ev with
  | EVENT_AUTH_DEVICE _ _ _ _ _ => 3
  | EVENT_CHANNEL_OPEN _ _ _ _ _ => 2
  | _ => 1
  end.

Definition cost (c : session) : nat := list_sum (map event_cost (pending (evq c))).

Lemma cost_queue c ev :
  evq_wf (evq c) -> (cost (queue c ev) <= cost c + event_cost ev)%nat.
Proof.
  intros Hq. unfold cost, queue. cbn.
  destruct (queue_event_prefix (evq c) ev Hq) as [-> | ->]; [lia |].
  rewrite map_app, list_sum_app. simpl. lia.
Qed.

Lemma cost_bound c : evq_wf (evq c) -> (cost c <= 3 * Z.to_nat (event_count (evq c)))%nat.
Proof.
  intros Hq. pose proof (length_pending _ Hq) as Hl. unfold cost.
  replace (Z.to_nat (event_count (evq c))) with (length (pending (evq c))) by lia.
  clear Hl. induction (pending (evq c)) as [|ev l IH]; [done |].
  cbn [map list_sum fold_right length]. destruct ev; cbn [event_cost]; unfold list_sum in *; lia.
Qed.

Lemma cost_same c c' : evq c' = evq c -> cost c' = cost c.
Proof. intros He. unfold cost. by rewrite He. Qed.

Lemma send_encoded_evq c e code : evq (send_encoded c e code).2 = evq c.
Proof. by destruct (send_encoded_only c e code) as (st & o & ->). Qed.

Lemma ss_send_evq c plain n : evq (ss_send_pdu c plain n).2 = evq c.
Proof. by destruct (ss_send_only c plain n) as (st & o & ->). Qed.

Lemma cost_error c code msg :
  evq_wf (evq c) -> (cost (sodchan_i_set_error c code msg) <= cost c + 1)%nat.
Proof. intros Hq. unfold sodchan_i_set_error. etransitivity; [by apply cost_queue | done]. Qed.

Lemma cost_decide c accept :
  evq_wf (evq c) -> (cost (sodchan_auth_decide_ex c accept None 0).2 <= cost c + 2)%nat.
Proof.
  intros Hq. unfold sodchan_auth_decide_ex.
  do 5 (lazymatch goal with |- context [(if ?b then (_, c) else _).2] => destruct b; [cbn; lia |] end).
  cbv zeta. set (c1 := c <| auth_awaiting_decide := _ |> <| auth_decided := _ |>).
  assert (cost c1 = cost c) as <- by done. assert (evq_wf (evq c1)) as Hq1 by done. clearbody c1.
  destruct accept.
  - unfold server_send_auth_ok. pose proof (send_encoded_evq c1 (sodchan_wire_auth_ok_encode None 0
      (Some (zeros (3 + 1024)))) (fun _ => SODCHAN_ERR_PARAM)) as He.
    destruct (send_encoded c1 _ _) as [rc c2]. cbn [snd] in He. rewrite <- (cost_same _ _ He).
    assert (evq_wf (evq c2)) as Hq2 by (by rewrite He).
    destruct (negb _); cbn [snd]; [pose proof (cost_error c2 SODCHAN_ERR_FULL (lit "AUTH_OK send") Hq2); lia |].
    unfold emit_authenticated. etransitivity; [by apply cost_queue | unfold cost; simpl; lia].
  - unfold server_send_auth_fail. pose proof (send_encoded_evq c1 (sodchan_wire_auth_fail_encode
      (Some (zeros 8))) (fun _ => SODCHAN_ERR_PROTOCOL)) as He.
    destruct (send_encoded c1 _ _) as [rc c2]. cbn [snd] in He. rewrite <- (cost_same _ _ He).
    assert (evq_wf (evq c2)) as Hq2 by (by rewrite He).
    destruct (negb _); cbn [snd]; [pose proof (cost_error c2 SODCHAN_ERR_FULL (lit "AUTH_FAIL send") Hq2); lia |].
    etransitivity; [apply cost_error; unfold emit_auth_failed, queue; by apply queue_event_wf |].
    unfold emit_auth_failed. match goal with |- context [queue c2 ?ev] =>
      pose proof (cost_queue c2 ev Hq2) end. cbn [event_cost] in *. lia.
Qed.

Lemma cost_accept c id : evq_wf (evq c) -> (cost (sodchan_channel_accept c id true).2 <= cost c + 1)%nat.
Proof.
  intros Hq. unfold sodchan_channel_accept. destruct (negb _); [cbn; lia |].
  destruct (ch_by_local _ _) as [i|]; [| cbn; lia]. cbv zeta.
  destruct (negb _); [cbn; lia |]. destruct (negb _); [cbn; lia |].
  destruct (sodchan_wire_channel_open_confirm_encode _ _ _ _ _) as [[pdu n]| |]; try (cbn; lia).
  pose proof (ss_send_evq c (Some pdu) n) as He. destruct (ss_send_pdu _ _ _) as [rc c2].
  cbn [snd] in He. rewrite <- (cost_same _ _ He). destruct (negb _); [cbn; lia |]. cbn [snd].
  etransitivity; [apply cost_queue; cbn; by rewrite He |]. unfold cost. simpl. lia.
Qed.

Lemma next_event_of_eq x p :
  next_event_of x p =
    let '(ev, q) := next_event (evq (core x)) in
    ((ev, mk_ctx ((core x) <| rng := gen p |> <| evq := q |>) (in_buf x)), p).
Proof.
  destruct p as [e h]. unfold next_event_of, bind, call_ctx, call_at. cbn [api_ctx].
  unfold sodchan_next_event. cbn [negb with_rng core gen].
  change (evq ((core x) <| rng := e |>)) with (evq (core x)).
  by destruct (next_event (evq (core x))).
Qed.

Lemma do_call_eq x op p :
  (do_call x op p).1 = (api_ctx (with_rng (gen p) x) op).2.
Proof. unfold do_call, bind, call_ctx, call_at. by destruct (api_ctx _ op). Qed.

(** Answering an event queues fewer turns than the event was worth. *)
Lemma cost_answer x ev p :
  evq_wf (evq (core x)) -> (cost (core (answer_event x ev p).1) < cost (core x) + event_cost ev)%nat.
Proof.
  intros Hq. unfold answer_event.
  destruct ev; try (cbn [ret fst event_cost]; lia); rewrite do_call_eq; cbn [api_ctx];
    unfold on_core; cbn [snd core with_rng event_cost]; set (c := (core x) <| rng := gen p |>);
    assert (cost c = cost (core x)) as <- by done.
  - pose proof (cost_decide c sig_ok Hq). lia.
  - pose proof (cost_accept c channel_id Hq). lia.
Qed.

Lemma drain_events_all n x p :
  ctx_wf x -> (cost (core x) < n)%nat -> pending (evq (core (drain_events n x p).1)) = [].
Proof.
  revert x p. induction n as [|n IH]; intros x p Hx Hn; [lia |]. cbn [drain_events]. unfold bind.
  pose proof (kept_next_event ctx_wf wf_call_at x Hx p) as Hw.
  rewrite next_event_of_eq in Hw |- *. pose proof (next_pending _ (wf_evq _ (proj1 Hx))) as Hp.
  unfold cost in Hn. destruct (pending (evq (core x))) as [|ev rest] eqn:E.
  { rewrite Hp. cbn. exact E. }
  destruct (next_event (evq (core x))) as [o q]. cbn [fst snd] in Hp, Hw. destruct Hp as [-> Hp].
  set (x1 := mk_ctx _ _) in *.
  pose proof (cost_answer x1 ev p (wf_evq _ (proj1 Hw))) as Hc.
  pose proof (kept_answer ctx_wf wf_call_at x1 ev Hw p) as Hw'.
  destruct (answer_event x1 ev p) as [x2 p2]. apply IH; [done |].
  cbn [fst] in Hc. assert (cost (core x1) = list_sum (map event_cost rest)) as Hr
    by (unfold cost, x1; cbn; by rewrite Hp).
  simpl in Hn. lia.
Qed.
End Drains.

Section Loops.
Context `{Sodium} `{SizeT} {SP : SodiumSpec _}.

Lemma drain_output_ends x p :
  ctx_wf x -> unread (out (core (drain_output (output_fuel x) x p).1)) = [].
Proof.
  intros [Hc _]. pose proof (wf_out _ Hc) as Ho. pose proof (length_unread _ Ho). destruct Ho.
  destruct (drain_output_all (output_fuel x) x p) as (o & -> & Hu & _);
    [by constructor | unfold output_fuel; lia | done].
Qed.

Lemma drain_events_ends x p :
  ctx_wf x -> pending (evq (core (drain_events (events_fuel x) x p).1)) = [].
Proof.
  intros Hx. pose proof (cost_bound _ (wf_evq _ (proj1 Hx))).
  apply drain_events_all; [done | unfold events_fuel; lia].
Qed.

Lemma feed_of_count x data p : ctx_wf x -> 0 <= (feed_of x data p).1.1.
Proof.
  intros [_ Hb]. rewrite feed_of_eq. unfold sodchan_feed_input. cbn [with_rng core in_buf].
  destruct (_ =? 0); [done |]. destruct (stopped _); [done |].
  destruct (_ <? len data) eqn:E; cbv zeta; destruct (_ =? 0); cbn [fst]; lia.
Qed.

(** The loop over the input takes a byte at least in every turn. *)
Lemma feed_chunks_fuel n m data x off p :
  ctx_wf x -> 0 <= off -> (Z.to_nat (len data - off) < n)%nat -> (Z.to_nat (len data - off) < m)%nat ->
  feed_chunks n data x off p = feed_chunks m data x off p.
Proof.
  revert m x off p. induction n as [|n IH]; intros m x off p Hx Ho Hn Hm; [lia |].
  destruct m as [|m]; [lia |]. cbn [feed_chunks]. destruct (off <? len data) eqn:E; [| done].
  cbv zeta. cbn [negb].
  match goal with |- context [feed_of x ?b] => set (block := b) end.
  match goal with |- context [0 <? ?c] => set (chunk := c) end.
  pose proof (kept_feed ctx_wf wf_call_at x block Hx p) as Hw1.
  pose proof (feed_of_count x block p Hx) as Hc1.
  destruct (feed_of x block p) as [[took x1] p1] eqn:Ef. cbn [fst snd] in *.
  rewrite !(bind_step _ _ _ _ _ Ef).
  assert (exists took' x2 p2,
    (if (took =? 0) && (0 <? chunk) then bind (drain_ctx x1) (fun x => feed_of x block)
     else ret (took, x1)) p1 = ((took', x2), p2) /\ 0 <= took' /\ ctx_wf x2)
    as (took' & x2 & p2 & Hr & Hc2 & Hw2).
  { destruct (_ && _); [| by eexists _, _, _]. unfold bind.
    pose proof (kept_drain_ctx ctx_wf wf_call_at x1 Hw1 p1) as Hw.
    destruct (drain_ctx x1 p1) as [x3 p3]. cbn [fst] in Hw.
    pose proof (kept_feed ctx_wf wf_call_at x3 block Hw p3) as Hw3.
    pose proof (feed_of_count x3 block p3 Hw) as Hc3.
    destruct (feed_of x3 block p3) as [[took' x2] p2]. by eexists _, _, _. }
  rewrite !(bind_step _ _ _ _ _ Hr). destruct (took' =? 0) eqn:Et; [done |].
  pose proof (kept_drain_ctx ctx_wf wf_call_at x2 Hw2 p2) as Hw4.
  destruct (drain_ctx x2 p2) as [x4 p4] eqn:Ed. cbn [fst] in Hw4.
  rewrite !(bind_step _ _ _ _ _ Ed). destruct (_ || _); [done |].
  apply IH; [done | lia | lia | lia].
Qed.
End Loops.

(** ** The rounds of fuzz_dialectic_inject stall *)

Section Stall.
Context `{Sodium} `{SizeT} {SP : SodiumSpec _} {SW : SodiumWorks _}.

(** An end that waits for a stream header, with nothing under way. *)
Definition stalled (x : ctx) : Prop :=
  ctx_wf x /\ state (core x) = SODCHAN_STATE_SS_HEADER /\
  hs (core x) = SODCHAN_HS_WAIT_PEER_SS /\ unread (out (core x)) = [].

Lemma stalled_rng x e : stalled x -> stalled (with_rng e x).
Proof.
  intros ([Hc Hb] & Hs & Hh & Ho). split; [split; [by apply wf_set_rng | done] |]. by split_and!.
Qed.

Lemma stalled_answer x ev p : stalled x -> stalled (answer_event x ev p).1.
Proof.
  intros Hx. pose proof (stalled_rng x (gen p) Hx) as Hr. pose proof Hr as (_ & Hs & _).
  unfold answer_event. destruct ev; try exact Hx; rewrite do_call_eq; cbn [api_ctx];
    unfold on_core; cbn [snd].
  - unfold sodchan_auth_decide_ex. rewrite Hs.
    change (negb (bool_decide (SODCHAN_STATE_SS_HEADER = SODCHAN_STATE_AUTH))) with true.
    destruct (negb (bool_decide (role _ = _))); [exact Hr |]. by destruct (negb _ || _).
  - unfold sodchan_channel_accept. rewrite Hs. exact Hr.
Qed.

Lemma stalled_drain_events n x p : stalled x -> stalled (drain_events n x p).1.
Proof.
  revert x p. induction n as [|n IH]; intros x p Hx; [done |]. cbn [drain_events]. unfold bind.
  rewrite next_event_of_eq. pose proof (next_event_wf _ (wf_evq _ (proj1 (proj1 Hx)))) as Hq.
  destruct (next_event (evq (core x))) as [ev q]. cbn [snd] in Hq.
  assert (stalled (mk_ctx ((core x) <| rng := gen p |> <| evq := q |>) (in_buf x))) as Hx1.
  { destruct Hx as ([Hc Hb] & ? & ? & ?).
    split; [split; [by apply wf_set_evq; [apply wf_set_rng |] | done] |]. by split_and!. }
  destruct ev as [ev|]; [| done]. pose proof (stalled_answer _ ev p Hx1) as Ha.
  destruct (answer_event _ ev p) as [x2 p2]. by apply IH.
Qed.

(** Draining throws away whatever the context wanted to send. *)
Lemma drain_stalls x p :
  ctx_wf x -> state (core x) = SODCHAN_STATE_SS_HEADER ->
  hs (core x) = SODCHAN_HS_WAIT_PEER_SS -> stalled (drain_ctx x p).1.
Proof.
  intros [Hc Hb] Hs Hh. pose proof (wf_out _ Hc) as Ho. pose proof (length_unread _ Ho).
  unfold drain_ctx, bind at 1.
  destruct (drain_output_all (output_fuel x) x p) as (o & -> & Hu & Ho');
    [done | destruct Ho; unfold output_fuel; lia |].
  set (x1 := mk_ctx _ _). assert (stalled x1) as Hx1.
  { split; [split; [by apply wf_set_out; [apply wf_set_rng |] | done] |]. by split_and!. }
  unfold bind, alloc. destruct (negb _); [done |]. by apply stalled_drain_events.
Qed.

Lemma dialectic_round_exchange s c p :
  exists p1 p2 p3, (dialectic_round s c p).1 =
    let '(c', s') := exchange 4096 p p1 c s in ((drain_ctx s' p2).1, (drain_ctx c' p3).1).
Proof.
  unfold dialectic_round, exchange, bind.
  destruct (relay c s 4096 p) as [[c1 s1] p1]. exists p1. cbn [fst].
  destruct (relay s1 c1 4096 p1) as [[s2 c2] p2]. exists p2. cbn [fst].
  destruct (drain_ctx s2 p2) as [s3 p3]. exists p3. by destruct (drain_ctx c2 p3) as [c3 p4].
Qed.

(** The first round greets and then discards the client's stream header. *)
Lemma first_round s c p spk ssk cpk csk :
  sign_pair spk ssk -> sign_pair cpk csk ->
  fresh SODCHAN_ROLE_SERVER (dialectic_server_config spk ssk) s ->
  fresh SODCHAN_ROLE_CLIENT (dialectic_client_config spk cpk csk) c ->
  stalled (dialectic_round s c p).1.1 /\ stalled (dialectic_round s c p).1.2.
Proof.
  intros Hsk Hck Hs Hc. destruct (dialectic_round_exchange s c p) as (p1 & p2 & p3 & ->).
  assert (paired (dialectic_client_config spk cpk csk) (dialectic_server_config spk ssk)
    spk ssk cpk csk) as Hpa.
  { constructor; [by eapply dialectic_client_wf | by apply dialectic_server_wf | by split | done |
      by split | done | by right | by split; left]. }
  destruct (paired_server _ _ _ _ _ _ _ Hpa Hs) as [Es1 Es2].
  destruct (paired_client _ _ _ _ _ _ _ Hpa Hc) as (_ & _ & _ & Hpin).
  rewrite <- Es1 in Hpin. rewrite <- Es1, <- Es2 in Hsk.
  pose proof (hello_round 4096 p p1 _ _ _ _ Hc Hs Hsk Hpin ltac:(lia)) as Hg.
  destruct (exchange 4096 p p1 c s) as [c' s']. cbn [fst snd].
  destruct Hg as [[] [Hi Hi'] [] [] _ _ _ _ _ _].
  split; apply drain_stalls; try done; (split; [done |]); rewrite ?Hi, ?Hi'; consts; cbn; lia.
Qed.

Lemma stalled_round s c p :
  stalled s -> stalled c -> stalled (dialectic_round s c p).1.1 /\ stalled (dialectic_round s c p).1.2.
Proof.
  intros Hs Hc. destruct (dialectic_round_exchange s c p) as (p1 & p2 & p3 & ->).
  pose proof (proj1 Hs) as [? _]. pose proof (proj1 Hc) as [? _].
  rewrite idle_round by (done || apply Hs || apply Hc). cbn [fst snd].
  pose proof (stalled_rng s (gen p1) Hs) as (? & ? & ? & _).
  pose proof (stalled_rng c (gen p) Hc) as (? & ? & ? & _).
  split; by apply drain_stalls.
Qed.

Lemma stalled_rounds k s c :
  stalled s -> stalled c -> always (dialectic_rounds k s c) (fun r => stalled r.1 /\ stalled r.2).
Proof.
  revert s c. induction k as [|k IH]; intros s c Hs Hc; [by apply always_ret |].
  cbn [dialectic_rounds]. eapply (always_bind _ _ (fun r => stalled r.1 /\ stalled r.2));
    [intros p; by apply stalled_round | intros [s' c'] [? ?]; by apply IH].
Qed.

Lemma dialectic_stalled k s c spk ssk cpk csk :
  sign_pair spk ssk -> sign_pair cpk csk ->
  fresh SODCHAN_ROLE_SERVER (dialectic_server_config spk ssk) s ->
  fresh SODCHAN_ROLE_CLIENT (dialectic_client_config spk cpk csk) c ->
  always (dialectic_rounds (S k) s c) (fun r => stalled r.1 /\ stalled r.2).
Proof.
  intros Hsk Hck Hs Hc. cbn [dialectic_rounds].
  eapply (always_bind _ _ (fun r => stalled r.1 /\ stalled r.2));
    [intros p; exact (first_round s c p spk ssk cpk csk Hsk Hck Hs Hc) | intros [s' c'] [? ?]; by apply stalled_rounds].
Qed.
End Stall.

(** ** The examples *)

Section Examples.
Context `{Sodium} `{SizeT} {SP : SodiumSpec _}.

(** A context just created is in HELLO, whose value is 1. *)
Lemma created_state r cfg x lab m1 m2 e :
  config_wf cfg -> sodchan_create lab m1 m2 r (Some cfg) e = Some x ->
  state_code (state (core x)) = 1.
Proof. intros Hcfg Hx. by destruct (create_hello _ _ _ _ _ _ _ Hcfg Hx) as [-> _]. Qed.

Lemma always_created r cfg :
  config_wf cfg -> always (create r cfg) (fun o => forall x, o = Some x -> state_code (state (core x)) = 1).
Proof.
  intros Hcfg. unfold create. destruct (negb _); [by apply always_ret |].
  eapply always_bind; [apply always_true | intros m1 _].
  eapply always_bind; [apply always_true | intros m2 _].
  intros p x. destruct (sodchan_create _ _ _ _ _ _) eqn:E; [| done]. cbn [fst]. intros <-%(inj Some).
  by eapply created_state.
Qed.

Lemma client_example_prints :
  always client_example_main (fun r => r = (1, []) \/ r = (0, [Client_state 1 0])).
Proof.
  unfold client_example_main.
  eapply always_bind; [apply always_keygen | intros [[spk ssk]| |] Hs];
    [| apply always_ret; by left ..].
  eapply always_bind; [apply always_keygen | intros [[cpk csk]| |] Hc];
    [| apply always_ret; by left ..].
  eapply always_bind; [eapply always_created, (client_example_wf spk ssk cpk csk); auto | intros o Ho].
  destruct o as [x|]; apply always_ret; [right | by left]. by rewrite Ho.
Qed.

(** What the server example prints of its key. *)
Definition shown_fingerprint (fp out : bytes) : Prop :=
  out = cstr fp \/
  exists pk d, crypto_hash_sha256 pk = Some d /\ out = lit "SHA256:" ++ sodium_bin2base64 d.

Lemma server_example_prints fp :
  len fp = SODCHAN_FP_SHA256_MAX ->
  always (server_example_main fp)
    (fun r => r = (1, []) \/ exists out, r = (0, [Server_state 1 out]) /\ shown_fingerprint fp out).
Proof.
  intros Hfp. unfold server_example_main.
  eapply always_bind; [apply always_keygen | intros [[spk ssk]| |] Hs];
    [| apply always_ret; by left ..]. specialize (Hs _ _ eq_refl).
  eapply always_bind; [by apply always_created, dialectic_server_wf | intros o Ho].
  destruct o as [x|]; apply always_ret; [right | by left]. rewrite Ho by done.
  eexists. split; [done |]. unfold shown_fingerprint.
  pose proof (sign_pair_length _ _ Hs) as [Hl _].
  destruct (sodchan_pubkey_fingerprint_sha256 (Some spk) (Some fp)) as [fp'| |] eqn:E;
    [| by left ..]. right.
  destruct (fingerprint_string spk fp fp' Hl Hfp E) as (d & Hd & Hf). by exists spk, d.
Qed.
End Examples.
