(* ===== verification/Toy.v ===== *)
(** A concrete libsodium, for the witnesses: [Toy] instantiates the interface
    and [toy_spec] discharges its laws, so that no theorem of the development
    rests on laws that cannot hold together.  Nothing here is secure. *)

From Stdlib Require Import ZArith Lia ZifyBool String.
From S2P Require Import Prelude Defs WireBase Crypto.
Local Open Scope Z_scope.

(** The first [n] bytes, padded with zeros. *)
Definition fix_len (n : nat) (l : bytes) : bytes := take n (l ++ zeros n).

Lemma length_fix_len (n : nat) (l : bytes) : length (fix_len n l) = n.
Proof. unfold fix_len, zeros. rewrite length_take, length_app, length_replicate. lia. Qed.

Lemma fix_len_id (n : nat) (l : bytes) : length l = n -> fix_len n l = l.
Proof. intros <-. unfold fix_len. by rewrite take_app_length. Qed.

(** A checksum that depends on the order of the bytes. *)
Definition checksum (m : bytes) : Z :=
  fold_left (fun h b => (h * 31 + byte.unsigned b + 7) mod 4294967296) m 17.

Definition toy_digest (m : bytes) : bytes := fix_len 32 (be32 (checksum m)).

Definition xor_byte (a b : byte) : byte :=
  byte.of_Z (Z.lxor (byte.unsigned a) (byte.unsigned b)).

Definition xor_bytes (a b : bytes) : bytes :=
  fix_len 32 (zip_with xor_byte (fix_len 32 a) (fix_len 32 b)).

Lemma xor_bytes_comm a b : xor_bytes a b = xor_bytes b a.
Proof.
  unfold xor_bytes. f_equal. rewrite <- zip_with_flip. apply zip_with_ext; [|done..].
  intros x y. unfold xor_byte, flip. by rewrite Z.lxor_comm.
Qed.

Definition toy_key (e : nat) : bytes := fix_len 32 [byte.of_Z (Z.of_nat e + 1); Byte.x01].

(** A letter for each byte of a digest. *)
Definition toy_letter (b : byte) : byte := byte.of_Z (65 + byte.unsigned b mod 16).

(** The session keys of the initiator: received, transmitted. *)
Definition toy_kx (a b : bytes) : bytes * bytes :=
  (xor_bytes a b, xor_bytes (xor_bytes a b) (replicate 32 Byte.xff)).

Definition toy_push (st : bytes * Z) (p : bytes) (tag : Z) : option ((bytes * Z) * bytes) :=
  if (0 <=? tag) && (tag <? 256)
  then Some ((st.1, st.2 + 1),
             [byte.of_Z tag] ++ p ++ fix_len 16 (be32 st.2 ++ st.1))
  else None.

Definition toy_pull (st : bytes * Z) (ct : bytes) : option ((bytes * Z) * bytes * Z) :=
  match ct with
  | [] => None
  | t :: rest =>
      let n := (length rest - 16)%nat in
      if (16 <=? length rest)%nat &&
         bool_decide (drop n rest = fix_len 16 (be32 st.2 ++ st.1))
      then Some ((st.1, st.2 + 1), take n rest, byte.unsigned t)
      else None
  end.

Definition toy_sign_pair (seed : bytes) : bytes * bytes :=
  (fix_len 32 seed, fix_len 32 (zeros 32) ++ fix_len 32 seed).

(** The generator is a counter.  [Toy_upto (Some n)] makes no key pair from state [n] on. *)
#[local] Instance Toy_upto (broken : option nat) : Sodium := {
  entropy := nat;
  gh_state := bytes;
  ss_state := bytes * Z;
  ss_state_zero := ([], 0);
  TAG_MESSAGE := 0;
  TAG_REKEY := 2;
  TAG_FINAL := 3;
  sodium_init := 0;
  sodium_memcmp a b := if bool_decide (a = b) then 0 else -1;
  sodium_is_zero a := if bool_decide (a = zeros (length a)) then 1 else 0;
  crypto_sign_keypair e := (Some (toy_sign_pair (toy_key e)), S e);
  crypto_sign_seed_keypair seed := Some (toy_sign_pair seed);
  crypto_sign_detached m sk := Some (fix_len 64 (fix_len 32 (drop 32 sk) ++ toy_digest m));
  crypto_sign_verify_detached sig m pk :=
    if bool_decide (sig = fix_len 64 (fix_len 32 pk ++ toy_digest m)) then 0 else -1;
  crypto_hash_sha256 m := Some (toy_digest m);
  sodium_bin2base64 d := take 43 ((toy_letter <$> d) ++ replicate 43 Byte.x41);
  crypto_generichash_init _ := Some [];
  crypto_generichash_update st m := Some (st ++ m);
  crypto_generichash_final st n :=
    if 0 <=? n then Some (fix_len (Z.to_nat n) (rev st)) else None;
  crypto_kx_keypair e :=
    (match broken with
     | Some n => if (e <? n)%nat then Some (toy_key e, toy_key e) else None
     | None => Some (toy_key e, toy_key e)
     end, S e);
  crypto_kx_client_session_keys pk _ peer := Some (toy_kx pk peer);
  crypto_kx_server_session_keys pk _ peer := Some ((toy_kx pk peer).2, (toy_kx pk peer).1);
  crypto_secretstream_init_push key e := (Some ((key, 0), fix_len 24 (toy_key e)), S e);
  crypto_secretstream_init_pull h key := Some (key, 0);
  crypto_secretstream_push := toy_push;
  crypto_secretstream_pull := toy_pull
}.

(** *** Its laws *)

Lemma toy_sign_pair_cases broken pk sk :
  @sign_pair (Toy_upto broken) pk sk -> exists seed, (pk, sk) = toy_sign_pair seed.
Proof.
  intros [(e & e' & [= <- <- _]) | (seed & [= <- <-])]; by eexists.
Qed.

Lemma toy_base64_no_nul d : Byte.x00 ∉ take 43 ((toy_letter <$> d) ++ replicate 43 Byte.x41).
Proof.
  intros Hin. apply elem_of_take in Hin as (i & Hi & _).
  apply lookup_app_Some in Hi as [Hi | [_ Hi]].
  - rewrite list_lookup_fmap in Hi. destruct (d !! i) as [b|]; [|done]. injection Hi as Hb.
    apply (f_equal byte.unsigned) in Hb. unfold toy_letter in Hb.
    pose proof (Z.mod_pos_bound (byte.unsigned b) 16 ltac:(lia)).
    rewrite unsigned_of_Z_small in Hb by lia. change (byte.unsigned Byte.x00) with 0 in Hb. lia.
  - apply lookup_replicate in Hi as [Hi _]. discriminate.
Qed.

Lemma toy_pull_push st p tag st1 ct :
  toy_push st p tag = Some (st1, ct) -> toy_pull st ct = Some (st1, p, tag).
Proof.
  unfold toy_push. destruct (_ && _) eqn:Et; [|done]. intros [= <- <-].
  unfold toy_pull. cbn [app fst snd]. set (mac := fix_len 16 _). assert (length mac = 16%nat) as Hm by apply length_fix_len.
  rewrite length_app, Hm.
  replace (length p + 16 - 16)%nat with (length p) by lia.
  replace (16 <=? length p + 16)%nat with true by lia.
  rewrite drop_app_length, take_app_length, bool_decide_eq_true_2 by done.
  cbn [andb]. by rewrite unsigned_of_Z_small by lia.
Qed.

Lemma toy_pull_length st ct st' p tag :
  toy_pull st ct = Some (st', p, tag) -> length ct = (length p + 17)%nat.
Proof.
  unfold toy_pull. destruct ct as [|t rest]; [done |].
  destruct ((16 <=? length rest)%nat && _) eqn:E; [|done]. intros [= _ <- _].
  apply andb_true_iff in E as [E _]. simpl. rewrite length_take. lia.
Qed.

#[local] Program Instance toy_spec_upto (broken : option nat) : SodiumSpec (Toy_upto broken) := {
  ss_synced st st' := st = st'
}.
Next Obligation. done. Qed.
Next Obligation. intros ? a b _. simpl. case_bool_decide; naive_solver. Qed.
Next Obligation. intros ? m sk sig [= <-]. apply length_fix_len. Qed.
Next Obligation.
  intros ? pk sk m sig (seed & [= -> ->])%toy_sign_pair_cases [= <-]. simpl.
  by rewrite drop_0, bool_decide_eq_true_2.
Qed.
Next Obligation.
  intros ? pk sk (seed & [= -> ->])%toy_sign_pair_cases.
  split; [apply length_fix_len |]. cbn [length]. by rewrite length_fix_len.
Qed.
Next Obligation.
  intros ? d Hd.
  change (length (take 43 ((toy_letter <$> d) ++ replicate 43 Byte.x41)) = 43%nat).
  rewrite length_take, length_app, length_fmap, length_replicate. lia.
Qed.
Next Obligation. intros ? d. apply toy_base64_no_nul. Qed.
Next Obligation. intros ? m d [= <-]. apply length_fix_len. Qed.
Next Obligation.
  intros ? st n k. simpl. destruct (0 <=? n) eqn:E; [|done]. intros [= <-].
  rewrite length_fix_len. lia.
Qed.
Next Obligation.
  intros ? pk sk (e & e' & Hk). revert Hk. simpl. repeat case_match; try done;
    intros [= <- <- _]; split; apply length_fix_len.
Qed.
Next Obligation.
  intros ? pk sk peer rx tx [[= <- <-] | [= <- <-]]; split; apply length_fix_len.
Qed.
Next Obligation.
  intros ? cpk csk spk ssk rx tx _ _ [= <- <-]. simpl. unfold toy_kx. simpl.
  by rewrite (xor_bytes_comm spk cpk).
Qed.
Next Obligation. intros ? key e st h e' [= <- <- _]. apply length_fix_len. Qed.
Next Obligation.
  intros ? st p tag st' ct. simpl. unfold toy_push. destruct (_ && _); [|done].
  intros [= _ <-]. simpl. rewrite length_app, length_fix_len. lia.
Qed.
Next Obligation. intros ? st ct st' p tag. apply toy_pull_length. Qed.
Next Obligation. intros ? key e st h e' [= <- <- _]. by eexists. Qed.
Next Obligation.
  intros ? st st' p tag st1 ct <- Hp. exists st1. split; [|done].
  by apply toy_pull_push.
Qed.

(** The instance of the witnesses: its generator does not fail. *)
Definition Toy : Sodium := Toy_upto None.
Definition toy_spec : SodiumSpec Toy := toy_spec_upto None.

#[local] Instance toy_works : SodiumWorks Toy.
Proof.
  constructor.
  - done.
  - intros e. by eexists _, _, _.
  - intros m sk. by eexists.
  - intros. by eexists.
  - intros m1 m2. by eexists _, _, _, _.
  - intros key e. by eexists _, _, _.
  - intros st p. by eexists _, _.
Qed.
