(* ===== verification/Demo.v ===== *)
(** A concrete session between a client and a server over [Toy]: the witnesses
    take their contexts from it. *)

From Stdlib Require Import ZArith Lia ZifyBool String.
From S2P Require Import Prelude Defs WireBase WireHello WireAuth WireMux Crypto EventQueue.
From S2P Require Import OutBuf Channels Session Auth Handshake Mux Engine Api Invariant Calm.
From S2P Require Import EngineLemmas Safety Toy.
Local Open Scope Z_scope.
Local Open Scope sodchan_scope.

#[local] Existing Instance Toy.
#[local] Existing Instance toy_spec.
#[local] Existing Instance size_t_64.

Definition server_keys : bytes * bytes := toy_sign_pair (lit "server").
Definition device_keys : bytes * bytes := toy_sign_pair (lit "device").

Definition server_cfg : sodchan_config_t :=
  {| cfg_event_queue_size := 0; cfg_max_record_size := 0; cfg_max_channel_data := 0;
     cfg_max_channels := 0; cfg_initial_window := 0; cfg_max_packet := 0;
     cfg_client_id_pk := None; cfg_client_id_sk := None;
     cfg_server_id_pk := Some server_keys.1; cfg_server_id_sk := Some server_keys.2;
     cfg_accept_any_server_pk := false; cfg_allowed_channels := Some (lit "shell,exec");
     cfg_client_username := None; cfg_client_device_id := None;
     cfg_max_auth_attempts_reserved := 0; cfg_lab_mode := false |}.

Definition client_cfg : sodchan_config_t :=
  {| cfg_event_queue_size := 0; cfg_max_record_size := 0; cfg_max_channel_data := 0;
     cfg_max_channels := 0; cfg_initial_window := 1000; cfg_max_packet := 0;
     cfg_client_id_pk := Some device_keys.1; cfg_client_id_sk := Some device_keys.2;
     cfg_server_id_pk := Some server_keys.1; cfg_server_id_sk := None;
     cfg_accept_any_server_pk := false; cfg_allowed_channels := None;
     cfg_client_username := Some (lit "root"); cfg_client_device_id := Some (lit "dev1");
     cfg_max_auth_attempts_reserved := 0; cfg_lab_mode := false |}.

(** What a failed creation is replaced by, so that the demo is total. *)
Definition no_session : session :=
  session_zero SODCHAN_ROLE_CLIENT (apply_config_defaults config_zero).1 (zeros 32) false 1 0%nat.

Definition created (role : Z) (cfg : sodchan_config_t) (e : nat) : ctx :=
  default (mk_ctx no_session []) (sodchan_create false true true role (Some cfg) e).

(** All the output of one end, fed to the other. *)
Definition deliver (from to : ctx) : ctx * ctx :=
  let '(a, from) := api_ctx from (Call_get_output true 131072) in
  let bs := match a with Output bs => bs | _ => [] end in
  (from, (api_ctx to (Call_feed_input (Some bs))).2).

Definition client_0 : ctx := created 1 client_cfg 0.
Definition server_0 : ctx := created 0 server_cfg 10.

(** The client's HELLO, the server's, the two stream headers with the device's
    authentication behind the client's second one. *)
Definition hello_1 : ctx * ctx := deliver client_0 server_0.
Definition hello_2 : ctx * ctx := let '(s, c) := deliver hello_1.2 hello_1.1 in (c, s).
Definition header_1 : ctx * ctx := deliver hello_2.1 hello_2.2.
Definition header_2 : ctx * ctx := let '(s, c) := deliver header_1.2 header_1.1 in (c, s).
Definition auth_1 : ctx * ctx := deliver header_2.1 header_2.2.
Definition server_ready : ctx :=
  (api_ctx auth_1.2 (Call_auth_decide_ex true (Some (lit "ok")) 2)).2.
Definition auth_2 : ctx * ctx := let '(s, c) := deliver server_ready auth_1.1 in (c, s).
Definition client_open : ctx := (api_ctx auth_2.1 (Call_channel_open (Some (lit "shell")))).2.
Definition opened_1 : ctx * ctx := deliver client_open auth_2.2.
Definition server_accept : ctx := (api_ctx opened_1.2 (Call_channel_accept 0 true)).2.
Definition opened_2 : ctx * ctx := let '(s, c) := deliver server_accept opened_1.1 in (c, s).
Definition client_sent : ctx :=
  (api_ctx opened_2.1 (Call_channel_send true 0 (Some (lit "hi")) 2)).2.
Definition data_1 : ctx * ctx := deliver client_sent opened_2.2.

(** ** Every context of the demo is reachable *)

Lemma server_cfg_wf : config_wf server_cfg.
Proof.
  constructor; try (by left); try (vm_compute; done); try done;
    intros k Hk; by injection Hk as <-.
Qed.

Lemma client_cfg_wf : config_wf client_cfg.
Proof.
  constructor; try (by left); try (vm_compute; done); try done;
    intros k Hk; by injection Hk as <-.
Qed.

Abbreviation reach_client x := (reachable 1 client_cfg x).
Abbreviation reach_server x := (reachable 0 server_cfg x).

Lemma reach_from r cfg from to : reachable r cfg from -> reachable r cfg (deliver from to).1.
Proof.
  intros Hf. unfold deliver. pose proof (reach_call r cfg from (Call_get_output true 131072) Hf) as Hr.
  destruct (api_ctx from _) as [a x]. apply Hr. vm_compute. done.
Qed.

Lemma reach_to r cfg from to : reachable r cfg to -> reachable r cfg (deliver from to).2.
Proof.
  intros Ht. unfold deliver. destruct (api_ctx from _) as [a x]. by apply reach_call.
Qed.

Lemma swap_from {A B} (p : A * B) : (let '(s, c) := p in (c, s)) = (p.2, p.1).
Proof. by destruct p. Qed.

Lemma some_default {A} (d : A) (o : option A) : isSome o = true -> o = Some (default d o).
Proof. by destruct o. Qed.

Lemma client_0_created :
  sodchan_create false true true 1 (Some client_cfg) (0%nat : @entropy Toy) = Some client_0.
Proof. apply some_default. vm_compute. reflexivity. Qed.

Lemma server_0_created :
  sodchan_create false true true 0 (Some server_cfg) (10%nat : @entropy Toy) = Some server_0.
Proof. apply some_default. vm_compute. reflexivity. Qed.

Lemma reach_client_0 : reach_client client_0.
Proof.
  apply (reach_create 1 client_cfg false true true (0%nat : @entropy Toy)); [apply client_cfg_wf |].
  exact client_0_created.
Qed.
Lemma reach_server_0 : reach_server server_0.
Proof.
  apply (reach_create 0 server_cfg false true true (10%nat : @entropy Toy)); [apply server_cfg_wf |].
  exact server_0_created.
Qed.
Lemma reach_hello_1 : reach_client hello_1.1 /\ reach_server hello_1.2.
Proof. unfold hello_1. split; [apply reach_from, reach_client_0 | apply reach_to, reach_server_0]. Qed.
Lemma reach_hello_2 : reach_client hello_2.1 /\ reach_server hello_2.2.
Proof.
  unfold hello_2. rewrite swap_from. cbn [fst snd]. destruct reach_hello_1 as [Hc Hs].
  split; [apply reach_to; exact Hc | apply reach_from; exact Hs].
Qed.
Lemma reach_header_1 : reach_client header_1.1 /\ reach_server header_1.2.
Proof. unfold header_1. destruct reach_hello_2 as [Hc Hs]. split; [apply reach_from; exact Hc | apply reach_to; exact Hs]. Qed.
Lemma reach_header_2 : reach_client header_2.1 /\ reach_server header_2.2.
Proof.
  unfold header_2. rewrite swap_from. cbn [fst snd]. destruct reach_header_1 as [Hc Hs].
  split; [apply reach_to; exact Hc | apply reach_from; exact Hs].
Qed.
Lemma reach_auth_1 : reach_client auth_1.1 /\ reach_server auth_1.2.
Proof. unfold auth_1. destruct reach_header_2 as [Hc Hs]. split; [apply reach_from; exact Hc | apply reach_to; exact Hs]. Qed.
Lemma reach_server_ready : reach_server server_ready.
Proof. unfold server_ready. apply reach_call; [exact (proj2 reach_auth_1) | by vm_compute]. Qed.
Lemma reach_auth_2 : reach_client auth_2.1 /\ reach_server auth_2.2.
Proof.
  unfold auth_2. rewrite swap_from. cbn [fst snd].
  split; [apply reach_to; exact (proj1 reach_auth_1) | apply reach_from, reach_server_ready].
Qed.
Lemma reach_client_open : reach_client client_open.
Proof. unfold client_open. apply reach_call; [exact (proj1 reach_auth_2) | done]. Qed.
Lemma reach_opened_1 : reach_client opened_1.1 /\ reach_server opened_1.2.
Proof. unfold opened_1. split; [apply reach_from, reach_client_open | apply reach_to; exact (proj2 reach_auth_2)]. Qed.
Lemma reach_server_accept : reach_server server_accept.
Proof. unfold server_accept. apply reach_call; [exact (proj2 reach_opened_1) | done]. Qed.
Lemma reach_opened_2 : reach_client opened_2.1 /\ reach_server opened_2.2.
Proof.
  unfold opened_2. rewrite swap_from. cbn [fst snd].
  split; [apply reach_to; exact (proj1 reach_opened_1) | apply reach_from, reach_server_accept].
Qed.
Lemma reach_client_sent : reach_client client_sent.
Proof. unfold client_sent. apply reach_call; [exact (proj1 reach_opened_2) | by vm_compute]. Qed.
Lemma reach_data_1 : reach_client data_1.1 /\ reach_server data_1.2.
Proof. unfold data_1. split; [apply reach_from, reach_client_sent | apply reach_to; exact (proj2 reach_opened_2)]. Qed.

(** The wire and the cipher states of the two ends stay in step. *)
Example demo_states :
  state (core auth_2.1) = SODCHAN_STATE_READY /\ state (core auth_2.2) = SODCHAN_STATE_READY /\
  ss_push (core auth_2.1) = ss_pull (core auth_2.2) /\
  ss_push (core auth_2.2) = ss_pull (core auth_2.1) /\
  drop 6 (pending (evq (core data_1.2))) = [EVENT_CHANNEL_DATA 0 (lit "hi")].
Proof. split_and!; vm_compute; reflexivity. Qed.

Lemma toy_kx_total : kx_total.
Proof. intros e. by eexists. Qed.
