(* ===== verification/PropWire.v ===== *)
(** Properties of the wire format, of the key blobs and of the small stateful
    components: frames, PDUs, transcripts, ring, output buffer, channel table,
    allowlist and creation. *)

From Stdlib Require Import ZArith Lia ZifyBool String.
From S2P Require Import Prelude Defs WireBase WireHello WireAuth WireMux Crypto EventQueue.
From S2P Require Import OutBuf Channels Session Auth Handshake Mux Engine Api Invariant Calm.
From S2P Require Import EngineLemmas Safety Transport Toy Demo.
Local Open Scope Z_scope.
Local Open Scope sodchan_scope.

Section Properties.
  Context `{SizeT}.

(** C23: frames.  The parser answers a frame exactly when the input starts with
    one, within the limit, and then with its length and its body; so encoding
    and parsing are inverse, and what follows a frame does not matter. *)
Theorem frame_parse_exact data body max_body n :
  max_body <= frame_limit ->
  sodchan_wire_frame_parse_max (Some data) max_body = Ok (n, body) <->
  0 < len body <= max_body /\ n = 4 + len body /\
  exists rest out, data = frame_bytes body ++ rest /\
    sodchan_wire_frame_encode_max (Some body) max_body (Some (zeros (length (frame_bytes body)))) =
      Ok (out, n) /\ data = out ++ rest.
Proof.
  intros Hm. rewrite frame_parse_max_ok by done. split.
  - intros (Hb & -> & t & ->). split_and!; [lia | lia | done |]. exists t, (frame_bytes body).
    split; [done |]. rewrite frame_encode_max_ok; [| done | done |].
    + rewrite drop_ge, app_nil_r; [done |]. unfold zeros. by rewrite length_replicate.
    + unfold zeros. rewrite length_replicate, length_frame_bytes. lia.
  - intros (Hb & -> & t & o & Hd & _). split_and!; [lia | lia | done |]. by exists t.
Qed.

(** C24: no decoder reads outside the bytes it was given, whatever they are. *)
Theorem decoders_in_bounds b cap cap' :
  sodchan_wire_hello_decode b <> Oob /\ sodchan_wire_auth_device_decode b cap cap' <> Oob /\
  sodchan_wire_auth_ok_decode b <> Oob /\ sodchan_wire_auth_fail_decode b <> Oob /\
  sodchan_wire_channel_open_decode b cap <> Oob /\
  sodchan_wire_channel_open_confirm_decode b <> Oob /\
  sodchan_wire_channel_open_fail_decode b cap <> Oob /\
  sodchan_wire_channel_data_decode b <> Oob /\ sodchan_wire_channel_window_decode b <> Oob /\
  sodchan_wire_channel_eof_decode b <> Oob /\ sodchan_wire_channel_close_decode b <> Oob /\
  sodchan_wire_ping_decode b <> Oob /\ sodchan_wire_pong_decode b <> Oob /\
  sodchan_wire_disconnect_decode b cap <> Oob /\ sodchan_seed_decode b <> Oob.
Proof.
  split_and!; auto using hello_decode_safe, auth_device_decode_safe, auth_ok_decode_safe,
    auth_fail_decode_safe, open_decode_safe, confirm_decode_safe, open_fail_decode_safe,
    data_decode_safe, window_decode_safe, disconnect_decode_safe, seed_decode_safe;
    apply u32_pdu_decode_safe.
Qed.

(** C25: HELLO.  The decoder accepts exactly the bytes the encoder makes of a
    well-formed HELLO, and answers that HELLO. *)
Theorem hello_decode_exact b h :
  sodchan_wire_hello_decode (Some b) = Ok h <->
  hello_wf h /\ sodchan_wire_hello_encode (Some h) (Some (zeros 140)) = Ok (b, 140).
Proof.
  rewrite hello_decode_ok. split; intros [Hw Hb]; (split; [done |]); pose proof Hw as [].
  - rewrite hello_encode_ok by done. by rewrite Hb, app_nil_r.
  - rewrite hello_encode_ok in Hb by done. rewrite app_nil_r in Hb. by injection Hb as <-.
Qed.

(** What is signed and verified in AUTH: the prefix of the caller's array that
    [sodchan_wire_build_t_auth] says it wrote. *)
Definition auth_transcript (th pk user dev : bytes) : res bytes :=
  let* '(t, n) :=
    sodchan_wire_build_t_auth (Some th) (Some pk) (Some user) (len user) (Some dev) (len dev)
      (Some (zeros 512)) in
  rd t 0 n.

Lemma auth_transcript_ok th pk user dev :
  length th = 123%nat -> length pk = 32%nat -> len user <= 128 -> len dev <= 128 ->
  auth_transcript th pk user dev = Ok (t_auth_bytes th pk user dev).
Proof.
  intros Ht Hp Hu Hd. unfold auth_transcript.
  pose proof (build_t_auth_ok th pk user [] dev [] (zeros 512) Ht Hp Hu Hd) as E.
  rewrite !app_nil_r in E. rewrite E by (change (len (zeros 512)) with 512; lia).
  cbn [res_bind]. by apply rd_head.
Qed.

(** C26: the two signed transcripts are always built and determine what they
    bind, and no bytes are both a server's HELLO transcript and a client's AUTH
    transcript: a signature made for one purpose, handshake, key, user or device
    is not one for another. *)
Theorem transcripts_bind p p' s s' ce ce' se se' si si' th th' pk pk' u u' d d' :
  0 <= p < 65536 -> 0 <= p' < 65536 -> 0 <= s < 65536 -> 0 <= s' < 65536 ->
  length ce = 32%nat -> length ce' = 32%nat -> length se = 32%nat -> length se' = 32%nat ->
  length si = 32%nat -> length si' = 32%nat ->
  length th = 123%nat -> length th' = 123%nat -> length pk = 32%nat -> length pk' = 32%nat ->
  len u <= 128 -> len u' <= 128 -> len d <= 128 -> len d' <= 128 ->
  let hello p s ce se si :=
    sodchan_wire_build_t_hello p s (Some ce) (Some se) (Some si) (Some (zeros 123)) in
  (exists t, hello p s ce se si = Ok t) /\ (exists t, auth_transcript th pk u d = Ok t) /\
  (hello p s ce se si = hello p' s' ce' se' si' ->
   p = p' /\ s = s' /\ ce = ce' /\ se = se' /\ si = si') /\
  (auth_transcript th pk u d = auth_transcript th' pk' u' d' ->
   th = th' /\ pk = pk' /\ u = u' /\ d = d') /\
  hello p s ce se si <> auth_transcript th pk u d.
Proof.
  intros. subst hello. cbv beta. rewrite !build_t_hello_ok, !auth_transcript_ok by done.
  split_and!; [by eexists | by eexists | ..].
  - intros E%Ok_inj. by apply t_hello_bytes_inj in E.
  - intros E%Ok_inj. by apply t_auth_bytes_inj in E.
  - intros E%Ok_inj. by apply t_hello_t_auth_disjoint in E.
Qed.

(** C27: AUTH_DEVICE, AUTH_OK and AUTH_FAIL.  The decoders accept exactly the
    layouts, with their limits, and answer the fields. *)
Theorem auth_pdus_exact b r c n reason :
  (sodchan_wire_auth_device_decode (Some b) (SODCHAN_USER_MAX + 1) (SODCHAN_DEVICE_ID_MAX + 1) = Ok r <->
   exists user dev,
     length (ad_client_id_pk r) = 32%nat /\ length (ad_client_sig r) = 64%nat /\
     len user <= 128 /\ len dev <= 128 /\
     ad_username r = user ++ [Byte.x00] /\ ad_username_len r = len user /\
     ad_device_id r = dev ++ [Byte.x00] /\ ad_device_id_len r = len dev /\
     b = auth_device_bytes (ad_client_id_pk r) (ad_client_sig r) user dev) /\
  (sodchan_wire_auth_ok_decode (Some b) = Ok (c, n) <->
   exists claims, len claims <= 1024 /\ n = len claims /\
     c = (if 0 <? n then Some claims else None) /\ b = auth_ok_bytes claims) /\
  (sodchan_wire_auth_fail_decode (Some b) = Ok (reason, n) <->
   exists msg, 0 <= reason < 256 /\ n = len msg /\ len msg < 256 /\
     b = [byte.of_Z SODCHAN_PDU_AUTH_FAIL] ++ [byte.of_Z reason] ++ [byte.of_Z n] ++ msg).
Proof.
  split_and!; [| apply auth_ok_decode_ok | apply auth_fail_decode_ok].
  rewrite auth_device_decode_ok.
  split; intros (user & dev & ? & ? & ? & ? & Hu & ? & Hd & ? & ?); exists user, dev.
  - rewrite !field_buf_fits in * by (consts; lia). done.
  - rewrite !field_buf_fits by (consts; lia). done.
Qed.

(** C28: the channel PDUs.  Each decoder accepts exactly its layout, answers the
    fields, and the encoder makes those very bytes of those fields, so that
    encoding and decoding are inverse (for DATA: on blocks of less than 2^32
    bytes). *)
Theorem mux_pdus_exact b r s w p v cap name data :
  (sodchan_wire_channel_open_decode (Some b) 64 = Ok (Build_channel_open_t s w p name v) <->
   exists nm, 0 <= s < 4294967296 /\ 0 <= w < 4294967296 /\ 0 <= p < 4294967296 /\
     len nm <= 63 /\ name = nm ++ [Byte.x00] /\ v = len nm /\ b = open_bytes s w p nm /\
     sodchan_wire_channel_open_encode s w p (Some nm) v (Some (zeros (length b))) = Ok (b, len b)) /\
  (sodchan_wire_channel_open_confirm_decode (Some b) = Ok (s, r, w, p) <->
   0 <= s < 4294967296 /\ 0 <= r < 4294967296 /\ 0 <= w < 4294967296 /\
   0 <= p < 4294967296 /\ b = confirm_bytes s r w p /\
   sodchan_wire_channel_open_confirm_encode s r w p (Some (zeros (length b))) = Ok (b, len b)) /\
  (sodchan_wire_channel_open_fail_decode (Some b) cap = Ok (r, s, name, v) <->
   exists msg, 0 <= r < 4294967296 /\ 0 <= s < 4294967296 /\ len msg <= 255 /\
     name = field_buf msg cap /\ v = len msg /\ b = open_fail_bytes r s msg /\
     sodchan_wire_channel_open_fail_encode r s (Some msg) v (Some (zeros (length b))) = Ok (b, len b)) /\
  (len b <= 4294967295 ->
   sodchan_wire_channel_data_decode (Some b) = Ok (r, data, v) <->
   exists d, 0 <= r < 4294967296 /\ v = len d /\ data = (if 0 <? v then Some d else None) /\
     b = data_bytes r d /\
     sodchan_wire_channel_data_encode r (Some d) v (Some (zeros (length b))) = Ok (b, len b)) /\
  (sodchan_wire_channel_window_decode (Some b) = Ok (r, v) <->
   0 <= r < 4294967296 /\ 0 <= v < 4294967296 /\ b = window_bytes r v /\
   sodchan_wire_channel_window_encode r v (Some (zeros (length b))) = Ok (b, len b)) /\
  (sodchan_wire_channel_eof_decode (Some b) = Ok v <->
   0 <= v < 4294967296 /\ b = u32_pdu_bytes SODCHAN_PDU_CHANNEL_EOF v /\
   sodchan_wire_channel_eof_encode v (Some (zeros (length b))) = Ok (b, len b)) /\
  (sodchan_wire_channel_close_decode (Some b) = Ok v <->
   0 <= v < 4294967296 /\ b = u32_pdu_bytes SODCHAN_PDU_CHANNEL_CLOSE v /\
   sodchan_wire_channel_close_encode v (Some (zeros (length b))) = Ok (b, len b)) /\
  (sodchan_wire_ping_decode (Some b) = Ok v <->
   0 <= v < 4294967296 /\ b = u32_pdu_bytes SODCHAN_PDU_PING v /\
   sodchan_wire_ping_encode v (Some (zeros (length b))) = Ok (b, len b)) /\
  (sodchan_wire_pong_decode (Some b) = Ok v <->
   0 <= v < 4294967296 /\ b = u32_pdu_bytes SODCHAN_PDU_PONG v /\
   sodchan_wire_pong_encode v (Some (zeros (length b))) = Ok (b, len b)) /\
  (sodchan_wire_disconnect_decode (Some b) cap = Ok (r, name, v) <->
   exists msg, 0 <= r < 4294967296 /\ len msg <= 255 /\
     name = field_buf msg cap /\ v = len msg /\ b = disconnect_bytes r msg /\
     sodchan_wire_disconnect_encode r (Some msg) v (Some (zeros (length b))) = Ok (b, len b)).
Proof.
  assert (forall type v, 0 <= type < 256 ->
    u32_pdu_decode type (Some b) = Ok v <->
    0 <= v < 4294967296 /\ b = u32_pdu_bytes type v /\
    u32_pdu_encode type v (Some (zeros (length b))) = Ok (b, len b)) as Hu.
  { intros type v' Ht. rewrite u32_pdu_decode_ok by done.
    split; [| tauto]. intros [? ->]. by rewrite u32_pdu_encode_whole. }
  split_and!; try (apply Hu; by consts).
  - rewrite open_decode_ok.
    cbn [co_sender_channel co_init_window co_max_packet co_name co_name_len].
    split; intros (nm & ? & ? & ? & ? & Hn & -> & Hb); exists nm.
    + subst. rewrite open_encode_whole, field_buf_fits by lia. done.
    + destruct Hb as [-> _]. rewrite field_buf_fits by lia. done.
  - rewrite confirm_decode_ok. split; [| tauto]. intros (? & ? & ? & ? & ->).
    by rewrite confirm_encode_whole.
  - rewrite open_fail_decode_ok.
    split; intros (msg & ? & ? & ? & -> & -> & Hb); exists msg; [| tauto].
    subst b. by rewrite open_fail_encode_whole.
  - intros Hlen. rewrite data_decode_exact by done.
    split; intros (d & ? & -> & -> & Hb); exists d; [| tauto].
    subst b. rewrite data_encode_whole; [done |].
    revert Hlen. unfold data_bytes. rewrite !length_app, !length_be32. cbn [length]. lia.
  - rewrite window_decode_ok. split; [| tauto]. intros (? & ? & ->).
    by rewrite window_encode_whole.
  - rewrite disconnect_decode_ok.
    split; intros (msg & ? & ? & -> & -> & Hb); exists msg; [| tauto].
    subst b. by rewrite disconnect_encode_whole.
Qed.

(** Seed blobs.  Decoding accepts exactly the 37-byte blobs encoding makes,
    and inverts it. *)
Theorem seed_blob_exact blob seed :
  sodchan_seed_decode (Some blob) = Ok seed <->
  length seed = 32%nat /\ sodchan_seed_encode (Some seed) (Some (zeros 37)) = Ok blob.
Proof.
  rewrite seed_decode_ok. split; intros [Hl Hb]; (split; [done |]).
  - by rewrite seed_encode_ok, Hb.
  - rewrite seed_encode_ok in Hb by done. by injection Hb as <-.
Qed.

(** C29: the event ring is a bounded first-in first-out queue: an event goes to
    the end when there is room and is refused when there is none, and the host
    reads the oldest. *)
Theorem event_ring_fifo q ev :
  evq_wf q ->
  (event_count q < event_cap q ->
   (sodchan_i_queue_event q ev).1 = SODCHAN_OK /\
   pending (sodchan_i_queue_event q ev).2 = pending q ++ [ev]) /\
  (event_count q = event_cap q -> sodchan_i_queue_event q ev = (SODCHAN_ERR_FULL, q)) /\
  match pending q with
  | [] => next_event q = (None, q)
  | e :: rest => (next_event q).1 = Some e /\ pending (next_event q).2 = rest
  end /\
  evq_wf (sodchan_i_queue_event q ev).2 /\ evq_wf (next_event q).2.
Proof.
  intros Hq. split_and!; [by apply queue_pending | by apply queue_full | by apply next_pending
    | by apply queue_event_wf | by apply next_event_wf].
Qed.

(** C30: the output buffer is a byte stream: appending a frame is all or nothing
    and goes to the end, draining takes the oldest bytes, as many as asked for
    and there are, and nothing is lost, repeated or reordered. *)
Theorem output_is_stream b body n :
  out_wf b -> 0 < len body <= SODCHAN_MAX_CLEAR_FRAME -> 0 <= n ->
  (let '(rc, b') := out_append_frame b body in
   out_wf b' /\
   if SODCHAN_OUT_BUF_SIZE <? len (unread b) + 4 + len body
   then rc = SODCHAN_ERR_FULL /\ unread b' = unread b
   else rc = SODCHAN_OK /\ unread b' = unread b ++ frame_bytes body) /\
  (let '(bs, b') := get_output b n in
   out_wf b' /\ unread b = bs ++ unread b' /\ len bs = Z.min n (len (unread b))).
Proof.
  intros Hb Hl Hn. pose proof (out_append_frame_wf b body Hb) as Hw.
  pose proof (get_output_stream b n Hn Hb) as Hg. pose proof (get_output_wf b n Hn Hb) as Hgw.
  rewrite out_append_frame_spec in * by done. rewrite out_append_spec in * by done.
  rewrite length_frame_bytes in *. rewrite Z.add_assoc in *.
  destruct (get_output b n). split; [|done]. by destruct (_ <? _).
Qed.

(** C31: the channel table is a finite map from local ids to channels, with a
    counter for new ids: allocation succeeds exactly below the limit, gives an
    id that was free and adds that binding alone; an update changes one
    binding; freeing removes one; and ids stay unique. *)
Theorem channel_table_is_map t m id :
  table_wf t -> table_ids t -> next_local_channel_id t < 4294967295 ->
  m <= Z.of_nat SODCHAN_MAX_CHANNELS ->
  ((ch_alloc t m).1 = None <-> m <= active_channels t) /\
  (forall i t' v, ch_alloc t m = (Some i, t') -> used v = true ->
     local_id v = next_local_channel_id t ->
     table_ids (ch_set t' i v) /\ ch_lookup t (next_local_channel_id t) = None /\
     ch_lookup (ch_set t' i v) id =
       if id =? next_local_channel_id t then Some v else ch_lookup t id) /\
  (forall i k, ch_by_local t k = Some i ->
     (forall v, used v = true -> local_id v = k ->
        table_ids (ch_set t i v) /\
        ch_lookup (ch_set t i v) id = if id =? k then Some v else ch_lookup t id) /\
     table_ids (ch_free t i) /\
     ch_lookup (ch_free t i) id = if id =? k then None else ch_lookup t id).
Proof.
  intros Hw Hi Hn Hm. split; [by apply ch_alloc_some |]. split.
  - intros i t' v Ha Hv Hl. eapply ch_alloc_lookup; try done. apply Hw.
  - intros i k Hk. apply ch_by_local_some in Hk as (Hc & Hu & <-). split.
    + intros v Hv Hl. split; [by eapply ch_set_ids | by apply ch_set_lookup].
    + split; [by apply ch_free_ids | by apply ch_free_lookup].
Qed.

(** C32: the allowlist matches whole names: the loop over the comma-separated
    list accepts a name exactly when it is not empty and is one of the list's
    segments. *)
Theorem allowlist_exact allowed name :
  channel_name_allowed allowed name = true <->
  cstr name <> [] /\
  cstr name ∈ split_comma (cstr (default SODCHAN_DEFAULT_ALLOWED_CHANNELS allowed)).
Proof. apply channel_name_allowed_iff. Qed.

Context `{Sodium} {SP : SodiumSpec _}.

(** C33: a context is created exactly when the role is one of the two, lab mode
    is allowed, the role has the keys it needs, libsodium initialises and makes
    a key pair, and memory is there; it then waits for the peer's HELLO. *)
Theorem create_exact lab m1 m2 r cfg e :
  config_wf cfg ->
  let o := sodchan_create lab m1 m2 r (Some cfg) e in
  isSome o =
    match role_of r with
    | None => false
    | Some SODCHAN_ROLE_SERVER => isSome (cfg_server_id_pk cfg) && isSome (cfg_server_id_sk cfg)
    | Some SODCHAN_ROLE_CLIENT => cfg_accept_any_server_pk cfg || isSome (cfg_server_id_pk cfg)
    end && (lab || negb (cfg_lab_mode cfg)) && (0 <=? sodium_init) && m1 && m2 &&
    isSome (crypto_kx_keypair e).1 /\
  forall x, o = Some x ->
    ctx_wf x /\ state (core x) = SODCHAN_STATE_HELLO /\
    hs (core x) = SODCHAN_HS_WAIT_PEER_HELLO /\ in_buf x = [].
Proof.
  intros Hcfg o. split; [apply create_guards; done |]. intros x Hx.
  pose proof (wf_create lab m1 m2 r (Some cfg) e x Hcfg Hx) as Hw.
  pose proof (create_hello lab m1 m2 r cfg e x Hcfg Hx) as [Hst Hhs].
  refine (conj Hw (conj Hst (conj Hhs _))). exact (quiet_create lab m1 m2 r (Some cfg) e x Hx).
Qed.

(** The refusal a server sends: the reason UNSPEC and no message. *)
Definition opaque_refusal : bytes := [byte.of_Z SODCHAN_PDU_AUTH_FAIL; Byte.x00; Byte.x00].

(** [discreet c c']: from [c] to [c'] nothing left, or that refusal alone. *)
Definition discreet (c c' : session) : Prop :=
  unread (out c') = unread (out c) \/
  exists c2, sent c opaque_refusal c2 /\ unread (out c') = unread (out c2).

Lemma auth_fail_discreet c c' :
  out_wf (out c) -> unread (out c') = unread (out (server_send_auth_fail c).2) -> discreet c c'.
Proof.
  unfold discreet. intros Hc ->. destruct (server_send_auth_fail c) as [rc c2] eqn:E.
  apply auth_fail_sent in E as [(_ & [-> | ->]) | (_ & Hs)]; [by left | by left | | done].
  right. by exists c2.
Qed.

(** What AUTH_DEVICE makes the server say, whatever its bytes are. *)
Lemma auth_device_discreet c p :
  out_wf (out c) ->
  ((handle_auth_device_pdu c p).1 = SODCHAN_OK \/
   state (handle_auth_device_pdu c p).2 = SODCHAN_STATE_ERROR) /\
  discreet c (handle_auth_device_pdu c p).2.
Proof.
  intros Hc. unfold handle_auth_device_pdu.
  repeat (case_match; [split; [by right | by left] |]).
  repeat (case_match; try (split; [first [by left | by right] | by left])).
  split; [by right |]. by apply auth_fail_discreet.
Qed.

(** A device whose signature does not verify is refused with it. *)
Lemma bad_signature_refused c pk sig user dev :
  session_wf c -> role c = SODCHAN_ROLE_SERVER -> have_t_hello c = true ->
  auth_awaiting_decide c = false -> auth_complete c = false -> auth_decided c = false ->
  length pk = 32%nat -> length sig = 64%nat -> len user <= 128 -> len dev <= 128 ->
  crypto_sign_verify_detached sig (t_auth_bytes (t_hello c) pk user dev) pk <> 0 ->
  let '(rc, c') := handle_auth_device_pdu c (auth_device_bytes pk sig user dev) in
  rc = -1 /\ error c' = SODCHAN_ERR_CRYPTO /\ state c' = SODCHAN_STATE_ERROR /\
  auth_awaiting_decide c' = false /\
  unread (out c') = unread (out (server_send_auth_fail c).2).
Proof.
  intros Hwf Hr Ht Ha Hc Hd Hp Hl Hu Hv Hver.
  unfold handle_auth_device_pdu. rewrite Hr, Ha, Hc, Hd, Ht. cbn [negb orb].
  change (negb (bool_decide (SODCHAN_ROLE_SERVER = SODCHAN_ROLE_SERVER))) with false. cbv iota.
  set (r := {| ad_client_id_pk := pk; ad_client_sig := sig; ad_username := user ++ [Byte.x00];
    ad_username_len := len user; ad_device_id := dev ++ [Byte.x00]; ad_device_id_len := len dev |}).
  rewrite (proj2 (auth_device_decode_ok (auth_device_bytes pk sig user dev)
    (SODCHAN_USER_MAX + 1) (SODCHAN_DEVICE_ID_MAX + 1) r)).
  2: { exists user, dev. rewrite !field_buf_fits by (consts; lia). by split_and!. }
  subst r. cbn [ad_client_id_pk ad_client_sig ad_username ad_username_len ad_device_id
    ad_device_id_len]. cbv zeta.
  rewrite build_t_auth_ok by (try apply Hwf; try done; unfold zeros; rewrite length_replicate; lia).
  cbn [res_bind]. rewrite rd_head by done.
  replace (negb (_ =? 0)) with true by (symmetry; apply negb_true_iff; lia). cbv iota.
  split_and!; try done.
  destruct (server_send_auth_fail c) as [rc c2] eqn:E.
  apply auth_fail_sent in E as [(_ & [-> | ->]) | (_ & st & ct & _ & _ & _ & ->)];
    [exact Ha.. | apply Hwf].
Qed.

(** The host's rejection. *)
Lemma rejection_says c claims n c' :
  session_wf c -> sodchan_auth_decide_ex c false claims n = (SODCHAN_OK, c') ->
  exists c2, sent (c <| auth_awaiting_decide := false |> <| auth_decided := true |>)
    opaque_refusal c2 /\ unread (out c') = unread (out c2).
Proof.
  intros Hc. unfold sodchan_auth_decide_ex. repeat (case_match; [done |]). cbv zeta.
  set (c1 := c <| auth_awaiting_decide := _ |> <| auth_decided := _ |>).
  destruct (server_send_auth_fail c1) as [rc c2] eqn:E.
  apply auth_fail_sent in E; [| apply Hc].
  destruct E as [[Hne _] | [-> Hs]].
  - replace (negb (rc =? SODCHAN_OK)) with true by lia. done.
  - simpl. intros [= <-]. by exists c2.
Qed.

Lemma rejection_fails c claims n :
  session_wf c -> (sodchan_auth_decide_ex c false claims n).1 <> SODCHAN_OK ->
  unread (out (sodchan_auth_decide_ex c false claims n).2) = unread (out c).
Proof.
  intros Hc. unfold sodchan_auth_decide_ex. repeat (case_match; [done |]). cbv zeta.
  set (c1 := c <| auth_awaiting_decide := _ |> <| auth_decided := _ |>).
  destruct (server_send_auth_fail c1) as [rc c2] eqn:E.
  apply auth_fail_sent in E; [| apply Hc].
  destruct E as [[Hne [-> | ->]] | [-> Hs]]; [by case_match.. | done].
Qed.

(** C34: what a server says of a refusal, for a bad signature as for the host's
    rejection, is the constant AUTH_FAIL with the reason UNSPEC and no message.
    AUTH_DEVICE, whatever its bytes are, makes it send nothing or that PDU; a
    device whose signature does not verify is refused with that PDU (the output
    is that of [server_send_auth_fail], which sends it or, when it cannot be
    sent, nothing); and the host's rejection, when it is answered OK, is the emission
    of the same PDU, and otherwise of nothing. *)
Theorem auth_fail_is_opaque c :
  session_wf c ->
  (forall rc c', server_send_auth_fail c = (rc, c') ->
     (rc <> SODCHAN_OK /\ unsent c c') \/
     (rc = SODCHAN_OK /\ sent c [byte.of_Z SODCHAN_PDU_AUTH_FAIL; Byte.x00; Byte.x00] c')) /\
  (forall claims n c', sodchan_auth_decide_ex c false claims n = (SODCHAN_OK, c') ->
     exists c2, sent (c <| auth_awaiting_decide := false |> <| auth_decided := true |>)
       [byte.of_Z SODCHAN_PDU_AUTH_FAIL; Byte.x00; Byte.x00] c2 /\
     unread (out c') = unread (out c2)) /\
  (forall claims n, (sodchan_auth_decide_ex c false claims n).1 <> SODCHAN_OK ->
     unread (out (sodchan_auth_decide_ex c false claims n).2) = unread (out c)) /\
  (forall p, let '(rc, c') := handle_auth_device_pdu c p in
     (rc = SODCHAN_OK \/ state c' = SODCHAN_STATE_ERROR) /\ discreet c c') /\
  (forall pk sig user dev,
     role c = SODCHAN_ROLE_SERVER -> have_t_hello c = true ->
     auth_awaiting_decide c = false -> auth_complete c = false -> auth_decided c = false ->
     length pk = 32%nat -> length sig = 64%nat -> len user <= 128 -> len dev <= 128 ->
     crypto_sign_verify_detached sig (t_auth_bytes (t_hello c) pk user dev) pk <> 0 ->
     let '(rc, c') := handle_auth_device_pdu c (auth_device_bytes pk sig user dev) in
     rc = -1 /\ error c' = SODCHAN_ERR_CRYPTO /\ state c' = SODCHAN_STATE_ERROR /\
     auth_awaiting_decide c' = false /\
     unread (out c') = unread (out (server_send_auth_fail c).2)).
Proof.
  intros Hc. split_and!.
  - intros rc c'. apply auth_fail_sent, Hc.
  - intros claims n c' E. exact (rejection_says c claims n c' Hc E).
  - intros claims n. exact (rejection_fails c claims n Hc).
  - intros p. pose proof (auth_device_discreet c p ltac:(apply Hc)) as Hd.
    by destruct (handle_auth_device_pdu c p).
  - intros. by apply bad_signature_refused.
Qed.

(** C35: the encrypted output accepts: a PDU within the record size and the
    peer's input buffer is sent whenever the output buffer has room for its
    frame, and the output grows by exactly that frame. *)
Theorem ss_send_accepts c p t st ct :
  session_wf c -> max_record_size (cfg c) + 21 < 4294967296 ->
  ss_push_ready c = true -> 0 < len p <= max_record_size (cfg c) ->
  len p + SODCHAN_SS_ABYTES <= SODCHAN_IN_BUF_SIZE - 4 ->
  len (unread (out c)) + 4 + (len p + SODCHAN_SS_ABYTES) <= SODCHAN_OUT_BUF_SIZE ->
  crypto_secretstream_push (ss_push c) p TAG_MESSAGE = Some (st, ct) ->
  let '(rc, c') := ss_send_pdu c (Some (p ++ t)) (len p) in
  rc = SODCHAN_OK /\ sent c p c' /\ unread (out c') = unread (out c) ++ frame_bytes ct.
Proof.
  intros Hc Hm Hr Hp Hi Ho Hs. rewrite (ss_send_ok c p t ct st) by (done || apply Hc).
  split; [done |]. split; [|done]. exists st, ct. split; [done |]. split; [done |].
  split; [|done]. apply push_length in Hs. rewrite length_frame_bytes.
  revert Ho. consts. lia.
Qed.
End Properties.

(** ** Witnesses *)

#[local] Existing Instance Toy.
#[local] Existing Instance toy_spec.
#[local] Existing Instance size_t_64.

Lemma frame_parse_exact_witness :
  sodchan_wire_frame_parse_max (Some (frame_bytes (lit "abc") ++ lit "x")) 16 = Ok (7, lit "abc").
Proof.
  apply (frame_parse_exact (frame_bytes (lit "abc") ++ lit "x") (lit "abc") 16 7);
    [vm_compute; discriminate |].
  split; [by vm_compute |]. split; [reflexivity |]. exists (lit "x"), (frame_bytes (lit "abc")).
  split_and!; vm_compute; reflexivity.
Defined.

Lemma transcripts_bind_witness :
  sodchan_wire_build_t_hello 1 2 (Some (zeros 32)) (Some (zeros 32)) (Some (zeros 32)) (Some (zeros 123)) <>
    auth_transcript (zeros 123) (zeros 32) (lit "root") (lit "dev1").
Proof.
  apply (transcripts_bind 1 1 2 2 (zeros 32) (zeros 32) (zeros 32) (zeros 32) (zeros 32) (zeros 32)
    (zeros 123) (zeros 123) (zeros 32) (zeros 32) (lit "root") (lit "root") (lit "dev1") (lit "dev1"));
    try reflexivity; try (split; by vm_compute); by vm_compute.
Defined.

(** A ring of one event. *)
Definition ring_1 : evqueue := (sodchan_i_queue_event (evqueue_new 1) EVENT_AUTHENTICATED).2.

Lemma event_ring_fifo_witness :
  sodchan_i_queue_event ring_1 EVENT_AUTHENTICATED = (SODCHAN_ERR_FULL, ring_1) /\
  (next_event ring_1).1 = Some EVENT_AUTHENTICATED.
Proof.
  assert (Hw : evq_wf ring_1) by (apply queue_event_wf, evqueue_new_wf; lia).
  destruct (event_ring_fifo ring_1 EVENT_AUTHENTICATED Hw) as (_ & Hf & Hn & _).
  split; [apply Hf; reflexivity | apply Hn].
Defined.

Lemma output_is_stream_witness :
  out_wf (out_append_frame outbuf_empty (lit "abc")).2 /\
  (out_append_frame outbuf_empty (lit "abc")).1 = SODCHAN_OK.
Proof.
  pose proof (output_is_stream outbuf_empty (lit "abc") 5 outbuf_empty_wf
    ltac:(vm_compute; split; [reflexivity | discriminate]) ltac:(lia)) as [Hw _].
  destruct (out_append_frame outbuf_empty (lit "abc")) as [rc b'].
  destruct Hw as [Hw Hrc]. split; [exact Hw | exact (proj1 Hrc)].
Defined.

Lemma mux_pdus_exact_witness :
  sodchan_wire_channel_data_decode (Some (data_bytes 7 (lit "hi"))) = Ok (7, Some (lit "hi"), 2).
Proof.
  destruct (mux_pdus_exact (data_bytes 7 (lit "hi")) 7 0 0 0 2 0 [] (Some (lit "hi")))
    as (_ & _ & _ & Hd & _).
  apply Hd; [vm_compute; discriminate |]. exists (lit "hi").
  split; [split; vm_compute; [discriminate | reflexivity] |].
  split; [reflexivity |]. split; [reflexivity |]. split; [reflexivity |]. vm_compute. reflexivity.
Defined.

(** The first channel of a context. *)
Definition channel_0 : sodchan_channel_t :=
  mk_channel SODCHAN_CH_OPENING 0 0 false (lit "shell") 0 1000 16384 false false.

Lemma channel_table_is_map_witness :
  ch_lookup (ch_set (ch_alloc chtable_empty 16).2 0 channel_0) 0 = Some channel_0.
Proof.
  destruct (channel_table_is_map chtable_empty 16 0 table_empty_wf table_empty_ids
    ltac:(vm_compute; reflexivity) ltac:(vm_compute; discriminate)) as (_ & Ha & _).
  apply (Ha 0%nat (ch_alloc chtable_empty 16).2 channel_0); reflexivity.
Defined.

Lemma create_exact_witness :
  isSome (sodchan_create false true true 0 (Some server_cfg) (10%nat : @entropy Toy)) = true.
Proof.
  rewrite (proj1 (create_exact false true true 0 server_cfg (10%nat : @entropy Toy) server_cfg_wf)).
  reflexivity.
Defined.

Lemma auth_fail_is_opaque_witness :
  (exists c2, sent ((core auth_1.2) <| auth_awaiting_decide := false |> <| auth_decided := true |>)
     [byte.of_Z SODCHAN_PDU_AUTH_FAIL; Byte.x00; Byte.x00] c2 /\
   unread (out (sodchan_auth_decide_ex (core auth_1.2) false None 0).2) = unread (out c2)) /\
  let '(rc, c') := handle_auth_device_pdu (core header_2.2)
    (auth_device_bytes device_keys.1 (zeros 64) (lit "mallory") (lit "laptop")) in
  rc = -1 /\ error c' = SODCHAN_ERR_CRYPTO /\ state c' = SODCHAN_STATE_ERROR /\
  auth_awaiting_decide c' = false /\
  unread (out c') = unread (out (server_send_auth_fail (core header_2.2)).2).
Proof.
  split.
  - assert (Hrc : (sodchan_auth_decide_ex (core auth_1.2) false None 0).1 = SODCHAN_OK)
      by (vm_compute; reflexivity).
    apply (proj1 (proj2 (auth_fail_is_opaque (core auth_1.2)
      (proj1 (reachable_wf 0 server_cfg _ (proj2 reach_auth_1))))) None 0).
    destruct (sodchan_auth_decide_ex _ _ _ _) as [rc c']. simpl in Hrc. by rewrite Hrc.
  - apply (auth_fail_is_opaque (core header_2.2)
      (proj1 (reachable_wf 0 server_cfg _ (proj2 reach_header_2)))); vm_compute; done.
Defined.

Lemma ss_send_accepts_witness :
  (ss_send_pdu (core auth_2.1) (Some (lit "abc" ++ lit "x")) 3).1 = SODCHAN_OK.
Proof.
  assert (Hw : session_wf (core auth_2.1))
    by exact (proj1 (reachable_wf 1 client_cfg _ (proj1 reach_auth_2))).
  pose proof (ss_send_accepts (core auth_2.1) (lit "abc") (lit "x")) as Hs.
  destruct (crypto_secretstream_push (ss_push (core auth_2.1)) (lit "abc") TAG_MESSAGE)
    as [[st ct]|] eqn:E; [| exfalso; revert E; vm_compute; discriminate].
  specialize (Hs st ct Hw). destruct (ss_send_pdu _ _ _) as [rc c'].
  apply Hs; try (vm_compute; reflexivity); try (split; vm_compute; [reflexivity | discriminate]);
    try (vm_compute; discriminate); exact E.
Defined.
