(* ===== verification/PropSession.v ===== *)
(** Properties of a session: what authentication guarantees in every reachable
    context, the bounds of its buffers, and what the input engine promises. *)

From Stdlib Require Import ZArith Lia ZifyBool String.
From S2P Require Import Prelude Defs WireBase WireHello WireAuth WireMux Crypto EventQueue.
From S2P Require Import OutBuf Channels Session Auth Handshake Mux Engine Api Invariant Calm.
From S2P Require Import EngineLemmas Safety EventTypes Constants Fresh Order.
From S2P Require Import Toy Demo.
Local Open Scope Z_scope.
Local Open Scope sodchan_scope.

Section Properties.
  Context `{Sodium} `{SizeT} {SP : SodiumSpec _}.

(** C1: in every context a host can reach, a READY server has had a device
    authentication accepted by its host: the host decided, and the device key
    the server reports signed the transcript of this very handshake (both
    ephemeral keys and the server's configured key), a user name and a device
    id within their limits.  It is assumed that libsodium always makes a key
    pair ([kx_total]). *)
Theorem server_ready_authenticated r cfg x :
  kx_total -> reachable r cfg x ->
  role (core x) = SODCHAN_ROLE_SERVER -> state (core x) = SODCHAN_STATE_READY ->
  auth_decided (core x) = true /\ auth_complete (core x) = true /\
  have_peer_id (core x) = true /\ device_authenticated cfg (core x).
Proof.
  intros KX Hx Hr Hst. pose proof (reachable_role r cfg x _ KX Hx Hr) as [_ Hs].
  pose proof (sf_ready _ _ _ _ Hs Hst) as Hc.
  destruct (sf_complete _ _ _ _ Hs Hc) as [_ Hd]. specialize (Hd eq_refl).
  destruct (sf_device _ _ _ _ Hs) as [_ [Hp _]]; [by right |].
  split_and!; try done. eapply safe_device_authenticated; [exact Hs | by right].
Qed.

(** C2: in every reachable context, a client that got past the server's HELLO
    holds a valid signature of the handshake's transcript under the key it
    reports for the server, and that key is the configured one unless the
    client was told to accept any.  It is assumed that libsodium always makes a
    key pair ([kx_total]). *)
Theorem client_server_verified r cfg x :
  kx_total -> reachable r cfg x -> role (core x) = SODCHAN_ROLE_CLIENT ->
  past_hello (core x) ->
  (exists sig, crypto_sign_verify_detached sig
     (t_hello_bytes SODCHAN_PROTO_VERSION SODCHAN_SUITE_V1 (eph_pk (core x))
        (peer_eph_pk (core x)) (peer_id_pk (core x))) (peer_id_pk (core x)) = 0) /\
  (forall k, cfg_accept_any_server_pk cfg = false -> cfg_server_id_pk cfg = Some k ->
     peer_id_pk (core x) = k).
Proof.
  intros KX Hx Hr Hp. pose proof (reachable_role r cfg x _ KX Hx Hr) as [_ Hs].
  destruct (sf_client _ _ _ _ Hs eq_refl Hp) as (_ & _ & Ht & Hv & Hk). split; [by rewrite <- Ht |].
  intros k Ha Hpk. rewrite Hk by apply (accept_any_settings cfg Ha).
  apply configured_server_pk; [done |]. by apply (cwf_server_pk _ (reachable_cfg _ _ _ Hx)).
Qed.

(** C3: a server becomes READY in exactly one way, its host's acceptance: in
    any reachable context the call that makes it READY is
    [sodchan_auth_decide_ex] with [accept] set, in state AUTH, after a device's
    signature was verified and while the decision was still open.  It is assumed
    that libsodium always makes a key pair ([kx_total]). *)
Theorem server_ready_by_acceptance r cfg x op :
  kx_total -> reachable r cfg x -> call_ok op -> role (core x) = SODCHAN_ROLE_SERVER ->
  state (core x) <> SODCHAN_STATE_READY ->
  state (core (api_ctx x op).2) = SODCHAN_STATE_READY ->
  (exists claims n, op = Call_auth_decide_ex true claims n) /\
  state (core x) = SODCHAN_STATE_AUTH /\ auth_awaiting_decide (core x) = true /\
  auth_decided (core x) = false /\ device_authenticated cfg (core x).
Proof.
  intros KX Hx Hop Hr Hn Hrd. pose proof (reachable_role r cfg x _ KX Hx Hr) as Hs.
  destruct (ready_step _ _ _ x op eq_refl Hs Hop Hn Hrd) as (Ho & Ha & Hst).
  split_and!; try done; [by apply (sf_once _ _ _ _ (proj2 Hs)) |].
  eapply safe_device_authenticated; [apply Hs | by left].
Qed.

(** C6: the host decides once: after a decision, and whatever the peer sends
    and the host calls short of a reset, every further decision is refused
    with SODCHAN_ERR_STATE and changes nothing.  It is assumed that libsodium
    always makes a key pair ([kx_total]). *)
Theorem decide_at_most_once r cfg x ops accept claims n :
  kx_total -> reachable r cfg x -> auth_decided (core x) = true ->
  Forall (fun op => call_ok op /\ op <> Call_reset) ops ->
  sodchan_auth_decide_ex (core (run x ops)) accept claims n =
    (SODCHAN_ERR_STATE, core (run x ops)).
Proof.
  intros KX Hx Hd Hops. pose proof (decided_run r cfg x ops KX Hx Hd Hops) as Hr.
  unfold sodchan_auth_decide_ex. rewrite Hr, orb_true_r. by case_match.
Qed.

(** C7: the memory bounds hold in every reachable context: both byte buffers
    stay within their 128 KiB arrays, the ring within its capacity, the count
    of channels is the number of used slots and within the configured limit,
    every counter of a channel is a 32-bit value, and the message is a string
    of the array. *)
Theorem reachable_bounds r cfg x :
  reachable r cfg x ->
  len (in_buf x) <= SODCHAN_IN_BUF_SIZE /\
  0 <= out_off (out (core x)) <= out_len (out (core x)) /\
  out_len (out (core x)) <= SODCHAN_OUT_BUF_SIZE /\
  0 <= event_count (evq (core x)) <= len (events (evq (core x))) /\
  active_channels (chans (core x)) = Z.of_nat (count_used (channels (chans (core x)))) /\
  active_channels (chans (core x)) <= max_channels (Session.cfg (core x)) <= 16 /\
  Forall channel_ranges (channels (chans (core x))) /\
  len (error_msg (core x)) < SODCHAN_ERROR_MAX.
Proof.
  intros [Hc Hb]%reachable_wf. destruct (wf_evq _ Hc) as [He _ _ Hn], (wf_out _ Hc) as [Ho Hl].
  destruct (wf_chans _ Hc) as [_ Ha Hr _]. destruct (swf_channels _ (wf_cfg _ Hc)) as [_ Hm].
  pose proof (wf_active _ Hc). change (Z.of_nat SODCHAN_MAX_CHANNELS) with 16 in Hm.
  split_and!; try done; try lia. apply (wf_error_msg _ Hc).
Qed.

(** C8: what a context stores and answers has the type it is declared with.
    Whatever the peer sent, every event the host can read fits the
    [sodchan_event_t] it is copied to: keys of 32 bytes, names, messages and
    data within their arrays, ids and windows 32-bit values; the names in the
    channel table fit their array, and the keys and the transcript have their
    exact lengths. *)
Theorem context_well_typed r cfg x :
  reachable r cfg x ->
  Forall event_fits (pending (evq (core x))) /\
  (forall b ev, (sodchan_next_event (core x) b).1 = Some ev -> event_fits ev) /\
  Forall name_fits (channels (chans (core x))) /\
  Forall (fun k => length k = 32%nat)
    [server_id_pk (core x); eph_pk (core x); eph_sk (core x); peer_eph_pk (core x);
     peer_id_pk (core x); ss_key_c2s (core x); ss_key_s2c (core x)] /\
  length (t_hello (core x)) = 123%nat.
Proof.
  intros Hx. pose proof (reachable_typed r cfg x Hx) as [He Hn].
  destruct (reachable_wf r cfg x Hx) as [[] _].
  split; [by apply pending_fits |]. split; [intros b ev; by apply next_event_fits |].
  split; [done |]. split; [by repeat constructor | done].
Qed.

(** C9: how the transport cuts the stream does not matter: feeding two pieces
    one after the other leaves the session that feeding them together leaves,
    in every reachable context and for pieces that fit the buffer. *)
Theorem feed_segmentation r cfg x a b :
  reachable r cfg x -> len (in_buf x) + len a + len b <= SODCHAN_IN_BUF_SIZE ->
  core (sodchan_feed_input x (Some (a ++ b))).2 =
  core (sodchan_feed_input (sodchan_feed_input x (Some a)).2 (Some b)).2.
Proof.
  intros Hx Hl. apply feed_split; [by eapply reachable_wf | by eapply reachable_quiet | done].
Qed.

(** C10: the input loop ends: with one turn more than the buffer has bytes it
    stops by one of its own exits (the session is over, or the next frame is
    not complete), and more turns would change nothing. *)
Theorem process_input_terminates x n :
  ctx_wf x -> (length (in_buf x) < n)%nat ->
  process_loop n x = process_input x /\
  process_turn (process_input x) = (process_input x, false).
Proof.
  intros Hx Hn. split; [apply process_loop_fuel; [done | done | lia] |].
  by apply quiet_turn, process_input_quiet.
Qed.

(** C11: a live context never refuses input for ever: a non-empty block is taken
    up to the room left, and some of it always is, because the frame the
    context waits for fits the buffer. *)
Theorem feed_progress r cfg x data :
  reachable r cfg x -> stopped (core x) = false -> data <> [] ->
  (sodchan_feed_input x (Some data)).1 =
    Z.min (len data) (SODCHAN_IN_BUF_SIZE - len (in_buf x)) /\
  0 < (sodchan_feed_input x (Some data)).1.
Proof.
  intros Hx Hs Hd.
  apply feed_count; [by eapply reachable_wf | by eapply reachable_quiet | done | done].
Qed.

(** C12: ERROR and CLOSED are final: short of a reset, every call and every byte
    of the peer leaves the session stopped, its channels, its cipher states and
    its authentication as they were, and input is refused. *)
Theorem stopped_is_final x op :
  op <> Call_reset -> stopped (core x) = true ->
  let x' := (api_ctx x op).2 in
  stopped (core x') = true /\ calm (core x) (core x') /\ chans (core x') = chans (core x) /\
  ss_push (core x') = ss_push (core x) /\ ss_pull (core x') = ss_pull (core x) /\
  in_buf x' = in_buf x.
Proof.
  intros Hop Hs. pose proof (stopped_not_live _ Hs) as (Hr & Hd & Ha).
  assert (calm (core x) (core (api_ctx x op).2) /\ chans (core (api_ctx x op).2) = chans (core x) /\
    ss_push (core (api_ctx x op).2) = ss_push (core x) /\
    ss_pull (core (api_ctx x op).2) = ss_pull (core x) /\ in_buf (api_ctx x op).2 = in_buf x)
    as (Hc & H2).
  2: { split; [by eapply calm_stopped | done]. }
  destruct op; cbn [api_ctx]; unfold on_core; cbn [snd core in_buf]; [done |..].
  - unfold sodchan_feed_input. rewrite Hs. destruct data as [data|]; [|done].
    by destruct (_ =? 0).
  - unfold sodchan_get_output. destruct buf; [|done]. simpl.
    destruct (get_output _ _). split_and!; first [done | by constructor].
  - split; [apply calm_next_event |]. unfold sodchan_next_event. destruct ev; [|done]. simpl.
    by destruct (next_event _).
  - unfold sodchan_auth_decide_ex. rewrite Ha. by repeat case_match.
  - unfold sodchan_channel_open. rewrite Hr. by repeat case_match.
  - unfold sodchan_channel_accept. by rewrite Hr.
  - unfold sodchan_channel_send. rewrite Hr. by case_match.
  - unfold sodchan_channel_eof. by rewrite Hr.
  - unfold sodchan_channel_close. by rewrite Hr, Hd.
  - unfold sodchan_channel_window_adjust. rewrite Hr. by case_match.
  - unfold sodchan_disconnect. rewrite Hr, Ha, Hd, andb_false_r.
    case_match; split_and!; try done. apply calm_closed, calm_refl.
Qed.

(** C14: the state of a session only moves forward, over every run of calls
    without a reset: the handshake is not re-entered, READY not left for
    authentication, the end not left.  It is assumed that libsodium always makes
    a key pair ([kx_total]). *)
Theorem state_only_forward r cfg x ops :
  kx_total -> reachable r cfg x ->
  Forall (fun op => call_ok op /\ op <> Call_reset) ops ->
  rank (state (core x)) <= rank (state (core (run x ops))).
Proof.
  intros KX. revert x. induction ops as [|op ops IH]; intros x Hx Hops; [done |].
  apply Forall_cons_iff in Hops as [[Hop Hne] Hops]. simpl.
  destruct (reachable_safe r cfg x KX Hx) as (r0 & _ & Hs).
  etransitivity; [exact (forward_api _ _ _ x op Hs Hne) |].
  apply IH; [by apply reach_call | done].
Qed.

(** C13: a reset context behaves as a new one.  Whatever a session went through,
    after [sodchan_reset] every sequence of calls gets the answers, byte for
    byte, that a context newly created with the same configuration and the same
    generator gives, draws the same from the generator and ends in the same
    state: the keys, transcript and cipher states of the old session, which the
    reset leaves in memory, are never seen. *)
Theorem reset_is_fresh r cfg x lab m1 m2 e x0 ops :
  reachable r cfg x ->
  sodchan_create lab m1 m2 r (Some cfg) e = Some x0 ->
  Forall (fun op => call_ok op.2) ops ->
  let x' := sodchan_reset (with_rng e x) in
  (trace x' ops).1 = (trace x0 ops).1 /\
  alike_ctx (trace x0 ops).2 (trace x' ops).2 /\
  sodchan_current_state (Some (trace x' ops).2) = sodchan_current_state (Some (trace x0 ops).2).
Proof.
  intros Hx Hc Hops. pose proof (reset_alike r cfg x lab m1 m2 e x0 Hx Hc) as Ha.
  pose proof (reach_create r cfg lab m1 m2 e x0 (reachable_cfg r cfg x Hx) Hc) as Hx0.
  pose proof (reach_call r cfg _ Call_reset (reach_rng r cfg x e Hx) I) as Hx'.
  apply reachable_wf in Hx0, Hx'. cbv zeta.
  destruct (alike_trace _ _ ops Hops Hx0 Hx' Ha) as [El Hf].
  split; [exact El |]. split; [exact Hf | apply (al_state _ _ (proj1 Hf))].
Qed.
End Properties.

(** ** Witnesses: the demo session *)

#[local] Existing Instance Toy.
#[local] Existing Instance toy_spec.
#[local] Existing Instance size_t_64.

Lemma server_ready_authenticated_witness :
  auth_decided (core auth_2.2) = true /\ auth_complete (core auth_2.2) = true /\
  have_peer_id (core auth_2.2) = true /\ device_authenticated server_cfg (core auth_2.2).
Proof.
  apply (server_ready_authenticated 0 server_cfg auth_2.2 toy_kx_total (proj2 reach_auth_2));
    vm_compute; reflexivity.
Defined.

Lemma client_server_verified_witness : peer_id_pk (core header_2.1) = server_keys.1.
Proof.
  apply (client_server_verified 1 client_cfg header_2.1 toy_kx_total (proj1 reach_header_2));
    [vm_compute; reflexivity | right; vm_compute; reflexivity | reflexivity | reflexivity].
Defined.

Lemma server_ready_by_acceptance_witness :
  auth_awaiting_decide (core auth_1.2) = true /\ auth_decided (core auth_1.2) = false /\
  device_authenticated server_cfg (core auth_1.2).
Proof.
  apply (server_ready_by_acceptance 0 server_cfg auth_1.2 (Call_auth_decide_ex true (Some (lit "ok")) 2)
    toy_kx_total (proj2 reach_auth_1)); [vm_compute; discriminate | | |]; vm_compute; congruence.
Defined.

Lemma decide_at_most_once_witness :
  sodchan_auth_decide_ex (core (run auth_2.2 [Call_disconnect 0 None])) true None 0 =
    (SODCHAN_ERR_STATE, core (run auth_2.2 [Call_disconnect 0 None])).
Proof.
  apply (decide_at_most_once 0 server_cfg auth_2.2 [Call_disconnect 0 None] true None 0
    toy_kx_total (proj2 reach_auth_2)); [vm_compute; reflexivity |].
  repeat constructor. discriminate.
Defined.

Lemma reachable_bounds_witness : len (in_buf data_1.2) <= SODCHAN_IN_BUF_SIZE.
Proof. exact (proj1 (reachable_bounds 0 server_cfg data_1.2 (proj2 reach_data_1))). Defined.

Lemma context_well_typed_witness : Forall event_fits (pending (evq (core data_1.2))).
Proof. exact (proj1 (context_well_typed 0 server_cfg data_1.2 (proj2 reach_data_1))). Defined.

Lemma feed_segmentation_witness :
  core (sodchan_feed_input server_0 (Some (zeros 3 ++ zeros 4))).2 =
  core (sodchan_feed_input (sodchan_feed_input server_0 (Some (zeros 3))).2 (Some (zeros 4))).2.
Proof.
  apply (feed_segmentation 0 server_cfg server_0 (zeros 3) (zeros 4) reach_server_0).
  vm_compute. discriminate.
Defined.

Lemma process_input_terminates_witness :
  process_turn (process_input server_0) = (process_input server_0, false).
Proof.
  apply (process_input_terminates server_0 10); [apply (reachable_wf 0 server_cfg), reach_server_0 |].
  vm_compute. lia.
Defined.

Lemma feed_progress_witness : 0 < (sodchan_feed_input server_0 (Some (zeros 3))).1.
Proof.
  apply (feed_progress 0 server_cfg server_0 (zeros 3) reach_server_0);
    [vm_compute; reflexivity | discriminate].
Defined.

(** A server that was sent an empty frame. *)
Definition server_failed : ctx := (sodchan_feed_input server_0 (Some (zeros 4))).2.

Lemma stopped_is_final_witness :
  stopped (core (api_ctx server_failed (Call_feed_input (Some (zeros 9)))).2) = true.
Proof.
  apply (stopped_is_final server_failed (Call_feed_input (Some (zeros 9))));
    [discriminate | vm_compute; reflexivity].
Defined.

Lemma state_only_forward_witness :
  rank SODCHAN_STATE_READY <= rank (state (core (run auth_2.2 [Call_disconnect 0 None]))).
Proof.
  apply (state_only_forward 0 server_cfg auth_2.2 [Call_disconnect 0 None] toy_kx_total
    (proj2 reach_auth_2)).
  repeat constructor. discriminate.
Defined.

(** A ready server is reset, and gets the client's HELLO again. *)
Lemma reset_is_fresh_witness :
  (trace (sodchan_reset (with_rng (10%nat : @entropy Toy) data_1.2))
     [(11%nat : @entropy Toy, Call_feed_input (Some (unread (out (core client_0)))))]).1 =
  (trace server_0
     [(11%nat : @entropy Toy, Call_feed_input (Some (unread (out (core client_0)))))]).1.
Proof.
  refine (proj1 (reset_is_fresh 0 server_cfg data_1.2 false true true (10%nat : @entropy Toy) server_0
    [(11%nat : @entropy Toy, Call_feed_input (Some (unread (out (core client_0)))))]
    (proj2 reach_data_1) server_0_created _)). repeat constructor.
Defined.
