(* ===== verification/PropMeeting.v ===== *)
(** Properties of two ends together: the handshake of an honest client and an
    honest server, and a channel between two ends over any interleaving. *)

From Stdlib Require Import ZArith Lia ZifyBool String.
From stdpp Require Import relations.
From S2P Require Import Prelude Defs WireBase WireHello WireAuth WireMux Crypto EventQueue.
From S2P Require Import OutBuf Channels Session Auth Handshake Mux Engine Api Clients Invariant.
From S2P Require Import Calm EngineLemmas Safety Transport Link Agreement Meeting Toy Demo.
Local Open Scope Z_scope.
Local Open Scope sodchan_scope.

(** What two ends that met have in common: the key of each direction, the
    transcript, the cipher states of both directions in step, and each the
    other's identity. *)
Definition linked `{S : Sodium} {SP : SodiumSpec S} (spk cpk : bytes) (c s : session) : Prop :=
  ss_key_c2s c = ss_key_c2s s /\ ss_key_s2c c = ss_key_s2c s /\ t_hello c = t_hello s /\
  ss_synced (ss_push c) (ss_pull s) /\ ss_synced (ss_push s) (ss_pull c) /\
  peer_id_pk c = spk /\ peer_id_pk s = cpk.

Section Properties.
Context `{Sodium} `{SizeT} {SP : SodiumSpec _} {SW : SodiumWorks _}.

Lemma met_linked cc cs spk x y :
  met cc cs spk x y -> linked spk (client_id_pk cc) (core x) (core y).
Proof. intros [[] ? ? ? [] ? ? ?]. by split_and!. Qed.

(** C4: the handshake of a client and a server configured for each other
    succeeds and agrees. Whatever the state of their generators, [k >= 3] rounds
    of relayed output take the two contexts from creation to AUTH, linked and
    with the device's key waiting for the decision of the server's host; and
    when the host accepts, one more round makes both ends READY, still
    linked.  A round reads at least 376 bytes of output, and [paired] leaves room
    for the records of the handshake. *)
Theorem handshake_agrees lab m1 m2 lab' m1' m2' e e' ccfg scfg spk ssk cpk csk x y k n ps p p' :
  paired ccfg scfg spk ssk cpk csk ->
  sodchan_create lab m1 m2 1 (Some ccfg) e = Some x ->
  sodchan_create lab' m1' m2' 0 (Some scfg) e' = Some y ->
  376 <= n ->
  let '(c, s) := exchanges (3 + k) n ps x y in
  linked spk cpk (core c) (core s) /\ undecided c s /\
  let '(c', s') := exchange n p p' c (accepted s) in
  linked spk cpk (core c') (core s') /\
  state (core c') = SODCHAN_STATE_READY /\ state (core s') = SODCHAN_STATE_READY.
Proof.
  intros Hpa Hx Hy Hn.
  apply (create_fresh lab m1 m2 SODCHAN_ROLE_CLIENT) in Hx; [| apply Hpa].
  apply (create_fresh lab' m1' m2' SODCHAN_ROLE_SERVER) in Hy; [| apply Hpa].
  destruct (paired_client _ _ _ _ _ _ _ Hpa Hx) as (_ & Ek & _).
  pose proof (met_after k n ps _ _ _ _ _ _ _ _ Hpa Hx Hy Hn) as Hm.
  destruct (exchanges (3 + k) n ps x y) as [c s]. destruct Hm as [Hm Hu].
  pose proof (accepted_rounds n p p' _ _ _ _ _ _ _ _ _ _ Hpa Hx Hy Hm Hu Hn) as Ha.
  destruct (exchange n p p' c (accepted s)) as [c' s']. destruct Ha as (Hm' & Hr & Hr').
  rewrite <- Ek. split_and!; try done; by eapply met_linked.
Qed.

End Properties.

(** ** Witnesses: the demo's configurations *)

#[local] Existing Instance Toy.
#[local] Existing Instance toy_spec.
#[local] Existing Instance toy_works.
#[local] Existing Instance size_t_64.

Definition demo_process (i : nat) : process := mk_process (i : @entropy Toy) (fun _ => true).

Lemma demo_paired :
  paired client_cfg server_cfg server_keys.1 server_keys.2 device_keys.1 device_keys.2.
Proof.
  constructor; [apply client_cfg_wf | apply server_cfg_wf | by split | right; by eexists |
    by split | right; by eexists | by right | by split; left].
Qed.

Lemma handshake_agrees_witness :
  let '(c, s) := exchanges (3 + 2) 4096 demo_process client_0 server_0 in
  linked server_keys.1 device_keys.1 (core c) (core s) /\ undecided c s /\
  let '(c', s') := exchange 4096 (demo_process 7) (demo_process 8) c (accepted s) in
  linked server_keys.1 device_keys.1 (core c') (core s') /\
  state (core c') = SODCHAN_STATE_READY /\ state (core s') = SODCHAN_STATE_READY.
Proof.
  exact (handshake_agrees false true true false true true 0%nat 10%nat client_cfg server_cfg _ _ _ _
    client_0 server_0 2 4096 demo_process (demo_process 7) (demo_process 8)
    demo_paired client_0_created server_0_created ltac:(lia)).
Defined.






