(* ===== verification/PropHarness.v ===== *)
(** Properties of the repository's own programs: the fuzz harness and the
    examples. *)

From Stdlib Require Import ZArith Lia ZifyBool String.
From S2P Require Import Prelude Defs WireBase WireHello WireAuth WireMux Crypto EventQueue.
From S2P Require Import OutBuf Channels Session Auth Handshake Mux Engine Api Clients Invariant.
From S2P Require Import Calm EngineLemmas Safety Transport Agreement Meeting Harness Toy Demo.
Local Open Scope Z_scope.
Local Open Scope sodchan_scope.

Section Properties.
Context `{Sodium} `{SizeT} {SP : SodiumSpec _}.

(** What holds of a context the harness ends with. *)
Definition in_bounds (x : ctx) : Prop :=
  (exists r cfg, reachable r cfg x) /\
  len (in_buf x) <= SODCHAN_IN_BUF_SIZE /\ out_wf (out (core x)) /\ evq_wf (evq (core x)) /\
  table_wf (chans (core x)) /\ quiet x.

Lemma sound_in_bounds x : sound x -> in_bounds x.
Proof. intros Hx. pose proof (sound_wf x Hx) as [[[] ?] ?]. by split_and!. Qed.

(** C36: the fuzz harness never drives the library out of bounds: for every
    input, generator and heap, each context it ends with is one a host can
    reach by creation and calls, its buffers, its ring and its channel table
    within their arrays, and no complete frame left unhandled.  The same holds
    of every file the standalone build is given, whatever stdio answers, and
    its exit code is 0 only when each of them could be opened and measured. *)
Theorem fuzz_harness_in_bounds data files p :
  Forall in_bounds (LLVMFuzzerTestOneInput data p).1 /\
  Forall in_bounds (fuzz_main files p).1.2 /\
  ((fuzz_main files p).1.1 = 1 \/ (fuzz_main files p).1.1 = 0 /\ Forall readable files).
Proof.
  destruct (sound_fuzz_main files p) as [Hm Hr].
  split; [| split; [| exact Hr]]; apply (Forall_impl _ sound_in_bounds);
    [apply sound_harness | exact Hm].
Qed.

(** C37: the loops of the harness end by themselves: reading the output of a
    context leaves none, answering its events leaves none although an answer
    can queue more, and the loop over the input takes a byte at least in every
    turn, so that more turns than the input has bytes change nothing. *)
Theorem fuzz_loops_end x p n data off :
  ctx_wf x -> 0 <= off -> (Z.to_nat (len data - off) < n)%nat ->
  unread (out (core (drain_output (output_fuel x) x p).1)) = [] /\
  pending (evq (core (drain_events (events_fuel x) x p).1)) = [] /\
  feed_chunks n data x off p = feed_chunks (S (length data)) data x off p.
Proof.
  intros Hx Ho Hn. split; [by apply drain_output_ends |]. split; [by apply drain_events_ends |].
  apply feed_chunks_fuel; [done | done | done | lia].
Qed.

(** What the examples print. The client's prints 1 for the state beside the
    value 0 of IDLE, and never IDLE itself, since a context leaves [sodchan_create]
    in HELLO; the server's prints 1 and the fingerprint of its key, or what was
    in the array when there is no fingerprint; otherwise they end with code 1. *)
Theorem examples_print fp p :
  len fp = SODCHAN_FP_SHA256_MAX ->
  ((client_example_main p).1 = (1, []) \/ (client_example_main p).1 = (0, [Client_state 1 0])) /\
  ((server_example_main fp p).1 = (1, []) \/
   exists out, (server_example_main fp p).1 = (0, [Server_state 1 out]) /\
     (out = cstr fp \/
      exists pk d, crypto_hash_sha256 pk = Some d /\ out = lit "SHA256:" ++ sodium_bin2base64 d)).
Proof.
  intros Hfp. split; [apply client_example_prints | by apply server_example_prints].
Qed.
End Properties.

Section Stall.
Context `{Sodium} `{SizeT} {SP : SodiumSpec _} {SW : SodiumWorks _}.

(** The rounds of [fuzz_dialectic_inject] stop in the middle of the
    handshake. However many there are, both ends wait for the other's stream
    header with nothing under way: the client's header leaves its output in the
    first round, but by [drain_ctx], which discards it; so the harness never
    reaches authentication with its own peers. *)
Theorem dialectic_rounds_stall spk ssk cpk csk lab m1 m2 lab' m1' m2' e e' s c k p :
  sign_pair spk ssk -> sign_pair cpk csk ->
  sodchan_create lab m1 m2 0 (Some (dialectic_server_config spk ssk)) e = Some s ->
  sodchan_create lab' m1' m2' 1 (Some (dialectic_client_config spk cpk csk)) e' = Some c ->
  let '(s', c') := (dialectic_rounds (S k) s c p).1 in
  (state (core s') = SODCHAN_STATE_SS_HEADER /\ hs (core s') = SODCHAN_HS_WAIT_PEER_SS /\
   unread (out (core s')) = []) /\
  (state (core c') = SODCHAN_STATE_SS_HEADER /\ hs (core c') = SODCHAN_HS_WAIT_PEER_SS /\
   unread (out (core c')) = []).
Proof.
  intros Hsk Hck Hs Hc.
  apply (create_fresh lab m1 m2 SODCHAN_ROLE_SERVER) in Hs; [| by apply dialectic_server_wf].
  apply (create_fresh lab' m1' m2' SODCHAN_ROLE_CLIENT) in Hc; [| by eapply dialectic_client_wf].
  pose proof (dialectic_stalled k s c spk ssk cpk csk Hsk Hck Hs Hc p) as [Hr1 Hr2].
  destruct (dialectic_rounds (S k) s c p).1 as [s' c']. split; [apply Hr1 | apply Hr2].
Qed.
End Stall.

(** ** Witnesses *)

#[local] Existing Instance Toy.
#[local] Existing Instance toy_spec.
#[local] Existing Instance toy_works.
#[local] Existing Instance size_t_64.

Definition demo_fuzz_process : process := mk_process (3%nat : @entropy Toy) (fun _ => true).

Lemma fuzz_loops_end_witness :
  unread (out (core (drain_output (output_fuel client_0) client_0 demo_fuzz_process).1)) = [] /\
  pending (evq (core (drain_events (events_fuel client_0) client_0 demo_fuzz_process).1)) = [] /\
  feed_chunks 20 (lit "fuzz") client_0 1 demo_fuzz_process =
    feed_chunks (S (length (lit "fuzz"))) (lit "fuzz") client_0 1 demo_fuzz_process.
Proof.
  refine (fuzz_loops_end client_0 demo_fuzz_process 20 (lit "fuzz") 1
    (reachable_wf _ _ _ reach_client_0) _ _); [done | vm_compute; lia].
Defined.

Lemma examples_print_witness :
  ((client_example_main demo_fuzz_process).1 = (1, []) \/
   (client_example_main demo_fuzz_process).1 = (0, [Client_state 1 0])) /\
  ((server_example_main (zeros 96) demo_fuzz_process).1 = (1, []) \/
   exists out, (server_example_main (zeros 96) demo_fuzz_process).1 = (0, [Server_state 1 out]) /\
     (out = cstr (zeros 96) \/
      exists pk d, crypto_hash_sha256 pk = Some d /\ out = lit "SHA256:" ++ sodium_bin2base64 d)).
Proof. exact (examples_print (zeros 96) demo_fuzz_process eq_refl). Defined.

(** The harness's own pair, from the demo's keys. *)
Definition fuzz_server : ctx :=
  created 0 (dialectic_server_config server_keys.1 server_keys.2) 10.
Definition fuzz_client : ctx :=
  created 1 (dialectic_client_config server_keys.1 device_keys.1 device_keys.2) 0.

Lemma server_pair : sign_pair server_keys.1 server_keys.2.
Proof. right. by eexists. Qed.
Lemma device_pair : sign_pair device_keys.1 device_keys.2.
Proof. right. by eexists. Qed.

Lemma fuzz_server_created :
  sodchan_create false true true 0 (Some (dialectic_server_config server_keys.1 server_keys.2))
    (10%nat : @entropy Toy) = Some fuzz_server.
Proof. apply some_default. vm_compute. reflexivity. Qed.
Lemma fuzz_client_created :
  sodchan_create false true true 1
    (Some (dialectic_client_config server_keys.1 device_keys.1 device_keys.2))
    (0%nat : @entropy Toy) = Some fuzz_client.
Proof. apply some_default. vm_compute. reflexivity. Qed.

Lemma dialectic_rounds_stall_witness :
  let '(s', c') := (dialectic_rounds (S 7) fuzz_server fuzz_client demo_fuzz_process).1 in
  (state (core s') = SODCHAN_STATE_SS_HEADER /\ hs (core s') = SODCHAN_HS_WAIT_PEER_SS /\
   unread (out (core s')) = []) /\
  (state (core c') = SODCHAN_STATE_SS_HEADER /\ hs (core c') = SODCHAN_HS_WAIT_PEER_SS /\
   unread (out (core c')) = []).
Proof.
  exact (dialectic_rounds_stall server_keys.1 server_keys.2 device_keys.1 device_keys.2
    false true true false true true 10%nat 0%nat fuzz_server fuzz_client 7 demo_fuzz_process
    server_pair device_pair fuzz_server_created fuzz_client_created).
Defined.
