(* ===== verification/PropChannel.v ===== *)
(** Properties of the channels: the calls end to end, flow control, the
    allowlist and the table. *)

From Stdlib Require Import ZArith Lia ZifyBool String.
From S2P Require Import Prelude Defs WireBase WireHello WireAuth WireMux Crypto EventQueue.
From S2P Require Import OutBuf Channels Session Auth Handshake Mux Engine Api Invariant Calm.
From S2P Require Import EngineLemmas Safety Tables Transport Toy Demo.
Local Open Scope Z_scope.
Local Open Scope sodchan_scope.

Section Properties.
  Context `{Sodium} `{SizeT} {SP : SodiumSpec _}.


(** C16: a credit end to end.  An accepted [sodchan_channel_window_adjust]
    reaches the sender as a WINDOW PDU, and both ends add the credit to the
    same window in the same 32-bit arithmetic, so that windows that agreed
    still agree. *)
Theorem channel_credit_delivered cA cB cB' id n i j :
  session_wf cA -> session_wf cB -> 0 < n < 4294967296 ->
  sodchan_channel_window_adjust cB id n = (SODCHAN_OK, cB') ->
  open_slot cB id = Some j ->
  ss_synced (ss_push cB) (ss_pull cA) -> ss_pull_ready cA = true ->
  state cA = SODCHAN_STATE_READY \/ state cA = SODCHAN_STATE_DRAINING ->
  9 <= max_record_size (cfg cA) ->
  ch_by_local (chans cA) (peer_id (ch_at (chans cB) j)) = Some i ->
  ch_state (ch_at (chans cA) i) = SODCHAN_CH_OPEN ->
  send_window (ch_at (chans cA) i) = recv_window (ch_at (chans cB) j) ->
  exists ct cA',
    unread (out cB') = unread (out cB) ++ frame_bytes ct /\
    handle_encrypted_pdu cA ct = (0, cA') /\
    ss_synced (ss_push cB') (ss_pull cA') /\
    recv_window (ch_at (chans cB') j) = u32 (recv_window (ch_at (chans cB) j) + n) /\
    send_window (ch_at (chans cA') i) = recv_window (ch_at (chans cB') j).
Proof.
  intros HA HB Hn Hs Ho Hsy Hr Hst Hm Hi Hop Hw.
  destruct (credit_end_to_end cA cB cB' id n i j HA HB Hn Hs Ho Hsy Hr Hst Hm Hi Hop)
    as (ct & cA' & ? & ? & ? & Ha & Hb).
  exists ct, cA'. split_and!; try done. by rewrite Ha, Hb, Hw.
Qed.

(** C17: the acceptance of a channel end to end.  The opener's channel becomes
    open, each end's channel names the other's, and the opener may send exactly
    what the acceptor's window receives. *)
Theorem channel_accept_delivered cA cB cB' id i j :
  session_wf cA -> session_wf cB ->
  sodchan_channel_accept cB id true = (SODCHAN_OK, cB') ->
  ch_by_local (chans cB) id = Some j ->
  ss_synced (ss_push cB) (ss_pull cA) -> ss_pull_ready cA = true ->
  state cA = SODCHAN_STATE_READY \/ state cA = SODCHAN_STATE_DRAINING ->
  17 <= max_record_size (cfg cA) ->
  ch_by_local (chans cA) (peer_id (ch_at (chans cB) j)) = Some i ->
  ch_state (ch_at (chans cA) i) = SODCHAN_CH_OPENING ->
  exists ct cA', let a := ch_at (chans cA') i in let b := ch_at (chans cB') j in
    unread (out cB') = unread (out cB) ++ frame_bytes ct /\
    handle_encrypted_pdu cA ct = (0, cA') /\
    ss_synced (ss_push cB') (ss_pull cA') /\
    ch_state a = SODCHAN_CH_OPEN /\ ch_state b = SODCHAN_CH_OPEN /\
    peer_id a = local_id b /\ peer_id b = local_id a /\
    send_window a = recv_window b /\ ch_max_packet a = max_packet (cfg cB).
Proof. apply accept_end_to_end. Qed.

(** C18: the opening of a channel end to end.  An accepted
    [sodchan_channel_open] with a name the peer allows, and a free slot there,
    leaves at the peer a pending channel that names the opener's id and may send
    the opener's initial window.  It is reported by one event, behind those
    the peer's ring holds, when that ring has room; a full ring stays as it is,
    and the channel waits unreported. *)
Theorem channel_open_delivered cA cA' cB name id j t :
  session_wf cA -> session_wf cB ->
  sodchan_channel_open cA (Some name) = (SODCHAN_OK, Some id, cA') ->
  ss_synced (ss_push cA) (ss_pull cB) -> ss_pull_ready cB = true ->
  state cB = SODCHAN_STATE_READY \/ state cB = SODCHAN_STATE_DRAINING ->
  77 <= max_record_size (cfg cB) ->
  channel_name_allowed (allowed_channels (cfg cB)) (cstr name) = true ->
  ch_alloc (chans cB) (max_channels (cfg cB)) = (Some j, t) ->
  exists ct cB',
    unread (out cA') = unread (out cA) ++ frame_bytes ct /\
    handle_encrypted_pdu cB ct = (0, cB') /\
    ss_synced (ss_push cA') (ss_pull cB') /\
    channels (chans cB') !! j =
      Some (pending_channel cB id (initial_window (cfg cA)) (max_packet (cfg cA)) name) /\
    (event_count (evq cB) < event_cap (evq cB) ->
     pending (evq cB') = pending (evq cB) ++
       [EVENT_CHANNEL_OPEN (next_local_channel_id (chans cB)) id (cstr name)
          (initial_window (cfg cA)) (max_packet (cfg cA))]) /\
    (event_count (evq cB) = event_cap (evq cB) -> evq cB' = evq cB).
Proof.
  intros HA HB Hs Hsy Hr Hst Hm Hn Ha.
  destruct (open_end_to_end cA cA' cB name id HA HB Hs Hsy Hr Hst Hm Hn j t Ha)
    as (ct & cB' & ? & ? & ? & ? & Hq).
  exists ct, cB'. rewrite Hq. pose proof (queue_gets (evq cB)
    (EVENT_CHANNEL_OPEN (next_local_channel_id (chans cB)) id (cstr name)
       (initial_window (cfg cA)) (max_packet (cfg cA))) (wf_evq _ HB)) as [? ?].
  by split_and!.
Qed.

(** C19: a send is all or nothing, and never exceeds a limit.  Either the code
    is not SODCHAN_OK, nothing was sent and no window changed; or the session
    was READY, the channel open with a known peer and not ended, the length
    within the peer's packet size, the absolute maximum and the send window,
    exactly the DATA PDU left as one frame, and the send window shrank by the
    length without wrapping. *)
Theorem channel_send_all_or_nothing mem c id d rc c' :
  session_wf c -> sodchan_channel_send mem c id (Some d) (len d) = (rc, c') ->
  (rc <> SODCHAN_OK /\ unread (out c') = unread (out c) /\ ss_push c' = ss_push c /\
   chans c' = chans c) \/
  (rc = SODCHAN_OK /\ exists i cs,
     open_slot c id = Some i /\ send_guards c i (len d) /\
     sent c (data_bytes (peer_id (ch_at (chans c) i)) d) cs /\
     0 <= send_window (ch_at (chans c) i) - len d /\
     c' = put_ch cs i ((ch_at (chans c) i)
            <| send_window := send_window (ch_at (chans c) i) - len d |>)).
Proof.
  intros Hc Hs. apply channel_send_spec in Hs as [[Hne Hu] | (-> & i & cs & Ho & Hg & Hsn & ->)];
    [| | done].
  - left. split; [done |]. by destruct Hu as [-> | ->].
  - right. split; [done |]. exists i, cs. split_and!; try done. destruct Hg as (_ & _ & _ & _ & ?). lia.
Qed.

(** C20: the receive window is enforced.  A DATA PDU for a channel that is not
    there, not open, or whose window or whose absolute maximum it exceeds ends
    the session with a protocol error and queues no data; any other shrinks
    the window by its length, changes nothing else but the ring of events, and
    stands there whole as one event behind those it held, when the ring has
    room; a full ring stays as it is and the data is lost. *)
Theorem channel_data_window_enforced c r d :
  session_wf c -> 0 <= r < 4294967296 -> len d <= 4294967295 - 9 ->
  let acceptable :=
    match ch_by_local (chans c) r with
    | Some i => data_acceptable (ch_at (chans c) i) (len d)
    | None => false
    end in
  if acceptable
  then exists i c', ch_by_local (chans c) r = Some i /\
    handle_mux_pdu c (data_bytes r d) = (0, c') /\
    c' = (put_ch c i ((ch_at (chans c) i)
            <| recv_window := recv_window (ch_at (chans c) i) - len d |>)) <| evq := evq c' |> /\
    (event_count (evq c) < event_cap (evq c) ->
     pending (evq c') = pending (evq c) ++ [EVENT_CHANNEL_DATA r d]) /\
    (event_count (evq c) = event_cap (evq c) -> evq c' = evq c)
  else exists msg, handle_mux_pdu c (data_bytes r d) = fail c SODCHAN_ERR_PROTOCOL msg.
Proof.
  intros Hc Hr Hd. rewrite mux_data_dispatch. destruct (ch_by_local (chans c) r) as [i|] eqn:Hi.
  - destruct (data_acceptable _ _) eqn:Ha; cbv zeta.
    + eexists i, _. split; [done |]. split; [by apply mux_data_ok |]. split; [done |].
      exact (queue_gets (evq c) (EVENT_CHANNEL_DATA r d) (wf_evq _ Hc)).
    + apply mux_data_rejected; [done | done |]. by rewrite Hi.
  - cbv zeta. apply mux_data_rejected; [done | done |]. by rewrite Hi.
Qed.

(** C21: the allowlist.  An OPEN whose name is not a segment of the configured
    list makes no channel and queues no event; all it can cause is the refusal
    SODCHAN_REASON_ADMIN_PROHIBITED. *)
Theorem open_not_allowed_refused c s w p name :
  session_wf c -> 0 <= s < 4294967296 -> 0 <= w < 4294967296 -> 0 <= p < 4294967296 ->
  len name <= 63 ->
  cstr name ∉ split_comma (cstr (default SODCHAN_DEFAULT_ALLOWED_CHANNELS
                                    (allowed_channels (cfg c)))) ->
  exists c', handle_mux_pdu c (open_bytes s w p name) = (0, c') /\
    chans c' = chans c /\ evq c' = evq c /\ state c' = state c /\
    (unread (out c') = unread (out c) \/
     sent c (open_fail_bytes s SODCHAN_REASON_ADMIN_PROHIBITED (lit "not allowed")) c').
Proof.
  intros Hc Hs Hw Hp Hn Hna. rewrite mux_open_dispatch.
  destruct (channel_name_allowed (allowed_channels (cfg c)) name) eqn:Ha.
  { by apply channel_name_allowed_iff in Ha as [_ Ha]. }
  destruct (mux_open_denied c s w p name Hc Hs Hw Hp Hn Ha) as (c' & Hm & Hch & He & Hu).
  exists c'. split_and!; [done | done | done | |].
  - destruct Hu as [[-> | ->] | (st & ct & _ & _ & _ & ->)]; done.
  - destruct Hu as [[-> | ->] | Hu]; [by left | by left | by right].
Qed.

(** The encrypted transport.  A PDU one end sent reaches the dispatch of
    the other unchanged, as one frame that its parser accepts, and the cipher
    states stay in step. *)
Theorem pdu_delivered cA cA' cB p more :
  session_wf cB -> hs cB = SODCHAN_HS_DONE ->
  sent cA p cA' -> ss_synced (ss_push cA) (ss_pull cB) -> ss_pull_ready cB = true ->
  0 < len p <= SODCHAN_DATA_MAX + 64 -> len p <= max_record_size (cfg cB) ->
  max_record_size (cfg cB) + 21 < 4294967296 ->
  exists ct st x,
    unread (out cA') = unread (out cA) ++ frame_bytes ct /\ head p = Some x /\
    ss_synced (ss_push cA') st /\
    next_frame cB (frame_bytes ct ++ more) = Ok (4 + len ct, ct) /\
    handle_frame cB ct = dispatch_pdu (cB <| ss_pull := st |>) (byte.unsigned x) p.
Proof.
  intros HB Hh Hs Hsy Hr Hp Hm Hrec.
  destruct (sent_delivers cA cA' cB p Hs Hsy Hr Hp Hm) as (ct & st & x & Ho & Hl & Hx & Hsy' & Hd).
  exists ct, st, x. split_and!; try done.
  - unfold next_frame. rewrite Hh, bool_decide_eq_true_2 by done.
    apply frame_parse_max_ok; [apply (frame_limits cB HB) |].
    rewrite ss_frame_max_body_eq by lia. revert Hp Hl. consts. intros. split_and!; [lia | lia | lia |].
    by exists more.
  - unfold handle_frame. by rewrite Hh.
Qed.

(** C22: channel ids are unique, at every moment and over time.  Take a run of
    calls on a new context that feeds fewer than 2^32 bytes (each call counting
    one more), and three moments of it, between which the host does not reset
    the context.  At each moment no two used slots carry the same id and every
    id in use is below the next to be given.  An id that came into use between
    two moments is not below the counter of the first, so it is none of those
    given before; and an id that was in use at the first moment and is not at
    the second is not in use at the third: an id is not given twice. *)
Theorem channel_ids_unique lab m1 m2 r cfg e x ops ops' ops'' id :
  config_wf cfg -> sodchan_create lab m1 m2 r (Some cfg) e = Some x ->
  Forall call_ok (ops ++ ops' ++ ops'') -> costs (ops ++ ops' ++ ops'') < 4294967295 ->
  Forall (fun op => op <> Call_reset) (ops' ++ ops'') ->
  let t0 := chans (core (run x ops)) in
  let t1 := chans (core (run x (ops ++ ops'))) in
  let t2 := chans (core (run x (ops ++ ops' ++ ops''))) in
  table_ids t0 /\ next_local_channel_id t0 <= costs ops /\
  next_local_channel_id t0 <= next_local_channel_id t1 /\
  (ch_lookup t0 id = None -> ch_lookup t1 id <> None ->
   next_local_channel_id t0 <= id < next_local_channel_id t1) /\
  (ch_lookup t0 id <> None -> ch_lookup t1 id = None -> ch_lookup t2 id = None).
Proof.
  intros Hcfg Hx Hops Hn Hr t0 t1 t2. apply Forall_app in Hr as [Hr Hr'].
  pose proof Hops as Ho01. rewrite app_assoc in Ho01. pose proof Hn as Hn1.
  rewrite app_assoc in Hn1. pose proof (proj1 (proj1 (Forall_app _ _ _) Ho01)) as Ho0.
  assert (costs (ops ++ ops') < 4294967295) as Hn0
    by (rewrite costs_app in Hn1; pose proof (costs_nonneg ops''); lia).
  destruct (created_within lab m1 m2 r cfg e x ops ops' Hcfg Hx Ho0 Hn0) as ([Hi _] & Hle & Hk).
  destruct (created_within lab m1 m2 r cfg e x (ops ++ ops') ops'' Hcfg Hx Ho01 Hn1)
    as ([Hi' _] & _ & Hk'). rewrite <- app_assoc in Hk'.
  specialize (Hk Hr) as [Hnx Hfree]. specialize (Hk' Hr') as [_ Hfree'].
  fold t0 in Hi, Hle, Hnx, Hfree. fold t1 in Hi', Hnx, Hfree, Hfree'. fold t2 in Hfree'.
  split_and!; [done | done | done | |].
  - intros Hf Hu. split; [| by apply lookup_below].
    destruct (Z_lt_le_dec id (next_local_channel_id t0)) as [Hlt | Hge]; [| done].
    destruct Hu. by apply Hfree.
  - intros Hu Hf. apply Hfree'; [| done]. apply (lookup_below t0) in Hu; [lia | done].
Qed.
End Properties.

(** ** Witnesses: the demo session *)

#[local] Existing Instance Toy.
#[local] Existing Instance toy_spec.
#[local] Existing Instance size_t_64.

Lemma answered {A B} (p : A * B) (a : A) : p.1 = a -> p = (a, p.2).
Proof. destruct p. by intros <-. Qed.

Lemma demo_wf r cfg x : reachable r cfg x -> session_wf (core x).
Proof. intros Hx. exact (proj1 (reachable_wf r cfg x Hx)). Qed.

(** A test on demo contexts is computed. *)
Ltac demo :=
  lazymatch goal with
  | |- _ = (_, _.2) => apply answered; vm_compute; reflexivity
  | |- _ \/ _ => left; vm_compute; reflexivity
  | |- _ <= _ => vm_compute; discriminate
  | |- _ < _ => vm_compute; reflexivity
  | |- _ /\ _ => split; demo
  | |- ss_synced _ _ => vm_compute; reflexivity
  | |- _ = _ => vm_compute; reflexivity
  end.


Lemma channel_credit_delivered_witness :
  let c' := (sodchan_channel_window_adjust (core opened_2.2) 0 5).2 in
  exists ct cA', handle_encrypted_pdu (core opened_2.1) ct = (0, cA') /\
    send_window (ch_at (chans cA') 0) = recv_window (ch_at (chans c') 0).
Proof.
  destruct (channel_credit_delivered (core opened_2.1) (core opened_2.2)
    (sodchan_channel_window_adjust (core opened_2.2) 0 5).2 0 5 0 0)
    as (ct & cA' & _ & Hh & _ & _ & Hs); try demo.
  - exact (demo_wf _ _ _ (proj1 reach_opened_2)).
  - exact (demo_wf _ _ _ (proj2 reach_opened_2)).
  - exists ct, cA'. exact (conj Hh Hs).
Defined.

Lemma channel_accept_delivered_witness :
  exists ct cA', handle_encrypted_pdu (core opened_1.1) ct = (0, cA') /\
    ch_state (ch_at (chans cA') 0) = SODCHAN_CH_OPEN.
Proof.
  destruct (channel_accept_delivered (core opened_1.1) (core opened_1.2)
    (sodchan_channel_accept (core opened_1.2) 0 true).2 0 0 0)
    as (ct & cA' & _ & Hh & _ & Hs & _); try demo.
  - exact (demo_wf _ _ _ (proj1 reach_opened_1)).
  - exact (demo_wf _ _ _ (proj2 reach_opened_1)).
  - exists ct, cA'. exact (conj Hh Hs).
Defined.

Lemma channel_open_delivered_witness :
  exists ct cB', handle_encrypted_pdu (core auth_2.2) ct = (0, cB') /\
    channels (chans cB') !! 0%nat =
      Some (pending_channel (core auth_2.2) 0 1000 65536 (lit "shell")) /\
    pending (evq cB') = pending (evq (core auth_2.2)) ++
      [EVENT_CHANNEL_OPEN 0 0 (lit "shell") 1000 65536].
Proof.
  destruct (channel_open_delivered (core auth_2.1)
    (sodchan_channel_open (core auth_2.1) (Some (lit "shell"))).2 (core auth_2.2) (lit "shell") 0 0
    (ch_alloc (chans (core auth_2.2)) 16).2)
    as (ct & cB' & _ & Hh & _ & Hs & Hq & _); try demo.
  - exact (demo_wf _ _ _ (proj1 reach_auth_2)).
  - exact (demo_wf _ _ _ (proj2 reach_auth_2)).
  - exists ct, cB'. refine (conj Hh (conj Hs (Hq _))). vm_compute. reflexivity.
Defined.

Lemma channel_send_all_or_nothing_witness :
  let r := sodchan_channel_send true (core auth_2.1) 0 (Some (lit "hi")) 2 in
  r.1 <> SODCHAN_OK /\ chans r.2 = chans (core auth_2.1).
Proof.
  destruct (channel_send_all_or_nothing true (core auth_2.1) 0 (lit "hi")
    (sodchan_channel_send true (core auth_2.1) 0 (Some (lit "hi")) 2).1
    (sodchan_channel_send true (core auth_2.1) 0 (Some (lit "hi")) 2).2)
    as [(Hne & _ & _ & Hc) | (Hk & _)].
  - exact (demo_wf _ _ _ (proj1 reach_auth_2)).
  - apply answered. reflexivity.
  - exact (conj Hne Hc).
  - vm_compute in Hk. discriminate Hk.
Defined.

Lemma channel_data_window_enforced_witness :
  (exists c', handle_mux_pdu (core opened_2.2) (data_bytes 0 (lit "hi")) = (0, c') /\
     pending (evq c') = pending (evq (core opened_2.2)) ++ [EVENT_CHANNEL_DATA 0 (lit "hi")]) /\
  exists msg, handle_mux_pdu (core auth_2.2) (data_bytes 7 (lit "hi")) =
    fail (core auth_2.2) SODCHAN_ERR_PROTOCOL msg.
Proof.
  split.
  { pose proof (channel_data_window_enforced (core opened_2.2) 0 (lit "hi")
      (demo_wf _ _ _ (proj2 reach_opened_2)) ltac:(demo) ltac:(demo)) as Hw.
    assert (ch_by_local (chans (core opened_2.2)) 0 = Some 0%nat) as Hn by (vm_compute; reflexivity).
    assert (data_acceptable (ch_at (chans (core opened_2.2)) 0) (len (lit "hi")) = true) as Ha
      by (vm_compute; reflexivity).
    rewrite Hn, Ha in Hw. destruct Hw as (i & c' & _ & Hh & _ & Hq & _).
    exists c'. refine (conj Hh (Hq _)). vm_compute. reflexivity. }
  pose proof (channel_data_window_enforced (core auth_2.2) 7 (lit "hi")
    (demo_wf _ _ _ (proj2 reach_auth_2)) ltac:(demo) ltac:(demo)) as Hw.
  assert (ch_by_local (chans (core auth_2.2)) 7 = None) as Hn by (vm_compute; reflexivity).
  rewrite Hn in Hw. exact Hw.
Defined.

Lemma open_not_allowed_refused_witness :
  exists c', handle_mux_pdu (core auth_2.2) (open_bytes 0 1000 0 (lit "tun")) = (0, c') /\
    chans c' = chans (core auth_2.2).
Proof.
  destruct (open_not_allowed_refused (core auth_2.2) 0 1000 0 (lit "tun"))
    as (c' & Hh & Hc & _); try demo; try (split; demo).
  - exact (demo_wf _ _ _ (proj2 reach_auth_2)).
  - eapply (bool_decide_unpack _). vm_compute. exact I.
  - exists c'. exact (conj Hh Hc).
Defined.

Lemma pdu_delivered_witness :
  exists ct st, handle_frame (core auth_2.2) ct =
    dispatch_pdu ((core auth_2.2) <| ss_pull := st |>) 1
      (open_bytes 0 1000 65536 (lit "shell")).
Proof.
  destruct (channel_open_ok (core auth_2.1) (lit "shell") (Some 0)
    (sodchan_channel_open (core auth_2.1) (Some (lit "shell"))).2) as (i & t & _ & _ & _ & _ & _ & Hs);
    [exact (demo_wf _ _ _ (proj1 reach_auth_2)) | demo |].
  destruct (pdu_delivered _ _ (core auth_2.2) _ [] (demo_wf _ _ _ (proj2 reach_auth_2))
    ltac:(demo) Hs) as (ct & st & x & _ & Hx & _ & _ & Hh); try demo.
  exists ct, st. injection Hx as <-. exact Hh.
Defined.

(** The demo client's calls up to its first channel. *)
Definition output_of (x : ctx) : bytes :=
  match (api_ctx x (Call_get_output true 131072)).1 with Output bs => bs | _ => [] end.

Definition client_calls : list call :=
  [Call_get_output true 131072; Call_feed_input (Some (output_of hello_1.2));
   Call_get_output true 131072; Call_feed_input (Some (output_of header_1.2));
   Call_get_output true 131072; Call_feed_input (Some (output_of server_ready));
   Call_channel_open (Some (lit "shell"))].

(** It closes channel 0 and opens a second one, which is not 0. *)
Lemma channel_ids_unique_witness :
  let x := run client_0 (client_calls ++ [Call_channel_close 0] ++
             [Call_channel_open (Some (lit "shell"))]) in
  ch_lookup (chans (core x)) 0 = None /\ isSome (ch_lookup (chans (core x)) 1) = true.
Proof.
  split; [| vm_compute; reflexivity].
  apply (channel_ids_unique false true true 1 client_cfg (0%nat : @entropy Toy) client_0
    client_calls [Call_channel_close 0] [Call_channel_open (Some (lit "shell"))] 0).
  - exact client_cfg_wf.
  - exact client_0_created.
  - unfold client_calls. cbn [app].
    repeat (apply Forall_cons; [first [exact I | vm_compute; discriminate] |]). constructor.
  - vm_compute. reflexivity.
  - by repeat constructor.
  - vm_compute. discriminate.
  - vm_compute. reflexivity.
Defined.
