(* ===== verification/PropFindings.v ===== *)
(** Behaviour at the edges that a host must know of: a full event ring, an
    over-long allowlist, a channel closed while it opens, a disconnect before
    authentication, a reset without key material, the record limit on a 32-bit
    host. *)

From Stdlib Require Import ZArith Lia ZifyBool String.
From S2P Require Import Prelude Defs WireBase WireHello WireAuth WireMux Crypto EventQueue.
From S2P Require Import OutBuf Channels Session Auth Handshake Mux Engine Api Invariant Calm.
From S2P Require Import EngineLemmas Safety Transport Toy Demo.
Local Open Scope Z_scope.
Local Open Scope sodchan_scope.

Section Properties.
  Context `{Sodium} `{SizeT} {SP : SodiumSpec _}.

(** C38: a full event ring loses data.  A DATA PDU the window allows is consumed
    with code 0 and its window is charged although its event does not fit: the
    host never sees the bytes and the peer is not told. *)
Theorem full_ring_loses_data c r d i :
  session_wf c -> 0 <= r < 4294967296 -> ch_by_local (chans c) r = Some i ->
  data_acceptable (ch_at (chans c) i) (len d) = true ->
  event_count (evq c) = event_cap (evq c) ->
  exists c', handle_mux_pdu c (data_bytes r d) = (0, c') /\
    evq c' = evq c /\ out c' = out c /\ state c' = state c /\
    recv_window (ch_at (chans c') i) = recv_window (ch_at (chans c) i) - len d.
Proof.
  intros Hc Hr Hi Ha Hf. rewrite mux_data_dispatch, (mux_data_ok c r d i) by done.
  set (v := (ch_at (chans c) i) <| recv_window := _ |>).
  eexists. split; [done |]. split_and!; [| done | done |].
  - unfold queue. simpl. by rewrite queue_full by (done || apply Hc).
  - apply ch_by_local_some in Hi as (Hi & _).
    transitivity (recv_window (ch_at (chans (put_ch c i v)) i)); [done |].
    by rewrite (put_ch_at c i _ v Hi).
Qed.

(** C39: an allowlist that does not fit the configuration store is dropped, and
    the default list takes its place: every name is judged as if the host had
    configured none. *)
Theorem long_allowlist_is_default cfg l name :
  cfg_allowed_channels cfg = Some l -> SODCHAN_CFG_STORE_SIZE <= strlen l ->
  strlen l + 1 < 2 ^ SIZE_BITS ->
  channel_name_allowed (allowed_channels (apply_config_defaults cfg).1) name =
    channel_name_allowed (Some SODCHAN_DEFAULT_ALLOWED_CHANNELS) name.
Proof.
  intros Hl Hn Hs. assert (He : cfg_dup 0 (cfg_allowed_channels cfg) = (None, 0)).
  { rewrite Hl. unfold cfg_dup, size_t. revert Hn. consts. intros Hn. rewrite Z.mod_small by lia.
    by replace (_ <? _) with true by lia. }
  unfold apply_config_defaults. rewrite He.
  repeat (lazymatch goal with |- context [match ?m with (_, _) => _ end] => destruct m end). done.
Qed.

(** C40: closing a channel that is still opening.  The slot is freed without a
    word to the peer; when the peer's confirmation then arrives, it names no
    channel and the whole session fails with a protocol error. *)
Theorem close_while_opening_kills_session c id i s w p :
  table_ids (chans c) -> state c = SODCHAN_STATE_READY -> 0 <= id < 4294967296 ->
  0 <= s < 4294967296 -> 0 <= w < 4294967296 -> 0 <= p < 4294967296 ->
  ch_by_local (chans c) id = Some i -> ch_state (ch_at (chans c) i) = SODCHAN_CH_OPENING ->
  let c1 := (sodchan_channel_close c id).2 in
  (sodchan_channel_close c id).1 = SODCHAN_OK /\ out c1 = out c /\
  handle_mux_pdu c1 (confirm_bytes s id w p) =
    fail c1 SODCHAN_ERR_PROTOCOL (lit "CONFIRM unknown").
Proof.
  intros Ht Hst Hid Hs Hw Hp Hi Ho. cbv zeta.
  assert (Hc : sodchan_channel_close c id =
               (SODCHAN_OK, c <| chans := ch_free (chans c) i |>)).
  { unfold sodchan_channel_close. rewrite Hst, Hi, Ho. cbv zeta.
    by rewrite andb_false_r. }
  rewrite Hc. cbn [fst snd]. split; [done |]. split; [done |].
  rewrite mux_confirm_dispatch. unfold mux_channel_open_confirm.
  rewrite (proj2 (confirm_decode_ok (confirm_bytes s id w p) s id w p)) by done.
  apply ch_by_local_some in Hi as (Hi & Hu & Hl).
  pose proof (ch_free_lookup _ _ _ id Ht Hi Hu) as Hf. rewrite Hl, Z.eqb_refl in Hf.
  unfold ch_lookup in Hf. cbn [chans]. change (chans (c <| chans := ?t |>)) with t.
  by destruct (ch_by_local (ch_free (chans c) i) id).
Qed.

(** A disconnect during authentication.  The DISCONNECT the host's call
    sends is not part of the peer's vocabulary there: the peer, in the same
    state, takes it for an unexpected PDU and fails; and the caller, now
    draining, serves channel PDUs of a peer that was never authenticated. *)
Theorem disconnect_before_auth c cB reason :
  session_wf c -> state c = SODCHAN_STATE_AUTH -> ss_push_ready c = true ->
  ss_synced (ss_push c) (ss_pull cB) -> ss_pull_ready cB = true ->
  state cB = SODCHAN_STATE_AUTH -> 6 <= max_record_size (cfg cB) ->
  let c1 := (sodchan_disconnect c reason None).2 in
  state c1 = SODCHAN_STATE_DRAINING /\
  (forall t p, dispatch_pdu c1 t p = handle_mux_pdu c1 p) /\
  (unread (out c1) = unread (out c) \/
   exists ct st, unread (out c1) = unread (out c) ++ frame_bytes ct /\
     handle_encrypted_pdu cB ct =
       fail (cB <| ss_pull := st |>) SODCHAN_ERR_PROTOCOL (lit "unexpected pdu in AUTH")).
Proof.
  intros Hc Hst Hr Hsy Hrb Hstb Hm. cbv zeta. unfold sodchan_disconnect. rewrite Hst, Hr.
  cbn [bool_decide andb orb]. cbv zeta.
  assert (He : sodchan_wire_disconnect_encode (u32 reason) None 0 (Some (zeros 128)) =
    Ok (disconnect_bytes (u32 reason) [] ++ drop 6 (zeros 128), 6))
    by (apply disconnect_encode_null; vm_compute; done).
  cbn [snd]. split; [done |]. split; [intros; by apply dispatch_mux; right |].
  destruct (send_encoded _ _ _) as [rc c2] eqn:E. cbn [snd].
  eapply send_head in E; [| apply Hc | exact He | done | done].
  destruct E as [[_ Hu] | [_ Hs]].
  - left. destruct Hu as [-> | ->]; [done |]. simpl. unfold unread. simpl. by rewrite drop_0.
  - right. destruct (sent_delivers c c2 cB (disconnect_bytes (u32 reason) []) Hs Hsy Hrb)
      as (ct & st & x & Ho & _ & Hx & _ & Hd); [vm_compute; intuition congruence | done |].
    exists ct, st. split; [done |]. rewrite Hd. injection Hx as <-. unfold dispatch_pdu.
    change (state (cB <| ss_pull := st |>)) with (state cB). by rewrite Hstb.
Qed.

(** A reset that cannot make a key pair answers nothing and stays where it
    was: the state and the handshake state are the old ones, although every
    key, channel and authentication flag is gone. *)
Theorem failed_reset_keeps_state x :
  (crypto_kx_keypair (rng (core x))).1 = None ->
  let c := core (sodchan_reset x) in
  state c = state (core x) /\ hs c = hs (core x) /\
  ss_push_ready c = false /\ ss_pull_ready c = false /\ auth_complete c = false /\
  chans c = chtable_empty.
Proof.
  intros Hk. unfold sodchan_reset, handshake_start. cbv zeta.
  match goal with |- context [crypto_kx_keypair ?e] =>
    change e with (rng (core x)); destruct (crypto_kx_keypair (rng (core x))) as [[[pk sk]|] e'] end;
    [done |]. cbn [core snd]. done.
Qed.
End Properties.

Section Narrow.
  Context `{Sodium}.

(** The record limit on a 32-bit host.  For the four largest record sizes
    that leave room for the overhead in a [size_t] of 32 bits, the sum in the
    frame limit wraps, and the limit exceeds the input buffer it is there to
    respect. *)
Theorem record_limit_wraps c :
  2 ^ 32 - 21 <= max_record_size (cfg c) < 2 ^ 32 - 17 ->
  SODCHAN_IN_BUF_SIZE - 4 < @ss_frame_max_body _ size_t_32 c /\
  @ss_frame_max_body _ size_t_32 c = max_record_size (cfg c) + SODCHAN_SS_ABYTES.
Proof.
  intros Hm. assert (Hf : @ss_frame_max_body _ size_t_32 c = max_record_size (cfg c) + 17).
  { unfold ss_frame_max_body, size_t. change (2 ^ @SIZE_BITS size_t_32) with (2 ^ 32). consts.
    rewrite (Z.mod_small (_ + 17)) by lia. replace (4294967295 <? _) with false by lia.
    replace ((max_record_size (cfg c) + 17 + 4) mod 2 ^ 32)
      with (max_record_size (cfg c) + 21 - 2 ^ 32)
      by (apply (Z.mod_unique _ _ 1); lia).
    replace (_ <? _) with false by lia. apply u32_small. lia. }
  rewrite Hf. consts. lia.
Qed.
End Narrow.

(** ** Witnesses *)

#[local] Existing Instance Toy.
#[local] Existing Instance toy_spec.
#[local] Existing Instance size_t_64.

(** A ring of one event, and the demo's server with it. *)
Definition full_ring : evqueue := (sodchan_i_queue_event (evqueue_new 1) EVENT_AUTHENTICATED).2.
Definition full_server : session := (core opened_2.2) <| evq := full_ring |>.

Lemma full_ring_loses_data_witness :
  exists c', handle_mux_pdu full_server (data_bytes 0 (lit "hi")) = (0, c') /\
    evq c' = evq full_server /\ out c' = out full_server /\ state c' = state full_server /\
    recv_window (ch_at (chans c') 0) = recv_window (ch_at (chans full_server) 0) - 2.
Proof.
  apply (full_ring_loses_data full_server 0 (lit "hi") 0).
  - apply wf_set_evq; [exact (proj1 (reachable_wf 0 server_cfg _ (proj2 reach_opened_2))) |].
    apply queue_event_wf, evqueue_new_wf. reflexivity.
  - vm_compute. split; [discriminate | reflexivity].
  - vm_compute. reflexivity.
  - vm_compute. reflexivity.
  - vm_compute. reflexivity.
Defined.

(** The demo's server configuration with a list of 2,048 characters. *)
Definition long_cfg : sodchan_config_t :=
  {| cfg_event_queue_size := 0; cfg_max_record_size := 0; cfg_max_channel_data := 0;
     cfg_max_channels := 0; cfg_initial_window := 0; cfg_max_packet := 0;
     cfg_client_id_pk := None; cfg_client_id_sk := None;
     cfg_server_id_pk := Some server_keys.1; cfg_server_id_sk := Some server_keys.2;
     cfg_accept_any_server_pk := false; cfg_allowed_channels := Some (replicate 2048 Byte.x61);
     cfg_client_username := None; cfg_client_device_id := None;
     cfg_max_auth_attempts_reserved := 0; cfg_lab_mode := false |}.

Lemma long_allowlist_is_default_witness :
  channel_name_allowed (allowed_channels (apply_config_defaults long_cfg).1) (lit "shell") = true.
Proof.
  rewrite (long_allowlist_is_default long_cfg (replicate 2048 Byte.x61) (lit "shell"));
    [vm_compute; reflexivity | reflexivity | vm_compute; discriminate | vm_compute; reflexivity].
Defined.

Lemma close_while_opening_kills_session_witness :
  handle_mux_pdu (sodchan_channel_close (core client_open) 0).2 (confirm_bytes 0 0 1000 0) =
    fail (sodchan_channel_close (core client_open) 0).2 SODCHAN_ERR_PROTOCOL
      (lit "CONFIRM unknown").
Proof.
  apply (close_while_opening_kills_session (core client_open) 0 0 0 1000 0);
    try lia; try (vm_compute; reflexivity).
  apply (table_ids_one _ (ch_at (chans (core client_open)) 0) 15); vm_compute; reflexivity.
Defined.

Lemma disconnect_before_auth_witness :
  state (sodchan_disconnect (core auth_1.1) 0 None).2 = SODCHAN_STATE_DRAINING.
Proof.
  refine (proj1 (disconnect_before_auth (core auth_1.1) (core auth_1.2) 0
    (proj1 (reachable_wf 1 client_cfg _ (proj1 reach_auth_1))) _ _ _ _ _ _)).
  - vm_compute. reflexivity.
  - vm_compute. reflexivity.
  - vm_compute. reflexivity.
  - vm_compute. reflexivity.
  - vm_compute. reflexivity.
  - vm_compute. discriminate.
Defined.

(** A server on a host whose generator fails from its second key pair on. *)
Definition tired : Sodium := Toy_upto (Some 11%nat).
Definition tired_server : @ctx tired :=
  default (@mk_ctx tired (@session_zero tired SODCHAN_ROLE_SERVER
      (apply_config_defaults config_zero).1 (zeros 32) false 1 11%nat) [])
    (@sodchan_create tired size_t_64 false true true 0 (Some server_cfg) 10%nat).

Lemma failed_reset_keeps_state_witness :
  @state tired (core (@sodchan_reset tired size_t_64 tired_server)) = SODCHAN_STATE_HELLO.
Proof.
  rewrite (proj1 (@failed_reset_keeps_state tired size_t_64 tired_server
    ltac:(vm_compute; reflexivity))).
  vm_compute. reflexivity.
Defined.

(** A context with the largest record size but three. *)
Definition wide_records : session :=
  session_zero SODCHAN_ROLE_SERVER
    (apply_config_defaults
       {| cfg_event_queue_size := 0; cfg_max_record_size := 4294967275; cfg_max_channel_data := 0;
          cfg_max_channels := 0; cfg_initial_window := 0; cfg_max_packet := 0;
          cfg_client_id_pk := None; cfg_client_id_sk := None; cfg_server_id_pk := None;
          cfg_server_id_sk := None; cfg_accept_any_server_pk := false;
          cfg_allowed_channels := None; cfg_client_username := None;
          cfg_client_device_id := None; cfg_max_auth_attempts_reserved := 0;
          cfg_lab_mode := false |}).1
    (zeros 32) false 1 (0%nat : @entropy Toy).

Lemma record_limit_wraps_witness :
  SODCHAN_IN_BUF_SIZE - 4 < @ss_frame_max_body Toy size_t_32 wide_records.
Proof.
  apply (record_limit_wraps wide_records). vm_compute. split; [discriminate | reflexivity].
Defined.
